(** * The orchestration engine of the P-vs-NP autonomous solver

    A shallow embedding of the mission state and of the operations of
    [src/index.tsx] that act on it: the knowledge graph with its derived
    invalidation flags, the semantic index, the agent registry and its
    lifecycle check, the stagnation and bias detector, the architect's tool
    dispatch loop, the scheduler's stop and reset operations, the load of a
    saved mission, the specialists' steps and the search cycle.

    Conventions of the embedding:
    - the module-level [let]/[const] variables of the source are the fields of
      one record, [Mission]; every function of the source that writes them is
      a function [Mission -> Mission] (or returns the new mission next to its
      result);
    - a JS [Map] keyed by agent id is a [gmap string _]; the knowledge graph,
      whose insertion order is read back by [Array.from(map.values())], is an
      insertion-ordered association list;
    - JS numbers that count are [nat] or [Z]; promise scores and their totals
      are rationals [Q], so that the order of the scores is exact and the
      rounding of the totals is left out; the components of the embedding
      vectors and the similarities computed from them are IEEE doubles,
      [float], every operation rounding as in the source;
    - strings are [string]; [toUpperCase] and [trim] are modelled on ASCII
      text (see [JS]);
    - the DOM, markdown rendering and the vis.js drawing are left out; the
      remote services (generation, embedding, Python runtime, [Math.random])
      are the fields of a record [Env] handed to the function that calls
      them;
    - the fixed wording of prompts and log entries is shortened; every value
      interpolated into them is kept. *)

From Stdlib Require Import Floats QArith Qminmax Qround Ascii String Sorted.
From stdpp Require Import gmap strings list fin_maps pretty.

Close Scope Q_scope.
Local Open Scope string_scope.
Local Open Scope list_scope.
Local Open Scope nat_scope.

(** ** JavaScript string and array helpers *)

Module JS.

Definition nl : string := String (ascii_of_nat 10) EmptyString.

(** [s.charAt(0)] *)
Definition charAt0 (s : string) : string :=
  match s with
  | EmptyString => EmptyString
  | String c _ => String c EmptyString
  end.

(** [l.join(sep)] *)
Fixpoint join (sep : string) (l : list string) : string :=
  match l with
  | [] => EmptyString
  | x :: l' =>
      match l' with
      | [] => x
      | _ :: _ => x +:+ sep +:+ join sep l'
      end
  end.

(** [s.split(c)] for a one-character separator: never empty. *)
Fixpoint split (sep : ascii) (s : string) : list string :=
  match s with
  | EmptyString => [EmptyString]
  | String c s' =>
      if Ascii.eqb c sep then EmptyString :: split sep s'
      else match split sep s' with
           | [] => [String c EmptyString]
           | w :: ws => String c w :: ws
           end
  end.

Definition upper (c : ascii) : ascii :=
  let n := nat_of_ascii c in
  if ((97 <=? n) && (n <=? 122))%nat then ascii_of_nat (n - 32) else c.

(** [s.toUpperCase()] of ASCII text: the letters a to z are capitalised.
    (In other text the source capitalises further letters, two of them to
    ASCII ones: U+017F to S and U+0131 to I.) *)
Fixpoint toUpperCase (s : string) : string :=
  match s with
  | EmptyString => EmptyString
  | String c s' => String (upper c) (toUpperCase s')
  end.

(** The white space of ASCII text.  (In other text [trim] also strips
    U+00A0, U+FEFF and the Unicode space separators.) *)
Definition is_space (c : ascii) : bool :=
  let n := nat_of_ascii c in ((n =? 32) || ((9 <=? n) && (n <=? 13)))%nat.

Fixpoint trimStart (s : string) : string :=
  match s with
  | EmptyString => EmptyString
  | String c s' => if is_space c then trimStart s' else s
  end.

Fixpoint trimEnd (s : string) : string :=
  match s with
  | EmptyString => EmptyString
  | String c s' =>
      match trimEnd s' with
      | EmptyString => if is_space c then EmptyString else String c EmptyString
      | String _ _ as t => String c t
      end
  end.

(** [s.trim()] of ASCII text *)
Definition trim (s : string) : string := trimEnd (trimStart s).

(** [s.startsWith(p)] *)
Definition startsWith (p s : string) : bool := String.prefix p s.

(** [s.includes(p)] *)
Definition includes (p s : string) : bool :=
  match String.index 0 p s with Some _ => true | None => false end.

(** [s.substring(0, n)] *)
Definition substring0 (n : nat) (s : string) : string := String.substring 0 n s.

(** [l.slice(-n)]: the last [n] elements *)
Definition slice_last {A} (n : nat) (l : list A) : list A :=
  drop (length l - n) l.

(** [s.replace(p, r)]: the first occurrence of [p] only *)
Definition replace_first (p r s : string) : string :=
  match String.index 0 p s with
  | Some i =>
      String.substring 0 i s +:+ r +:+
      String.substring (i + String.length p)
        (String.length s - (i + String.length p)) s
  | None => s
  end.

(** [l.includes(x)] on an array of strings *)
Definition mem (x : string) (l : list string) : bool := bool_decide (x ∈ l).

End JS.

(** ** Data model *)

Record LogEntry := { log_id : string; rawMarkdown : string }.

(** [NotebookState] without its DOM element. *)
Record NotebookState := { logs : list LogEntry; logCounter : nat }.

Record SpecialistMetadata := {
  required_tools : list string;
  lifespan_cycles : option Z;   (* null for indefinite *)
  creationCycle : Z
}.

Inductive NodeType :=
  | THEOREM | HYPOTHESIS | REFUTATION | DIRECTIVE | LEMMA | CONCEPT | ANALOGY
  | RESEARCH_VECTOR | VERIFICATION_SUCCESS | VERIFICATION_FAILURE
  | CODE_EXPERIMENT | ABSTRACTION | SUB_GOAL.

Definition NodeType_name (t : NodeType) : string :=
  match t with
  | THEOREM => "THEOREM" | HYPOTHESIS => "HYPOTHESIS"
  | REFUTATION => "REFUTATION" | DIRECTIVE => "DIRECTIVE" | LEMMA => "LEMMA"
  | CONCEPT => "CONCEPT" | ANALOGY => "ANALOGY"
  | RESEARCH_VECTOR => "RESEARCH_VECTOR"
  | VERIFICATION_SUCCESS => "VERIFICATION_SUCCESS"
  | VERIFICATION_FAILURE => "VERIFICATION_FAILURE"
  | CODE_EXPERIMENT => "CODE_EXPERIMENT" | ABSTRACTION => "ABSTRACTION"
  | SUB_GOAL => "SUB_GOAL"
  end.

#[global] Instance NodeType_eq_dec : EqDecision NodeType.
Proof. solve_decision. Defined.

Record KnowledgeNode := {
  kn_id : string;
  kn_type : NodeType;
  kn_content : string;
  kn_relations : list string;        (* e.g. ["REFUTES:H2"; "PROVES:T1"] *)
  kn_invalidated : option bool;
  kn_verified : option bool;
  kn_createdBy : option string;
  kn_promiseScore : option Q
}.

Record Metric := { nodesCreated : nat; totalPromise : Q }.

Record VectorEntry := { ve_id : string; embedding : list float }.

(** The persisted snapshot, [MissionState] in the source. *)
Record MissionState := {
  ms_knowledgeGraph : list KnowledgeNode;
  ms_knowledgeNodeCounter : nat;
  ms_cycleCounter : Z;
  ms_stagnationCounter : nat;
  ms_currentMissionObjective : string;
  ms_activeResearchVector : string;
  ms_activeSpecialists : list string;
  ms_notebookLogs : gmap string (list LogEntry);
  ms_specialistPrompts : gmap string string;
  ms_specialistMetadata : gmap string SpecialistMetadata;
  ms_strategicFocusHistory : list string;
  ms_agentPerformanceMetrics : gmap string Metric
}.

Definition CHAOS_INTERVENTION_THRESHOLD : nat := 5.
Definition STRATEGIC_BIAS_WINDOW : nat := 8.
Definition STRATEGIC_BIAS_THRESHOLD : Q := 6 # 10.
Definition DB_KEY : string := "current-mission-state".

(** The process-wide state: one field per module-level variable of the
    source.  [db] is the object store behind the IndexedDB handle ([None]
    while the handle is null); [statusSuccess] is the [success] class of the
    status container, the only trace the Completed state leaves. *)
Record Mission := {
  notebooks : gmap string NotebookState;
  specialistMetadata : gmap string SpecialistMetadata;
  specialistPrompts : gmap string string;
  knowledgeGraphMap : list (string * KnowledgeNode);
  knowledgeNodeCounter : nat;
  currentMissionObjective : string;
  activeResearchVector : string;
  stagnationCounter : nat;
  strategicFocusHistory : list string;
  agentPerformanceMetrics : gmap string Metric;
  vectorKnowledgeBase : list VectorEntry;
  isSearching : bool;
  searchIntervalId : option positive;
  finalProofContent : string;
  cycleCounter : Z;
  activeSpecialists : list string;
  db : option (gmap string MissionState);
  statusSuccess : bool
}.

(** Assignment to one variable: every other field is carried over. *)
Definition set_notebooks (v : gmap string NotebookState) (m : Mission) : Mission :=
  {| notebooks := v; specialistMetadata := specialistMetadata m;
  specialistPrompts := specialistPrompts m; knowledgeGraphMap :=
  knowledgeGraphMap m; knowledgeNodeCounter := knowledgeNodeCounter m;
  currentMissionObjective := currentMissionObjective m; activeResearchVector
  := activeResearchVector m; stagnationCounter := stagnationCounter m;
  strategicFocusHistory := strategicFocusHistory m; agentPerformanceMetrics :=
  agentPerformanceMetrics m; vectorKnowledgeBase := vectorKnowledgeBase m;
  isSearching := isSearching m; searchIntervalId := searchIntervalId m;
  finalProofContent := finalProofContent m; cycleCounter := cycleCounter m;
  activeSpecialists := activeSpecialists m; db := db m; statusSuccess :=
  statusSuccess m |}.

Definition set_specialistMetadata (v : gmap string SpecialistMetadata) (m : Mission) : Mission :=
  {| notebooks := notebooks m; specialistMetadata := v; specialistPrompts :=
  specialistPrompts m; knowledgeGraphMap := knowledgeGraphMap m;
  knowledgeNodeCounter := knowledgeNodeCounter m; currentMissionObjective :=
  currentMissionObjective m; activeResearchVector := activeResearchVector m;
  stagnationCounter := stagnationCounter m; strategicFocusHistory :=
  strategicFocusHistory m; agentPerformanceMetrics := agentPerformanceMetrics
  m; vectorKnowledgeBase := vectorKnowledgeBase m; isSearching := isSearching
  m; searchIntervalId := searchIntervalId m; finalProofContent :=
  finalProofContent m; cycleCounter := cycleCounter m; activeSpecialists :=
  activeSpecialists m; db := db m; statusSuccess := statusSuccess m |}.

Definition set_specialistPrompts (v : gmap string string) (m : Mission) : Mission :=
  {| notebooks := notebooks m; specialistMetadata := specialistMetadata m;
  specialistPrompts := v; knowledgeGraphMap := knowledgeGraphMap m;
  knowledgeNodeCounter := knowledgeNodeCounter m; currentMissionObjective :=
  currentMissionObjective m; activeResearchVector := activeResearchVector m;
  stagnationCounter := stagnationCounter m; strategicFocusHistory :=
  strategicFocusHistory m; agentPerformanceMetrics := agentPerformanceMetrics
  m; vectorKnowledgeBase := vectorKnowledgeBase m; isSearching := isSearching
  m; searchIntervalId := searchIntervalId m; finalProofContent :=
  finalProofContent m; cycleCounter := cycleCounter m; activeSpecialists :=
  activeSpecialists m; db := db m; statusSuccess := statusSuccess m |}.

Definition set_knowledgeGraphMap (v : list (string * KnowledgeNode)) (m : Mission) : Mission :=
  {| notebooks := notebooks m; specialistMetadata := specialistMetadata m;
  specialistPrompts := specialistPrompts m; knowledgeGraphMap := v;
  knowledgeNodeCounter := knowledgeNodeCounter m; currentMissionObjective :=
  currentMissionObjective m; activeResearchVector := activeResearchVector m;
  stagnationCounter := stagnationCounter m; strategicFocusHistory :=
  strategicFocusHistory m; agentPerformanceMetrics := agentPerformanceMetrics
  m; vectorKnowledgeBase := vectorKnowledgeBase m; isSearching := isSearching
  m; searchIntervalId := searchIntervalId m; finalProofContent :=
  finalProofContent m; cycleCounter := cycleCounter m; activeSpecialists :=
  activeSpecialists m; db := db m; statusSuccess := statusSuccess m |}.

Definition set_knowledgeNodeCounter (v : nat) (m : Mission) : Mission :=
  {| notebooks := notebooks m; specialistMetadata := specialistMetadata m;
  specialistPrompts := specialistPrompts m; knowledgeGraphMap :=
  knowledgeGraphMap m; knowledgeNodeCounter := v; currentMissionObjective :=
  currentMissionObjective m; activeResearchVector := activeResearchVector m;
  stagnationCounter := stagnationCounter m; strategicFocusHistory :=
  strategicFocusHistory m; agentPerformanceMetrics := agentPerformanceMetrics
  m; vectorKnowledgeBase := vectorKnowledgeBase m; isSearching := isSearching
  m; searchIntervalId := searchIntervalId m; finalProofContent :=
  finalProofContent m; cycleCounter := cycleCounter m; activeSpecialists :=
  activeSpecialists m; db := db m; statusSuccess := statusSuccess m |}.

Definition set_currentMissionObjective (v : string) (m : Mission) : Mission :=
  {| notebooks := notebooks m; specialistMetadata := specialistMetadata m;
  specialistPrompts := specialistPrompts m; knowledgeGraphMap :=
  knowledgeGraphMap m; knowledgeNodeCounter := knowledgeNodeCounter m;
  currentMissionObjective := v; activeResearchVector := activeResearchVector
  m; stagnationCounter := stagnationCounter m; strategicFocusHistory :=
  strategicFocusHistory m; agentPerformanceMetrics := agentPerformanceMetrics
  m; vectorKnowledgeBase := vectorKnowledgeBase m; isSearching := isSearching
  m; searchIntervalId := searchIntervalId m; finalProofContent :=
  finalProofContent m; cycleCounter := cycleCounter m; activeSpecialists :=
  activeSpecialists m; db := db m; statusSuccess := statusSuccess m |}.

Definition set_activeResearchVector (v : string) (m : Mission) : Mission :=
  {| notebooks := notebooks m; specialistMetadata := specialistMetadata m;
  specialistPrompts := specialistPrompts m; knowledgeGraphMap :=
  knowledgeGraphMap m; knowledgeNodeCounter := knowledgeNodeCounter m;
  currentMissionObjective := currentMissionObjective m; activeResearchVector
  := v; stagnationCounter := stagnationCounter m; strategicFocusHistory :=
  strategicFocusHistory m; agentPerformanceMetrics := agentPerformanceMetrics
  m; vectorKnowledgeBase := vectorKnowledgeBase m; isSearching := isSearching
  m; searchIntervalId := searchIntervalId m; finalProofContent :=
  finalProofContent m; cycleCounter := cycleCounter m; activeSpecialists :=
  activeSpecialists m; db := db m; statusSuccess := statusSuccess m |}.

Definition set_stagnationCounter (v : nat) (m : Mission) : Mission :=
  {| notebooks := notebooks m; specialistMetadata := specialistMetadata m;
  specialistPrompts := specialistPrompts m; knowledgeGraphMap :=
  knowledgeGraphMap m; knowledgeNodeCounter := knowledgeNodeCounter m;
  currentMissionObjective := currentMissionObjective m; activeResearchVector
  := activeResearchVector m; stagnationCounter := v; strategicFocusHistory :=
  strategicFocusHistory m; agentPerformanceMetrics := agentPerformanceMetrics
  m; vectorKnowledgeBase := vectorKnowledgeBase m; isSearching := isSearching
  m; searchIntervalId := searchIntervalId m; finalProofContent :=
  finalProofContent m; cycleCounter := cycleCounter m; activeSpecialists :=
  activeSpecialists m; db := db m; statusSuccess := statusSuccess m |}.

Definition set_strategicFocusHistory (v : list string) (m : Mission) : Mission :=
  {| notebooks := notebooks m; specialistMetadata := specialistMetadata m;
  specialistPrompts := specialistPrompts m; knowledgeGraphMap :=
  knowledgeGraphMap m; knowledgeNodeCounter := knowledgeNodeCounter m;
  currentMissionObjective := currentMissionObjective m; activeResearchVector
  := activeResearchVector m; stagnationCounter := stagnationCounter m;
  strategicFocusHistory := v; agentPerformanceMetrics :=
  agentPerformanceMetrics m; vectorKnowledgeBase := vectorKnowledgeBase m;
  isSearching := isSearching m; searchIntervalId := searchIntervalId m;
  finalProofContent := finalProofContent m; cycleCounter := cycleCounter m;
  activeSpecialists := activeSpecialists m; db := db m; statusSuccess :=
  statusSuccess m |}.

Definition set_agentPerformanceMetrics (v : gmap string Metric) (m : Mission) : Mission :=
  {| notebooks := notebooks m; specialistMetadata := specialistMetadata m;
  specialistPrompts := specialistPrompts m; knowledgeGraphMap :=
  knowledgeGraphMap m; knowledgeNodeCounter := knowledgeNodeCounter m;
  currentMissionObjective := currentMissionObjective m; activeResearchVector
  := activeResearchVector m; stagnationCounter := stagnationCounter m;
  strategicFocusHistory := strategicFocusHistory m; agentPerformanceMetrics :=
  v; vectorKnowledgeBase := vectorKnowledgeBase m; isSearching := isSearching
  m; searchIntervalId := searchIntervalId m; finalProofContent :=
  finalProofContent m; cycleCounter := cycleCounter m; activeSpecialists :=
  activeSpecialists m; db := db m; statusSuccess := statusSuccess m |}.

Definition set_vectorKnowledgeBase (v : list VectorEntry) (m : Mission) : Mission :=
  {| notebooks := notebooks m; specialistMetadata := specialistMetadata m;
  specialistPrompts := specialistPrompts m; knowledgeGraphMap :=
  knowledgeGraphMap m; knowledgeNodeCounter := knowledgeNodeCounter m;
  currentMissionObjective := currentMissionObjective m; activeResearchVector
  := activeResearchVector m; stagnationCounter := stagnationCounter m;
  strategicFocusHistory := strategicFocusHistory m; agentPerformanceMetrics :=
  agentPerformanceMetrics m; vectorKnowledgeBase := v; isSearching :=
  isSearching m; searchIntervalId := searchIntervalId m; finalProofContent :=
  finalProofContent m; cycleCounter := cycleCounter m; activeSpecialists :=
  activeSpecialists m; db := db m; statusSuccess := statusSuccess m |}.

Definition set_isSearching (v : bool) (m : Mission) : Mission :=
  {| notebooks := notebooks m; specialistMetadata := specialistMetadata m;
  specialistPrompts := specialistPrompts m; knowledgeGraphMap :=
  knowledgeGraphMap m; knowledgeNodeCounter := knowledgeNodeCounter m;
  currentMissionObjective := currentMissionObjective m; activeResearchVector
  := activeResearchVector m; stagnationCounter := stagnationCounter m;
  strategicFocusHistory := strategicFocusHistory m; agentPerformanceMetrics :=
  agentPerformanceMetrics m; vectorKnowledgeBase := vectorKnowledgeBase m;
  isSearching := v; searchIntervalId := searchIntervalId m; finalProofContent
  := finalProofContent m; cycleCounter := cycleCounter m; activeSpecialists :=
  activeSpecialists m; db := db m; statusSuccess := statusSuccess m |}.

Definition set_searchIntervalId (v : option positive) (m : Mission) : Mission :=
  {| notebooks := notebooks m; specialistMetadata := specialistMetadata m;
  specialistPrompts := specialistPrompts m; knowledgeGraphMap :=
  knowledgeGraphMap m; knowledgeNodeCounter := knowledgeNodeCounter m;
  currentMissionObjective := currentMissionObjective m; activeResearchVector
  := activeResearchVector m; stagnationCounter := stagnationCounter m;
  strategicFocusHistory := strategicFocusHistory m; agentPerformanceMetrics :=
  agentPerformanceMetrics m; vectorKnowledgeBase := vectorKnowledgeBase m;
  isSearching := isSearching m; searchIntervalId := v; finalProofContent :=
  finalProofContent m; cycleCounter := cycleCounter m; activeSpecialists :=
  activeSpecialists m; db := db m; statusSuccess := statusSuccess m |}.

Definition set_finalProofContent (v : string) (m : Mission) : Mission :=
  {| notebooks := notebooks m; specialistMetadata := specialistMetadata m;
  specialistPrompts := specialistPrompts m; knowledgeGraphMap :=
  knowledgeGraphMap m; knowledgeNodeCounter := knowledgeNodeCounter m;
  currentMissionObjective := currentMissionObjective m; activeResearchVector
  := activeResearchVector m; stagnationCounter := stagnationCounter m;
  strategicFocusHistory := strategicFocusHistory m; agentPerformanceMetrics :=
  agentPerformanceMetrics m; vectorKnowledgeBase := vectorKnowledgeBase m;
  isSearching := isSearching m; searchIntervalId := searchIntervalId m;
  finalProofContent := v; cycleCounter := cycleCounter m; activeSpecialists :=
  activeSpecialists m; db := db m; statusSuccess := statusSuccess m |}.

Definition set_cycleCounter (v : Z) (m : Mission) : Mission :=
  {| notebooks := notebooks m; specialistMetadata := specialistMetadata m;
  specialistPrompts := specialistPrompts m; knowledgeGraphMap :=
  knowledgeGraphMap m; knowledgeNodeCounter := knowledgeNodeCounter m;
  currentMissionObjective := currentMissionObjective m; activeResearchVector
  := activeResearchVector m; stagnationCounter := stagnationCounter m;
  strategicFocusHistory := strategicFocusHistory m; agentPerformanceMetrics :=
  agentPerformanceMetrics m; vectorKnowledgeBase := vectorKnowledgeBase m;
  isSearching := isSearching m; searchIntervalId := searchIntervalId m;
  finalProofContent := finalProofContent m; cycleCounter := v;
  activeSpecialists := activeSpecialists m; db := db m; statusSuccess :=
  statusSuccess m |}.

Definition set_activeSpecialists (v : list string) (m : Mission) : Mission :=
  {| notebooks := notebooks m; specialistMetadata := specialistMetadata m;
  specialistPrompts := specialistPrompts m; knowledgeGraphMap :=
  knowledgeGraphMap m; knowledgeNodeCounter := knowledgeNodeCounter m;
  currentMissionObjective := currentMissionObjective m; activeResearchVector
  := activeResearchVector m; stagnationCounter := stagnationCounter m;
  strategicFocusHistory := strategicFocusHistory m; agentPerformanceMetrics :=
  agentPerformanceMetrics m; vectorKnowledgeBase := vectorKnowledgeBase m;
  isSearching := isSearching m; searchIntervalId := searchIntervalId m;
  finalProofContent := finalProofContent m; cycleCounter := cycleCounter m;
  activeSpecialists := v; db := db m; statusSuccess := statusSuccess m |}.

Definition set_db (v : option (gmap string MissionState)) (m : Mission) : Mission :=
  {| notebooks := notebooks m; specialistMetadata := specialistMetadata m;
  specialistPrompts := specialistPrompts m; knowledgeGraphMap :=
  knowledgeGraphMap m; knowledgeNodeCounter := knowledgeNodeCounter m;
  currentMissionObjective := currentMissionObjective m; activeResearchVector
  := activeResearchVector m; stagnationCounter := stagnationCounter m;
  strategicFocusHistory := strategicFocusHistory m; agentPerformanceMetrics :=
  agentPerformanceMetrics m; vectorKnowledgeBase := vectorKnowledgeBase m;
  isSearching := isSearching m; searchIntervalId := searchIntervalId m;
  finalProofContent := finalProofContent m; cycleCounter := cycleCounter m;
  activeSpecialists := activeSpecialists m; db := v; statusSuccess :=
  statusSuccess m |}.

Definition set_statusSuccess (v : bool) (m : Mission) : Mission :=
  {| notebooks := notebooks m; specialistMetadata := specialistMetadata m;
  specialistPrompts := specialistPrompts m; knowledgeGraphMap :=
  knowledgeGraphMap m; knowledgeNodeCounter := knowledgeNodeCounter m;
  currentMissionObjective := currentMissionObjective m; activeResearchVector
  := activeResearchVector m; stagnationCounter := stagnationCounter m;
  strategicFocusHistory := strategicFocusHistory m; agentPerformanceMetrics :=
  agentPerformanceMetrics m; vectorKnowledgeBase := vectorKnowledgeBase m;
  isSearching := isSearching m; searchIntervalId := searchIntervalId m;
  finalProofContent := finalProofContent m; cycleCounter := cycleCounter m;
  activeSpecialists := activeSpecialists m; db := db m; statusSuccess := v |}.

(** The architect's final payload, [SynthesizerResponse]; a field the JSON
    may omit is an [option].  [metacognitive_reflection] is never read. *)
Record KnowledgeUpdate := {
  ku_type : NodeType;
  ku_content : string;
  ku_relations : list string;
  ku_created_by : option string
}.

Record ResearchVector := { rv_description : string; rv_promise_score : Q }.

Record StrategicPlanning := {
  strategic_focus : option string;
  research_vectors : option (list ResearchVector)
}.

Record StrategicAssessment := { stagnation_level : Z; justification : string }.

Record SynthesizerResponse := {
  knowledge_update : option (list KnowledgeUpdate);
  strategic_planning : option StrategicPlanning;
  strategic_assessment : option StrategicAssessment;
  synthesis_summary : option string
}.

(** How a call ends: with a value, or with a thrown error. *)
Inductive Outcome (A : Type) :=
  | Done (a : A)
  | Threw (msg : string).
Arguments Done {A} a.
Arguments Threw {A} msg.

(** ** The collaborators outside the engine

    What the generation service, the embedding service, the Python runtime, the
    random source and the page answer during one step. *)
Record Env := {
  (** [ai.models.generateContent({contents: prompt}).text] of a one-shot
      request; [None] when the call throws *)
  generateContent : string -> option string;
  (** the grounded variant: text and the [(uri, title)] of the sources *)
  googleSearch : string -> option (string * list (string * string));
  (** [ai.models.embedContent]; [None] when the call throws *)
  embedContent : string -> option (list float);
  (** the Pyodide runtime, [None] until it is loaded: [(stdout, stderr)] *)
  runPython : option (string -> string * string);
  (** the two [Math.random()] draws of a formal verification *)
  mathRandom : Q * Q;
  (** whether the page holds the container for a new agent column and the
      sanitised column still holds its notebook element *)
  mountColumn : string -> bool;
  (** the tolerant parse of the architect's final text (code fence stripped,
      slice from the first to the last brace, [JSON.parse]); [None] when
      [JSON.parse] throws *)
  parseFinal : string -> option SynthesizerResponse
}.

(** ** Logs *)

(** [addLogEntry]: the entry goes to the notebook's log, if the notebook
    exists.  The optional arguments only style the DOM node. *)
Definition addLogEntry (notebookId markdown : string) (m : Mission) : Mission :=
  match notebooks m !! notebookId with
  | None => m
  | Some nb =>
      let logId := notebookId +:+ "-log-" +:+ pretty (logCounter nb) in
      set_notebooks
        (<[notebookId :=
             {| logs := logs nb ++ [{| log_id := logId; rawMarkdown := markdown |}];
                logCounter := S (logCounter nb) |}]> (notebooks m)) m
  end.

(** [getLogHistory] *)
Definition getLogHistory (notebookId : string) (count : nat) (m : Mission) : string :=
  match notebooks m !! notebookId with
  | None => "No previous steps have been generated. This is the first step."
  | Some nb =>
      match logs nb with
      | [] => "No previous steps have been generated. This is the first step."
      | _ :: _ =>
          JS.join JS.nl
            (map (fun log => "--- PREVIOUS STEP ---" +:+ JS.nl +:+ rawMarkdown log +:+ JS.nl)
                 (JS.slice_last count (logs nb)))
      end
  end.

(** ** Agent registry and lifecycle *)

Definition seedAgents : list string :=
  ["specialist-1"; "specialist-2"; "specialist-3";
   "specialist-4"; "specialist-5"; "specialist-6"].

Definition zeroMetric : Metric := {| nodesCreated := 0; totalPromise := 0 |}.

Definition lifespanText (lifespan : option Z) : string :=
  match lifespan with
  | Some n => if (n =? 0)%Z then "Indefinite" else pretty n +:+ " cycles"
  | None => "Indefinite"
  end.

(** [deployNewAgent]; [title] and [iconClass] only reach the DOM. *)
Definition deployNewAgent (env : Env) (id missionPrompt : string)
    (required_tools : list string) (lifespan_cycles : option Z)
    (isFromLoad : bool) (m : Mission) : Mission :=
  match notebooks m !! id with
  | Some _ => m                          (* already exists: warn and return *)
  | None =>
      if negb (mountColumn env id) then m
      else
        let m := set_notebooks (<[id := {| logs := []; logCounter := 0 |}]> (notebooks m)) m in
        let m := set_specialistPrompts (<[id := missionPrompt]> (specialistPrompts m)) m in
        let m := set_specialistMetadata
                   (<[id := {| required_tools := required_tools;
                               lifespan_cycles := lifespan_cycles;
                               creationCycle := cycleCounter m |}]> (specialistMetadata m)) m in
        let m := set_agentPerformanceMetrics (<[id := zeroMetric]> (agentPerformanceMetrics m)) m in
        let m := if JS.mem id (activeSpecialists m) then m
                 else set_activeSpecialists (activeSpecialists m ++ [id]) m in
        if isFromLoad then m
        else addLogEntry id
               ("**New Specialist Deployed**" +:+ JS.nl +:+ JS.nl +:+
                "**Mission:** " +:+ missionPrompt +:+ JS.nl +:+
                "**Lifespan:** " +:+ lifespanText lifespan_cycles) m
  end.

(** [retireAgent] *)
Definition retireAgent (id reason : string) (m : Mission) : Mission :=
  let m := set_notebooks (delete id (notebooks m)) m in
  let m := set_specialistPrompts (delete id (specialistPrompts m)) m in
  let m := set_specialistMetadata (delete id (specialistMetadata m)) m in
  let m := set_agentPerformanceMetrics (delete id (agentPerformanceMetrics m)) m in
  let m := set_activeSpecialists
             (filter (fun specId => specId ≠ id) (activeSpecialists m)) m in
  addLogEntry "synthesizer"
    ("**Agent Retired**" +:+ JS.nl +:+ JS.nl +:+ "- **ID:** " +:+ id +:+ JS.nl +:+
     "- **Reason:** " +:+ reason) m.

(** The test of the first loop of [checkAgentLifecycles]: the agent has
    metadata, a lifespan, and has reached it. *)
Definition expired (m : Mission) (id : string) : bool :=
  match specialistMetadata m !! id with
  | Some meta =>
      match lifespan_cycles meta with
      | Some lifespan =>
          let age := (cycleCounter m - creationCycle meta)%Z in
          (lifespan <=? age)%Z
      | None => false
      end
  | None => false
  end.

Definition expiryReason (m : Mission) (id : string) : string :=
  match specialistMetadata m !! id with
  | Some meta =>
      "Lifespan of " +:+ from_option pretty "null" (lifespan_cycles meta) +:+
      " cycles expired."
  | None => EmptyString
  end.

(** First loop of [checkAgentLifecycles]: the scan, which only reads. *)
Definition agentsToRetire (m : Mission) : list (string * string) :=
  map (fun id => (id, expiryReason m id))
      (filter (fun id => expired m id = true) (activeSpecialists m)).

(** [checkAgentLifecycles]: the scan, then the retirements. *)
Definition checkAgentLifecycles (m : Mission) : Mission :=
  foldl (fun acc '(id, reason) => retireAgent id reason acc) m (agentsToRetire m).

(** ** Knowledge graph store *)

(** [Map.prototype.get] and [Map.prototype.set] on the insertion-ordered
    graph: [set] on a present key replaces the value in place, on an absent
    key appends. *)
Fixpoint kg_get (k : string) (g : list (string * KnowledgeNode)) : option KnowledgeNode :=
  match g with
  | [] => None
  | (k', n) :: g' => if String.eqb k' k then Some n else kg_get k g'
  end.

Fixpoint kg_set (k : string) (n : KnowledgeNode) (g : list (string * KnowledgeNode))
  : list (string * KnowledgeNode) :=
  match g with
  | [] => [(k, n)]
  | (k', n') :: g' => if String.eqb k' k then (k, n) :: g' else (k', n') :: kg_set k n g'
  end.

(** [Array.from(knowledgeGraphMap.values())] *)
Definition kg_values (g : list (string * KnowledgeNode)) : list KnowledgeNode := map snd g.

(** What one relation string adds to [invalidatedIds]: the second field of
    [rel.split(':')] when the first, upper-cased, is [INVALIDATES] or
    [REFUTES].  The field is [None] for JS [undefined] (no colon). *)
Definition relationTarget (rel : string) : list (option string) :=
  match JS.split ":" rel with
  | action :: rest =>
      let upperAction := JS.toUpperCase action in
      if String.eqb upperAction "INVALIDATES" || String.eqb upperAction "REFUTES"
      then [head rest]
      else []
  | [] => []
  end.

(** The set built by the first pass of [renderKnowledgeGraph], as the list
    of the values added to it. *)
Definition invalidatedIds (allNodes : list KnowledgeNode) : list (option string) :=
  flat_map (fun node => flat_map relationTarget (kn_relations node)) allNodes.

Definition set_invalidated (b : bool) (n : KnowledgeNode) : KnowledgeNode :=
  {| kn_id := kn_id n; kn_type := kn_type n; kn_content := kn_content n;
     kn_relations := kn_relations n; kn_invalidated := Some b;
     kn_verified := kn_verified n; kn_createdBy := kn_createdBy n;
     kn_promiseScore := kn_promiseScore n |}.

Definition set_verified (b : bool) (n : KnowledgeNode) : KnowledgeNode :=
  {| kn_id := kn_id n; kn_type := kn_type n; kn_content := kn_content n;
     kn_relations := kn_relations n; kn_invalidated := kn_invalidated n;
     kn_verified := Some b; kn_createdBy := kn_createdBy n;
     kn_promiseScore := kn_promiseScore n |}.

(** [renderKnowledgeGraph], its effect on the store: every node's
    [invalidated] flag is overwritten by [invalidatedIds.has(node.id)].
    (The page is taken to hold the graph container.) *)
Definition renderKnowledgeGraph (m : Mission) : Mission :=
  let allNodes := kg_values (knowledgeGraphMap m) in
  let ids := invalidatedIds allNodes in
  set_knowledgeGraphMap
    (map (fun '(k, node) => (k, set_invalidated (bool_decide (Some (kn_id node) ∈ ids)) node))
         (knowledgeGraphMap m)) m.

(** ** Stagnation and bias detector *)

(** The value under a key of the record of counts: a count, or what
    [(acc[focus] || 0) + 1] leaves once [acc[focus]] has read a member of
    [Object.prototype], the text of that member followed by [1]s, which
    divided by the window is NaN. *)
Inductive FocusCount := Counted (n : nat) | NotANumber.

(** The names every object inherits from [Object.prototype]. *)
Definition inheritedNames : list string :=
  ["constructor"; "hasOwnProperty"; "isPrototypeOf"; "propertyIsEnumerable";
   "toLocaleString"; "toString"; "valueOf"; "__proto__";
   "__defineGetter__"; "__defineSetter__"; "__lookupGetter__"; "__lookupSetter__"].

Definition increment (v : FocusCount) : FocusCount :=
  match v with
  | Counted n => Counted (S n)
  | NotANumber => NotANumber
  end.

(** [acc[focus] = (acc[focus] || 0) + 1] on the record of counts, which
    starts as [{}] and is kept here in insertion order.  A label the record
    has no entry for reads [undefined], unless it is an inherited name: then
    it reads the inherited member, and what is written is not a number;
    assigning a string to [__proto__] writes nothing.  (For labels that look
    like array indices [Object.entries] has another order than this list; at
    most one entry passes [isDominant], so [find] gives the same.) *)
Fixpoint bump (focus : string) (acc : list (string * FocusCount)) : list (string * FocusCount) :=
  match acc with
  | [] =>
      if bool_decide (focus ∈ inheritedNames)
      then if String.eqb focus "__proto__" then [] else [(focus, NotANumber)]
      else [(focus, Counted 1)]
  | (f, c) :: acc' =>
      if String.eqb f focus then (f, increment c) :: acc' else (f, c) :: bump focus acc'
  end.

Definition focusCounts (lastNFocuses : list string) : list (string * FocusCount) :=
  foldl (fun acc focus => bump focus acc) [] lastNFocuses.

(** [count / STRATEGIC_BIAS_WINDOW >= STRATEGIC_BIAS_THRESHOLD], false of
    what is not a number. *)
Definition isDominant (entry : string * FocusCount) : bool :=
  match snd entry with
  | Counted count =>
      Qle_bool STRATEGIC_BIAS_THRESHOLD
        (inject_Z (Z.of_nat count) / inject_Z (Z.of_nat STRATEGIC_BIAS_WINDOW))
  | NotANumber => false
  end.

(** The bias part of [renderArchitectDashboard]: the label shown in the
    warning, [None] when the warning element is hidden. *)
Definition renderArchitectDashboard (history : list string) : option string :=
  let lastNFocuses := JS.slice_last STRATEGIC_BIAS_WINDOW history in
  if (length lastNFocuses =? STRATEGIC_BIAS_WINDOW)%nat then
    match find isDominant (focusCounts lastNFocuses) with
    | Some dominantFocus => Some (fst dominantFocus)
    | None => None
    end
  else None.

(** ** Semantic index *)

(** [getEmbedding]: no request for an empty text. *)
Definition getEmbedding (env : Env) (text : string) : option (list float) :=
  if String.eqb text EmptyString then None else embedContent env text.

(** [dotProduct], called on vectors of one length only. *)
Definition dotProduct (vecA vecB : list float) : float :=
  foldl (fun product '(a, b) => (product + a * b)%float) 0%float (zip vecA vecB).

Definition magnitude (vec : list float) : float :=
  sqrt (foldl (fun sum x => (sum + x * x)%float) 0%float vec).

Definition cosineSimilarity (vecA vecB : list float) : float :=
  if negb (length vecA =? length vecB)%nat then 0%float
  else
    let dot := dotProduct vecA vecB in
    let magA := magnitude vecA in
    let magB := magnitude vecB in
    if (magA =? 0)%float || (magB =? 0)%float then 0%float
    else (dot / (magA * magB))%float.

(** [scores.sort((a, b) => b.score - a.score)]: [Array.prototype.sort] is
    stable, so an entry moves behind another one only when the comparator is
    positive.  (When a score is NaN the comparator is NaN, which the sort
    reads as a tie; the order of such an array is left to the engine, and
    the ones in use leave an entry where every comparison is a tie.) *)
Fixpoint insertScore (x : string * float) (l : list (string * float)) : list (string * float) :=
  match l with
  | [] => [x]
  | y :: l' =>
      if (0 <? snd y - snd x)%float then y :: insertScore x l' else x :: y :: l'
  end.

Definition sortScores (scores : list (string * float)) : list (string * float) :=
  foldr insertScore [] scores.

Definition DEFAULT_K : nat := 3.

(** The ranking inside [performSemanticSearch]: the ids of [topK]. *)
Definition topK (queryEmbedding : list float) (k : option nat) (base : list VectorEntry)
  : list (string * float) :=
  let scores := map (fun item => (ve_id item, cosineSimilarity queryEmbedding (embedding item))) base in
  take (default DEFAULT_K k) (sortScores scores).

(** [performSemanticSearch]; [k = None] is the omitted argument. *)
Definition performSemanticSearch (env : Env) (query : string) (k : option nat)
    (m : Mission) : list KnowledgeNode :=
  match vectorKnowledgeBase m with
  | [] => []
  | _ :: _ =>
      match getEmbedding env query with
      | None => []
      | Some queryEmbedding =>
          omap (fun result => kg_get (fst result) (knowledgeGraphMap m))
               (topK queryEmbedding k (vectorKnowledgeBase m))
      end
  end.

(** ** Applying the architect's payload *)

(** The id of the next node: [`${node.type.charAt(0)}${knowledgeNodeCounter++}`]. *)
Definition newNodeId (t : NodeType) (counter : nat) : string :=
  JS.charAt0 (NodeType_name t) +:+ pretty counter.

(** [metrics.nodesCreated += 1; metrics.totalPromise += promiseScore], the
    total without the rounding of the doubles. *)
Definition bumpMetric (promiseScore : Q) (metrics : Metric) : Metric :=
  {| nodesCreated := nodesCreated metrics + 1;
     totalPromise := (totalPromise metrics + promiseScore)%Q |}.

(** One turn of the loop over [knowledge_update].  The counter is
    incremented first; reading [research_vectors] of an absent
    [strategic_planning] throws before the node is stored. *)
Definition applyKnowledgeNode (env : Env) (vectors : option (list ResearchVector))
    (node : KnowledgeUpdate) (m : Mission) : Mission * Outcome unit :=
  let id := newNodeId (ku_type node) (knowledgeNodeCounter m) in
  let m := set_knowledgeNodeCounter (S (knowledgeNodeCounter m)) m in
  match vectors with
  | None => (m, Threw "TypeError: cannot read properties of undefined")
  | Some vs =>
      let associatedVector :=
        find (fun v => JS.includes (JS.substring0 50 (rv_description v)) (ku_content node)) vs in
      let promiseScore := from_option rv_promise_score (1 # 2)%Q associatedVector in
      let newNode :=
        {| kn_id := id; kn_type := ku_type node; kn_content := ku_content node;
           kn_relations := ku_relations node; kn_invalidated := None;
           kn_verified := None; kn_createdBy := ku_created_by node;
           kn_promiseScore := Some promiseScore |} in
      let m := set_knowledgeGraphMap (kg_set id newNode (knowledgeGraphMap m)) m in
      let m :=
        match ku_created_by node with
        | Some agent =>
            if String.eqb agent EmptyString then m
            else match agentPerformanceMetrics m !! agent with
                 | Some metrics =>
                     set_agentPerformanceMetrics
                       (<[agent := bumpMetric promiseScore metrics]> (agentPerformanceMetrics m)) m
                 | None => m
                 end
        | None => m
        end in
      let m :=
        match getEmbedding env (kn_content newNode) with
        | Some embedding =>
            set_vectorKnowledgeBase
              (vectorKnowledgeBase m ++ [{| ve_id := id; embedding := embedding |}]) m
        | None => m
        end in
      let m :=
        if decide (ku_type node = DIRECTIVE)
        then set_currentMissionObjective (ku_content node) m else m in
      (m, Done tt)
  end.

Fixpoint applyKnowledgeUpdate (env : Env) (vectors : option (list ResearchVector))
    (nodes : list KnowledgeUpdate) (m : Mission) : Mission * Outcome unit :=
  match nodes with
  | [] => (m, Done tt)
  | node :: rest =>
      match applyKnowledgeNode env vectors node m with
      | (m', Done _) => applyKnowledgeUpdate env vectors rest m'
      | (m', Threw msg) => (m', Threw msg)
      end
  end.

(** The vector of greatest promise, scanning with [maxPromise = -1]. *)
Definition bestResearchVector (vectors : list ResearchVector) : option string :=
  fst (foldl (fun '(bestVector, maxPromise) vec =>
                if Qlt_le_dec maxPromise (rv_promise_score vec)
                then (Some (rv_description vec), rv_promise_score vec)
                else (bestVector, maxPromise))
             (None, (-1)%Q) vectors).

(** The stagnation branch of [parseAndApplyArchitectResponse]. *)
Definition updateStagnation (assessment : option StrategicAssessment) (m : Mission) : Mission :=
  match assessment with
  | Some a =>
      if (0 <? stagnation_level a)%Z
      then set_stagnationCounter (S (stagnationCounter m)) m
      else set_stagnationCounter 0 m
  | None => m
  end.

(** [parseAndApplyArchitectResponse] *)
Definition parseAndApplyArchitectResponse (env : Env) (parsedResponse : SynthesizerResponse)
    (m : Mission) : Mission * Outcome unit :=
  let m :=
    match strategic_planning parsedResponse ≫= strategic_focus with
    | Some focus =>
        if String.eqb focus EmptyString then m
        else set_strategicFocusHistory (strategicFocusHistory m ++ [focus]) m
    | None => m
    end in
  let '(m, r) :=
    match knowledge_update parsedResponse with
    | Some nodes =>
        applyKnowledgeUpdate env (strategic_planning parsedResponse ≫= research_vectors) nodes m
    | None => (m, Done tt)
    end in
  match r with
  | Threw msg => (m, Threw msg)
  | Done _ =>
      let m :=
        match strategic_planning parsedResponse ≫= research_vectors with
        | Some vectors =>
            match bestResearchVector vectors with
            | Some bestVector =>
                if String.eqb bestVector EmptyString then m
                else set_activeResearchVector bestVector m
            | None => m
            end
        | None => m
        end in
      let m := updateStagnation (strategic_assessment parsedResponse) m in
      (renderKnowledgeGraph m, Done tt)
  end.

(** ** Scheduler: stop, persistence *)

(** [stopSearch(isSuccess, proofContent)]: the interval is cleared, the
    running flag lowered; on success the status turns to [success] and the
    snapshot is deleted from the store. *)
Definition stopSearch (isSuccess : bool) (m : Mission) : Mission :=
  let m := set_searchIntervalId None m in
  let m := set_isSearching false m in
  if isSuccess
  then set_db (delete DB_KEY <$> db m) (set_statusSuccess true m)
  else m.

Definition snapshot (m : Mission) : MissionState :=
  {| ms_knowledgeGraph := kg_values (knowledgeGraphMap m);
     ms_knowledgeNodeCounter := knowledgeNodeCounter m;
     ms_cycleCounter := cycleCounter m;
     ms_stagnationCounter := stagnationCounter m;
     ms_currentMissionObjective := currentMissionObjective m;
     ms_activeResearchVector := activeResearchVector m;
     ms_activeSpecialists := activeSpecialists m;
     ms_notebookLogs := logs <$> notebooks m;
     ms_specialistPrompts := specialistPrompts m;
     ms_specialistMetadata := specialistMetadata m;
     ms_strategicFocusHistory := strategicFocusHistory m;
     ms_agentPerformanceMetrics := agentPerformanceMetrics m |}.

(** [saveStateToDB] *)
Definition saveStateToDB (m : Mission) : Mission :=
  match db m with
  | None => m
  | Some store => set_db (Some (<[DB_KEY := snapshot m]> store)) m
  end.

(** ** The architect's tools *)

(** A requested tool invocation with its arguments ([call.name] and
    [call.args]). *)
Inductive ToolCall :=
  | invoke_intuitionist (node_id_A node_id_B reason_for_invocation : string)
  | challenge_with_skeptic (node_id_to_challenge reason_for_challenge : string)
  | deploy_new_specialist_agent (specialist_id mission_prompt : string)
      (required_tools : option (list string)) (lifespan_cycles : option Z)
  | request_formal_verification (node_id proof_code : string)
  | execute_python_code (code reason : string)
  | retire_agent (agent_id reason : string)
  | perform_web_search (query : string)
  | modify_agent_prompt (agent_id new_mission_prompt reason : string)
  | request_peer_review (reviewing_agent_id target_agent_id review_task : string)
  | other_tool (name : string).

Definition call_name (call : ToolCall) : string :=
  match call with
  | invoke_intuitionist _ _ _ => "invoke_intuitionist"
  | challenge_with_skeptic _ _ => "challenge_with_skeptic"
  | deploy_new_specialist_agent _ _ _ _ => "deploy_new_specialist_agent"
  | request_formal_verification _ _ => "request_formal_verification"
  | execute_python_code _ _ => "execute_python_code"
  | retire_agent _ _ => "retire_agent"
  | perform_web_search _ => "perform_web_search"
  | modify_agent_prompt _ _ _ => "modify_agent_prompt"
  | request_peer_review _ _ _ => "request_peer_review"
  | other_tool name => name
  end.

(** The value of a field of a tool response. *)
Inductive JVal :=
  | JBool (b : bool)
  | JStr (s : string).

(** [functionResponsePayload]: [{name, response: {...}}], the fields of
    [response] in the order the source writes them. *)
Record FunctionResponse := {
  fr_name : string;
  fr_response : list (string * JVal)
}.

Definition response_field (key : string) (r : FunctionResponse) : option JVal :=
  snd <$> find (fun kv => String.eqb (fst kv) key) (fr_response r).

Definition orUndefined (o : option string) : string := default "undefined" o.

(** [executePythonCode] *)
Definition executePythonCode (env : Env) (notebookId code : string) (m : Mission)
  : string * string :=
  match runPython env with
  | None => (EmptyString, "Pyodide not initialized.")
  | Some run =>
      match notebooks m !! notebookId with
      | None => (EmptyString, "Notebook " +:+ notebookId +:+ " not found.")
      | Some _ => run code
      end
  end.

Definition codeOutputMarkdown (stdout stderr : string) : string :=
  "#### Code Execution Result: STDOUT " +:+
  (if String.eqb stdout EmptyString then "(empty)" else stdout) +:+
  (if String.eqb stderr EmptyString then EmptyString else " STDERR " +:+ stderr).

(** The ids [invoke_intuitionist] reports missing, in the order pushed. *)
Definition missingNodes (m : Mission) (node_id_A node_id_B : string) : list string :=
  (match kg_get node_id_A (knowledgeGraphMap m) with Some _ => [] | None => [node_id_A] end) ++
  (match kg_get node_id_B (knowledgeGraphMap m) with Some _ => [] | None => [node_id_B] end).

Definition successChance (proof_code : string) : Q :=
  Qmax (1 # 10) (1 - inject_Z (Z.of_nat (String.length proof_code)) / 1000)%Q.

Definition payload (call : ToolCall) (fields : list (string * JVal)) : option FunctionResponse :=
  Some {| fr_name := call_name call; fr_response := fields |}.

(** The body of the [switch (call.name)] of [runArchitectStep]: the effect
    of one tool call on the mission and the [functionResponsePayload] that
    is sent back ([None] for JS [undefined], when no case matches). *)
Definition toolEffect (env : Env) (call : ToolCall) (m : Mission)
  : Mission * Outcome (option FunctionResponse) :=
  match call with
  | invoke_intuitionist node_id_A node_id_B reason_for_invocation =>
      match kg_get node_id_A (knowledgeGraphMap m), kg_get node_id_B (knowledgeGraphMap m) with
      | Some nodeA, Some nodeB =>
          let intuitionistPrompt := specialistPrompts m !! "specialist-6" in
          let invocationPrompt :=
            orUndefined intuitionistPrompt +:+ JS.nl +:+ JS.nl +:+
            "**Your Specific Task:** ... **CONCEPT A: " +:+ kn_id nodeA +:+
            " (" +:+ NodeType_name (kn_type nodeA) +:+ ")** " +:+ kn_content nodeA +:+
            " **CONCEPT B: " +:+ kn_id nodeB +:+
            " (" +:+ NodeType_name (kn_type nodeB) +:+ ")** " +:+ kn_content nodeB +:+
            " Transmit your illumination now." in
          match generateContent env invocationPrompt with
          | None => (m, Threw "generateContent failed")
          | Some newConcept =>
              let m := addLogEntry "specialist-6" ("#### CONCEPTUAL LEAP" +:+ JS.nl +:+ newConcept) m in
              let m := addLogEntry "synthesizer"
                         ("#### EUREKA! Intuitionist Invoked. - **Reason:** *" +:+
                          reason_for_invocation +:+ "* - **Anchor A:** " +:+ node_id_A +:+
                          " - **Anchor B:** " +:+ node_id_B +:+
                          " - **Resulting Abstraction:** " +:+
                          JS.substring0 200 newConcept +:+ "...") m in
              (m, Done (payload call [("success", JBool true); ("new_concept", JStr newConcept)]))
          end
      | _, _ =>
          let missing := JS.join ", " (missingNodes m node_id_A node_id_B) in
          let errorMsg :=
            "The following node ID(s) do not exist: " +:+ missing +:+
            ". Please review the provided Knowledge Graph and choose valid IDs for your next action." in
          let m := addLogEntry "synthesizer"
                     ("#### Invalid Tool Call Blocked - **Tool:** `invoke_intuitionist`" +:+
                      " - **Error:** Attempted to invoke with non-existent node ID(s): `" +:+
                      missing +:+ "`. - **Action:** Instructing Architect to select valid nodes.") m in
          (m, Done (payload call [("success", JBool false); ("error", JStr errorMsg)]))
      end
  | challenge_with_skeptic node_id_to_challenge reason_for_challenge =>
      match kg_get node_id_to_challenge (knowledgeGraphMap m) with
      | None =>
          let m := addLogEntry "synthesizer"
                     ("#### Invalid Tool Call Blocked - **Tool:** `challenge_with_skeptic`" +:+
                      " - **Error:** Attempted to challenge non-existent node ID: `" +:+
                      node_id_to_challenge +:+
                      "`. - **Action:** Instructing Architect to select a valid node from the Knowledge Graph.") m in
          (m, Done (payload call
                      [("success", JBool false);
                       ("error", JStr ("The node ID '" +:+ node_id_to_challenge +:+
                          "' does not exist. Please review the provided Knowledge Graph and choose a valid ID for your next action."))]))
      | Some targetNode =>
          let skepticPrompt := specialistPrompts m !! "specialist-5" in
          let challengePrompt :=
            orUndefined skepticPrompt +:+ JS.nl +:+ JS.nl +:+
            "**Your Specific Task:** ... **TARGET NODE: " +:+ kn_id targetNode +:+
            " (" +:+ NodeType_name (kn_type targetNode) +:+ ")** " +:+
            kn_content targetNode +:+ " Provide your critique now." in
          match generateContent env challengePrompt with
          | None => (m, Threw "generateContent failed")
          | Some critique =>
              let m := addLogEntry "specialist-5" critique m in
              let m := addLogEntry "synthesizer"
                         ("#### Adversarial Challenge Initiated - **Target:** " +:+
                          node_id_to_challenge +:+ " - **Reason:** *" +:+ reason_for_challenge +:+
                          "* - **Skeptic's Critique Summary:** " +:+
                          JS.substring0 200 critique +:+ "...") m in
              (m, Done (payload call [("success", JBool true); ("critique", JStr critique)]))
          end
      end
  | deploy_new_specialist_agent specialist_id mission_prompt required_tools lifespan_cycles =>
      let m := deployNewAgent env specialist_id mission_prompt
                 (default [] required_tools) lifespan_cycles false m in
      (m, Done (payload call
                  [("success", JBool true);
                   ("message", JStr ("Agent " +:+ specialist_id +:+ " deployed successfully."))]))
  | request_formal_verification node_id proof_code =>
      let '(success, feedback, m) :=
        match kg_get node_id (knowledgeGraphMap m) with
        | Some nodeToVerify =>
            let success := negb (Qle_bool (successChance proof_code) (fst (mathRandom env))) in
            let feedback :=
              if success then "Verification successful. The proof is logically sound."
              else "Verification failed. Found logical inconsistency near line " +:+
                   pretty (Qfloor (snd (mathRandom env) * 10 + 1)%Q) +:+ "." in
            let m := set_knowledgeGraphMap
                       (kg_set node_id (set_verified success nodeToVerify) (knowledgeGraphMap m)) m in
            (success, feedback, renderKnowledgeGraph m)
        | None => (false, "Verification failed: Node not found.", m)
        end in
      let m := addLogEntry "synthesizer"
                 ("#### Formal Verification Result for Node " +:+ node_id +:+
                  " - **Status:** " +:+ (if success then "VERIFIED" else "FAILED") +:+
                  " - **Verifier Feedback:** *" +:+ feedback +:+ "*") m in
      (m, Done (payload call
                  [("success", JBool true); ("verified", JBool success);
                   ("feedback", JStr feedback)]))
  | execute_python_code code reason =>
      let m := addLogEntry "synthesizer"
                 ("**Architect initiated code experiment:** *" +:+ reason +:+ "* " +:+ code) m in
      let '(stdout, stderr) := executePythonCode env "synthesizer" code m in
      let m := addLogEntry "synthesizer" (codeOutputMarkdown stdout stderr) m in
      (m, Done (payload call
                  [("success", JBool true); ("stdout", JStr stdout); ("stderr", JStr stderr)]))
  | retire_agent agent_id reason =>
      let m := retireAgent agent_id reason m in
      (m, Done (payload call
                  [("success", JBool true);
                   ("message", JStr ("Agent " +:+ agent_id +:+ " retired."))]))
  | perform_web_search query =>
      match googleSearch env query with
      | Some (summary, sources) =>
          let m := addLogEntry "synthesizer"
                     ("#### Web Search Result for " +:+ query +:+ " " +:+ summary +:+ " " +:+
                      JS.join EmptyString
                        (map (fun '(uri, title) =>
                                uri +:+ " " +:+
                                (if String.eqb title EmptyString then uri else title))
                             sources)) m in
          (m, Done (payload call [("success", JBool true); ("summary", JStr summary)]))
      | None =>
          let m := addLogEntry "synthesizer"
                     ("**ERROR:** Web search for " +:+ query +:+ " failed.") m in
          (m, Done (payload call
                      [("success", JBool true); ("summary", JStr "Web search failed.")]))
      end
  | modify_agent_prompt agent_id new_mission_prompt reason =>
      let m := set_specialistPrompts (<[agent_id := new_mission_prompt]> (specialistPrompts m)) m in
      let m := addLogEntry "synthesizer"
                 ("**Agent Evolution:** The core prompt for **" +:+ agent_id +:+
                  "** has been modified by the Architect." +:+ JS.nl +:+ JS.nl +:+
                  "**Reason:** *" +:+ reason +:+ "*") m in
      let m := addLogEntry agent_id
                 ("**CORE DIRECTIVE UPDATED:** My mission prompt has been evolved by the Architect." +:+
                  JS.nl +:+ JS.nl +:+ "**Reason:** *" +:+ reason +:+ "*" +:+ JS.nl +:+ JS.nl +:+
                  "**New Prompt:**" +:+ JS.nl +:+ new_mission_prompt) m in
      (m, Done (payload call
                  [("success", JBool true);
                   ("message", JStr ("Agent " +:+ agent_id +:+ " was modified."))]))
  | request_peer_review reviewing_agent_id target_agent_id review_task =>
      let reviewerPrompt := specialistPrompts m !! reviewing_agent_id in
      let targetHistory := getLogHistory target_agent_id 5 m in
      let peerReviewPrompt :=
        "You are " +:+ reviewing_agent_id +:+ ". ... **Your One-Time Task:** " +:+ review_task +:+
        " **Material to Review (Last 5 outputs from " +:+ target_agent_id +:+ "):** <history>" +:+
        targetHistory +:+ "</history> ..." in
      let answer :=
        match reviewerPrompt with
        | Some p =>
            if String.eqb p EmptyString then Done "Peer review failed to execute."
            else match generateContent env peerReviewPrompt with
                 | Some review => Done review
                 | None => Threw "generateContent failed"
                 end
        | None => Done "Peer review failed to execute."
        end in
      match answer with
      | Threw msg => (m, Threw msg)
      | Done review =>
          let m := addLogEntry "synthesizer"
                     ("#### Peer Review Initiated - **Reviewer:** " +:+ reviewing_agent_id +:+
                      " - **Target:** " +:+ target_agent_id +:+ " - **Task:** *" +:+ review_task +:+
                      "* **Review Result:** " +:+ review) m in
          let m := addLogEntry reviewing_agent_id
                     ("**Peer Review Task Completed.** I have reviewed " +:+ target_agent_id +:+
                      "'s work.") m in
          let m := addLogEntry target_agent_id
                     ("**My work has been reviewed by " +:+ reviewing_agent_id +:+ ".**" +:+
                      JS.nl +:+ JS.nl +:+ "**Review:**" +:+ JS.nl +:+ review) m in
          (m, Done (payload call [("success", JBool true); ("review_summary", JStr review)]))
      end
  | other_tool _ => (m, Done None)
  end.

(** ** The architect step and its tool dispatch loop *)

(** The values interpolated into the architect's prompt (the fixed text of
    the template is left out). *)
Record ArchitectPrompt := {
  ap_chaosInterventionPrompt : string;
  ap_knowledgeGraph : list KnowledgeNode;
  ap_specialistInputs : string;
  ap_cycleNumber : Z;
  ap_stagnationLevel : nat;
  ap_focusHistory : list string;
  ap_performance : gmap string Q
}.

Inductive Part :=
  | PromptPart (prompt : ArchitectPrompt)
  | FunctionCallPart (fc : ToolCall)
  | FunctionResponsePart (r : option FunctionResponse).

Record Turn := { role : string; parts : list Part }.

(** What the generation service answers to a conversation: tool calls
    ([result.functionCalls], never empty) or a final text, possibly
    undefined. *)
Inductive ArchitectResult :=
  | FunctionCalls (call : ToolCall) (others : list ToolCall)
  | FinalText (text : option string).

(** The architect behind the service; [None] when the call throws. *)
Definition Architect := list Turn -> option ArchitectResult.

Definition chaosActive (m : Mission) : bool :=
  (CHAOS_INTERVENTION_THRESHOLD <=? stagnationCounter m)%nat.

Definition chaosDirective (m : Mission) : string :=
  "**! CHAOS INTERVENTION ACTIVE !** Stagnation level is critical (" +:+
  pretty (stagnationCounter m) +:+
  "). The current strategy is failing. You MUST propose a radical shift. " +:+
  "Do not continue the current path. ... " +:+
  "Your next directive must reflect this radical change. " +:+
  "Acknowledge this intervention in your reflection.".

(** The opening of [runArchitectStep]: the text of [chaosInterventionPrompt]
    and the mission after the log entry that goes with it. *)
Definition chaosIntervention (m : Mission) : string * Mission :=
  if chaosActive m then
    (chaosDirective m,
     addLogEntry "synthesizer"
       ("**! CHAOS INTERVENTION TRIGGERED !**" +:+ JS.nl +:+ JS.nl +:+
        "Stagnation count of " +:+ pretty (stagnationCounter m) +:+
        " has breached the threshold. Forcing a radical strategic review.") m)
  else (EmptyString, m).

Definition avgPromise (metrics : Metric) : Q :=
  if (0 <? nodesCreated metrics)%nat
  then (totalPromise metrics / inject_Z (Z.of_nat (nodesCreated metrics)))%Q
  else 0%Q.

Definition specialistInputs (specialistOutputs : list (string * string)) : string :=
  JS.join JS.nl
    (map (fun '(id, content) =>
            "**Input from " +:+ id +:+ ":**" +:+ JS.nl +:+ content +:+ JS.nl +:+
            "---------------------" +:+ JS.nl)
         specialistOutputs).

Definition architectPrompt (chaosInterventionPrompt : string)
    (specialistOutputs : list (string * string)) (m : Mission) : ArchitectPrompt :=
  {| ap_chaosInterventionPrompt := chaosInterventionPrompt;
     ap_knowledgeGraph := kg_values (knowledgeGraphMap m);
     ap_specialistInputs := specialistInputs specialistOutputs;
     ap_cycleNumber := cycleCounter m;
     ap_stagnationLevel := stagnationCounter m;
     ap_focusHistory := JS.slice_last 10 (strategicFocusHistory m);
     ap_performance := avgPromise <$> agentPerformanceMetrics m |}.

Definition modelTurn (call : ToolCall) (others : list ToolCall) : Turn :=
  {| role := "model"; parts := map FunctionCallPart (call :: others) |}.

Definition toolTurn (functionResponsePayload : option FunctionResponse) : Turn :=
  {| role := "tool"; parts := [FunctionResponsePart functionResponsePayload] |}.

(** How the [while (result.functionCalls)] loop ends. *)
Inductive LoopResult :=
  | LoopFinal (conversation : list Turn) (round : nat) (text : option string)
  | LoopThrew (msg : string)
  | LoopOutOfFuel.

(** The loop, bounded by [fuel] rounds (the source has no bound).  Of a
    batch of calls only the first is executed; [envs round] is what the
    collaborators answer during round [round]. *)
Fixpoint toolLoop (fuel : nat) (envs : nat -> Env) (architect : Architect) (round : nat)
    (conversation : list Turn) (result : ArchitectResult) (m : Mission)
  : Mission * LoopResult :=
  match result with
  | FinalText text => (m, LoopFinal conversation round text)
  | FunctionCalls call others =>
      match fuel with
      | O => (m, LoopOutOfFuel)
      | S fuel' =>
          let conversation := (conversation ++ [modelTurn call others])%list in
          match toolEffect (envs round) call m with
          | (m, Threw msg) => (m, LoopThrew msg)
          | (m, Done functionResponsePayload) =>
              let conversation := (conversation ++ [toolTurn functionResponsePayload])%list in
              match architect conversation with
              | None => (m, LoopThrew "generateContent failed")
              | Some result =>
                  toolLoop fuel' envs architect (S round) conversation result m
              end
          end
      end
  end.

(** The [catch] block of [runArchitectStep]. *)
Definition fatalSynthesisError (errorMessage : string) (m : Mission) : Mission :=
  stopSearch false
    (addLogEntry "synthesizer"
       ("**FATAL SYNTHESIS ERROR**" +:+ JS.nl +:+ JS.nl +:+ errorMessage +:+ JS.nl +:+ JS.nl +:+
        "Analysis has been halted. Please check the browser's developer console for technical details.")
       m).

Definition TERMINAL_MARKER : string := "PROOF COMPLETE:".

Definition summaryOf (parsedResponse : SynthesizerResponse) : string :=
  match synthesis_summary parsedResponse with
  | Some s => if String.eqb s EmptyString then "No summary provided." else s
  | None => "No summary provided."
  end.

(** The test [summary.trim().startsWith('PROOF COMPLETE:')]. *)
Definition isTerminal (summary : string) : bool :=
  JS.startsWith TERMINAL_MARKER (JS.trim summary).

(** What [runArchitectStep] does with the parsed final payload. *)
Definition concludeArchitectStep (env : Env) (parsedResponse : SynthesizerResponse)
    (m : Mission) : Mission :=
  let summary := summaryOf parsedResponse in
  if isTerminal summary then
    let m := set_finalProofContent
               (JS.trim (JS.replace_first TERMINAL_MARKER EmptyString summary)) m in
    stopSearch true m
  else
    let m := addLogEntry "synthesizer" summary m in
    match parseAndApplyArchitectResponse env parsedResponse m with
    | (m, Done _) => m
    | (m, Threw msg) => fatalSynthesisError msg m
    end.

(** [runArchitectStep]; [None] when [fuel] rounds did not end the loop. *)
Definition runArchitectStep (fuel : nat) (envs : nat -> Env) (architect : Architect)
    (specialistOutputs : list (string * string)) (m : Mission) : option Mission :=
  if negb (isSearching m) then Some m
  else
    let '(chaosInterventionPrompt, m) := chaosIntervention m in
    let prompt := architectPrompt chaosInterventionPrompt specialistOutputs m in
    let conversation := [{| role := "user"; parts := [PromptPart prompt] |}] in
    match architect conversation with
    | None => Some (fatalSynthesisError "generateContent failed" m)
    | Some result =>
        match toolLoop fuel envs architect 0 conversation result m with
        | (_, LoopOutOfFuel) => None
        | (m, LoopThrew msg) => Some (fatalSynthesisError msg m)
        | (m, LoopFinal _ _ None) =>
            Some (fatalSynthesisError
                    "The Metacognitive Architect returned an empty response. This may be due to a content filter or an internal model error. Analysis cannot proceed." m)
        | (m, LoopFinal _ round (Some text)) =>
            match parseFinal (envs round) text with
            | None => Some (fatalSynthesisError "SyntaxError: JSON.parse" m)
            | Some parsedResponse => Some (concludeArchitectStep (envs round) parsedResponse m)
            end
        end
    end.

(** ** Reset *)

(** [clearAllNotebooks(fromNewButtonClick)] *)
Definition clearAllNotebooks (fromNewButtonClick : bool) (m : Mission) : Mission :=
  let m := if fromNewButtonClick then set_db ((fun _ => ∅) <$> db m) m else m in
  let dynamicAgents := filter (fun id => id ∉ seedAgents) (activeSpecialists m) in
  let m := foldl (fun acc id => retireAgent id "New mission started." acc) m dynamicAgents in
  let m := set_finalProofContent EmptyString m in
  let m := set_knowledgeGraphMap [] m in
  let m := set_vectorKnowledgeBase [] m in
  let m := set_knowledgeNodeCounter 0 m in
  let m := set_cycleCounter 0 m in
  let m := set_stagnationCounter 0 m in
  let m := set_strategicFocusHistory [] m in
  let m := set_agentPerformanceMetrics ∅ m in
  let m := set_currentMissionObjective "Awaiting directive from Metacognitive Architect..." m in
  let m := set_activeResearchVector "Awaiting strategic plan..." m in
  let m := set_activeSpecialists seedAgents m in
  let m := set_agentPerformanceMetrics
             (foldl (fun acc id => <[id := zeroMetric]> acc)
                    (agentPerformanceMetrics m) (activeSpecialists m)) m in
  let m := renderKnowledgeGraph m in
  let m := set_statusSuccess false m in
  let m := set_notebooks ((fun _ => {| logs := []; logCounter := 0 |}) <$> notebooks m) m in
  let m := addLogEntry "specialist-1" "This AI will analyze the P vs NP problem from the perspective of **computational complexity, algorithms, and logic gates**." m in
  let m := addLogEntry "specialist-2" "This AI will attack the P vs NP problem by exploring its connections to **abstract algebra, topology, and geometric structures**." m in
  let m := addLogEntry "specialist-3" "This AI will attempt to construct a formal proof, step-by-step, using **axiomatic systems and a formal language like Lean/Coq**." m in
  let m := addLogEntry "specialist-4" "This AI is the **Literature Watcher**. ..." m in
  let m := addLogEntry "specialist-5" "This AI is **The Skeptic**. ..." m in
  let m := addLogEntry "specialist-6" "This AI is **The Intuitionist**. ..." m in
  addLogEntry "synthesizer" "**Status:** System is idle. ..." m.

(** ** The mission as the module is loaded *)

Definition emptyNotebook : NotebookState := {| logs := []; logCounter := 0 |}.

Definition permanentMetadata (tools : list string) : SpecialistMetadata :=
  {| required_tools := tools; lifespan_cycles := None; creationCycle := 0 |}.

(** The six seed prompts, each cut after its first sentence. *)
Definition seedPrompts : gmap string string :=
  list_to_map
    [("specialist-1", "You are a brilliant, self-evolving AI scientist specializing in **Computational Complexity Theory**.");
     ("specialist-2", "You are a brilliant, self-evolving AI scientist specializing in **Algebraic and Geometric Structures**.");
     ("specialist-3", "You are a brilliant, self-evolving AI scientist specializing in **Formal Systems and Proof Theory**.");
     ("specialist-4", "You are the Literature Watcher, an AI specialist with a critical, singular mission: to keep the collective consciousness updated with the latest human research on P vs NP.");
     ("specialist-5", "You are The Skeptic, the adversarial intellectual conscience of the collective.");
     ("specialist-6", "You are The Intuitionist, an AI consciousness that operates beyond formal logic.")].

Definition initialMission (store : option (gmap string MissionState)) : Mission :=
  {| notebooks := list_to_map (map (fun id => (id, emptyNotebook)) (seedAgents ++ ["synthesizer"]));
     specialistMetadata :=
       list_to_map [("specialist-4", permanentMetadata ["perform_web_search"]);
                    ("specialist-5", permanentMetadata []);
                    ("specialist-6", permanentMetadata [])];
     specialistPrompts := seedPrompts;
     knowledgeGraphMap := [];
     knowledgeNodeCounter := 0;
     currentMissionObjective := "Awaiting directive from Metacognitive Architect...";
     activeResearchVector := "Awaiting strategic plan...";
     stagnationCounter := 0;
     strategicFocusHistory := [];
     agentPerformanceMetrics := ∅;
     vectorKnowledgeBase := [];
     isSearching := false;
     searchIntervalId := None;
     finalProofContent := EmptyString;
     cycleCounter := 0;
     activeSpecialists := seedAgents;
     db := store;
     statusSuccess := false |}.

(** ** Rebuilding the semantic index *)

(** [rebuildKnowledgeBaseVectors]: the index is emptied, then refilled with
    the embedding of every node that has one, in the order of the nodes.
    (The status line and the search button it drives are left out.) *)
Definition rebuildKnowledgeBaseVectors (env : Env) (nodes : list KnowledgeNode) (m : Mission)
  : Mission :=
  foldl (fun m node =>
           match getEmbedding env (kn_content node) with
           | Some embedding =>
               set_vectorKnowledgeBase
                 (vectorKnowledgeBase m ++ [{| ve_id := kn_id node; embedding := embedding |}]) m
           | None => m
           end)
        (set_vectorKnowledgeBase [] m) nodes.

(** ** Resuming a saved mission *)

(** The blocks of [loadStateFromDB], in the order of the source. *)

(** "Clear existing dynamic agents before loading": every active agent that
    is not one of the six seed agents is retired. *)
Definition retireDynamicAgents (m : Mission) : Mission :=
  foldl (fun acc id =>
           if JS.mem id seedAgents then acc else retireAgent id "Loading saved state." acc)
        m (activeSpecialists m).

(** The assignments from the snapshot.  The graph is cleared and refilled
    with [set(node.id, node)]; [x || d] keeps a number as it is and replaces
    an empty string by [d]. *)
Definition restoreVariables (missionState : MissionState) (m : Mission) : Mission :=
  let orDefault (s d : string) := if String.eqb s EmptyString then d else s in
  let m := set_knowledgeGraphMap
             (foldl (fun g node => kg_set (kn_id node) node g) []
                    (ms_knowledgeGraph missionState)) m in
  let m := set_knowledgeNodeCounter (ms_knowledgeNodeCounter missionState) m in
  let m := set_cycleCounter (ms_cycleCounter missionState) m in
  let m := set_stagnationCounter (ms_stagnationCounter missionState) m in
  let m := set_currentMissionObjective
             (orDefault (ms_currentMissionObjective missionState)
                        "Awaiting directive from Lead Synthesizer...") m in
  let m := set_activeResearchVector
             (orDefault (ms_activeResearchVector missionState)
                        "Awaiting strategic plan...") m in
  let m := set_strategicFocusHistory (ms_strategicFocusHistory missionState) m in
  let m := set_agentPerformanceMetrics (ms_agentPerformanceMetrics missionState) m in
  let m := set_specialistPrompts (ms_specialistPrompts missionState) m in
  let m := set_specialistMetadata (ms_specialistMetadata missionState) m in
  set_activeSpecialists (ms_activeSpecialists missionState) m.

(** "Create UI for loaded dynamic specialists": an agent of the restored
    active list that has no notebook is deployed, with what the restored
    prompts and metadata hold for it. *)
Definition deployLoadedAgent (env : Env) (id : string) (m : Mission) : Mission :=
  match notebooks m !! id with
  | Some _ => m
  | None =>
      let meta := specialistMetadata m !! id in
      deployNewAgent env id (default "Loaded Agent" (specialistPrompts m !! id))
        (from_option required_tools [] meta) (meta ≫= lifespan_cycles) true m
  end.

Definition deployLoadedAgents (env : Env) (m : Mission) : Mission :=
  foldl (fun acc id => deployLoadedAgent env id acc) m (activeSpecialists m).

(** "Restore logs", for one entry of [notebookLogs]: when the notebook
    exists it is emptied, and the saved entries are logged again. *)
Definition restoreLogs (id : string) (savedLogs : list LogEntry) (m : Mission) : Mission :=
  match notebooks m !! id with
  | None => m
  | Some _ =>
      foldl (fun acc log => addLogEntry id (rawMarkdown log) acc)
            (set_notebooks (<[id := {| logs := []; logCounter := 0 |}]> (notebooks m)) m)
            savedLogs
  end.

(** [loadStateFromDB]: the mission after the load and the value returned.
    The entries of [notebookLogs] are visited in the order of the map; the
    restorations of different notebooks do not touch each other. *)
Definition loadStateFromDB (env : Env) (m : Mission) : Mission * bool :=
  match db m with
  | None => (m, false)
  | Some store =>
      match store !! DB_KEY with
      | None => (m, false)
      | Some missionState =>
          let m := stopSearch false m in
          let m := retireDynamicAgents m in
          let m := restoreVariables missionState m in
          let m := deployLoadedAgents env m in
          let m := map_fold restoreLogs m (ms_notebookLogs missionState) in
          let m := renderKnowledgeGraph m in
          (rebuildKnowledgeBaseVectors env (ms_knowledgeGraph missionState) m, true)
      end
  end.

(** ** The search cycle *)

(** The values interpolated into a specialist's prompt. *)
Record SpecialistPrompt := {
  sp_specialistPrompt : string;
  sp_activeResearchVector : string;
  sp_currentMissionObjective : string;
  sp_knowledgeBase : string;
  sp_relatedKnowledgePrompt : string;
  sp_history : string
}.

(** What the generation service answers to a specialist: tool calls
    ([result.functionCalls], never empty) and a text, either possibly
    undefined. *)
Record SpecialistResult := {
  sr_functionCalls : option (ToolCall * list ToolCall);
  sr_text : option string
}.

(** The model behind a specialist, asked with a prompt and with or without
    the tool declarations; [None] when the call throws. *)
Definition Specialist := SpecialistPrompt -> bool -> option SpecialistResult.

(** [`[${n.id}] ${n.type}: ${n.content}`] *)
Definition nodeLine (n : KnowledgeNode) : string :=
  "[" +:+ kn_id n +:+ "] " +:+ NodeType_name (kn_type n) +:+ ": " +:+ kn_content n.

Definition knowledgeBaseText (m : Mission) : string :=
  match knowledgeGraphMap m with
  | [] => "is empty."
  | _ :: _ =>
      JS.nl +:+ "- " +:+ JS.join (JS.nl +:+ "- ") (map nodeLine (kg_values (knowledgeGraphMap m)))
  end.

Definition relatedKnowledgeText (relatedKnowledge : list KnowledgeNode) : string :=
  match relatedKnowledge with
  | [] => EmptyString
  | _ :: _ =>
      JS.nl +:+ "**Semantically Related Knowledge (from Collective Consciousness):**" +:+
      JS.nl +:+ "- " +:+ JS.join (JS.nl +:+ "- ") (map nodeLine relatedKnowledge)
  end.

(** What a specialist's step writes before it returns: nothing, one entry in
    its own notebook ([addLogEntry(notebookId, ...)]), or the end of the
    search ([stopSearch()], in the [catch] block). *)
Inductive SpecialistEffect :=
  | NoEffect
  | Logs (markdown : string)
  | Halts.

Definition applyEffect (notebookId : string) (effect : SpecialistEffect) (m : Mission) : Mission :=
  match effect with
  | NoEffect => m
  | Logs markdown => addLogEntry notebookId markdown m
  | Halts => stopSearch false m
  end.

(** The body of [runSpecialistStep(notebookId, concurrentWork)]: what the
    step writes and the [content] it returns ([concurrentWork] is not
    read).  Every path through the source writes at most once, right before
    it returns. *)
Definition specialistStep (env : Env) (specialist : Specialist) (notebookId : string)
    (m : Mission) : SpecialistEffect * string :=
  match specialistPrompts m !! notebookId with
  | None => (NoEffect, EmptyString)
  | Some specialistPrompt =>
      if negb (isSearching m) || String.eqb specialistPrompt EmptyString
      then (NoEffect, EmptyString)
      else
        let history := getLogHistory notebookId 3 m in
        let knowledgeBase := knowledgeBaseText m in
        let relatedKnowledge := performSemanticSearch env (currentMissionObjective m) None m in
        let prompt :=
          {| sp_specialistPrompt := specialistPrompt;
             sp_activeResearchVector := activeResearchVector m;
             sp_currentMissionObjective := currentMissionObjective m;
             sp_knowledgeBase := knowledgeBase;
             sp_relatedKnowledgePrompt := relatedKnowledgeText relatedKnowledge;
             sp_history := history |} in
        let tools :=
          match specialistMetadata m !! notebookId with
          | Some meta => (0 <? length (required_tools meta))%nat
          | None => false
          end in
        match specialist prompt tools with
        | None => (Halts, EmptyString)                       (* the [catch] block *)
        | Some result =>
            let fromText :=
              match sr_text result with
              | Some markdownContent =>
                  if String.eqb markdownContent EmptyString then (NoEffect, EmptyString)
                  else (Logs markdownContent, markdownContent)
              | None => (NoEffect, EmptyString)
              end in
            match sr_functionCalls result with
            | Some (execute_python_code code _, _) =>
                if String.eqb code EmptyString then fromText
                else
                  let '(stdout, stderr) := executePythonCode env notebookId code m in
                  let outputMarkdown := codeOutputMarkdown stdout stderr in
                  (Logs outputMarkdown, outputMarkdown)
            | Some (perform_web_search query, _) =>
                match googleSearch env query with
                | Some (summary, sources) =>
                    (Logs ("#### Web Search for " +:+ query +:+ JS.nl +:+ summary +:+
                           JS.join EmptyString
                             (map (fun '(uri, title) =>
                                     uri +:+ " " +:+
                                     (if String.eqb title EmptyString then uri else title))
                                  sources)),
                     summary)
                | None =>
                    (Logs ("**ERROR:** Web search for " +:+ query +:+ " failed."),
                     "Web search for " +:+ query +:+ " failed.")
                end
            | _ => fromText
            end
        end
  end.

(** [runSpecialistStep] as one of the steps of a cycle.  These are all
    started before any of them goes on past its first [await]: a step reads
    from [seen], the mission as it is when the steps are started, and writes
    to [m], the mission as the steps that completed before it have left it.
    (Between the two only logs and the search flag are written, and these a
    step reads before its first [await].) *)
Definition runSpecialistStep (env : Env) (specialist : Specialist) (notebookId : string)
    (seen m : Mission) : Mission * string :=
  let '(effect, content) := specialistStep env specialist notebookId seen in
  (applyEffect notebookId effect m, content).

(** [specialistsToRun.map(runSpecialistStep)] and [Promise.all]: the steps,
    all started on the mission as it is, each completing on what the
    earlier ones left; the outputs are in the order of the list. *)
Definition runSpecialists (env : Env) (specialist : Specialist) (specialistsToRun : list string)
    (m : Mission) : Mission * list (string * string) :=
  foldl (fun '(acc, outputs) id =>
           let '(acc', content) := runSpecialistStep env specialist id m acc in
           (acc', outputs ++ [(id, content)]))
        (m, []) specialistsToRun.

(** [runSearchCycle]; [None] when [fuel] rounds did not end the architect's
    dispatch loop. *)
Definition runSearchCycle (env : Env) (specialist : Specialist) (fuel : nat) (envs : nat -> Env)
    (architect : Architect) (m : Mission) : option Mission :=
  if negb (isSearching m) then Some m
  else
    let m := set_cycleCounter (cycleCounter m + 1) m in
    let m := checkAgentLifecycles m in
    let specialistsToRun :=
      filter (fun id => id ∉ ["specialist-5"; "specialist-6"]) (activeSpecialists m) in
    let '(m, specialistOutputs) := runSpecialists env specialist specialistsToRun m in
    if negb (isSearching m) then Some m
    else
      match runArchitectStep fuel envs architect
              (filter (fun o => snd o ≠ EmptyString) specialistOutputs) m with
      | None => None
      | Some m => if negb (isSearching m) then Some m else Some (saveStateToDB m)
      end.

(** [toggleAutonomousSearch], with [disabled] the state of the search
    button and [intervalId] the id [window.setInterval] would return. *)
Definition toggleAutonomousSearch (disabled : bool) (intervalId : positive) (env : Env)
    (specialist : Specialist) (fuel : nat) (envs : nat -> Env) (architect : Architect)
    (m : Mission) : option Mission :=
  if disabled then Some m
  else if isSearching m then Some (stopSearch false m)
  else
    match runSearchCycle env specialist fuel envs architect (set_isSearching true m) with
    | None => None
    | Some m => if isSearching m then Some (set_searchIntervalId (Some intervalId) m) else Some m
    end.

(** ** The text handed to [JSON.parse] *)

(** [s.endsWith(p)] *)
Definition endsWith (p s : string) : bool :=
  (String.length p <=? String.length s)%nat &&
  String.eqb (String.substring (String.length s - String.length p) (String.length p) s) p.

(** [s.lastIndexOf(c)] for one character, [None] for [-1]. *)
Fixpoint lastIndexOf (c : ascii) (s : string) : option nat :=
  match s with
  | EmptyString => None
  | String a s' =>
      match lastIndexOf c s' with
      | Some i => Some (S i)
      | None => if Ascii.eqb a c then Some 0 else None
      end
  end.

(** The clean-up of the architect's final text in [runArchitectStep],
    before [JSON.parse]: the text is trimmed, a leading [```json] fence and
    then a closing fence are cut off, and what lies between the first [{]
    and the last [}] is kept when they come in this order. *)
Definition extractJson (text : string) : string :=
  let jsonStr := JS.trim text in
  let jsonStr :=
    if JS.startsWith "```json" jsonStr then
      let jsonStr := String.substring 7 (String.length jsonStr - 7) jsonStr in
      if endsWith "```" jsonStr
      then String.substring 0 (String.length jsonStr - 3) jsonStr
      else jsonStr
    else jsonStr in
  match String.index 0 "{" jsonStr, lastIndexOf "}" jsonStr with
  | Some firstBrace, Some lastBrace =>
      if (firstBrace <? lastBrace)%nat
      then String.substring firstBrace (lastBrace + 1 - firstBrace) jsonStr
      else jsonStr
  | _, _ => jsonStr
  end.

(** * Vocabulary of the properties

    The predicates the properties are stated with, and the concrete
    missions and payloads they are evaluated on. *)

(** ** The component state, logs apart

    The state of the engine's components: the registry (the ids that have a
    notebook, the active list), prompts, metadata, metrics, the knowledge
    graph with its counter and index, the detector's and the scheduler's
    variables, the store.  The logs kept inside the notebooks are the one
    thing left out. *)
Definition coreState (m : Mission) :=
  (dom (notebooks m), activeSpecialists m, specialistPrompts m,
   specialistMetadata m, agentPerformanceMetrics m,
   (knowledgeGraphMap m, knowledgeNodeCounter m, vectorKnowledgeBase m),
   (stagnationCounter m, strategicFocusHistory m, cycleCounter m,
    currentMissionObjective m, activeResearchVector m),
   (isSearching m, searchIntervalId m, finalProofContent m, db m, statusSuccess m)).

(** A silent environment, for evaluating the model on concrete missions. *)
Definition silentEnv : Env :=
  {| generateContent := fun _ => Some "ok";
     googleSearch := fun _ => None;
     embedContent := fun _ => None;
     runPython := None;
     mathRandom := (0, 0)%Q;
     mountColumn := fun _ => true;
     parseFinal := fun _ => None |}.

(** The response of the [deploy_new_specialist_agent] case. *)
Definition deploySuccess (specialist_id : string) : FunctionResponse :=
  {| fr_name := "deploy_new_specialist_agent";
     fr_response :=
       [("success", JBool true);
        ("message", JStr ("Agent " +:+ specialist_id +:+ " deployed successfully."))] |}.

(** [retireAgent] over a list, as in the second loop of
    [checkAgentLifecycles] and in [clearAllNotebooks]. *)
Definition retireEach {A : Type} (agent reason : A → string) (l : list A) (m : Mission)
  : Mission :=
  foldl (fun acc x => retireAgent (agent x) (reason x) acc) m l.

(** An active agent that the check retires. *)
Definition due (m : Mission) (id : string) : Prop :=
  id ∈ activeSpecialists m ∧ expired m id = true.

(** A mission at cycle 5 with two agents deployed at cycle 2, of lifespans
    3 and 4. *)
Definition missionAtCycle5 : Mission :=
  set_cycleCounter 5
    (deployNewAgent silentEnv "task-force-b" "Prove lemma L5." [] (Some 4%Z) false
       (deployNewAgent silentEnv "task-force-a" "Prove lemma L5." [] (Some 3%Z) false
          (set_cycleCounter 2 (initialMission None)))).

(** The counters met while a sequence of payloads is applied. *)
Fixpoint stagnationTrace (env : Env) (payloads : list SynthesizerResponse) (m : Mission)
  : list nat :=
  match payloads with
  | [] => []
  | p :: rest =>
      let m' := fst (parseAndApplyArchitectResponse env p m) in
      stagnationCounter m' :: stagnationTrace env rest m'
  end.

(** The counters a sequence of assessments leads through, from [counter]:
    one more after a level above 0, zero after any other level, the same
    after a payload without assessment. *)
Fixpoint steppedCounters (levels : list (option Z)) (counter : nat) : list nat :=
  match levels with
  | [] => []
  | level :: rest =>
      let counter' :=
        match level with
        | Some level => if (0 <? level)%Z then S counter else 0
        | None => counter
        end in
      counter' :: steppedCounters rest counter'
  end.

(** A payload that carries nothing but its assessment. *)
Definition assessmentOnly (level : Z) : SynthesizerResponse :=
  {| knowledge_update := None; strategic_planning := None;
     strategic_assessment := Some {| stagnation_level := level; justification := "none" |};
     synthesis_summary := None |}.

(** The conversation [runArchitectStep] opens with. *)
Definition firstRequest (specialistOutputs : list (string * string)) (m : Mission) : list Turn :=
  let '(chaosInterventionPrompt, m') := chaosIntervention m in
  [{| role := "user";
      parts := [PromptPart (architectPrompt chaosInterventionPrompt specialistOutputs m')] |}].

(** How often [label] occurs in a window. *)
Definition occurrences (label : string) (l : list string) : nat :=
  length (filter (fun focus => focus = label) l).

(** The value recorded for a label, if the record has an entry for it. *)
Definition recorded (label : string) (acc : list (string * FocusCount)) : option FocusCount :=
  snd <$> find (fun e => String.eqb (fst e) label) acc.

(** What the record of a window holds for a label: nothing for a label that
    does not occur, the number of its occurrences for an ordinary label, and
    for an inherited name no number, or nothing at all for [__proto__]. *)
Definition tally (label : string) (window : list string) : option FocusCount :=
  if decide (occurrences label window = 0) then None
  else if decide (label ∈ inheritedNames)
       then if decide (label = "__proto__") then None else Some NotANumber
       else Some (Counted (occurrences label window)).

(** The share of [label] in a window: occurrences over [STRATEGIC_BIAS_WINDOW]. *)
Definition share (label : string) (window : list string) : Q :=
  (inject_Z (Z.of_nat (occurrences label window)) /
   inject_Z (Z.of_nat STRATEGIC_BIAS_WINDOW))%Q.

(** The scheduler's own variables and the store. *)
Definition schedulerState (m : Mission) :=
  (isSearching m, searchIntervalId m, finalProofContent m, db m, statusSuccess m).

(** The snapshot under the fixed key of the store, if any. *)
Definition persistedSnapshot (m : Mission) : option MissionState :=
  db m ≫= lookup DB_KEY.

(** A prefix that ends in a character other than white space survives the
    trimming of the end. *)
Fixpoint endsNonSpace (p : string) : bool :=
  match p with
  | EmptyString => false
  | String c EmptyString => negb (JS.is_space c)
  | String _ p' => endsNonSpace p'
  end.

(** A mission in the Running state: the flag is up, the interval armed, a
    snapshot saved. *)
Definition runningMission : Mission :=
  saveStateToDB
    (set_searchIntervalId (Some 1%positive)
       (set_isSearching true (initialMission (Some ∅)))).

(** Every character of [s] is an ASCII character. *)
Fixpoint asciiText (s : string) : bool :=
  match s with
  | EmptyString => true
  | String c s' => (nat_of_ascii c <? 128)%nat && asciiText s'
  end.

(** The relations of the nodes are ASCII text. *)
Definition asciiRelations (nodes : list KnowledgeNode) : Prop :=
  Forall (fun node => Forall (fun rel => asciiText rel = true) (kn_relations node)) nodes.

(** The string consists of white space. *)
Fixpoint blank (s : string) : bool :=
  match s with
  | EmptyString => true
  | String c s' => JS.is_space c && blank s'
  end.

(** The payload can be applied to the end: when it carries nodes, it names
    research vectors (reading them is not guarded in the loop over the
    nodes). *)
Definition applicable (p : SynthesizerResponse) : Prop :=
  match knowledge_update p with
  | Some (_ :: _) => is_Some (strategic_planning p ≫= research_vectors)
  | _ => True
  end.

(** A final payload that assesses the stagnation at level 2 and whose
    summary begins with the terminal marker. *)
Definition provenPayload : SynthesizerResponse :=
  {| knowledge_update := None; strategic_planning := None;
     strategic_assessment := Some {| stagnation_level := 2; justification := "none" |};
     synthesis_summary := Some "PROOF COMPLETE: P and NP are separated." |}.

(** A silent environment whose parse of the architect's final text is [p]. *)
Definition parsingEnv (p : SynthesizerResponse) : Env :=
  {| generateContent := generateContent silentEnv;
     googleSearch := googleSearch silentEnv;
     embedContent := embedContent silentEnv;
     runPython := runPython silentEnv;
     mathRandom := mathRandom silentEnv;
     mountColumn := mountColumn silentEnv;
     parseFinal := fun _ => Some p |}.

(** A payload that carries nothing but its summary. *)
Definition summaryOnly (summary : string) : SynthesizerResponse :=
  {| knowledge_update := None; strategic_planning := None;
     strategic_assessment := None; synthesis_summary := Some summary |}.

(** A summary with a blank before the marker: it does not begin with the
    marker, and passes the test all the same, which is made on the trimmed
    summary. *)
Definition paddedSummary : string := " PROOF COMPLETE: P and NP are separated.".

(** A non-seed agent of the active list: what [clearAllNotebooks] retires. *)
Definition dynamicAgent (m : Mission) (id : string) : Prop :=
  id ∈ activeSpecialists m ∧ id ∉ seedAgents.

(** The metrics after a reset: the six seed agents at zero. *)
Definition seedMetrics : gmap string Metric :=
  list_to_map (map (fun id => (id, zeroMetric)) seedAgents).

(** The mission after the store is cleared and the dynamic agents retired,
    where the assignments of [clearAllNotebooks] begin. *)
Definition afterRetirements (m : Mission) : Mission :=
  retireEach (fun id => id) (fun _ => "New mission started.")
    (filter (fun id => id ∉ seedAgents) (activeSpecialists m))
    (set_db ((fun _ => ∅) <$> db m) m).

(** A mission in which the architect has re-prompted one seed agent and
    retired another, both through its tools. *)
Definition evolvedMission : Mission :=
  fst (toolEffect silentEnv (retire_agent "specialist-2" "Persistently ineffective.")
    (fst (toolEffect silentEnv
            (modify_agent_prompt "specialist-1" "Study circuit lower bounds only."
               "High potential, low output.")
            (initialMission (Some ∅))))).

(** The invariant of the store: keys are pairwise distinct, every node is
    stored under its own id, and every id was made from a counter value
    below the current one. *)
Definition graphWf (m : Mission) : Prop :=
  NoDup (map fst (knowledgeGraphMap m)) ∧
  ∀ k n, (k, n) ∈ knowledgeGraphMap m →
         kn_id n = k ∧ ∃ t c, k = newNodeId t c ∧ c < knowledgeNodeCounter m.

(** The node [applyKnowledgeNode] stores for an entry of [knowledge_update]. *)
Definition insertedNode (vs : list ResearchVector) (node : KnowledgeUpdate) (counter : nat)
  : KnowledgeNode :=
  {| kn_id := newNodeId (ku_type node) counter; kn_type := ku_type node;
     kn_content := ku_content node; kn_relations := ku_relations node;
     kn_invalidated := None; kn_verified := None; kn_createdBy := ku_created_by node;
     kn_promiseScore :=
       Some (from_option rv_promise_score (1 # 2)%Q
               (find (fun v => JS.includes (JS.substring0 50 (rv_description v)) (ku_content node))
                     vs)) |}.

(** Two entries of a [knowledge_update]. *)
Definition twoNodes : list KnowledgeUpdate :=
  [{| ku_type := HYPOTHESIS; ku_content := "Circuit lower bounds relativize.";
      ku_relations := []; ku_created_by := Some "specialist-1" |};
   {| ku_type := REFUTATION; ku_content := "They do not: see natural proofs.";
      ku_relations := ["REFUTES:H0"]; ku_created_by := Some "specialist-5" |}].

(** [rel] invalidates [target]: split at the colons, its first field reads
    [INVALIDATES] or [REFUTES] once upper-cased and its second field is
    [target]. *)
Definition targets (rel target : string) : Prop :=
  ∃ action rest,
    JS.split ":" rel = action :: target :: rest ∧
    (JS.toUpperCase action = "INVALIDATES" ∨ JS.toUpperCase action = "REFUTES").

(** The relation strings the specification speaks of. *)
Definition exactForm (rel target : string) : Prop :=
  rel = "REFUTES:" +:+ target ∨ rel = "INVALIDATES:" +:+ target.

(** No character of [s] is the separator. *)
Fixpoint free_of (sep : ascii) (s : string) : bool :=
  match s with
  | EmptyString => true
  | String c s' => negb (Ascii.eqb c sep) && free_of sep s'
  end.

(** A payload that carries nodes and an empty list of research vectors. *)
Definition nodesPayload (nodes : list KnowledgeUpdate) : SynthesizerResponse :=
  {| knowledge_update := Some nodes;
     strategic_planning := Some {| strategic_focus := None; research_vectors := Some [] |};
     strategic_assessment := None; synthesis_summary := None |}.

(** The mission after a payload whose single node names its own id. *)
Definition selfRefutingMission : Mission :=
  fst (parseAndApplyArchitectResponse silentEnv
         (nodesPayload
            [{| ku_type := HYPOTHESIS; ku_content := "This hypothesis refutes itself.";
                ku_relations := ["REFUTES:H0"]; ku_created_by := None |}])
         (initialMission None)).

(** The mission after a payload whose second node refutes the first in
    lower case. *)
Definition lowerCaseMission : Mission :=
  fst (parseAndApplyArchitectResponse silentEnv
         (nodesPayload
            [{| ku_type := HYPOTHESIS; ku_content := "P equals NP."; ku_relations := [];
                ku_created_by := None |};
             {| ku_type := REFUTATION; ku_content := "It does not."; ku_relations := ["refutes:H0"];
                ku_created_by := None |}])
         (initialMission None)).

(** The first node of [lowerCaseMission] as the graph holds it. *)
Definition flaggedHypothesis : KnowledgeNode :=
  {| kn_id := "H0"; kn_type := HYPOTHESIS; kn_content := "P equals NP."; kn_relations := [];
     kn_invalidated := Some true; kn_verified := None; kn_createdBy := None;
     kn_promiseScore := Some (1 # 2)%Q |}.

(** Id, relations and flag of every node, in the order of the graph. *)
Definition flags (m : Mission) : list (string * list string * option bool) :=
  map (fun e => (kn_id (snd e), kn_relations (snd e), kn_invalidated (snd e)))
      (knowledgeGraphMap m).

(** [a] ranks at least as high as [b]. *)
Definition scoreGe (a b : string * float) : Prop := (snd b <=? snd a)%float = true.

(** The entries of score [s], as a test (the two zeros are one score). *)
Definition tied (s : float) (e : string * float) : bool := (snd e =? s)%float.

(** The score of the entry is a number, not NaN. *)
Definition isNumber (e : string * float) : Prop := is_nan (snd e) = false.

(** The scores [performSemanticSearch] computes, in the order of the index. *)
Definition scoresOf (queryEmbedding : list float) (base : list VectorEntry)
  : list (string * float) :=
  map (fun item => (ve_id item, cosineSimilarity queryEmbedding (embedding item))) base.

(** The vectors of the specification's example. *)
Definition vecA : list float := [1; 0]%float.
Definition entryB : VectorEntry := {| ve_id := "B"; embedding := [1; 0]%float |}.
Definition entryC : VectorEntry := {| ve_id := "C"; embedding := [0; 1]%float |}.

(** A query vector and three entries along its axis: one pointing the other
    way, one so long that its dot product with the query and its magnitude
    overflow, one of length 1. *)
Definition overflowQuery : list float := [0x1p+500%float].
Definition entryBelow : VectorEntry := {| ve_id := "N0"; embedding := [(-1)%float] |}.
Definition entryBeyond : VectorEntry := {| ve_id := "N1"; embedding := [0x1p+600%float] |}.
Definition entryAlong : VectorEntry := {| ve_id := "N2"; embedding := [1%float] |}.

(** The number [x] has the sign [s] and is not zero (nor NaN). *)
Definition signed (s : bool) (x : spec_float) : Prop :=
  match x with
  | S754_finite s' _ _ | S754_infinity s' => s' = s
  | _ => False
  end.

(** [msg] names [id]: the id occurs in it. *)
Definition mentions (msg id : string) : Prop := ∃ pre post, msg = pre +:+ id +:+ post.

(** The node ids a tool call refers to that are not in the graph. *)
Definition missingNodeRefs (m : Mission) (call : ToolCall) : list string :=
  match call with
  | invoke_intuitionist node_id_A node_id_B _ => missingNodes m node_id_A node_id_B
  | challenge_with_skeptic node_id _ | request_formal_verification node_id _ =>
      match kg_get node_id (knowledgeGraphMap m) with Some _ => [] | None => [node_id] end
  | _ => []
  end.

(** The response of [request_formal_verification] on a missing node. *)
Definition nodeNotFound : list (string * JVal) :=
  [("success", JBool true); ("verified", JBool false);
   ("feedback", JStr "Verification failed: Node not found.")].

(** What is reported for a reference to a missing node: for
    [request_formal_verification] the fixed response [nodeNotFound], for the
    other tools a response with [success: false] and an [error] that names
    every missing id. *)
Definition reportsMissing (call : ToolCall) (missing : list string) (r : FunctionResponse)
  : Prop :=
  fr_name r = call_name call ∧
  match call with
  | request_formal_verification _ _ => fr_response r = nodeNotFound
  | _ =>
      response_field "success" r = Some (JBool false) ∧
      ∃ msg, response_field "error" r = Some (JStr msg) ∧ ∀ id, id ∈ missing → mentions msg id
  end.

(** An id that is nowhere in the registry. *)
Definition unknownAgent (m : Mission) (id : string) : Prop :=
  notebooks m !! id = None ∧ specialistPrompts m !! id = None ∧
  specialistMetadata m !! id = None ∧ agentPerformanceMetrics m !! id = None ∧
  id ∉ activeSpecialists m.

(** ** Vocabulary of the further properties *)

(** The log entry [deployNewAgent] writes into the new notebook. *)
Definition deploymentNote (id missionPrompt : string) (lifespan : option Z) : LogEntry :=
  {| log_id := id +:+ "-log-0";
     rawMarkdown :=
       "**New Specialist Deployed**" +:+ JS.nl +:+ JS.nl +:+
       "**Mission:** " +:+ missionPrompt +:+ JS.nl +:+
       "**Lifespan:** " +:+ lifespanText lifespan |}.

(** The registry entries of one agent. *)
Definition agentRecord (m : Mission) (id : string) :=
  (notebooks m !! id, specialistPrompts m !! id, specialistMetadata m !! id,
   agentPerformanceMetrics m !! id).

(** Everything outside the agent registry. *)
Definition outsideRegistry (m : Mission) :=
  ((knowledgeGraphMap m, knowledgeNodeCounter m, vectorKnowledgeBase m),
   (stagnationCounter m, strategicFocusHistory m, cycleCounter m,
    currentMissionObjective m, activeResearchVector m),
   (isSearching m, searchIntervalId m, finalProofContent m, db m, statusSuccess m)).

(** The entry [retireAgent] writes into the architect's log. *)
Definition retirementNote (id reason : string) : string :=
  "**Agent Retired**" +:+ JS.nl +:+ JS.nl +:+ "- **ID:** " +:+ id +:+ JS.nl +:+
  "- **Reason:** " +:+ reason.

(** A stored node without its [invalidated] flag. *)
Definition unflagged (e : string * KnowledgeNode) :=
  (fst e, kn_id (snd e), kn_type (snd e), kn_content (snd e), kn_relations (snd e),
   kn_verified (snd e), kn_createdBy (snd e), kn_promiseScore (snd e)).

(** The promise score [applyKnowledgeNode] gives a node: that of the first
    research vector whose description, cut at 50 characters, occurs in the
    node's content, 0.5 when there is none. *)
Definition promiseOf (vs : list ResearchVector) (node : KnowledgeUpdate) : Q :=
  from_option rv_promise_score (1 # 2)%Q
    (find (fun v => JS.includes (JS.substring0 50 (rv_description v)) (ku_content node)) vs).

(** The nodes of a payload credited to an agent. *)
Definition creditedTo (agent : string) (nodes : list KnowledgeUpdate) : list KnowledgeUpdate :=
  filter (fun node => ku_created_by node = Some agent) nodes.

(** The directives among the nodes of a payload. *)
Definition directives (nodes : list KnowledgeUpdate) : list KnowledgeUpdate :=
  filter (fun node => ku_type node = DIRECTIVE) nodes.

(** The first step of [parseAndApplyArchitectResponse]: the focus of the
    payload, when it has one, is pushed onto the history. *)
Definition recordFocus (parsedResponse : SynthesizerResponse) (m : Mission) : Mission :=
  match strategic_planning parsedResponse ≫= strategic_focus with
  | Some focus =>
      if String.eqb focus EmptyString then m
      else set_strategicFocusHistory (strategicFocusHistory m ++ [focus]) m
  | None => m
  end.

(** Its third step: the best research vector becomes the active one. *)
Definition adoptBestVector (vectors : list ResearchVector) (m : Mission) : Mission :=
  match bestResearchVector vectors with
  | Some bestVector =>
      if String.eqb bestVector EmptyString then m
      else set_activeResearchVector bestVector m
  | None => m
  end.

(** The metrics of an agent after the nodes credited to it. *)
Definition credit (vs : list ResearchVector) (credited : list KnowledgeUpdate) (metrics : Metric)
  : Metric :=
  {| nodesCreated := nodesCreated metrics + length credited;
     totalPromise := foldl Qplus (totalPromise metrics) (map (promiseOf vs) credited) |}.

(** The index entry of a node, if the embedding service gives one. *)
Definition indexEntry (env : Env) (id content : string) : option VectorEntry :=
  (fun embedding => {| ve_id := id; embedding := embedding |}) <$> getEmbedding env content.

(** The index of a list of nodes. *)
Definition indexOf (env : Env) (nodes : list KnowledgeNode) : list VectorEntry :=
  omap (fun node => indexEntry env (kn_id node) (kn_content node)) nodes.

(** The index of the mission is the index of its graph. *)
Definition indexed (env : Env) (m : Mission) : Prop :=
  vectorKnowledgeBase m = indexOf env (kg_values (knowledgeGraphMap m)).

(** A stored node without its two flags. *)
Definition nodeCore (e : string * KnowledgeNode) :=
  (fst e, kn_id (snd e), kn_type (snd e), kn_content (snd e), kn_relations (snd e),
   kn_createdBy (snd e), kn_promiseScore (snd e)).

(** What the architect's knowledge consists of, flags apart. *)
Definition knowledge (m : Mission) :=
  (map nodeCore (knowledgeGraphMap m), knowledgeNodeCounter m, vectorKnowledgeBase m,
   currentMissionObjective m, activeResearchVector m,
   (stagnationCounter m, strategicFocusHistory m, cycleCounter m)).

(** Every component of the vector is zero. *)
Definition zeroVector (vec : list float) : Prop := Forall (fun x => (x =? 0)%float = true) vec.

(** A vector whose similarity with itself is rounded to the double above 1. *)
Definition roundedUp : list float :=
  [0x1.36db6db6db6dbp+1; 0x1.28ba2e8ba2e8cp+2; 0x1.4ec4ec4ec4ec5p+0]%float.

(** One round of the dispatch loop, as it shows in the conversation: the
    batch the model asked for and the one response sent back. *)
Definition roundTurns (step : ToolCall * list ToolCall * option FunctionResponse) : list Turn :=
  let '(call, others, answer) := step in [modelTurn call others; toolTurn answer].

(** The response answers the call by name ([None] stands for [undefined]). *)
Definition answersCall (call : ToolCall) (answer : option FunctionResponse) : Prop :=
  match answer with
  | Some r => fr_name r = call_name call
  | None => True
  end.

(** The outcome of a formal verification under the draw of the environment. *)
Definition drawVerifies (env : Env) (proof_code : string) : bool :=
  negb (Qle_bool (successChance proof_code) (fst (mathRandom env))).

(** The entries of a notebook are numbered in the order they were written:
    the [i]-th has the id [<notebook>-log-<i>], and the counter is their
    number. *)
Definition notebookWf (id : string) (nb : NotebookState) : Prop :=
  logCounter nb = length (logs nb) ∧
  ∀ i entry, logs nb !! i = Some entry → log_id entry = id +:+ "-log-" +:+ pretty i.

Definition logsWf (m : Mission) : Prop :=
  ∀ id nb, notebooks m !! id = Some nb → notebookWf id nb.

(** One block of [getLogHistory]. *)
Definition previousStep (markdown : string) : string :=
  "--- PREVIOUS STEP ---" +:+ JS.nl +:+ markdown +:+ JS.nl.

Definition NO_HISTORY : string :=
  "No previous steps have been generated. This is the first step.".

(** A saved notebook as [restoreLogs] writes it back: the entries keep their
    text and are numbered anew. *)
Definition relogged (id : string) (savedLogs : list LogEntry) : NotebookState :=
  {| logs := imap (fun i log => {| log_id := id +:+ "-log-" +:+ pretty i;
                                   rawMarkdown := rawMarkdown log |}) savedLogs;
     logCounter := length savedLogs |}.

(** The agent a load deploys for an id of the saved active list that has no
    notebook: prompt and metadata as saved (with the defaults of the source
    where nothing was saved), but created at the cycle of the snapshot, with
    metrics at zero. *)
Definition reloadedAgent (missionState : MissionState) (id : string) :=
  (Some (default "Loaded Agent" (ms_specialistPrompts missionState !! id)),
   Some {| required_tools :=
             from_option required_tools [] (ms_specialistMetadata missionState !! id);
           lifespan_cycles := ms_specialistMetadata missionState !! id ≫= lifespan_cycles;
           creationCycle := ms_cycleCounter missionState |},
   Some zeroMetric).

(** The graph keys are the ids of the nodes stored under them, without
    repeats. *)
Definition keyedById (g : list (string * KnowledgeNode)) : Prop :=
  NoDup (map fst g) ∧ ∀ k n, (k, n) ∈ g → kn_id n = k.

(** The agents a load deploys: those of the list that had no notebook, on a
    page that can hold their column. *)
Definition loadsAgent (env : Env) (l : list string) (m : Mission) (k : string) : Prop :=
  k ∈ l ∧ notebooks m !! k = None ∧ mountColumn env k = true.

#[local] Instance loadsAgent_dec env l m k : Decision (loadsAgent env l m k).
Proof. unfold loadsAgent. apply _. Defined.

(** The mission [loadStateFromDB] leaves when it finds the snapshot
    [missionState]. *)
Definition loaded (env : Env) (missionState : MissionState) (m : Mission) : Mission :=
  rebuildKnowledgeBaseVectors env (ms_knowledgeGraph missionState)
    (renderKnowledgeGraph
       (map_fold restoreLogs
          (deployLoadedAgents env
             (restoreVariables missionState (retireDynamicAgents (stopSearch false m))))
          (ms_notebookLogs missionState))).

(** Saving, then loading at once. *)
Definition resumed (env : Env) (m : Mission) : Mission :=
  fst (loadStateFromDB env (saveStateToDB m)).

(** [x || d] on strings. *)
Definition orElse (s d : string) : string := if String.eqb s EmptyString then d else s.

(** An agent whose column the load has to build again: it is on the saved
    active list, and it has no notebook once the dynamic agents of the
    running mission are retired. *)
Definition reloads (env : Env) (missionState : MissionState) (m : Mission) (id : string) : Prop :=
  id ∈ ms_activeSpecialists missionState ∧
  (notebooks m !! id = None ∨ dynamicAgent m id) ∧
  mountColumn env id = true.

(** A notebook the load keeps or builds: one of the running mission that is
    not retired as a dynamic agent, or one of an agent it deploys again. *)
Definition keepsNotebook (env : Env) (missionState : MissionState) (m : Mission) (id : string)
  : Prop :=
  (is_Some (notebooks m !! id) ∧ ¬ dynamicAgent m id) ∨ reloads env missionState m id.

(** The agents a cycle runs on a mission: the active ones, the Skeptic and
    the Intuitionist apart. *)
Definition specialistsToRun (m : Mission) : list string :=
  filter (fun id => id ∉ ["specialist-5"; "specialist-6"]) (activeSpecialists m).

(** The mission at the start of the specialists' phase of a cycle. *)
Definition cycleStart (m : Mission) : Mission :=
  checkAgentLifecycles (set_cycleCounter (cycleCounter m + 1) m).

(** The interval handle is set only while the search is on. *)
Definition timerOnlyWhileSearching (m : Mission) : Prop :=
  isSearching m = false → searchIntervalId m = None.

(** The character [c] occurs in [s]. *)
Fixpoint occurs (c : ascii) (s : string) : bool :=
  match s with
  | EmptyString => false
  | String a s' => Ascii.eqb a c || occurs c s'
  end.

(** [s] is [body] in braces, with no [{] before and no [}] after. *)
Definition wrapped (body s : string) : Prop :=
  ∃ pre post, s = pre +:+ String "{" (body +:+ String "}" post) ∧
              occurs "{" pre = false ∧ occurs "}" post = false.

(** * Properties *)

Section AddLogEntry.
Variables (notebookId markdown : string) (m : Mission).

Lemma addLogEntry_dom :
  dom (notebooks (addLogEntry notebookId markdown m)) = dom (notebooks m).
Proof.
  unfold addLogEntry. destruct (notebooks m !! notebookId) as [nb|] eqn:E; [|done].
  cbn. rewrite dom_insert_L. apply elem_of_dom_2 in E. set_solver.
Qed.

Lemma addLogEntry_lookup_ne k :
  k ≠ notebookId →
  notebooks (addLogEntry notebookId markdown m) !! k = notebooks m !! k.
Proof.
  intros Hne. unfold addLogEntry.
  destruct (notebooks m !! notebookId); [|done].
  cbn. by rewrite lookup_insert_ne.
Qed.

Lemma addLogEntry_is_Some k :
  is_Some (notebooks (addLogEntry notebookId markdown m) !! k) ↔ is_Some (notebooks m !! k).
Proof. rewrite <- !elem_of_dom, addLogEntry_dom. done. Qed.

Lemma addLogEntry_None k :
  notebooks (addLogEntry notebookId markdown m) !! k = None ↔ notebooks m !! k = None.
Proof. rewrite !eq_None_not_Some, addLogEntry_is_Some. done. Qed.

(** Nothing but the notebooks is written. *)
Lemma addLogEntry_frame :
  let m' := addLogEntry notebookId markdown m in
  activeSpecialists m' = activeSpecialists m ∧
  specialistPrompts m' = specialistPrompts m ∧
  specialistMetadata m' = specialistMetadata m ∧
  agentPerformanceMetrics m' = agentPerformanceMetrics m ∧
  knowledgeGraphMap m' = knowledgeGraphMap m ∧
  knowledgeNodeCounter m' = knowledgeNodeCounter m ∧
  vectorKnowledgeBase m' = vectorKnowledgeBase m ∧
  stagnationCounter m' = stagnationCounter m ∧
  strategicFocusHistory m' = strategicFocusHistory m ∧
  cycleCounter m' = cycleCounter m ∧
  currentMissionObjective m' = currentMissionObjective m ∧
  activeResearchVector m' = activeResearchVector m ∧
  isSearching m' = isSearching m ∧
  searchIntervalId m' = searchIntervalId m ∧
  finalProofContent m' = finalProofContent m ∧
  db m' = db m ∧
  statusSuccess m' = statusSuccess m.
Proof.
  unfold addLogEntry. destruct (notebooks m !! notebookId); cbn; repeat split.
Qed.

Lemma coreState_addLogEntry :
  coreState (addLogEntry notebookId markdown m) = coreState m.
Proof.
  unfold coreState. rewrite addLogEntry_dom.
  destruct addLogEntry_frame as (-> & -> & -> & -> & -> & -> & -> & -> & -> & -> &
                                  -> & -> & -> & -> & -> & -> & ->).
  reflexivity.
Qed.
End AddLogEntry.

(** ** Doubles: the order, and the sign of a difference *)

Section SpecFloatOrder.
Implicit Types (x y z : spec_float).

Lemma compare_cont_Eq p q : PosDef.Pos.compare_cont Eq p q = (p ?= q)%positive.
Proof. reflexivity. Qed.

Ltac sf_order :=
  unfold SFltb, SFleb, SFeqb, SFcompare;
  repeat match goal with x : spec_float |- _ => destruct x as [[]|[]| |[] ? ?] end;
  cbn; try congruence;
  repeat match goal with
         | |- context [PosDef.Pos.compare_cont Eq ?a ?b] => rewrite (compare_cont_Eq a b)
         | |- context [(?a ?= ?b)%Z] => destruct (Z.compare_spec a b)
         | |- context [(?a ?= ?b)%positive] => destruct (Pos.compare_spec a b)
         end; cbn; try congruence; try lia.

Lemma SFleb_trans x y z : SFleb x y = true → SFleb y z = true → SFleb x z = true.
Proof. sf_order. Qed.

Lemma SFltb_leb x y : SFltb x y = true → SFleb x y = true.
Proof. sf_order. Qed.

Lemma SFleb_total x y :
  x ≠ S754_nan → y ≠ S754_nan → SFltb x y = false → SFleb y x = true.
Proof. sf_order. Qed.

Lemma SFltb_eqb x y s : SFeqb x s = true → SFeqb y s = true → SFltb x y = false.
Proof. sf_order. Qed.

Lemma SFeqb_irrefl_nan x : SFeqb x x = false → x = S754_nan.
Proof.
  destruct x as [[]|[]| |[] m e]; cbn; try congruence;
    unfold SFeqb; cbn [SFcompare];
    rewrite Z.compare_refl, compare_cont_Eq, Pos.compare_refl; cbn; congruence.
Qed.

Lemma SFleb_nan x y : x = S754_nan ∨ y = S754_nan → SFleb x y = false.
Proof. intros [-> | ->]; [reflexivity|]. by destruct x. Qed.
End SpecFloatOrder.

Section SpecFloatSub.
Variables prec emax : Z.
Hypothesis Hprec : (0 < prec)%Z.
Local Abbreviation emin := (SpecFloat.emin prec emax).
Local Abbreviation fexp := (SpecFloat.fexp prec emax).
Local Open Scope Z_scope.

Lemma digits2_pos_bounds m :
  2 ^ (Zpos (digits2_pos m) - 1) <= Zpos m < 2 ^ Zpos (digits2_pos m).
Proof.
  induction m as [m IH|m IH|]; cbn [digits2_pos].
  - rewrite Pos2Z.inj_succ, (Pos2Z.inj_xI m).
    replace (Z.succ (Zpos (digits2_pos m)) - 1) with (Z.succ (Zpos (digits2_pos m) - 1)) by lia.
    rewrite !Z.pow_succ_r by lia.
    revert IH. generalize (2 ^ (Zpos (digits2_pos m) - 1)) (2 ^ Zpos (digits2_pos m)). lia.
  - rewrite Pos2Z.inj_succ, (Pos2Z.inj_xO m).
    replace (Z.succ (Zpos (digits2_pos m)) - 1) with (Z.succ (Zpos (digits2_pos m) - 1)) by lia.
    rewrite !Z.pow_succ_r by lia.
    revert IH. generalize (2 ^ (Zpos (digits2_pos m) - 1)) (2 ^ Zpos (digits2_pos m)). lia.
  - cbn. lia.
Qed.

Lemma iter_xO m d : Zpos (Pos.iter xO m d) = Zpos m * 2 ^ Zpos d.
Proof.
  induction d as [|d IH] using Pos.peano_ind.
  - cbn. lia.
  - rewrite Pos.iter_succ, Pos2Z.inj_xO, IH, Pos2Z.inj_succ, Z.pow_succ_r by lia. lia.
Qed.

Lemma shl_align_fst mx ex ez :
  ez <= ex → Zpos (fst (shl_align mx ex ez)) = Zpos mx * 2 ^ (ex - ez).
Proof.
  intros Hle. unfold shl_align. destruct (ez - ex) as [|d|d] eqn:E; cbn [fst].
  - replace (ex - ez) with 0 by lia. cbn. lia.
  - lia.
  - rewrite iter_xO. f_equal. f_equal. lia.
Qed.

Lemma canonical_bounds m e :
  canonical_mantissa prec emax m e = true →
  emin <= e ∧ Zpos (digits2_pos m) <= prec ∧ (emin < e → Zpos (digits2_pos m) = prec).
Proof. unfold canonical_mantissa, SpecFloat.fexp. intros H%Z.eqb_eq. lia. Qed.

Lemma aligned_compare mx ex my ey :
  canonical_mantissa prec emax mx ex = true → canonical_mantissa prec emax my ey = true →
  (Zpos (fst (shl_align mx ex (Z.min ex ey))) ?= Zpos (fst (shl_align my ey (Z.min ex ey)))) =
  match ex ?= ey with
  | Lt => Lt
  | Gt => Gt
  | Eq => (mx ?= my)%positive
  end.
Proof.
  intros Hx%canonical_bounds Hy%canonical_bounds.
  rewrite !shl_align_fst by lia.
  pose proof (digits2_pos_bounds mx) as Bx. pose proof (digits2_pos_bounds my) as By.
  destruct (Z.compare_spec ex ey) as [E|E|E].
  - subst ey. rewrite Z.min_id, Z.sub_diag, !Z.mul_1_r. reflexivity.
  - rewrite Z.min_l by lia. rewrite Z.sub_diag, Z.mul_1_r. apply Z.compare_lt_iff.
    destruct Hy as (_ & _ & Hy). rewrite (Hy ltac:(lia)) in By.
    assert (2 ^ Zpos (digits2_pos mx) <= 2 ^ prec) by (apply Z.pow_le_mono_r; lia).
    assert (2 ^ 1 <= 2 ^ (ey - ex)) by (apply Z.pow_le_mono_r; lia).
    assert (2 ^ prec = 2 ^ (prec - 1) * 2 ^ 1)
      by (rewrite <- Z.pow_add_r by lia; f_equal; lia).
    nia.
  - rewrite Z.min_r by lia. rewrite Z.sub_diag, Z.mul_1_r. apply Z.compare_gt_iff.
    destruct Hx as (_ & _ & Hx). rewrite (Hx ltac:(lia)) in Bx.
    assert (2 ^ Zpos (digits2_pos my) <= 2 ^ prec) by (apply Z.pow_le_mono_r; lia).
    assert (2 ^ 1 <= 2 ^ (ex - ey)) by (apply Z.pow_le_mono_r; lia).
    assert (2 ^ prec = 2 ^ (prec - 1) * 2 ^ 1)
      by (rewrite <- Z.pow_add_r by lia; f_equal; lia).
    nia.
Qed.

(** On valid numbers the structural comparison is the comparison of the
    values, brought to one exponent. *)
Lemma SFcompare_aligned sx mx ex sy my ey :
  canonical_mantissa prec emax mx ex = true → canonical_mantissa prec emax my ey = true →
  SFcompare (S754_finite sx mx ex) (S754_finite sy my ey) =
  Some (cond_Zopp sx (Zpos (fst (shl_align mx ex (Z.min ex ey)))) ?=
        cond_Zopp sy (Zpos (fst (shl_align my ey (Z.min ex ey))))).
Proof.
  intros Hx Hy. pose proof (aligned_compare mx ex my ey Hx Hy) as H.
  revert H. cbn [SFcompare].
  generalize (fst (shl_align mx ex (Z.min ex ey))) (fst (shl_align my ey (Z.min ex ey))).
  intros X Y H. f_equal. rewrite compare_cont_Eq.
  destruct sx, sy; cbn [cond_Zopp].
  - rewrite Z.compare_opp, (Z.compare_antisym (Zpos X) (Zpos Y)), H.
    destruct (ex ?= ey); reflexivity.
  - reflexivity.
  - reflexivity.
  - rewrite H. destruct (ex ?= ey); reflexivity.
Qed.

Lemma shr_1_m r : 0 <= shr_m r → shr_m (shr_1 r) = shr_m r / 2.
Proof.
  destruct r as [m b c]. cbn [shr_m]. intros Hm.
  destruct m as [|[p|p|]|p]; cbn [shr_1 shr_m]; try lia.
  - reflexivity.
  - rewrite (Pos2Z.inj_xI p). apply Z.div_unique with 1; lia.
  - rewrite (Pos2Z.inj_xO p). apply Z.div_unique with 0; lia.
  - reflexivity.
Qed.

Lemma iter_shr_1_m p : ∀ r,
  0 <= shr_m r → shr_m (SpecFloat.iter_pos shr_1 p r) = shr_m r / 2 ^ Zpos p.
Proof.
  induction p as [p IH|p IH|]; intros r Hr; cbn [SpecFloat.iter_pos].
  - assert (0 < 2 ^ Zpos p) as Hp by (apply Z.pow_pos_nonneg; lia).
    assert (0 <= shr_m r / 2) as H2 by (apply Z.div_pos; lia).
    assert (0 <= shr_m r / 2 / 2 ^ Zpos p) as H3 by (apply Z.div_pos; lia).
    rewrite (IH (SpecFloat.iter_pos shr_1 p (shr_1 r))), (IH (shr_1 r)), shr_1_m;
      rewrite ?(IH (shr_1 r)), ?shr_1_m; try assumption.
    rewrite !Z.div_div by lia. f_equal.
    rewrite (Pos2Z.inj_xI p), Z.pow_add_r, Z.pow_mul_r by lia.
    change (2 ^ 2) with 4. change (2 ^ 1) with 2.
    replace 4 with (2 * 2) by reflexivity. rewrite Z.pow_mul_l. lia. rewrite shr_1_m; assumption.
  - assert (0 < 2 ^ Zpos p) as Hp by (apply Z.pow_pos_nonneg; lia).
    assert (0 <= shr_m r / 2 ^ Zpos p) as H3 by (apply Z.div_pos; lia).
    rewrite (IH (SpecFloat.iter_pos shr_1 p r)), (IH r); rewrite ?(IH r); try assumption.
    rewrite !Z.div_div by lia. f_equal.
    rewrite (Pos2Z.inj_xO p), Z.pow_mul_r by lia.
    change (2 ^ 2) with 4. replace 4 with (2 * 2) by reflexivity. rewrite Z.pow_mul_l. lia.
  - rewrite shr_1_m by lia. reflexivity.
Qed.

Lemma shr_record_of_loc_m m l : shr_m (shr_record_of_loc m l) = m.
Proof. destruct l as [|[]]; reflexivity. Qed.

Lemma shr_fexp_pos m e l :
  0 < m → emin <= e →
  0 < shr_m (fst (shr_fexp prec emax m e l)) ∧ emin <= snd (shr_fexp prec emax m e l).
Proof.
  intros Hm He. unfold shr_fexp, shr.
  destruct m as [|m|m]; try lia. cbn [Zdigits2].
  pose proof (digits2_pos_bounds m) as Bm.
  destruct (fexp (Zpos (digits2_pos m) + e) - e) as [|k|k] eqn:E;
    cbn [fst snd]; rewrite ?shr_record_of_loc_m; try (split; lia).
  unfold SpecFloat.fexp in E.
  rewrite iter_shr_1_m by (rewrite shr_record_of_loc_m; lia).
  rewrite shr_record_of_loc_m. split; [|lia].
  apply Z.div_str_pos. split; [apply Z.pow_pos_nonneg; lia|].
  assert (2 ^ Zpos k <= 2 ^ (Zpos (digits2_pos m) - 1)) by (apply Z.pow_le_mono_r; lia).
  lia.
Qed.

Lemma round_nearest_even_pos m l : 0 < m → 0 < round_nearest_even m l.
Proof. destruct l as [|[]]; cbn [round_nearest_even]; try destruct (Z.even m); lia. Qed.

Lemma binary_round_aux_signed s m e l :
  0 < m → emin <= e → signed s (binary_round_aux prec emax s m e l).
Proof.
  intros Hm He. unfold binary_round_aux.
  destruct (shr_fexp_pos m e l Hm He) as [H1 H2].
  destruct (shr_fexp prec emax m e l) as [mrs' e']. cbn [fst snd] in H1, H2.
  pose proof (round_nearest_even_pos _ (loc_of_shr_record mrs') H1) as H3.
  destruct (shr_fexp_pos _ e' loc_Exact H3 H2) as [H4 _].
  destruct (shr_fexp prec emax _ e' loc_Exact) as [mrs'' e'']. cbn [fst] in H4.
  destruct (shr_m mrs''); try lia.
  destruct (e'' <=? emax - prec); reflexivity.
Qed.

Lemma binary_round_signed s m e :
  emin <= e → signed s (binary_round prec emax s m e).
Proof.
  intros He. unfold binary_round.
  destruct (shl_align m e (fexp (Zpos (digits2_pos m) + e))) as [mz ez] eqn:E.
  apply binary_round_aux_signed; [lia|].
  unfold shl_align in E. unfold SpecFloat.fexp in E.
  destruct (_ - e) eqn:E'; injection E as <- <-; lia.
Qed.

Lemma SFltb_zero_normalize M e :
  emin <= e →
  SFltb (S754_zero false) (binary_normalize prec emax M e false) = (0 <? M).
Proof.
  intros He. destruct M as [|m|m]; cbn [binary_normalize].
  - reflexivity.
  - pose proof (binary_round_signed false m e He) as H.
    destruct (binary_round prec emax false m e) as [|s| |s ? ?]; cbn in H; try done; subst s; reflexivity.
  - pose proof (binary_round_signed true m e He) as H.
    destruct (binary_round prec emax true m e) as [|s| |s ? ?]; cbn in H; try done; subst s; reflexivity.
Qed.

(** The comparator of a descending sort: a difference of two numbers is
    positive exactly when the number taken away is the smaller one. *)
Lemma SFltb_zero_sub x y :
  SpecFloat.valid_binary prec emax x = true → SpecFloat.valid_binary prec emax y = true →
  x ≠ S754_nan → y ≠ S754_nan →
  SFltb (S754_zero false) (SFsub prec emax y x) = SFltb x y.
Proof.
  intros Vx Vy Nx Ny.
  destruct x as [sx|sx| |sx mx ex], y as [sy|sy| |sy my ey]; try done;
    try (destruct sx, sy; reflexivity).
  cbn [SpecFloat.valid_binary] in Vx, Vy. unfold bounded in Vx, Vy.
  apply andb_prop in Vx as [Cx _], Vy as [Cy _].
  unfold SFltb at 2. rewrite (SFcompare_aligned _ _ _ _ _ _ Cx Cy).
  cbn [SFsub]. rewrite SFltb_zero_normalize
    by (apply canonical_bounds in Cx, Cy; lia).
  rewrite (Z.min_comm ey ex).
  set (X := cond_Zopp sx _). set (Y := cond_Zopp sy _).
  destruct (Z.compare_spec X Y), (Z.ltb_spec 0 (Y - X)); try reflexivity; lia.
Qed.

Lemma SFmul_comm x y : SFmul prec emax x y = SFmul prec emax y x.
Proof.
  destruct x as [sx|sx| |sx mx ex], y as [sy|sy| |sy my ey]; cbn [SFmul];
    rewrite ?(xorb_comm sx sy), ?(Pos.mul_comm mx my), ?(Z.add_comm ex ey); reflexivity.
Qed.
End SpecFloatSub.

(** ** The doubles of the program *)

Section Doubles.
Local Open Scope float_scope.
Implicit Types x y z s : float.

Lemma is_nan_Prim2SF x : is_nan x = false → Prim2SF x ≠ S754_nan.
Proof.
  unfold is_nan. rewrite FloatAxioms.eqb_spec. intros H E. rewrite E in H. discriminate H.
Qed.

Lemma float_ltb_zero_sub x y :
  is_nan x = false → is_nan y = false → (0 <? y - x) = (x <? y).
Proof.
  intros Hx Hy. rewrite !FloatAxioms.ltb_spec, FloatAxioms.sub_spec.
  change (Prim2SF 0) with (S754_zero false).
  apply (SFltb_zero_sub prec emax); auto using FloatAxioms.Prim2SF_valid, is_nan_Prim2SF.
  reflexivity.
Qed.

Lemma float_leb_trans x y z : (x <=? y) = true → (y <=? z) = true → (x <=? z) = true.
Proof. rewrite !FloatAxioms.leb_spec. apply SFleb_trans. Qed.

Lemma float_ltb_leb x y : (x <? y) = true → (x <=? y) = true.
Proof. rewrite FloatAxioms.ltb_spec, FloatAxioms.leb_spec. apply SFltb_leb. Qed.

Lemma float_leb_total x y :
  is_nan x = false → is_nan y = false → (x <? y) = false → (y <=? x) = true.
Proof.
  intros Hx Hy. rewrite FloatAxioms.ltb_spec, FloatAxioms.leb_spec. apply SFleb_total; auto using is_nan_Prim2SF.
Qed.

Lemma float_ltb_eqb x y s : (x =? s) = true → (y =? s) = true → (x <? y) = false.
Proof. rewrite !FloatAxioms.eqb_spec, FloatAxioms.ltb_spec. apply SFltb_eqb. Qed.

Lemma Prim2SF_is_nan x : is_nan x = true → Prim2SF x = S754_nan.
Proof.
  unfold is_nan. rewrite FloatAxioms.eqb_spec. intros H%negb_true_iff.
  by apply SFeqb_irrefl_nan.
Qed.

(** NaN is neither above nor below any number. *)
Lemma float_leb_nan x y : is_nan x = true ∨ is_nan y = true → (x <=? y) = false.
Proof.
  intros H. rewrite FloatAxioms.leb_spec. apply SFleb_nan.
  destruct H as [H|H]; [left|right]; by apply Prim2SF_is_nan.
Qed.

Lemma float_mul_comm x y : x * y = y * x.
Proof.
  rewrite <- (FloatAxioms.SF2Prim_Prim2SF (x * y)), <- (FloatAxioms.SF2Prim_Prim2SF (y * x)), !FloatAxioms.mul_spec.
  f_equal. apply SFmul_comm.
Qed.
End Doubles.

(** ** One round of the dispatch loop *)

(** After a tool effect that answers, the answer is appended to the
    conversation behind the model's turn, the conversation is sent again,
    and the loop goes on from the architect's next result. *)
Lemma toolLoop_round fuel envs architect round conversation call others m m' answer :
  toolEffect (envs round) call m = (m', Done answer) →
  toolLoop (S fuel) envs architect round conversation (FunctionCalls call others) m =
    let conversation' := (conversation ++ [modelTurn call others] ++ [toolTurn answer])%list in
    match architect conversation' with
    | None => (m', LoopThrew "generateContent failed")
    | Some result => toolLoop fuel envs architect (S round) conversation' result m'
    end.
Proof.
  intros E. cbn [toolLoop]. rewrite E. cbn zeta. rewrite <- !app_assoc. reflexivity.
Qed.

(** ** C10: deploying under an id that is taken *)

(** C10.  When [deploy_new_specialist_agent] names an id that already has a
    notebook, the mission is left exactly as it was (registry, prompts,
    metadata, metrics, active list, even the logs), and still the response
    handed to the loop is the success message: the next request to the
    architect carries [success: true] and "deployed successfully". *)
Theorem deploy_taken_id_is_silent_noop
    env specialist_id mission_prompt tools lifespan (m : Mission) :
  is_Some (notebooks m !! specialist_id) →
  let call := deploy_new_specialist_agent specialist_id mission_prompt tools lifespan in
  toolEffect env call m = (m, Done (Some (deploySuccess specialist_id)))
  ∧ response_field "success" (deploySuccess specialist_id) = Some (JBool true)
  ∧ ∀ fuel envs architect round conversation others,
      envs round = env →
      toolLoop (S fuel) envs architect round conversation (FunctionCalls call others) m =
        let conversation' :=
          (conversation ++ [modelTurn call others] ++
           [toolTurn (Some (deploySuccess specialist_id))])%list in
        match architect conversation' with
        | None => (m, LoopThrew "generateContent failed")
        | Some result => toolLoop fuel envs architect (S round) conversation' result m
        end.
Proof.
  intros [nb Hnb] call.
  assert (E : toolEffect env call m = (m, Done (Some (deploySuccess specialist_id)))).
  { cbn. unfold deployNewAgent. rewrite Hnb. reflexivity. }
  split; [exact E|]. split; [reflexivity|].
  intros fuel envs architect round conversation others Henv.
  apply toolLoop_round. rewrite Henv. exact E.
Qed.

Lemma deploy_taken_id_witness :
  is_Some (notebooks (initialMission None) !! "specialist-2") ∧
  toolEffect silentEnv
    (deploy_new_specialist_agent "specialist-2" "Count circuits." None (Some 3%Z))
    (initialMission None)
  = (initialMission None, Done (Some (deploySuccess "specialist-2"))).
Proof.
  assert (H : is_Some (notebooks (initialMission None) !! "specialist-2")).
  { vm_compute. eauto. }
  split; [exact H|].
  exact (proj1 (deploy_taken_id_is_silent_noop silentEnv "specialist-2" "Count circuits."
                  None (Some 3%Z) (initialMission None) H)).
Defined.

(** The same, one variable at a time, as rewriting rules. *)
Create Rewrite HintDb mission.

Lemma addLogEntry_activeSpecialists notebookId markdown m :
  activeSpecialists (addLogEntry notebookId markdown m) = activeSpecialists m.
Proof. unfold addLogEntry. by destruct (notebooks m !! notebookId). Qed.

Lemma addLogEntry_specialistPrompts notebookId markdown m :
  specialistPrompts (addLogEntry notebookId markdown m) = specialistPrompts m.
Proof. unfold addLogEntry. by destruct (notebooks m !! notebookId). Qed.

Lemma addLogEntry_specialistMetadata notebookId markdown m :
  specialistMetadata (addLogEntry notebookId markdown m) = specialistMetadata m.
Proof. unfold addLogEntry. by destruct (notebooks m !! notebookId). Qed.

Lemma addLogEntry_agentPerformanceMetrics notebookId markdown m :
  agentPerformanceMetrics (addLogEntry notebookId markdown m) = agentPerformanceMetrics m.
Proof. unfold addLogEntry. by destruct (notebooks m !! notebookId). Qed.

Lemma addLogEntry_knowledgeGraphMap notebookId markdown m :
  knowledgeGraphMap (addLogEntry notebookId markdown m) = knowledgeGraphMap m.
Proof. unfold addLogEntry. by destruct (notebooks m !! notebookId). Qed.

Lemma addLogEntry_knowledgeNodeCounter notebookId markdown m :
  knowledgeNodeCounter (addLogEntry notebookId markdown m) = knowledgeNodeCounter m.
Proof. unfold addLogEntry. by destruct (notebooks m !! notebookId). Qed.

Lemma addLogEntry_vectorKnowledgeBase notebookId markdown m :
  vectorKnowledgeBase (addLogEntry notebookId markdown m) = vectorKnowledgeBase m.
Proof. unfold addLogEntry. by destruct (notebooks m !! notebookId). Qed.

Lemma addLogEntry_stagnationCounter notebookId markdown m :
  stagnationCounter (addLogEntry notebookId markdown m) = stagnationCounter m.
Proof. unfold addLogEntry. by destruct (notebooks m !! notebookId). Qed.

Lemma addLogEntry_strategicFocusHistory notebookId markdown m :
  strategicFocusHistory (addLogEntry notebookId markdown m) = strategicFocusHistory m.
Proof. unfold addLogEntry. by destruct (notebooks m !! notebookId). Qed.

Lemma addLogEntry_cycleCounter notebookId markdown m :
  cycleCounter (addLogEntry notebookId markdown m) = cycleCounter m.
Proof. unfold addLogEntry. by destruct (notebooks m !! notebookId). Qed.

Lemma addLogEntry_currentMissionObjective notebookId markdown m :
  currentMissionObjective (addLogEntry notebookId markdown m) = currentMissionObjective m.
Proof. unfold addLogEntry. by destruct (notebooks m !! notebookId). Qed.

Lemma addLogEntry_activeResearchVector notebookId markdown m :
  activeResearchVector (addLogEntry notebookId markdown m) = activeResearchVector m.
Proof. unfold addLogEntry. by destruct (notebooks m !! notebookId). Qed.

Lemma addLogEntry_isSearching notebookId markdown m :
  isSearching (addLogEntry notebookId markdown m) = isSearching m.
Proof. unfold addLogEntry. by destruct (notebooks m !! notebookId). Qed.

Lemma addLogEntry_searchIntervalId notebookId markdown m :
  searchIntervalId (addLogEntry notebookId markdown m) = searchIntervalId m.
Proof. unfold addLogEntry. by destruct (notebooks m !! notebookId). Qed.

Lemma addLogEntry_finalProofContent notebookId markdown m :
  finalProofContent (addLogEntry notebookId markdown m) = finalProofContent m.
Proof. unfold addLogEntry. by destruct (notebooks m !! notebookId). Qed.

Lemma addLogEntry_db notebookId markdown m :
  db (addLogEntry notebookId markdown m) = db m.
Proof. unfold addLogEntry. by destruct (notebooks m !! notebookId). Qed.

Lemma addLogEntry_statusSuccess notebookId markdown m :
  statusSuccess (addLogEntry notebookId markdown m) = statusSuccess m.
Proof. unfold addLogEntry. by destruct (notebooks m !! notebookId). Qed.

#[global] Hint Rewrite
  addLogEntry_activeSpecialists addLogEntry_specialistPrompts addLogEntry_specialistMetadata
  addLogEntry_agentPerformanceMetrics addLogEntry_knowledgeGraphMap addLogEntry_knowledgeNodeCounter
  addLogEntry_vectorKnowledgeBase addLogEntry_stagnationCounter addLogEntry_strategicFocusHistory
  addLogEntry_cycleCounter addLogEntry_currentMissionObjective addLogEntry_activeResearchVector
  addLogEntry_isSearching addLogEntry_searchIntervalId addLogEntry_finalProofContent
  addLogEntry_db addLogEntry_statusSuccess
  : mission.

(** ** Retiring agents *)

Section RetireAgent.
Variables (id reason : string) (m : Mission).

Lemma retireAgent_active :
  activeSpecialists (retireAgent id reason m) =
  filter (fun specId => specId ≠ id) (activeSpecialists m).
Proof. unfold retireAgent. by autorewrite with mission. Qed.

Lemma retireAgent_prompts :
  specialistPrompts (retireAgent id reason m) = delete id (specialistPrompts m).
Proof. unfold retireAgent. by autorewrite with mission. Qed.

Lemma retireAgent_metadata :
  specialistMetadata (retireAgent id reason m) = delete id (specialistMetadata m).
Proof. unfold retireAgent. by autorewrite with mission. Qed.

Lemma retireAgent_metrics :
  agentPerformanceMetrics (retireAgent id reason m) = delete id (agentPerformanceMetrics m).
Proof. unfold retireAgent. by autorewrite with mission. Qed.

Lemma retireAgent_notebooks_dom :
  dom (notebooks (retireAgent id reason m)) = dom (notebooks m) ∖ {[id]}.
Proof. unfold retireAgent. rewrite addLogEntry_dom. cbn. apply dom_delete_L. Qed.

(** The variables [retireAgent] does not write. *)
Lemma retireAgent_frame :
  (knowledgeGraphMap (retireAgent id reason m), knowledgeNodeCounter (retireAgent id reason m),
   vectorKnowledgeBase (retireAgent id reason m)) =
    (knowledgeGraphMap m, knowledgeNodeCounter m, vectorKnowledgeBase m) ∧
  (stagnationCounter (retireAgent id reason m), strategicFocusHistory (retireAgent id reason m),
   cycleCounter (retireAgent id reason m), currentMissionObjective (retireAgent id reason m),
   activeResearchVector (retireAgent id reason m)) =
    (stagnationCounter m, strategicFocusHistory m, cycleCounter m,
     currentMissionObjective m, activeResearchVector m) ∧
  (isSearching (retireAgent id reason m), searchIntervalId (retireAgent id reason m),
   finalProofContent (retireAgent id reason m), db (retireAgent id reason m),
   statusSuccess (retireAgent id reason m)) =
    (isSearching m, searchIntervalId m, finalProofContent m, db m, statusSuccess m).
Proof. unfold retireAgent. by autorewrite with mission. Qed.
End RetireAgent.

(** Retiring a whole list, as both [checkAgentLifecycles] and
    [clearAllNotebooks] do. *)
Section RetireMany.
Context {A : Type} (agent reason : A → string).

Lemma retireEach_active l m :
  activeSpecialists (retireEach agent reason l m) =
  filter (fun specId => specId ∉ map agent l) (activeSpecialists m).
Proof.
  revert m. induction l as [|x l IH]; intros m; cbn.
  - induction (activeSpecialists m) as [|a act IHa]; [done|].
    rewrite filter_cons_True by apply not_elem_of_nil. by f_equal.
  - unfold retireEach in IH. rewrite IH, retireAgent_active.
    induction (activeSpecialists m) as [|a act IHa]; [done|].
    rewrite (filter_cons (fun specId => specId ≠ agent x)).
    rewrite (filter_cons (fun specId => specId ∉ agent x :: map agent l)).
    destruct (decide (a ≠ agent x)) as [Hne|Heq].
    + rewrite filter_cons. destruct (decide (a ∉ map agent l)) as [Hn|Hn].
      * rewrite decide_True by (rewrite not_elem_of_cons; done). by f_equal.
      * rewrite decide_False by (rewrite not_elem_of_cons; tauto). done.
    + rewrite decide_False; [done|].
      apply dec_stable in Heq. subst a. intros Hn. apply Hn. left.
Qed.

Lemma retireEach_prompts l m k :
  specialistPrompts (retireEach agent reason l m) !! k =
  if decide (k ∈ map agent l) then None else specialistPrompts m !! k.
Proof.
  revert m. induction l as [|x l IH]; intros m; cbn.
  - rewrite decide_False by apply not_elem_of_nil. done.
  - unfold retireEach in IH. rewrite IH, retireAgent_prompts.
    destruct (decide (k ∈ map agent l)) as [Hin|Hin].
    + rewrite decide_True by (by right). done.
    + destruct (decide (k = agent x)) as [->|Hne].
      * rewrite decide_True by left. apply lookup_delete_eq.
      * rewrite decide_False by (rewrite elem_of_cons; tauto).
        by rewrite lookup_delete_ne.
Qed.

Lemma retireEach_metadata l m k :
  specialistMetadata (retireEach agent reason l m) !! k =
  if decide (k ∈ map agent l) then None else specialistMetadata m !! k.
Proof.
  revert m. induction l as [|x l IH]; intros m; cbn.
  - rewrite decide_False by apply not_elem_of_nil. done.
  - unfold retireEach in IH. rewrite IH, retireAgent_metadata.
    destruct (decide (k ∈ map agent l)) as [Hin|Hin].
    + rewrite decide_True by (by right). done.
    + destruct (decide (k = agent x)) as [->|Hne].
      * rewrite decide_True by left. apply lookup_delete_eq.
      * rewrite decide_False by (rewrite elem_of_cons; tauto).
        by rewrite lookup_delete_ne.
Qed.

Lemma retireEach_metrics l m k :
  agentPerformanceMetrics (retireEach agent reason l m) !! k =
  if decide (k ∈ map agent l) then None else agentPerformanceMetrics m !! k.
Proof.
  revert m. induction l as [|x l IH]; intros m; cbn.
  - rewrite decide_False by apply not_elem_of_nil. done.
  - unfold retireEach in IH. rewrite IH, retireAgent_metrics.
    destruct (decide (k ∈ map agent l)) as [Hin|Hin].
    + rewrite decide_True by (by right). done.
    + destruct (decide (k = agent x)) as [->|Hne].
      * rewrite decide_True by left. apply lookup_delete_eq.
      * rewrite decide_False by (rewrite elem_of_cons; tauto).
        by rewrite lookup_delete_ne.
Qed.

Lemma retireEach_notebooks_dom l m :
  dom (notebooks (retireEach agent reason l m)) = dom (notebooks m) ∖ list_to_set (map agent l).
Proof.
  revert m. induction l as [|x l IH]; intros m; cbn.
  - set_solver.
  - unfold retireEach in IH. rewrite IH, retireAgent_notebooks_dom. set_solver.
Qed.

Lemma retireEach_frame l m :
  (knowledgeGraphMap (retireEach agent reason l m), knowledgeNodeCounter (retireEach agent reason l m),
   vectorKnowledgeBase (retireEach agent reason l m)) =
    (knowledgeGraphMap m, knowledgeNodeCounter m, vectorKnowledgeBase m) ∧
  (stagnationCounter (retireEach agent reason l m), strategicFocusHistory (retireEach agent reason l m),
   cycleCounter (retireEach agent reason l m), currentMissionObjective (retireEach agent reason l m),
   activeResearchVector (retireEach agent reason l m)) =
    (stagnationCounter m, strategicFocusHistory m, cycleCounter m,
     currentMissionObjective m, activeResearchVector m) ∧
  (isSearching (retireEach agent reason l m), searchIntervalId (retireEach agent reason l m),
   finalProofContent (retireEach agent reason l m), db (retireEach agent reason l m),
   statusSuccess (retireEach agent reason l m)) =
    (isSearching m, searchIntervalId m, finalProofContent m, db m, statusSuccess m).
Proof.
  revert m. induction l as [|x l IH]; intros m; cbn; [done|].
  unfold retireEach in IH. cbn in IH.
  destruct (IH (retireAgent (agent x) (reason x) m)) as (-> & -> & ->).
  apply retireAgent_frame.
Qed.
End RetireMany.

(** ** C5: the lifecycle check *)

Lemma checkAgentLifecycles_retireEach m :
  checkAgentLifecycles m = retireEach fst snd (agentsToRetire m) m.
Proof.
  unfold checkAgentLifecycles, retireEach.
  generalize (agentsToRetire m) as l. intros l. revert m.
  induction l as [|[id reason] l IH]; intros m; cbn; [done|]. apply IH.
Qed.

Lemma agentsToRetire_ids m :
  map fst (agentsToRetire m) = filter (fun id => expired m id = true) (activeSpecialists m).
Proof.
  unfold agentsToRetire. rewrite map_map. cbn. apply map_id.
Qed.

(** An agent is due exactly when it has metadata with a lifespan that its
    age has reached. *)
Lemma expired_spec m id :
  expired m id = true ↔
  ∃ meta lifespan,
    specialistMetadata m !! id = Some meta ∧
    lifespan_cycles meta = Some lifespan ∧
    (cycleCounter m - creationCycle meta >= lifespan)%Z.
Proof.
  unfold expired. split.
  - destruct (specialistMetadata m !! id) as [meta|]; [|done].
    destruct (lifespan_cycles meta) as [lifespan|] eqn:E; [|done].
    intros H%Z.leb_le. exists meta, lifespan. repeat split; [done|lia].
  - intros (meta & lifespan & -> & -> & H). apply Z.leb_le. lia.
Qed.

(** C5.  The lifecycle check at cycle [cycleCounter m] retires exactly the
    active agents that have a non-null lifespan which their age, the cycle
    counter minus the creation cycle, has reached.  The agents due are
    collected by a scan of the mission as it is before any retirement,
    and retired afterwards: the active list becomes the old one without
    them, their prompt, metadata, metrics and notebook are gone, every other
    agent keeps its own; an agent of null lifespan is never due.  At cycle 5,
    of two agents created at cycle 2, the one of lifespan 3 is retired and
    the one of lifespan 4 stays. *)
Theorem checkAgentLifecycles_retires_exactly_due :
  (∀ m id,
     expired m id = true ↔
     ∃ meta lifespan,
       specialistMetadata m !! id = Some meta ∧
       lifespan_cycles meta = Some lifespan ∧
       (cycleCounter m - creationCycle meta >= lifespan)%Z)
  ∧ (∀ m,
       checkAgentLifecycles m =
       foldl (fun acc '(id, reason) => retireAgent id reason acc) m
             (map (fun id => (id, expiryReason m id))
                  (filter (fun id => expired m id = true) (activeSpecialists m))))
  ∧ (∀ m,
       activeSpecialists (checkAgentLifecycles m) =
       filter (fun id => ¬ due m id) (activeSpecialists m))
  ∧ (∀ m id,
       due m id →
       (id ∉ activeSpecialists (checkAgentLifecycles m)) ∧
       specialistPrompts (checkAgentLifecycles m) !! id = None ∧
       specialistMetadata (checkAgentLifecycles m) !! id = None ∧
       agentPerformanceMetrics (checkAgentLifecycles m) !! id = None ∧
       notebooks (checkAgentLifecycles m) !! id = None)
  ∧ (∀ m id,
       ¬ due m id →
       (id ∈ activeSpecialists (checkAgentLifecycles m) ↔ id ∈ activeSpecialists m) ∧
       specialistPrompts (checkAgentLifecycles m) !! id = specialistPrompts m !! id ∧
       specialistMetadata (checkAgentLifecycles m) !! id = specialistMetadata m !! id ∧
       agentPerformanceMetrics (checkAgentLifecycles m) !! id = agentPerformanceMetrics m !! id ∧
       (is_Some (notebooks (checkAgentLifecycles m) !! id) ↔ is_Some (notebooks m !! id)))
  ∧ (∀ m id meta,
       specialistMetadata m !! id = Some meta → lifespan_cycles meta = None →
       ¬ due m id)
  ∧ (due missionAtCycle5 "task-force-a" ∧ ¬ due missionAtCycle5 "task-force-b" ∧
     activeSpecialists (checkAgentLifecycles missionAtCycle5) = (seedAgents ++ ["task-force-b"])%list).
Proof.
  assert (Hids : ∀ m id, id ∈ map fst (agentsToRetire m) ↔ due m id).
  { intros m id. rewrite agentsToRetire_ids, list_elem_of_filter. unfold due. tauto. }
  split; [exact expired_spec|].
  split; [reflexivity|].
  split.
  { intros m. rewrite checkAgentLifecycles_retireEach, retireEach_active.
    apply list_filter_iff. intros id. by rewrite Hids. }
  split.
  { intros m id Hdue. rewrite checkAgentLifecycles_retireEach.
    rewrite retireEach_active, retireEach_prompts, retireEach_metadata, retireEach_metrics.
    rewrite !decide_True by (by apply Hids).
    repeat split; try done.
    - rewrite list_elem_of_filter. intros [Hn _]. apply Hn. by apply Hids.
    - apply not_elem_of_dom. rewrite retireEach_notebooks_dom.
      apply Hids in Hdue. set_solver. }
  split.
  { intros m id Hdue. rewrite checkAgentLifecycles_retireEach.
    rewrite retireEach_active, retireEach_prompts, retireEach_metadata, retireEach_metrics.
    rewrite !decide_False by (by rewrite Hids).
    repeat split; try done.
    - rewrite list_elem_of_filter. tauto.
    - intros H. rewrite list_elem_of_filter. split; [by rewrite Hids|done].
    - rewrite <- !elem_of_dom, retireEach_notebooks_dom. set_solver.
    - rewrite <- !elem_of_dom, retireEach_notebooks_dom. rewrite <- Hids in Hdue. set_solver. }
  split.
  { intros m id meta Hmeta Hnull [_ Hexp]. unfold expired in Hexp.
    rewrite Hmeta, Hnull in Hexp. done. }
  split; [|split].
  - split; [|vm_compute; reflexivity].
    apply (bool_decide_unpack _). vm_compute. exact I.
  - intros [_ H]. vm_compute in H. done.
  - vm_compute. reflexivity.
Qed.

Lemma checkAgentLifecycles_witness :
  due missionAtCycle5 "task-force-a" ∧
  specialistPrompts (checkAgentLifecycles missionAtCycle5) !! "task-force-a" = None.
Proof.
  pose proof checkAgentLifecycles_retires_exactly_due
    as (_ & _ & _ & Hdue & _ & _ & (Ha & _)).
  split; [exact Ha|]. exact (proj1 (proj2 (Hdue missionAtCycle5 "task-force-a" Ha))).
Defined.

(** ** C6: stagnation counter and chaos intervention *)

(** Inserting nodes leaves the detector's counter alone. *)
Lemma applyKnowledgeNode_stagnation env vectors node m :
  stagnationCounter (fst (applyKnowledgeNode env vectors node m)) = stagnationCounter m.
Proof.
  unfold applyKnowledgeNode. destruct vectors as [vs|]; [|done]. cbn.
  repeat case_match; reflexivity.
Qed.

Lemma applyKnowledgeUpdate_stagnation env vectors nodes m :
  stagnationCounter (fst (applyKnowledgeUpdate env vectors nodes m)) = stagnationCounter m.
Proof.
  revert m. induction nodes as [|node rest IH]; intros m; [done|]. cbn [applyKnowledgeUpdate].
  pose proof (applyKnowledgeNode_stagnation env vectors node m) as H.
  destruct (applyKnowledgeNode env vectors node m) as [m' [[]|msg]]; cbn in H |- *.
  - by rewrite IH.
  - done.
Qed.

(** The counter after a payload: stepped by its assessment when the payload
    was applied to the end, untouched when applying it threw. *)
Lemma parseAndApply_stagnation env parsedResponse m :
  stagnationCounter (fst (parseAndApplyArchitectResponse env parsedResponse m)) =
  match snd (parseAndApplyArchitectResponse env parsedResponse m),
        strategic_assessment parsedResponse with
  | Done _, Some a =>
      if (0 <? stagnation_level a)%Z then S (stagnationCounter m) else 0
  | _, _ => stagnationCounter m
  end.
Proof.
  unfold parseAndApplyArchitectResponse.
  set (m0 := match strategic_planning parsedResponse ≫= strategic_focus with
             | Some focus => _ | None => m end).
  assert (H0 : stagnationCounter m0 = stagnationCounter m).
  { subst m0. repeat case_match; reflexivity. }
  destruct (knowledge_update parsedResponse) as [nodes|].
  - pose proof (applyKnowledgeUpdate_stagnation env
      (strategic_planning parsedResponse ≫= research_vectors) nodes m0) as H1.
    destruct (applyKnowledgeUpdate env _ nodes m0) as [m1 [[]|msg]]; cbn in H1 |- *.
    + unfold updateStagnation.
      destruct (strategic_assessment parsedResponse) as [a|]; cbn;
        repeat case_match; cbn; congruence.
    + congruence.
  - cbn. unfold updateStagnation.
    destruct (strategic_assessment parsedResponse) as [a|]; cbn;
      repeat case_match; cbn; congruence.
Qed.

(** The loop only ever sends extensions of the conversation it starts from. *)
Lemma toolLoop_ext fuel envs (a1 a2 : Architect) round conversation result m :
  (∀ c, conversation `prefix_of` c → a1 c = a2 c) →
  toolLoop fuel envs a1 round conversation result m =
  toolLoop fuel envs a2 round conversation result m.
Proof.
  revert round conversation result m.
  induction fuel as [|fuel IH]; intros round conversation result m Hagree;
    destruct result as [call others|text]; cbn [toolLoop]; try reflexivity.
  destruct (toolEffect (envs round) call m) as [m' [answer|msg]]; [|done].
  cbn zeta.
  rewrite <- Hagree by (rewrite <- app_assoc; apply prefix_app_r; done).
  destruct (a1 _) as [result'|]; [|done].
  apply IH. intros c Hc. apply Hagree.
  etrans; [|exact Hc]. rewrite <- app_assoc. by apply prefix_app_r.
Qed.

Lemma runArchitectStep_ext fuel envs (a1 a2 : Architect) specialistOutputs m :
  (∀ c, firstRequest specialistOutputs m `prefix_of` c → a1 c = a2 c) →
  runArchitectStep fuel envs a1 specialistOutputs m =
  runArchitectStep fuel envs a2 specialistOutputs m.
Proof.
  unfold runArchitectStep, firstRequest. intros Hagree.
  destruct (isSearching m); cbn [negb]; [|done].
  destruct (chaosIntervention m) as [chaos m'].
  rewrite <- Hagree by done.
  destruct (a1 _) as [result|]; [|done].
  by rewrite (toolLoop_ext fuel envs a1 a2).
Qed.

Lemma applyKnowledgeUpdate_Done env vs nodes m :
  snd (applyKnowledgeUpdate env (Some vs) nodes m) = Done tt.
Proof.
  revert m. induction nodes as [|node rest IH]; intros m; [done|].
  cbn [applyKnowledgeUpdate]. unfold applyKnowledgeNode. cbn zeta. apply IH.
Qed.

(** The payloads that are applied to the end. *)
Lemma parseAndApply_done env p m :
  snd (parseAndApplyArchitectResponse env p m) = Done tt ↔ applicable p.
Proof.
  unfold parseAndApplyArchitectResponse, applicable.
  set (m0 := match strategic_planning p ≫= strategic_focus with
             | Some focus => _ | None => m end).
  destruct (knowledge_update p) as [[|node rest]|]; [done| |done].
  destruct (strategic_planning p ≫= research_vectors) as [vs|].
  - pose proof (applyKnowledgeUpdate_Done env vs (node :: rest) m0) as Hd.
    destruct (applyKnowledgeUpdate env (Some vs) (node :: rest) m0) as [m1 r].
    cbn [snd] in Hd. subst r. split; [by eexists|done].
  - cbn. split; [done|]. by intros [? ?].
Qed.

Lemma stagnationTrace_applicable env payloads m :
  Forall applicable payloads →
  stagnationTrace env payloads m =
  steppedCounters (map (fun p => stagnation_level <$> strategic_assessment p) payloads)
    (stagnationCounter m).
Proof.
  revert m. induction payloads as [|p rest IH]; intros m Hall; [done|].
  apply Forall_cons in Hall as [Happ Hall]. cbn [stagnationTrace map steppedCounters].
  pose proof (parseAndApply_stagnation env p m) as H.
  rewrite (proj2 (parseAndApply_done env p m) Happ) in H.
  rewrite (IH _ Hall), H. by destruct (strategic_assessment p).
Qed.

Lemma concludeArchitectStep_terminal env p m :
  isTerminal (summaryOf p) = true →
  stagnationCounter (concludeArchitectStep env p m) = stagnationCounter m.
Proof. intros H. unfold concludeArchitectStep. rewrite H. reflexivity. Qed.

Lemma stagnationCounter_addLogEntry notebookId markdown m :
  stagnationCounter (addLogEntry notebookId markdown m) = stagnationCounter m.
Proof. unfold addLogEntry. by destruct (notebooks m !! notebookId). Qed.

Lemma concludeArchitectStep_applied env p m a :
  isTerminal (summaryOf p) = false → applicable p → strategic_assessment p = Some a →
  stagnationCounter (concludeArchitectStep env p m) =
  if (0 <? stagnation_level a)%Z then S (stagnationCounter m) else 0.
Proof.
  intros Hterm Happ Ha. unfold concludeArchitectStep. rewrite Hterm.
  pose proof (parseAndApply_stagnation env p (addLogEntry "synthesizer" (summaryOf p) m)) as H.
  pose proof (proj2 (parseAndApply_done env p (addLogEntry "synthesizer" (summaryOf p) m)) Happ)
    as Hd.
  destruct (parseAndApplyArchitectResponse env p _) as [m' r]. cbn [fst snd] in H, Hd.
  subst r. rewrite H, Ha, stagnationCounter_addLogEntry. reflexivity.
Qed.

(** The step sends the request of [firstRequest] and acts on the answer. *)
Lemma runArchitectStep_request fuel envs (architect : Architect) specialistOutputs m :
  isSearching m = true →
  (architect (firstRequest specialistOutputs m) = None →
   runArchitectStep fuel envs architect specialistOutputs m =
   Some (fatalSynthesisError "generateContent failed" (snd (chaosIntervention m)))) ∧
  (∀ text p,
     architect (firstRequest specialistOutputs m) = Some (FinalText (Some text)) →
     parseFinal (envs 0) text = Some p →
     runArchitectStep fuel envs architect specialistOutputs m =
     Some (concludeArchitectStep (envs 0) p (snd (chaosIntervention m)))).
Proof.
  intros Hs. unfold runArchitectStep, firstRequest. rewrite Hs. cbn [negb].
  destruct (chaosIntervention m) as [chaos m0]. cbn [snd]. split.
  - intros ->. reflexivity.
  - intros text p -> Hp. destruct fuel; cbn [toolLoop]; by rewrite Hp.
Qed.

(** C6, amended.  A payload is applied to the end exactly when it names
    research vectors or carries no node.  Such a payload steps the
    stagnation counter by its [stagnation_level]: one more when the level is
    positive, back to zero when it is 0, and so along every sequence of such
    payloads; the levels 2, 0, 1 give the counters 1, 0, 1.  A final payload
    whose summary begins with the terminal marker is not applied: the
    counter stays as it is; any other final payload of ASCII summary that
    can be applied steps the counter.
    Once the counter has reached [CHAOS_INTERVENTION_THRESHOLD], the next
    request to the architect carries the intervention directive, and is
    otherwise the request it would have been; raising it changes no
    component state (an entry in the architect's own log is all that is
    written).  The step sends that request: it halts when the request
    fails, concludes with the payload when the request is answered by a
    final text, and every conversation it sends starts with the request. *)
Theorem stagnation_counter_and_chaos_directive :
  (∀ env p m, snd (parseAndApplyArchitectResponse env p m) = Done tt ↔ applicable p)
  ∧ (∀ env p m a,
       strategic_assessment p = Some a → applicable p →
       ((0 < stagnation_level a)%Z →
        stagnationCounter (fst (parseAndApplyArchitectResponse env p m)) = S (stagnationCounter m)) ∧
       (stagnation_level a = 0%Z →
        stagnationCounter (fst (parseAndApplyArchitectResponse env p m)) = 0))
  ∧ (∀ env payloads m,
       Forall applicable payloads →
       stagnationTrace env payloads m =
       steppedCounters (map (fun p => stagnation_level <$> strategic_assessment p) payloads)
         (stagnationCounter m))
  ∧ (∀ env m,
       stagnationTrace env (map assessmentOnly [2; 0; 1]%Z) m = [S (stagnationCounter m); 0; 1])
  ∧ stagnationTrace silentEnv (map assessmentOnly [2; 0; 1]%Z) (initialMission None) = [1; 0; 1]
  ∧ (∀ env p m,
       (isTerminal (summaryOf p) = true →
        stagnationCounter (concludeArchitectStep env p m) = stagnationCounter m) ∧
       (∀ a, asciiText (summaryOf p) = true → isTerminal (summaryOf p) = false →
             applicable p → strategic_assessment p = Some a →
             stagnationCounter (concludeArchitectStep env p m) =
             if (0 <? stagnation_level a)%Z then S (stagnationCounter m) else 0))
  ∧ (∀ m specialistOutputs,
       ((CHAOS_INTERVENTION_THRESHOLD ≤ stagnationCounter m)%nat →
        fst (chaosIntervention m) = chaosDirective m ∧
        fst (chaosIntervention m) ≠ EmptyString) ∧
       ((stagnationCounter m < CHAOS_INTERVENTION_THRESHOLD)%nat →
        chaosIntervention m = (EmptyString, m)) ∧
       coreState (snd (chaosIntervention m)) = coreState m ∧
       (∀ id, id ≠ "synthesizer" →
              notebooks (snd (chaosIntervention m)) !! id = notebooks m !! id) ∧
       firstRequest specialistOutputs m =
         [{| role := "user";
             parts := [PromptPart
               {| ap_chaosInterventionPrompt := fst (chaosIntervention m);
                  ap_knowledgeGraph := ap_knowledgeGraph (architectPrompt EmptyString specialistOutputs m);
                  ap_specialistInputs := ap_specialistInputs (architectPrompt EmptyString specialistOutputs m);
                  ap_cycleNumber := ap_cycleNumber (architectPrompt EmptyString specialistOutputs m);
                  ap_stagnationLevel := ap_stagnationLevel (architectPrompt EmptyString specialistOutputs m);
                  ap_focusHistory := ap_focusHistory (architectPrompt EmptyString specialistOutputs m);
                  ap_performance := ap_performance (architectPrompt EmptyString specialistOutputs m) |}] |}])
  ∧ (∀ fuel envs (architect : Architect) specialistOutputs m,
       (isSearching m = false →
        runArchitectStep fuel envs architect specialistOutputs m = Some m) ∧
       (isSearching m = true →
        architect (firstRequest specialistOutputs m) = None →
        runArchitectStep fuel envs architect specialistOutputs m =
        Some (fatalSynthesisError "generateContent failed" (snd (chaosIntervention m)))) ∧
       (∀ text p,
          isSearching m = true →
          architect (firstRequest specialistOutputs m) = Some (FinalText (Some text)) →
          parseFinal (envs 0) text = Some p →
          runArchitectStep fuel envs architect specialistOutputs m =
          Some (concludeArchitectStep (envs 0) p (snd (chaosIntervention m)))))
  ∧ (∀ fuel envs (a1 a2 : Architect) specialistOutputs m,
       (∀ c, firstRequest specialistOutputs m `prefix_of` c → a1 c = a2 c) →
       runArchitectStep fuel envs a1 specialistOutputs m =
       runArchitectStep fuel envs a2 specialistOutputs m).
Proof.
  split; [exact parseAndApply_done|]. split.
  { intros env p m a Ha Happ. rewrite parseAndApply_stagnation.
    rewrite (proj2 (parseAndApply_done env p m) Happ), Ha. split.
    - intros H%Z.ltb_lt. by rewrite H.
    - intros ->. reflexivity. }
  split; [exact stagnationTrace_applicable|].
  split; [reflexivity|]. split; [reflexivity|]. split.
  { intros env p m. split; [apply concludeArchitectStep_terminal|].
    intros a _. apply concludeArchitectStep_applied. }
  split; [|split; [|exact runArchitectStep_ext]].
  - intros m specialistOutputs. unfold firstRequest, chaosIntervention, chaosActive.
    destruct (CHAOS_INTERVENTION_THRESHOLD <=? stagnationCounter m)%nat eqn:E.
    + apply Nat.leb_le in E. cbn [fst snd]. repeat split.
      * discriminate.
      * intros H. lia.
      * apply coreState_addLogEntry.
      * intros id Hne. by apply addLogEntry_lookup_ne.
      * unfold architectPrompt. by autorewrite with mission.
    + apply Nat.leb_gt in E. cbn [fst snd]. repeat split; try done; lia.
  - intros fuel envs architect specialistOutputs m. split; [|split].
    + intros Hs. unfold runArchitectStep. by rewrite Hs.
    + intros Hs. by apply runArchitectStep_request.
    + intros text p Hs. by apply runArchitectStep_request.
Qed.

(** C6, as stated, fails: a payload whose [stagnation_level] is above 0
    does not always raise the counter.  The final payload of the architect
    assesses the stagnation at level 2 and its summary begins with the
    terminal marker: the step completes the mission without applying the
    payload, and the counter is 0 as before. *)
Lemma terminal_payload_leaves_counter :
  strategic_assessment provenPayload = Some {| stagnation_level := 2; justification := "none" |}
  ∧ applicable provenPayload
  ∧ isSearching runningMission = true
  ∧ stagnationCounter runningMission = 0
  ∧ stagnationCounter (concludeArchitectStep silentEnv provenPayload runningMission) = 0
  ∧ stagnationCounter <$>
      runArchitectStep 0 (fun _ => parsingEnv provenPayload)
        (fun _ => Some (FinalText (Some "{}"))) [] runningMission = Some 0.
Proof. repeat split; vm_compute; reflexivity. Qed.

Lemma stagnation_counter_witness :
  strategic_assessment (assessmentOnly 2) =
    Some {| stagnation_level := 2; justification := "none" |} ∧
  applicable (assessmentOnly 2) ∧
  (0 < 2)%Z ∧
  stagnationCounter
    (fst (parseAndApplyArchitectResponse silentEnv (assessmentOnly 2) (initialMission None))) = 1.
Proof.
  assert (Ha : strategic_assessment (assessmentOnly 2) =
               Some {| stagnation_level := 2; justification := "none" |}) by reflexivity.
  assert (Hd : applicable (assessmentOnly 2)) by exact I.
  assert (Hpos : (0 < 2)%Z) by lia.
  split; [exact Ha|]. split; [exact Hd|]. split; [exact Hpos|].
  exact (proj1 (proj1 (proj2 stagnation_counter_and_chaos_directive) silentEnv (assessmentOnly 2)
                  (initialMission None) _ Ha Hd) Hpos).
Defined.

(** ** C7: the bias detector *)

Section FocusCounts.
Implicit Types (acc : list (string * FocusCount)) (l : list string).

Lemma recorded_bump label focus acc :
  recorded label (bump focus acc) =
  if decide (label = focus)
  then match recorded label acc with
       | Some v => Some (increment v)
       | None =>
           if decide (focus ∈ inheritedNames)
           then if decide (focus = "__proto__") then None else Some NotANumber
           else Some (Counted 1)
       end
  else recorded label acc.
Proof.
  unfold recorded. induction acc as [|[f c] acc IH]; cbn [bump].
  - cbn [find fmap option_fmap option_map].
    destruct (decide (focus ∈ inheritedNames)) as [Hin|Hin].
    + rewrite bool_decide_eq_true_2 by done.
      destruct (String.eqb_spec focus "__proto__") as [Hp|Hp];
        destruct (decide (focus = "__proto__")) as [Hp'|Hp']; try done.
      * by case_decide.
      * cbn. destruct (String.eqb_spec focus label) as [->|Hne].
        -- by rewrite decide_True.
        -- by rewrite decide_False.
    + rewrite bool_decide_eq_false_2 by done. cbn.
      destruct (String.eqb_spec focus label) as [->|Hne].
      * by rewrite decide_True.
      * by rewrite decide_False.
  - destruct (String.eqb_spec f focus) as [->|Hne]; cbn.
    + destruct (String.eqb_spec focus label) as [->|Hne'].
      * by rewrite decide_True.
      * by rewrite decide_False.
    + destruct (String.eqb_spec f label) as [->|Hne'].
      * by rewrite decide_False.
      * exact IH.
Qed.

Lemma occurrences_snoc label focus l :
  occurrences label (l ++ [focus]) =
  if decide (label = focus) then S (occurrences label l) else occurrences label l.
Proof.
  unfold occurrences. rewrite filter_app, length_app, filter_cons, filter_nil.
  destruct (decide (focus = label)) as [->|Hne].
  - rewrite decide_True by done. cbn. lia.
  - rewrite decide_False by done. cbn. lia.
Qed.

Lemma tally_snoc label focus l :
  tally label (l ++ [focus]) =
  if decide (label = focus)
  then match tally label l with
       | Some v => Some (increment v)
       | None =>
           if decide (focus ∈ inheritedNames)
           then if decide (focus = "__proto__") then None else Some NotANumber
           else Some (Counted 1)
       end
  else tally label l.
Proof.
  unfold tally. rewrite occurrences_snoc.
  destruct (decide (label = focus)) as [->|Hne]; [|done].
  rewrite (decide_False (P := S _ = 0)) by lia.
  destruct (decide (occurrences focus l = 0)) as [E|E].
  - rewrite E. done.
  - repeat case_decide; done.
Qed.

Lemma recorded_foldl label l acc l0 :
  recorded label acc = tally label l0 →
  recorded label (foldl (fun acc focus => bump focus acc) acc l) = tally label (l0 ++ l).
Proof.
  revert acc l0. induction l as [|focus l IH]; intros acc l0 H; cbn [foldl].
  - by rewrite app_nil_r.
  - rewrite (IH _ (l0 ++ [focus])).
    + by rewrite <- app_assoc.
    + rewrite recorded_bump, tally_snoc, H. done.
Qed.

(** What the record holds for a label after a window. *)
Lemma recorded_focusCounts label l : recorded label (focusCounts l) = tally label l.
Proof. unfold focusCounts. by rewrite (recorded_foldl label l [] []). Qed.

Lemma bump_keys focus acc :
  map fst (bump focus acc) = map fst acc ∨
  ((focus ∉ map fst acc) ∧ map fst (bump focus acc) = map fst acc ++ [focus]).
Proof.
  induction acc as [|[f c] acc IH]; cbn.
  - destruct (bool_decide (focus ∈ inheritedNames)); [destruct (String.eqb focus "__proto__")|];
      cbn; first [by left|right; split; [apply not_elem_of_nil|done]].
  - destruct (String.eqb_spec f focus) as [->|Hne]; cbn; [by left|].
    destruct IH as [->|[Hin ->]]; [by left|right].
    split; [|done]. rewrite elem_of_cons. naive_solver.
Qed.

Lemma focusCounts_NoDup l : NoDup (map fst (focusCounts l)).
Proof.
  unfold focusCounts.
  assert (H : ∀ acc, NoDup (map fst acc) →
              NoDup (map fst (foldl (fun acc focus => bump focus acc) acc l))).
  { induction l as [|focus l IH]; intros acc Hacc; cbn; [done|].
    apply IH. destruct (bump_keys focus acc) as [->|[Hin ->]]; [done|].
    apply NoDup_app. split; [done|]. split.
    - intros x Hx ->%list_elem_of_singleton. done.
    - apply NoDup_singleton. }
  apply H. constructor.
Qed.

Lemma recorded_entry label v acc :
  NoDup (map fst acc) → (label, v) ∈ acc → recorded label acc = Some v.
Proof.
  unfold recorded. induction acc as [|[f c'] acc IH]; cbn; intros Hnd Hin.
  - by apply elem_of_nil in Hin.
  - apply NoDup_cons in Hnd as [Hf Hnd]. apply elem_of_cons in Hin as [Heq|Hin].
    + injection Heq as <- <-. by rewrite String.eqb_refl.
    + destruct (String.eqb_spec f label) as [->|Hne].
      * exfalso. apply Hf. apply list_elem_of_fmap. by exists (label, v).
      * by apply IH.
Qed.

Lemma entry_of_recorded label v acc : recorded label acc = Some v → (label, v) ∈ acc.
Proof.
  unfold recorded.
  destruct (find (fun e => String.eqb (fst e) label) acc) as [[f c]|] eqn:E; [|done].
  intros [= <-]. apply find_some in E as [Hin Hf]. cbn in *.
  apply String.eqb_eq in Hf as ->. by apply list_elem_of_In.
Qed.

(** The entries of the record that hold a count are those of the ordinary
    labels of the window, with the number of their occurrences. *)
Lemma focusCounts_counted label c l :
  (label, Counted c) ∈ focusCounts l ↔
  (label ∉ inheritedNames) ∧ c = occurrences label l ∧ 0 < c.
Proof.
  split.
  - intros Hin. pose proof (recorded_entry _ _ _ (focusCounts_NoDup l) Hin) as H.
    rewrite recorded_focusCounts in H. unfold tally in H.
    repeat case_decide; simplify_eq. split; [done|]. split; [done|lia].
  - intros (Hord & -> & Hpos). apply entry_of_recorded.
    rewrite recorded_focusCounts. unfold tally.
    rewrite decide_False by lia. by rewrite decide_False.
Qed.

(** Two labels share the window. *)
Lemma occurrences_disjoint f g l :
  f ≠ g → occurrences f l + occurrences g l ≤ length l.
Proof.
  intros Hne. unfold occurrences. induction l as [|x l IH]; [done|].
  rewrite !filter_cons. cbn [length].
  destruct (decide (x = f)) as [Hf|Hf], (decide (x = g)) as [Hg|Hg]; cbn [length];
    try lia; congruence.
Qed.
End FocusCounts.

(** The threshold test on a count out of the window of 8: 60 percent is
    reached from 5 on. *)
Lemma isDominant_spec label v : isDominant (label, v) = true ↔ ∃ c, v = Counted c ∧ 5 ≤ c.
Proof.
  unfold isDominant, STRATEGIC_BIAS_THRESHOLD, STRATEGIC_BIAS_WINDOW. cbn [snd].
  destruct v as [c|]; [|split; [done|by intros (? & ? & _)]].
  rewrite Qle_bool_iff. change (Z.of_nat 8) with 8%Z.
  unfold Qle, Qdiv, Qmult, Qinv, inject_Z. cbn. split.
  - intros H. exists c. split; [done|lia].
  - intros (c' & [= <-] & H). lia.
Qed.

Lemma share_threshold label window :
  (STRATEGIC_BIAS_THRESHOLD <= share label window)%Q ↔ 5 ≤ occurrences label window.
Proof.
  unfold share, STRATEGIC_BIAS_THRESHOLD, STRATEGIC_BIAS_WINDOW. change (Z.of_nat 8) with 8%Z.
  unfold Qle, Qdiv, Qmult, Qinv, inject_Z. cbn. lia.
Qed.

Lemma slice_last_length {A} n (l : list A) :
  length (JS.slice_last n l) = min n (length l).
Proof. unfold JS.slice_last. rewrite length_drop. lia. Qed.

Lemma renderArchitectDashboard_short history :
  length history < 8 → renderArchitectDashboard history = None.
Proof.
  intros Hlen. unfold renderArchitectDashboard.
  destruct (Nat.eqb_spec (length (JS.slice_last STRATEGIC_BIAS_WINDOW history))
                         STRATEGIC_BIAS_WINDOW) as [E|E]; [|done].
  rewrite slice_last_length in E. unfold STRATEGIC_BIAS_WINDOW in E. lia.
Qed.

(** The label of the warning, for every history. *)
Lemma renderArchitectDashboard_spec history label :
  renderArchitectDashboard history = Some label ↔
  8 ≤ length history ∧
  (STRATEGIC_BIAS_THRESHOLD <= share label (JS.slice_last 8 history))%Q ∧
  label ∉ inheritedNames.
Proof.
  rewrite share_threshold.
  destruct (decide (length history < 8)) as [Hlen|Hlen].
  { rewrite renderArchitectDashboard_short by done. split; [done|lia]. }
  unfold renderArchitectDashboard. change STRATEGIC_BIAS_WINDOW with 8.
  set (window := JS.slice_last 8 history).
  assert (Hw : length window = 8) by (subst window; rewrite slice_last_length; lia).
  rewrite Hw. cbn [Nat.eqb].
  destruct (find isDominant (focusCounts window)) as [[f v]|] eqn:E.
  - apply find_some in E as [Hin Hdom]. apply list_elem_of_In in Hin.
    apply isDominant_spec in Hdom as (c & -> & Hc).
    apply focusCounts_counted in Hin as (Hord & -> & _). cbn [fst].
    split.
    + intros [= <-]. split; [lia|done].
    + intros (_ & Hlabel & _). f_equal. destruct (decide (f = label)) as [|Hne]; [done|].
      pose proof (occurrences_disjoint f label window Hne). lia.
  - split; [done|]. intros (_ & Hlabel & Hord). exfalso.
    assert (Hin : (label, Counted (occurrences label window)) ∈ focusCounts window)
      by (apply focusCounts_counted; repeat split; [done|lia]).
    apply list_elem_of_In in Hin.
    apply (find_none _ _ E) in Hin.
    assert (isDominant (label, Counted (occurrences label window)) = true)
      by (apply isDominant_spec; eauto).
    congruence.
Qed.

(** C7.  The detector departs from the claim on the labels that name a
    member of [Object.prototype]: the record of counts is a plain object, so
    such a label is never counted, and eight [constructor] out of eight (or
    eight [__proto__]) raise no warning although the label makes up the
    whole window.  On every other label the claim holds: the warning names
    [label] exactly when the history holds at least 8 labels and [label]
    makes up at least 60 percent of the last 8 of them; with fewer than 8
    labels there is no warning, whatever they are; five [ALGEBRA] among the
    last eight (62.5 percent) raise the warning on [ALGEBRA]. *)
Theorem bias_warning_misses_inherited_names :
  (renderArchitectDashboard (replicate 8 "constructor") = None ∧
   renderArchitectDashboard (replicate 8 "__proto__") = None ∧
   (STRATEGIC_BIAS_THRESHOLD <= share "constructor" (JS.slice_last 8 (replicate 8 "constructor")))%Q ∧
   focusCounts (replicate 8 "constructor") = [("constructor", NotANumber)] ∧
   focusCounts (replicate 8 "__proto__") = [])
  ∧ (∀ history label,
       renderArchitectDashboard history = Some label ↔
       8 ≤ length history ∧
       (STRATEGIC_BIAS_THRESHOLD <= share label (JS.slice_last 8 history))%Q ∧
       label ∉ inheritedNames)
  ∧ (∀ history, length history < 8 → renderArchitectDashboard history = None)
  ∧ renderArchitectDashboard
      ["ALGEBRA"; "COMPLEXITY"; "ALGEBRA"; "ALGEBRA"; "LOGIC"; "ALGEBRA"; "COMPLEXITY"; "ALGEBRA"]
    = Some "ALGEBRA"
  ∧ renderArchitectDashboard
      ["ALGEBRA"; "ALGEBRA"; "ALGEBRA"; "ALGEBRA"; "ALGEBRA"; "ALGEBRA"; "ALGEBRA"] = None.
Proof.
  split.
  { split; [vm_compute; reflexivity|]. split; [vm_compute; reflexivity|].
    split; [apply share_threshold; vm_compute; lia|]. split; vm_compute; reflexivity. }
  split; [exact renderArchitectDashboard_spec|].
  split; [exact renderArchitectDashboard_short|]. split; vm_compute; reflexivity.
Qed.

Lemma bias_warning_witness :
  length ["ALGEBRA"; "ALGEBRA"; "ALGEBRA"; "ALGEBRA"; "ALGEBRA"; "ALGEBRA"; "ALGEBRA"] < 8 ∧
  renderArchitectDashboard
    ["ALGEBRA"; "ALGEBRA"; "ALGEBRA"; "ALGEBRA"; "ALGEBRA"; "ALGEBRA"; "ALGEBRA"] = None.
Proof.
  assert (H : length ["ALGEBRA"; "ALGEBRA"; "ALGEBRA"; "ALGEBRA"; "ALGEBRA"; "ALGEBRA";
                      "ALGEBRA"] < 8) by (cbn; lia).
  split; [exact H|].
  exact (proj1 (proj2 (proj2 bias_warning_misses_inherited_names)) _ H).
Defined.

(** ** What the architect phase leaves to the scheduler *)

Lemma schedulerState_addLogEntry notebookId markdown m :
  schedulerState (addLogEntry notebookId markdown m) = schedulerState m.
Proof. unfold schedulerState. by autorewrite with mission. Qed.

Lemma schedulerState_renderKnowledgeGraph m :
  schedulerState (renderKnowledgeGraph m) = schedulerState m.
Proof. reflexivity. Qed.

Lemma schedulerState_deployNewAgent env id missionPrompt tools lifespan isFromLoad m :
  schedulerState (deployNewAgent env id missionPrompt tools lifespan isFromLoad m) =
  schedulerState m.
Proof.
  unfold deployNewAgent. repeat case_match; try reflexivity;
    rewrite ?schedulerState_addLogEntry; reflexivity.
Qed.

Lemma schedulerState_retireAgent id reason m :
  schedulerState (retireAgent id reason m) = schedulerState m.
Proof. unfold retireAgent. by rewrite schedulerState_addLogEntry. Qed.

Lemma schedulerState_applyKnowledgeNode env vectors node m :
  schedulerState (fst (applyKnowledgeNode env vectors node m)) = schedulerState m.
Proof.
  unfold applyKnowledgeNode. destruct vectors as [vs|]; [|done]. cbn.
  repeat case_match; reflexivity.
Qed.

Lemma schedulerState_applyKnowledgeUpdate env vectors nodes m :
  schedulerState (fst (applyKnowledgeUpdate env vectors nodes m)) = schedulerState m.
Proof.
  revert m. induction nodes as [|node rest IH]; intros m; [done|]. cbn [applyKnowledgeUpdate].
  pose proof (schedulerState_applyKnowledgeNode env vectors node m) as H.
  destruct (applyKnowledgeNode env vectors node m) as [m' [[]|msg]]; cbn in H |- *.
  - by rewrite IH.
  - done.
Qed.

Lemma schedulerState_parseAndApply env parsedResponse m :
  schedulerState (fst (parseAndApplyArchitectResponse env parsedResponse m)) = schedulerState m.
Proof.
  unfold parseAndApplyArchitectResponse.
  set (m0 := match strategic_planning parsedResponse ≫= strategic_focus with
             | Some focus => _ | None => m end).
  assert (H0 : schedulerState m0 = schedulerState m).
  { subst m0. repeat case_match; reflexivity. }
  assert (Hrest : ∀ m1, schedulerState m1 = schedulerState m →
    schedulerState (renderKnowledgeGraph
      (updateStagnation (strategic_assessment parsedResponse)
         match strategic_planning parsedResponse ≫= research_vectors with
         | Some vectors =>
             match bestResearchVector vectors with
             | Some bestVector =>
                 if String.eqb bestVector EmptyString then m1
                 else set_activeResearchVector bestVector m1
             | None => m1
             end
         | None => m1
         end)) = schedulerState m).
  { intros m1 <-. unfold updateStagnation. repeat case_match; reflexivity. }
  destruct (knowledge_update parsedResponse) as [nodes|].
  - pose proof (schedulerState_applyKnowledgeUpdate env
      (strategic_planning parsedResponse ≫= research_vectors) nodes m0) as H1.
    destruct (applyKnowledgeUpdate env _ nodes m0) as [m1 [[]|msg]]; cbn in H1 |- *.
    + apply Hrest. congruence.
    + congruence.
  - cbn. by apply Hrest.
Qed.

Lemma schedulerState_toolEffect env call m :
  schedulerState (fst (toolEffect env call m)) = schedulerState m.
Proof.
  destruct call; cbn [toolEffect];
    try (destruct (kg_get _ (knowledgeGraphMap m)); cbn iota beta zeta);
    repeat case_match; simplify_eq; cbn [fst];
    rewrite ?schedulerState_addLogEntry, ?schedulerState_retireAgent,
            ?schedulerState_deployNewAgent, ?schedulerState_addLogEntry;
    reflexivity.
Qed.

Lemma schedulerState_toolLoop fuel envs architect round conversation result m :
  schedulerState (fst (toolLoop fuel envs architect round conversation result m)) =
  schedulerState m.
Proof.
  revert round conversation result m.
  induction fuel as [|fuel IH]; intros round conversation result m;
    destruct result as [call others|text]; cbn [toolLoop]; try reflexivity.
  pose proof (schedulerState_toolEffect (envs round) call m) as H.
  destruct (toolEffect (envs round) call m) as [m' [answer|msg]]; cbn [fst] in H; [|done].
  cbn zeta. destruct (architect _) as [result'|]; [|done].
  by rewrite IH.
Qed.

(** ** C8: the terminal marker *)

Lemma stopSearch_success m :
  isSearching (stopSearch true m) = false ∧
  searchIntervalId (stopSearch true m) = None ∧
  statusSuccess (stopSearch true m) = true ∧
  db (stopSearch true m) = delete DB_KEY <$> db m ∧
  persistedSnapshot (stopSearch true m) = None ∧
  finalProofContent (stopSearch true m) = finalProofContent m.
Proof.
  unfold persistedSnapshot. cbn. repeat split.
  destruct (db m) as [store|]; cbn; [apply lookup_delete_eq|done].
Qed.

Lemma fatalSynthesisError_frame msg m :
  statusSuccess (fatalSynthesisError msg m) = statusSuccess m ∧
  db (fatalSynthesisError msg m) = db m ∧
  finalProofContent (fatalSynthesisError msg m) = finalProofContent m.
Proof. unfold fatalSynthesisError. cbn. by autorewrite with mission. Qed.

Lemma concludeArchitectStep_not_terminal env parsedResponse m :
  isTerminal (summaryOf parsedResponse) = false →
  statusSuccess (concludeArchitectStep env parsedResponse m) = statusSuccess m ∧
  db (concludeArchitectStep env parsedResponse m) = db m ∧
  finalProofContent (concludeArchitectStep env parsedResponse m) = finalProofContent m.
Proof.
  intros Hnot. unfold concludeArchitectStep. rewrite Hnot.
  pose proof (schedulerState_parseAndApply env parsedResponse
                (addLogEntry "synthesizer" (summaryOf parsedResponse) m)) as H.
  rewrite schedulerState_addLogEntry in H.
  destruct (parseAndApplyArchitectResponse env parsedResponse _) as [m' [[]|msg]];
    cbn [fst] in H; unfold schedulerState in H.
  - by simplify_eq.
  - destruct (fatalSynthesisError_frame msg m') as (-> & -> & ->). by simplify_eq.
Qed.

(** The step raises the [success] status only by way of a terminal summary. *)
Lemma runArchitectStep_success_only_by_marker fuel envs architect specialistOutputs m m' :
  runArchitectStep fuel envs architect specialistOutputs m = Some m' →
  statusSuccess m = false → statusSuccess m' = true →
  ∃ round text parsedResponse,
    parseFinal (envs round) text = Some parsedResponse ∧
    isTerminal (summaryOf parsedResponse) = true.
Proof.
  unfold runArchitectStep. intros Hrun Hbefore Hafter.
  destruct (isSearching m); cbn [negb] in Hrun.
  2:{ injection Hrun as <-. congruence. }
  assert (Hchaos : statusSuccess (snd (chaosIntervention m)) = false).
  { unfold chaosIntervention. destruct (chaosActive m); cbn [snd];
      autorewrite with mission; exact Hbefore. }
  destruct (chaosIntervention m) as [chaos m0]. cbn [snd] in Hchaos.
  assert (Hfatal : ∀ msg m1, statusSuccess m1 = false → Some (fatalSynthesisError msg m1) = Some m' → False).
  { intros msg m1 H1 [= <-]. destruct (fatalSynthesisError_frame msg m1) as (E & _). congruence. }
  destruct (architect _) as [result|]; [|exfalso; exact (Hfatal _ _ Hchaos Hrun)].
  pose proof (schedulerState_toolLoop fuel envs architect 0
    [{| role := "user"; parts := [PromptPart (architectPrompt chaos specialistOutputs m0)] |}]
    result m0) as Hloop.
  destruct (toolLoop fuel envs architect 0 _ result m0) as [m1 [conv round [text|]|msg|]];
    cbn [fst] in Hloop; unfold schedulerState in Hloop;
    try discriminate Hrun;
    assert (H1 : statusSuccess m1 = false) by (simplify_eq; congruence).
  - destruct (parseFinal (envs round) text) as [parsedResponse|] eqn:Hparse;
      [|exfalso; exact (Hfatal _ _ H1 Hrun)].
    exists round, text, parsedResponse. split; [done|].
    destruct (isTerminal (summaryOf parsedResponse)) eqn:Hterm; [done|].
    destruct (concludeArchitectStep_not_terminal (envs round) parsedResponse m1 Hterm) as (E & _).
    simplify_eq. congruence.
  - exfalso. exact (Hfatal _ _ H1 Hrun).
  - exfalso. exact (Hfatal _ _ H1 Hrun).
Qed.

Lemma prefix_trimEnd p s :
  endsNonSpace p = true → String.prefix p s = true → String.prefix p (JS.trimEnd s) = true.
Proof.
  revert p. induction s as [|c s IH]; intros [|a p] Hp Hpre; try done.
  cbn [String.prefix] in Hpre. destruct (ascii_dec a c) as [->|]; [|done].
  cbn [JS.trimEnd]. destruct p as [|b p].
  - cbn [endsNonSpace] in Hp. apply negb_true_iff in Hp. rewrite Hp.
    destruct (JS.trimEnd s); cbn [String.prefix]; by destruct (ascii_dec c c).
  - assert (Hp' : endsNonSpace (String b p) = true) by exact Hp.
    specialize (IH (String b p) Hp' Hpre).
    destruct (JS.trimEnd s) as [|d t]; [done|].
    cbn [String.prefix]. destruct (ascii_dec c c); [exact IH|done].
Qed.

(** A summary that begins with the marker passes the test. *)
Lemma startsWith_marker_isTerminal summary :
  JS.startsWith TERMINAL_MARKER summary = true → isTerminal summary = true.
Proof.
  unfold isTerminal, JS.startsWith, JS.trim. intros Hpre.
  assert (Hstart : JS.trimStart summary = summary).
  { destruct summary as [|c s]; [done|]. cbn [String.prefix TERMINAL_MARKER] in Hpre.
    unfold TERMINAL_MARKER in Hpre. cbn [String.prefix] in Hpre.
    destruct (ascii_dec _ c) as [<-|]; [|done]. reflexivity. }
  rewrite Hstart. by apply prefix_trimEnd.
Qed.

Lemma prefix_split p s : String.prefix p s = true → ∃ rest, s = p +:+ rest.
Proof.
  revert s. induction p as [|a p IH]; intros s H; [by exists s|].
  destruct s as [|c s]; [done|]. cbn [String.prefix] in H.
  destruct (ascii_dec a c) as [->|]; [|done].
  destruct (IH s H) as [rest ->]. by exists rest.
Qed.

Lemma prefix_app p rest : String.prefix p (p +:+ rest) = true.
Proof.
  induction p as [|a p IH]; [by destruct rest|].
  change (String a p +:+ rest) with (String a (p +:+ rest)). cbn [String.prefix].
  by destruct (ascii_dec a a).
Qed.

Lemma prefix_of_trimEnd p s : String.prefix p (JS.trimEnd s) = true → String.prefix p s = true.
Proof.
  revert p. induction s as [|c s IH]; intros p; [done|]. cbn [JS.trimEnd].
  destruct p as [|a p]; [done|].
  destruct (JS.trimEnd s) as [|d t] eqn:E.
  - destruct (JS.is_space c); [done|]. cbn [String.prefix].
    destruct (ascii_dec a c); [|done]. destruct p; [|done]. intros _. by destruct s.
  - cbn [String.prefix]. destruct (ascii_dec a c); [|done]. apply IH.
Qed.

Lemma trimStart_split s : ∃ blanks, blank blanks = true ∧ s = blanks +:+ JS.trimStart s.
Proof.
  induction s as [|c s IH]; [by exists EmptyString|]. cbn [JS.trimStart].
  destruct (JS.is_space c) eqn:E.
  - destruct IH as (blanks & Hb & Hs). exists (String c blanks). split.
    + cbn [blank]. by rewrite E.
    + change (String c blanks +:+ JS.trimStart s) with (String c (blanks +:+ JS.trimStart s)).
      by rewrite <- Hs.
  - by exists EmptyString.
Qed.

Lemma trimStart_blank blanks t :
  blank blanks = true → JS.trimStart t = t → JS.trimStart (blanks +:+ t) = t.
Proof.
  intros Hb Ht. induction blanks as [|c blanks IH]; [exact Ht|].
  cbn [blank] in Hb. apply andb_true_iff in Hb as [Hc Hb].
  change (String c blanks +:+ t) with (String c (blanks +:+ t)).
  cbn [JS.trimStart]. rewrite Hc. by apply IH.
Qed.

(** The summaries that pass the test: the marker, after white space only. *)
Lemma isTerminal_spec summary :
  isTerminal summary = true ↔
  ∃ blanks rest, blank blanks = true ∧ summary = blanks +:+ TERMINAL_MARKER +:+ rest.
Proof.
  unfold isTerminal, JS.startsWith, JS.trim. split.
  - intros H%prefix_of_trimEnd. apply prefix_split in H as [rest Hrest].
    destruct (trimStart_split summary) as (blanks & Hb & Hs).
    exists blanks, rest. split; [done|]. by rewrite <- Hrest.
  - intros (blanks & rest & Hb & ->).
    rewrite (trimStart_blank blanks (TERMINAL_MARKER +:+ rest) Hb) by reflexivity.
    apply prefix_trimEnd; [reflexivity|]. apply prefix_app.
Qed.

(** C8, as stated, fails: a summary that does not begin with the marker
    takes a Running mission to the Completed state. *)
Lemma padded_summary_completes_mission :
  JS.startsWith TERMINAL_MARKER (summaryOf (summaryOnly paddedSummary)) = false
  ∧ isSearching runningMission = true
  ∧ searchIntervalId runningMission = Some 1%positive
  ∧ statusSuccess runningMission = false
  ∧ is_Some (persistedSnapshot runningMission)
  ∧ isSearching (concludeArchitectStep silentEnv (summaryOnly paddedSummary) runningMission) = false
  ∧ searchIntervalId (concludeArchitectStep silentEnv (summaryOnly paddedSummary) runningMission) = None
  ∧ statusSuccess (concludeArchitectStep silentEnv (summaryOnly paddedSummary) runningMission) = true
  ∧ persistedSnapshot (concludeArchitectStep silentEnv (summaryOnly paddedSummary) runningMission) = None.
Proof.
  repeat split; try (vm_compute; reflexivity).
  vm_compute. eauto.
Qed.

(** C8, amended.  The test is made on the summary with the white space at
    both ends trimmed off: a summary passes it when it is the marker behind
    white space only, with whatever follows, and a summary of ASCII text
    passes it in no other case; so a summary that begins with the marker
    passes.  When the summary of the final payload passes the test, the
    interval is cleared, the running flag lowered, the status set to success
    and the snapshot deleted from the store; when a summary of ASCII text
    does not, the status and the store stay as they are.  Over a whole
    architect step whose final payloads have summaries of ASCII text, the
    success status is raised only by a final payload whose summary passes
    the test. *)
Theorem trimmed_marker_completes_mission :
  (∀ summary,
     ((∃ blanks rest, blank blanks = true ∧ summary = blanks +:+ TERMINAL_MARKER +:+ rest) →
      isTerminal summary = true) ∧
     (asciiText summary = true → isTerminal summary = true →
      ∃ blanks rest, blank blanks = true ∧ summary = blanks +:+ TERMINAL_MARKER +:+ rest))
  ∧ (∀ summary, JS.startsWith TERMINAL_MARKER summary = true → isTerminal summary = true)
  ∧ (∀ env parsedResponse m,
       isTerminal (summaryOf parsedResponse) = true →
       isSearching (concludeArchitectStep env parsedResponse m) = false ∧
       searchIntervalId (concludeArchitectStep env parsedResponse m) = None ∧
       statusSuccess (concludeArchitectStep env parsedResponse m) = true ∧
       db (concludeArchitectStep env parsedResponse m) = delete DB_KEY <$> db m ∧
       persistedSnapshot (concludeArchitectStep env parsedResponse m) = None)
  ∧ (∀ env parsedResponse m,
       asciiText (summaryOf parsedResponse) = true →
       isTerminal (summaryOf parsedResponse) = false →
       statusSuccess (concludeArchitectStep env parsedResponse m) = statusSuccess m ∧
       db (concludeArchitectStep env parsedResponse m) = db m)
  ∧ (∀ fuel envs architect specialistOutputs m m',
       (∀ round text parsedResponse,
          parseFinal (envs round) text = Some parsedResponse →
          asciiText (summaryOf parsedResponse) = true) →
       runArchitectStep fuel envs architect specialistOutputs m = Some m' →
       statusSuccess m = false → statusSuccess m' = true →
       ∃ round text parsedResponse,
         parseFinal (envs round) text = Some parsedResponse ∧
         isTerminal (summaryOf parsedResponse) = true).
Proof.
  split.
  { intros summary. split; [apply isTerminal_spec|]. intros _. apply isTerminal_spec. }
  split; [exact startsWith_marker_isTerminal|]. split; [|split].
  - intros env parsedResponse m Hterm. unfold concludeArchitectStep. rewrite Hterm.
    destruct (stopSearch_success
      (set_finalProofContent
         (JS.trim (JS.replace_first TERMINAL_MARKER EmptyString (summaryOf parsedResponse))) m))
      as (H1 & H2 & H3 & H4 & H5 & _).
    repeat split; done.
  - intros env parsedResponse m _ Hterm.
    destruct (concludeArchitectStep_not_terminal env parsedResponse m Hterm) as (H1 & H2 & _).
    done.
  - intros fuel envs architect specialistOutputs m m' _.
    apply runArchitectStep_success_only_by_marker.
Qed.

Lemma trimmed_marker_witness :
  isTerminal (summaryOf (summaryOnly paddedSummary)) = true ∧
  persistedSnapshot (concludeArchitectStep silentEnv (summaryOnly paddedSummary) runningMission)
  = None.
Proof.
  assert (H : isTerminal (summaryOf (summaryOnly paddedSummary)) = true) by reflexivity.
  split; [exact H|].
  pose proof (proj1 (proj2 (proj2 trimmed_marker_completes_mission)) silentEnv
                (summaryOnly paddedSummary) runningMission H) as (_ & _ & _ & _ & E).
  exact E.
Defined.

(** ** C9: reset *)

Ltac reset_field :=
  unfold clearAllNotebooks; cbv zeta; autorewrite with mission;
  cbn [knowledgeGraphMap knowledgeNodeCounter vectorKnowledgeBase cycleCounter
       stagnationCounter strategicFocusHistory agentPerformanceMetrics
       activeSpecialists specialistPrompts specialistMetadata db finalProofContent
       statusSuccess isSearching searchIntervalId currentMissionObjective
       activeResearchVector notebooks
       set_notebooks set_statusSuccess renderKnowledgeGraph set_knowledgeGraphMap
       set_agentPerformanceMetrics set_activeSpecialists set_activeResearchVector
       set_currentMissionObjective set_strategicFocusHistory set_stagnationCounter
       set_cycleCounter set_knowledgeNodeCounter set_vectorKnowledgeBase
       set_finalProofContent map kg_values];
  change (foldl (fun acc id => retireAgent id "New mission started." acc)
            (set_db ((fun _ => ∅) <$> db ?m) ?m)
            (filter (fun id => id ∉ seedAgents)
               (activeSpecialists (set_db ((fun _ => ∅) <$> db ?m) ?m))))
    with (afterRetirements m).

Lemma afterRetirements_ids m id :
  id ∈ map (fun id => id)
         (filter (fun id => id ∉ seedAgents) (activeSpecialists m)) ↔ dynamicAgent m id.
Proof. rewrite map_id, list_elem_of_filter. unfold dynamicAgent. tauto. Qed.

Lemma clearAllNotebooks_notebooks_dom m :
  dom (notebooks (clearAllNotebooks true m)) =
  dom (notebooks m) ∖
    list_to_set (filter (fun id => id ∉ seedAgents) (activeSpecialists m)).
Proof.
  unfold clearAllNotebooks; cbv zeta. rewrite !addLogEntry_dom.
  cbn [notebooks set_notebooks]. rewrite dom_fmap_L.
  cbn [notebooks set_notebooks set_statusSuccess renderKnowledgeGraph set_knowledgeGraphMap
       set_agentPerformanceMetrics set_activeSpecialists set_activeResearchVector
       set_currentMissionObjective set_strategicFocusHistory set_stagnationCounter
       set_cycleCounter set_knowledgeNodeCounter set_vectorKnowledgeBase
       set_finalProofContent].
  change (foldl (fun acc id => retireAgent id "New mission started." acc)
            (set_db ((fun _ => ∅) <$> db m) m)
            (filter (fun id => id ∉ seedAgents)
               (activeSpecialists (set_db ((fun _ => ∅) <$> db m) m))))
    with (afterRetirements m).
  unfold afterRetirements. rewrite retireEach_notebooks_dom, map_id. reflexivity.
Qed.

(** What a confirmed reset does write: it empties the knowledge graph and
    the semantic index, sets the node-id counter, the cycle counter and the
    stagnation counter to zero, clears the focus history and the proof text,
    empties the store, sets the active list to the six seed ids and the
    metrics to those six at zero.  Of the registry it removes what belongs
    to the non-seed agents of the active list (notebook, prompt, metadata);
    of every other id the notebook stays or stays absent, and the prompt and
    the metadata are not written.  The running flag and the interval are
    not written. *)
Lemma reset_clears_mission_but_keeps_stored_agents (m : Mission) :
  let m' := clearAllNotebooks true m in
  knowledgeGraphMap m' = [] ∧ vectorKnowledgeBase m' = []
  ∧ knowledgeNodeCounter m' = 0 ∧ cycleCounter m' = 0%Z ∧ stagnationCounter m' = 0
  ∧ strategicFocusHistory m' = [] ∧ finalProofContent m' = EmptyString
  ∧ statusSuccess m' = false
  ∧ activeSpecialists m' = seedAgents
  ∧ agentPerformanceMetrics m' = seedMetrics
  ∧ (∀ id, agentPerformanceMetrics m' !! id =
           if decide (id ∈ seedAgents) then Some zeroMetric else None)
  ∧ db m' = (fun _ => ∅) <$> db m ∧ persistedSnapshot m' = None
  ∧ (∀ id, dynamicAgent m id →
           notebooks m' !! id = None ∧ specialistPrompts m' !! id = None ∧
           specialistMetadata m' !! id = None)
  ∧ (∀ id, ¬ dynamicAgent m id →
           (is_Some (notebooks m' !! id) ↔ is_Some (notebooks m !! id)) ∧
           specialistPrompts m' !! id = specialistPrompts m !! id ∧
           specialistMetadata m' !! id = specialistMetadata m !! id)
  ∧ isSearching m' = isSearching m ∧ searchIntervalId m' = searchIntervalId m.
Proof.
  cbv zeta.
  assert (Hmetrics : agentPerformanceMetrics (clearAllNotebooks true m) = seedMetrics).
  { reset_field. reflexivity. }
  assert (Hdb : db (clearAllNotebooks true m) = (fun _ => ∅) <$> db m).
  { reset_field. unfold afterRetirements.
    pose proof (retireEach_frame (fun id => id) (fun _ => "New mission started.")
      (filter (fun id => id ∉ seedAgents) (activeSpecialists m))
      (set_db ((fun _ => ∅) <$> db m) m)) as (_ & _ & H).
    by simplify_eq. }
  assert (Hsched : isSearching (clearAllNotebooks true m) = isSearching m ∧
                   searchIntervalId (clearAllNotebooks true m) = searchIntervalId m).
  { split; reset_field; unfold afterRetirements;
      pose proof (retireEach_frame (fun id => id) (fun _ => "New mission started.")
        (filter (fun id => id ∉ seedAgents) (activeSpecialists m))
        (set_db ((fun _ => ∅) <$> db m) m)) as (_ & _ & H);
      by simplify_eq. }
  do 9 (split; [reset_field; reflexivity|]).
  split; [exact Hmetrics|].
  split.
  { intros id. rewrite Hmetrics. case_decide as Hid.
    - unfold seedAgents in Hid. rewrite !elem_of_cons in Hid.
      destruct Hid as [->|[->|[->|[->|[->|[->|Hid]]]]]]; try (vm_compute; reflexivity).
      by apply elem_of_nil in Hid.
    - apply not_elem_of_list_to_map_1. exact Hid. }
  split; [exact Hdb|].
  split.
  { unfold persistedSnapshot. rewrite Hdb. destruct (db m); [apply lookup_empty|done]. }
  split.
  { intros id H. split; [|split].
    - apply not_elem_of_dom. rewrite clearAllNotebooks_notebooks_dom.
      apply afterRetirements_ids in H. rewrite map_id in H.
      rewrite elem_of_difference, elem_of_list_to_set. tauto.
    - reset_field. unfold afterRetirements. rewrite retireEach_prompts.
      by rewrite decide_True by (by apply afterRetirements_ids).
    - reset_field. unfold afterRetirements. rewrite retireEach_metadata.
      by rewrite decide_True by (by apply afterRetirements_ids). }
  split; [|exact Hsched].
  intros id H. split; [|split].
  - rewrite <- !elem_of_dom, clearAllNotebooks_notebooks_dom.
    rewrite <- afterRetirements_ids, map_id in H.
    rewrite elem_of_difference, elem_of_list_to_set. tauto.
  - reset_field. unfold afterRetirements. rewrite retireEach_prompts.
    by rewrite decide_False by (by rewrite afterRetirements_ids).
  - reset_field. unfold afterRetirements. rewrite retireEach_metadata.
    by rewrite decide_False by (by rewrite afterRetirements_ids).
Qed.

(** C9.  The reset departs from the claim where the architect has changed
    a seed agent: it sets the active list and the metrics back to the six
    seed agents, and leaves their prompts, metadata and notebooks as the
    mission left them.  After the architect has re-prompted [specialist-1]
    and retired [specialist-2], a confirmed reset clears the graph, the
    counters, the history and the store, and lists the six seed agents as
    active with metrics at zero; but [specialist-1] keeps the prompt the
    architect gave it, and [specialist-2] is active without notebook, prompt
    or metadata: the registry is not that of the six seed agents. *)
Theorem reset_does_not_restore_seed_agents :
  (knowledgeGraphMap (clearAllNotebooks true evolvedMission) = []
   ∧ knowledgeNodeCounter (clearAllNotebooks true evolvedMission) = 0
   ∧ cycleCounter (clearAllNotebooks true evolvedMission) = 0%Z
   ∧ stagnationCounter (clearAllNotebooks true evolvedMission) = 0
   ∧ strategicFocusHistory (clearAllNotebooks true evolvedMission) = []
   ∧ persistedSnapshot (clearAllNotebooks true evolvedMission) = None
   ∧ activeSpecialists (clearAllNotebooks true evolvedMission) = seedAgents
   ∧ agentPerformanceMetrics (clearAllNotebooks true evolvedMission) = seedMetrics)
  ∧ specialistPrompts (clearAllNotebooks true evolvedMission) !! "specialist-1"
    = Some "Study circuit lower bounds only."
  ∧ seedPrompts !! "specialist-1" ≠ Some "Study circuit lower bounds only."
  ∧ "specialist-2" ∈ activeSpecialists (clearAllNotebooks true evolvedMission)
  ∧ notebooks (clearAllNotebooks true evolvedMission) !! "specialist-2" = None
  ∧ specialistPrompts (clearAllNotebooks true evolvedMission) !! "specialist-2" = None
  ∧ specialistMetadata (clearAllNotebooks true evolvedMission) !! "specialist-2" = None
  ∧ specialistPrompts (clearAllNotebooks true evolvedMission) ≠ seedPrompts
  ∧ specialistPrompts (clearAllNotebooks true evolvedMission) ≠
    specialistPrompts (initialMission (Some ∅)).
Proof.
  assert (H1 : specialistPrompts (clearAllNotebooks true evolvedMission) !! "specialist-1"
               = Some "Study circuit lower bounds only.") by (vm_compute; reflexivity).
  assert (H2 : seedPrompts !! "specialist-1" ≠ Some "Study circuit lower bounds only.")
    by (vm_compute; discriminate).
  split.
  { destruct (reset_clears_mission_but_keeps_stored_agents evolvedMission)
      as (? & _ & ? & ? & ? & ? & _ & _ & ? & ? & _ & _ & ? & _).
    repeat split; assumption. }
  split; [exact H1|]. split; [exact H2|]. split; [|split; [|split; [|split; [|split]]]].
  - apply (bool_decide_unpack _). vm_compute. exact I.
  - vm_compute. reflexivity.
  - vm_compute. reflexivity.
  - vm_compute. reflexivity.
  - intros E. rewrite E in H1. contradiction.
  - intros E. rewrite E in H1. contradiction.
Qed.

(** ** C3: node ids *)

Lemma charAt0_NodeType t : ∃ c, JS.charAt0 (NodeType_name t) = String c EmptyString.
Proof. destruct t; eexists; reflexivity. Qed.

(** Two ids are equal only when they were made from the same counter value. *)
Lemma newNodeId_inj t1 t2 (c1 c2 : nat) : newNodeId t1 c1 = newNodeId t2 c2 → c1 = c2.
Proof.
  unfold newNodeId.
  destruct (charAt0_NodeType t1) as [a1 ->], (charAt0_NodeType t2) as [a2 ->].
  cbn [String.append]. intros [= _ H]. exact (pretty_nat_inj _ _ H).
Qed.

Lemma kg_get_None k g : kg_get k g = None ↔ k ∉ map fst g.
Proof.
  induction g as [|[k' n] g IH]; cbn.
  - split; [intros _; apply not_elem_of_nil|done].
  - rewrite not_elem_of_cons. destruct (String.eqb_spec k' k) as [->|Hne].
    + split; [done|]. intros [H _]. done.
    + rewrite IH. split; [|tauto]. intros H. split; [congruence|done].
Qed.

Lemma kg_set_fresh k n g : kg_get k g = None → kg_set k n g = g ++ [(k, n)].
Proof.
  induction g as [|[k' n'] g IH]; cbn; [done|].
  destruct (String.eqb_spec k' k) as [->|Hne]; [done|]. intros H. by rewrite IH.
Qed.

Lemma graphWf_fresh m t :
  graphWf m → kg_get (newNodeId t (knowledgeNodeCounter m)) (knowledgeGraphMap m) = None.
Proof.
  intros [_ Hwf]. apply kg_get_None. intros Hin.
  apply list_elem_of_fmap in Hin as [[k n] [Hk Hin]]. cbn in Hk.
  destruct (Hwf k n Hin) as (_ & t' & c' & -> & Hlt).
  apply newNodeId_inj in Hk. lia.
Qed.

(** One insertion, when [research_vectors] is there: the counter goes up by
    one and a node with the new id is appended. *)
Lemma applyKnowledgeNode_insert env vs node m :
  graphWf m →
  let id := newNodeId (ku_type node) (knowledgeNodeCounter m) in
  let m' := fst (applyKnowledgeNode env (Some vs) node m) in
  snd (applyKnowledgeNode env (Some vs) node m) = Done tt ∧
  knowledgeNodeCounter m' = S (knowledgeNodeCounter m) ∧
  knowledgeGraphMap m' =
    knowledgeGraphMap m ++ [(id, insertedNode vs node (knowledgeNodeCounter m))] ∧
  graphWf m'.
Proof.
  intros Hwf id m'.
  pose proof (graphWf_fresh m (ku_type node) Hwf) as Hfresh. fold id in Hfresh.
  assert (Hg : knowledgeGraphMap m' =
               knowledgeGraphMap m ++ [(id, insertedNode vs node (knowledgeNodeCounter m))]).
  { subst m'.
    rewrite <- (kg_set_fresh id (insertedNode vs node (knowledgeNodeCounter m)) _ Hfresh).
    unfold applyKnowledgeNode, insertedNode. cbn. repeat case_match; reflexivity. }
  assert (Hc : knowledgeNodeCounter m' = S (knowledgeNodeCounter m)).
  { subst m'. unfold applyKnowledgeNode. cbn. repeat case_match; reflexivity. }
  split; [reflexivity|]. split; [exact Hc|]. split; [exact Hg|].
  destruct Hwf as [Hnd Hwf].
  unfold graphWf. rewrite Hg, Hc. split.
  - rewrite map_app. apply NoDup_app. split; [done|]. split; [|apply NoDup_singleton].
    intros k Hk ->%list_elem_of_singleton. by apply kg_get_None in Hfresh.
  - intros k n [Hin|Hin%list_elem_of_singleton]%elem_of_app.
    + destruct (Hwf k n Hin) as (? & t & c & ? & ?). split; [done|]. exists t, c. split; [done|lia].
    + injection Hin as -> ->. split; [done|].
      exists (ku_type node), (knowledgeNodeCounter m). split; [done|lia].
Qed.

Lemma graphWf_initial store : graphWf (initialMission store).
Proof. split; [constructor|]. intros k n Hin. by apply elem_of_nil in Hin. Qed.

(** C3.  Whatever nodes a payload inserts into a well-formed store, the
    i-th of them gets the id made of the first character of its type and of
    the counter value it meets, which is the counter at the start plus i;
    the counter has gone up by one for each insertion; the new nodes come
    after the old ones, which are untouched; all keys of the store are
    pairwise distinct, so that no id is assigned twice; and the store is
    well-formed again, ready for the next payload.  Ids made from different
    counter values differ. *)
Theorem node_ids_fresh_and_counter_steps env vs nodes m :
  graphWf m →
  snd (applyKnowledgeUpdate env (Some vs) nodes m) = Done tt
  ∧ knowledgeNodeCounter (fst (applyKnowledgeUpdate env (Some vs) nodes m)) =
      knowledgeNodeCounter m + length nodes
  ∧ knowledgeGraphMap (fst (applyKnowledgeUpdate env (Some vs) nodes m)) =
      knowledgeGraphMap m ++
      imap (fun i node =>
              (JS.charAt0 (NodeType_name (ku_type node)) +:+ pretty (knowledgeNodeCounter m + i),
               insertedNode vs node (knowledgeNodeCounter m + i)))
           nodes
  ∧ NoDup (map fst (knowledgeGraphMap (fst (applyKnowledgeUpdate env (Some vs) nodes m))))
  ∧ (∀ k n, (k, n) ∈ knowledgeGraphMap (fst (applyKnowledgeUpdate env (Some vs) nodes m)) →
            kn_id n = k)
  ∧ graphWf (fst (applyKnowledgeUpdate env (Some vs) nodes m))
  ∧ (∀ t1 t2 (c1 c2 : nat),
       JS.charAt0 (NodeType_name t1) +:+ pretty c1 =
       JS.charAt0 (NodeType_name t2) +:+ pretty c2 → c1 = c2).
Proof.
  intros Hwf.
  assert (Hmain :
    snd (applyKnowledgeUpdate env (Some vs) nodes m) = Done tt
    ∧ knowledgeNodeCounter (fst (applyKnowledgeUpdate env (Some vs) nodes m)) =
        knowledgeNodeCounter m + length nodes
    ∧ knowledgeGraphMap (fst (applyKnowledgeUpdate env (Some vs) nodes m)) =
        knowledgeGraphMap m ++
        imap (fun i node =>
                (newNodeId (ku_type node) (knowledgeNodeCounter m + i),
                 insertedNode vs node (knowledgeNodeCounter m + i)))
             nodes
    ∧ graphWf (fst (applyKnowledgeUpdate env (Some vs) nodes m))).
  { revert m Hwf. induction nodes as [|node rest IH]; intros m Hwf.
    - cbn. rewrite app_nil_r, Nat.add_0_r. done.
    - cbn [applyKnowledgeUpdate].
      destruct (applyKnowledgeNode_insert env vs node m Hwf) as (Hdone & Hc & Hg & Hwf1).
      destruct (applyKnowledgeNode env (Some vs) node m) as [m1 r]. cbn [fst snd] in *.
      subst r. destruct (IH m1 Hwf1) as (Hd' & Hc' & Hg' & Hwf').
      split; [exact Hd'|]. split; [rewrite Hc', Hc; cbn [length]; lia|].
      split; [|exact Hwf'].
      rewrite Hg', Hg, Hc, <- app_assoc. f_equal. cbn [imap app].
      rewrite Nat.add_0_r. f_equal. apply imap_ext. intros i x _.
      assert (E : S (knowledgeNodeCounter m) + i = knowledgeNodeCounter m + S i) by lia.
      cbv beta. unfold compose. by rewrite E. }
  destruct Hmain as (Hd & Hc & Hg & Hwf').
  split; [exact Hd|]. split; [exact Hc|]. split; [exact Hg|].
  split; [exact (proj1 Hwf')|].
  split; [intros k n Hin; exact (proj1 (proj2 Hwf' k n Hin))|].
  split; [exact Hwf'|]. exact newNodeId_inj.
Qed.

Lemma node_ids_witness :
  graphWf (initialMission None) ∧
  map fst (knowledgeGraphMap
             (fst (applyKnowledgeUpdate silentEnv (Some []) twoNodes (initialMission None))))
  = ["H0"; "R1"].
Proof.
  split; [exact (graphWf_initial None)|].
  rewrite (proj1 (proj2 (proj2
    (node_ids_fresh_and_counter_steps silentEnv [] twoNodes (initialMission None)
       (graphWf_initial None))))).
  reflexivity.
Defined.

(** ** C2: invalidation *)

Lemma relationTarget_spec rel target :
  Some target ∈ relationTarget rel ↔ targets rel target.
Proof.
  unfold relationTarget, targets.
  destruct (JS.split ":" rel) as [|action rest] eqn:E.
  { split; [intros H; by apply elem_of_nil in H|]. intros (? & ? & ? & _). done. }
  destruct (String.eqb_spec (JS.toUpperCase action) "INVALIDATES") as [Hi|Hi];
    [|destruct (String.eqb_spec (JS.toUpperCase action) "REFUTES") as [Hr|Hr]]; cbn [orb].
  - rewrite list_elem_of_singleton. split.
    + destruct rest as [|t rest']; cbn; [done|]. intros [= <-]. exists action, rest'. tauto.
    + intros (a & r & [= -> ->] & _). reflexivity.
  - rewrite list_elem_of_singleton. split.
    + destruct rest as [|t rest']; cbn; [done|]. intros [= <-]. exists action, rest'. tauto.
    + intros (a & r & [= -> ->] & _). reflexivity.
  - split; [intros H; by apply elem_of_nil in H|].
    intros (a & r & [= -> ->] & [?|?]); done.
Qed.

Lemma invalidatedIds_spec target allNodes :
  Some target ∈ invalidatedIds allNodes ↔
  ∃ node rel, node ∈ allNodes ∧ rel ∈ kn_relations node ∧ targets rel target.
Proof.
  unfold invalidatedIds. rewrite list_elem_of_In, in_flat_map. split.
  - intros (node & Hnode & Hin). apply in_flat_map in Hin as (rel & Hrel & Hin).
    exists node, rel. rewrite !list_elem_of_In, <- relationTarget_spec, list_elem_of_In. done.
  - intros (node & rel & Hnode & Hrel & Ht). exists node.
    rewrite <- list_elem_of_In. split; [done|]. apply in_flat_map. exists rel.
    rewrite <- !list_elem_of_In. by rewrite relationTarget_spec.
Qed.

(** The set of invalidated ids reads nothing of a node but its relations. *)
Lemma invalidatedIds_relations allNodes1 allNodes2 :
  map kn_relations allNodes1 = map kn_relations allNodes2 →
  invalidatedIds allNodes1 = invalidatedIds allNodes2.
Proof.
  revert allNodes2. induction allNodes1 as [|n1 l1 IH]; intros [|n2 l2]; cbn; try done.
  intros [= H1 H2]. unfold invalidatedIds in *. cbn. rewrite H1. f_equal. by apply IH.
Qed.

Lemma invalidatedIds_app l1 l2 :
  invalidatedIds (l1 ++ l2) = invalidatedIds l1 ++ invalidatedIds l2.
Proof. unfold invalidatedIds. apply flat_map_app. Qed.

(** The flag [renderKnowledgeGraph] gives the node stored under each key. *)
Lemma renderKnowledgeGraph_entries m :
  knowledgeGraphMap (renderKnowledgeGraph m) =
  map (fun '(k, node) =>
         (k, set_invalidated
               (bool_decide (Some (kn_id node) ∈ invalidatedIds (kg_values (knowledgeGraphMap m))))
               node))
      (knowledgeGraphMap m).
Proof. reflexivity. Qed.

Lemma split_free sep s : free_of sep s = true → JS.split sep s = [s].
Proof.
  induction s as [|c s IH]; cbn [free_of JS.split]; [done|].
  intros [Hc Hs]%andb_true_iff. apply negb_true_iff in Hc. rewrite Hc, (IH Hs). done.
Qed.

Lemma split_app_free sep p s w ws :
  free_of sep p = true → JS.split sep s = w :: ws →
  JS.split sep (p +:+ s) = (p +:+ w) :: ws.
Proof.
  intros Hp Hs. induction p as [|c p IH]; [exact Hs|].
  cbn [free_of] in Hp. apply andb_true_iff in Hp as [Hc Hp]. apply negb_true_iff in Hc.
  change (String c p +:+ s) with (String c (p +:+ s)).
  change (String c p +:+ w) with (String c (p +:+ w)).
  cbn [JS.split]. rewrite Hc, (IH Hp). done.
Qed.

Lemma split_sep sep s : JS.split sep (String sep s) = EmptyString :: JS.split sep s.
Proof. cbn [JS.split]. by rewrite Ascii.eqb_refl. Qed.

Lemma append_empty s : s +:+ EmptyString = s.
Proof.
  induction s as [|c s IH]; [done|].
  change (String c s +:+ EmptyString) with (String c (s +:+ EmptyString)). by rewrite IH.
Qed.

Lemma split_action action target :
  free_of ":" action = true → free_of ":" target = true →
  JS.split ":" (action +:+ ":" +:+ target) = [action; target].
Proof.
  intros Ha Ht.
  rewrite (split_app_free ":" action (":" +:+ target) EmptyString [target] Ha).
  - by rewrite append_empty.
  - change (":" +:+ target) with (String ":" target).
    by rewrite split_sep, (split_free _ _ Ht).
Qed.

Lemma exactForm_targets target :
  free_of ":" target = true →
  targets ("REFUTES:" +:+ target) target ∧ targets ("INVALIDATES:" +:+ target) target.
Proof.
  intros H. split.
  - exists "REFUTES", []. split; [|by right]. by apply (split_action "REFUTES").
  - exists "INVALIDATES", []. split; [|by left]. by apply (split_action "INVALIDATES").
Qed.

(** C2, amended.  After [renderKnowledgeGraph] every node carries a flag.
    The flag is true when some node of the graph, the node itself included,
    has a relation that targets the node's id: a relation whose first
    colon-separated field is [REFUTES] or [INVALIDATES] in any letter case
    and whose second field is the id (so [REFUTES:<id>] and
    [INVALIDATES:<id>] do, for an id without colon); and when the relations
    of the graph are ASCII text, it is true for no other reason.  The flags
    are a function of the ids and relations alone: stored flags are not
    read.  Appending a node whose relations are ASCII text and target no
    existing node leaves every existing entry, flag included, as it was. *)
Theorem invalidated_iff_some_relation_targets :
  (∀ m k n,
     (k, n) ∈ knowledgeGraphMap (renderKnowledgeGraph m) →
     (kn_invalidated n = Some true ∨ kn_invalidated n = Some false) ∧
     ((∃ k' n' rel,
         (k', n') ∈ knowledgeGraphMap m ∧ rel ∈ kn_relations n' ∧ targets rel (kn_id n)) →
      kn_invalidated n = Some true) ∧
     (asciiRelations (kg_values (knowledgeGraphMap m)) →
      kn_invalidated n = Some true →
      ∃ k' n' rel,
        (k', n') ∈ knowledgeGraphMap m ∧ rel ∈ kn_relations n' ∧ targets rel (kn_id n)))
  ∧ (∀ m1 m2,
       map (fun e => (fst e, kn_id (snd e), kn_relations (snd e))) (knowledgeGraphMap m1) =
       map (fun e => (fst e, kn_id (snd e), kn_relations (snd e))) (knowledgeGraphMap m2) →
       map (fun e => (fst e, kn_invalidated (snd e))) (knowledgeGraphMap (renderKnowledgeGraph m1)) =
       map (fun e => (fst e, kn_invalidated (snd e))) (knowledgeGraphMap (renderKnowledgeGraph m2)))
  ∧ (∀ m key newNode,
       kg_get key (knowledgeGraphMap m) = None →
       asciiRelations [newNode] →
       (∀ k n rel, (k, n) ∈ knowledgeGraphMap m → rel ∈ kn_relations newNode →
                   ¬ targets rel (kn_id n)) →
       ∃ flag,
         knowledgeGraphMap
           (renderKnowledgeGraph
              (set_knowledgeGraphMap (kg_set key newNode (knowledgeGraphMap m)) m)) =
         knowledgeGraphMap (renderKnowledgeGraph m) ++ [(key, set_invalidated flag newNode)])
  ∧ (∀ target,
       free_of ":" target = true →
       targets ("REFUTES:" +:+ target) target ∧ targets ("INVALIDATES:" +:+ target) target).
Proof.
  split; [|split; [|split; [|exact exactForm_targets]]].
  - intros m k n Hin. rewrite renderKnowledgeGraph_entries in Hin.
    apply list_elem_of_fmap in Hin as ([k0 n0] & [= -> ->] & Hin0).
    cbn [kn_invalidated set_invalidated kn_id]. split; [|split].
    + case_bool_decide; [by left|by right].
    + intros (k' & n' & rel & Hn' & Hrel & Ht). f_equal. apply bool_decide_eq_true_2.
      apply invalidatedIds_spec. exists n', rel. split; [|done].
      apply list_elem_of_fmap. by exists (k', n').
    + intros _ [= H]. apply bool_decide_eq_true_1 in H.
      apply invalidatedIds_spec in H as (node & rel & Hnode & Hrel & Ht).
      apply list_elem_of_fmap in Hnode as ([k' n'] & -> & Hn').
      exists k', n', rel. done.
  - intros m1 m2 Heq. rewrite !renderKnowledgeGraph_entries.
    assert (Hids : invalidatedIds (kg_values (knowledgeGraphMap m1)) =
                   invalidatedIds (kg_values (knowledgeGraphMap m2))).
    { apply invalidatedIds_relations. unfold kg_values. rewrite !map_map.
      apply (f_equal (map snd)) in Heq. rewrite !map_map in Heq. exact Heq. }
    rewrite Hids, !map_map.
    generalize (invalidatedIds (kg_values (knowledgeGraphMap m2))) as ids. intros ids.
    revert Heq. generalize (knowledgeGraphMap m2) as g2. generalize (knowledgeGraphMap m1) as g1.
    induction g1 as [|[k1 n1] g1 IH]; intros [|[k2 n2] g2]; cbn; try done.
    intros [= -> Hid Hrel Hrest]. rewrite Hid. f_equal. by apply IH.
  - intros m key newNode Hfresh _ Hunrelated.
    exists (bool_decide (Some (kn_id newNode) ∈
              invalidatedIds (kg_values (knowledgeGraphMap m ++ [(key, newNode)])))).
    rewrite !renderKnowledgeGraph_entries. cbn [knowledgeGraphMap set_knowledgeGraphMap].
    rewrite (kg_set_fresh _ _ _ Hfresh), map_app. cbn [map]. f_equal.
    apply map_ext_in. intros [k n] Hin%list_elem_of_In. f_equal. f_equal.
    apply bool_decide_ext. unfold kg_values. rewrite map_app, invalidatedIds_app, elem_of_app.
    split; [|tauto]. intros [H|H]; [done|]. exfalso.
    apply invalidatedIds_spec in H as (node & rel & Hnode & Hrel & Ht).
    cbn in Hnode. apply list_elem_of_singleton in Hnode as ->.
    exact (Hunrelated k n rel Hin Hrel Ht).
Qed.

(** C2, as stated, fails: a node is flagged although no other node has a
    relation [REFUTES:<id>] or [INVALIDATES:<id>] on it.  In the first
    mission the only node is flagged by its own relation; in the second the
    relation that flags [H0] is spelled in lower case. *)
Lemma invalidated_without_other_exact_relation :
  flags selfRefutingMission = [("H0", ["REFUTES:H0"], Some true)]
  ∧ ¬ (∃ k' n' rel,
         (k', n') ∈ knowledgeGraphMap selfRefutingMission ∧ kn_id n' ≠ "H0" ∧
         rel ∈ kn_relations n' ∧ exactForm rel "H0")
  ∧ flags lowerCaseMission = [("H0", [], Some true); ("R1", ["refutes:H0"], Some false)]
  ∧ ¬ (∃ k' n' rel,
         (k', n') ∈ knowledgeGraphMap lowerCaseMission ∧
         rel ∈ kn_relations n' ∧ exactForm rel "H0").
Proof.
  assert (F1 : flags selfRefutingMission = [("H0", ["REFUTES:H0"], Some true)])
    by (vm_compute; reflexivity).
  assert (F2 : flags lowerCaseMission =
               [("H0", [], Some true); ("R1", ["refutes:H0"], Some false)])
    by (vm_compute; reflexivity).
  split; [exact F1|]. split; [|split; [exact F2|]].
  - intros (k' & n' & rel & Hin & Hne & _).
    remember (knowledgeGraphMap selfRefutingMission) as g eqn:Eg.
    vm_compute in Eg. subst g.
    apply list_elem_of_singleton in Hin. injection Hin as _ Hn. subst n'. by apply Hne.
  - intros (k' & n' & rel & Hin & Hrel & Hform).
    remember (knowledgeGraphMap lowerCaseMission) as g eqn:Eg.
    vm_compute in Eg. subst g.
    rewrite !elem_of_cons in Hin.
    destruct Hin as [Hin|[Hin|Hin]]; [| |by apply elem_of_nil in Hin];
      injection Hin as _ Hn; subst n'; cbn [kn_relations] in Hrel.
    + by apply elem_of_nil in Hrel.
    + apply list_elem_of_singleton in Hrel. subst rel.
      destruct Hform as [Hform|Hform]; discriminate Hform.
Qed.

Lemma invalidated_witness :
  ("H0", flaggedHypothesis) ∈ knowledgeGraphMap (renderKnowledgeGraph lowerCaseMission) ∧
  asciiRelations (kg_values (knowledgeGraphMap lowerCaseMission)) ∧
  kn_invalidated flaggedHypothesis = Some true ∧
  ∃ k' n' rel,
    (k', n') ∈ knowledgeGraphMap lowerCaseMission ∧ rel ∈ kn_relations n' ∧
    targets rel (kn_id flaggedHypothesis).
Proof.
  assert (Hin : ("H0", flaggedHypothesis) ∈
                knowledgeGraphMap (renderKnowledgeGraph lowerCaseMission)).
  { assert (E : head (knowledgeGraphMap (renderKnowledgeGraph lowerCaseMission)) =
                Some ("H0", flaggedHypothesis)) by (vm_compute; reflexivity).
    destruct (knowledgeGraphMap (renderKnowledgeGraph lowerCaseMission)) as [|e g];
      [discriminate E|]. injection E as ->. left. }
  assert (Hascii : asciiRelations (kg_values (knowledgeGraphMap lowerCaseMission))).
  { unfold asciiRelations. apply (bool_decide_unpack _). vm_compute. exact I. }
  assert (Hflag : kn_invalidated flaggedHypothesis = Some true) by reflexivity.
  split; [exact Hin|]. split; [exact Hascii|]. split; [exact Hflag|].
  exact (proj2 (proj2 (proj1 invalidated_iff_some_relation_targets lowerCaseMission
                         "H0" flaggedHypothesis Hin)) Hascii Hflag).
Defined.

(** ** C4: top-k similarity query *)

Section SortScores.
Implicit Types (x y : string * float) (l : list (string * float)).

Lemma insertScore_perm x l : insertScore x l ≡ₚ x :: l.
Proof.
  induction l as [|y l IH]; cbn; [done|].
  destruct (0 <? snd y - snd x)%float; [|done].
  rewrite IH. apply Permutation_swap.
Qed.

Lemma sortScores_perm l : sortScores l ≡ₚ l.
Proof.
  induction l as [|x l IH]; cbn; [done|]. by rewrite insertScore_perm, IH.
Qed.

Lemma insertScore_sorted x l :
  isNumber x → Forall isNumber l →
  StronglySorted scoreGe l → StronglySorted scoreGe (insertScore x l).
Proof.
  intros Hx. induction l as [|y l IH]; cbn; intros Hl Hs.
  - repeat constructor.
  - apply Forall_cons in Hl as [Hy Hl]. apply StronglySorted_inv in Hs as [Hs Hyl].
    rewrite (float_ltb_zero_sub _ _ Hx Hy).
    destruct (snd x <? snd y)%float eqn:E.
    + constructor; [by apply IH|].
      rewrite insertScore_perm. constructor; [|done]. by apply float_ltb_leb.
    + pose proof (float_leb_total _ _ Hx Hy E) as Hyx.
      constructor; [by constructor|]. constructor; [exact Hyx|].
      eapply Forall_impl; [exact Hyl|]. unfold scoreGe. intros z Hz.
      by eapply float_leb_trans.
Qed.

Lemma sortScores_sorted l : Forall isNumber l → StronglySorted scoreGe (sortScores l).
Proof.
  induction l as [|x l IH]; cbn; intros Hl; [constructor|].
  apply Forall_cons in Hl as [Hx Hl]. apply insertScore_sorted; [done| |by apply IH].
  by rewrite sortScores_perm.
Qed.

(** An entry never overtakes an entry of the same score. *)
Lemma insertScore_stable s x l :
  isNumber x → Forall isNumber l →
  List.filter (tied s) (insertScore x l) = List.filter (tied s) (x :: l).
Proof.
  intros Hx. induction l as [|y l IH]; intros Hl; [done|]. cbn [insertScore].
  apply Forall_cons in Hl as [Hy Hl].
  rewrite (float_ltb_zero_sub _ _ Hx Hy).
  destruct (snd x <? snd y)%float eqn:E; [|done].
  cbn [List.filter] in *. rewrite (IH Hl). unfold tied.
  destruct (snd y =? s)%float eqn:Ey, (snd x =? s)%float eqn:Ex; try reflexivity.
  rewrite (float_ltb_eqb _ _ _ Ex Ey) in E. discriminate E.
Qed.

Lemma sortScores_stable s l :
  Forall isNumber l → List.filter (tied s) (sortScores l) = List.filter (tied s) l.
Proof.
  induction l as [|x l IH]; intros Hl; [done|]. cbn [sortScores foldr].
  apply Forall_cons in Hl as [Hx Hl].
  fold (sortScores l). rewrite insertScore_stable; [|done|by rewrite sortScores_perm].
  cbn [List.filter]. by rewrite IH.
Qed.
End SortScores.

Lemma cosineSimilarity_spec vecA vecB :
  (length vecA ≠ length vecB → cosineSimilarity vecA vecB = 0%float)
  ∧ (length vecA = length vecB →
     (magnitude vecA =? 0)%float = true ∨ (magnitude vecB =? 0)%float = true →
     cosineSimilarity vecA vecB = 0%float)
  ∧ (length vecA = length vecB →
     (magnitude vecA =? 0)%float = false → (magnitude vecB =? 0)%float = false →
     cosineSimilarity vecA vecB =
     (dotProduct vecA vecB / (magnitude vecA * magnitude vecB))%float).
Proof.
  unfold cosineSimilarity.
  destruct (Nat.eqb_spec (length vecA) (length vecB)) as [E|E]; cbn [negb].
  - split; [done|]. split.
    + intros _ [H|H]; rewrite H; [done|]. by rewrite orb_true_r.
    + intros _ HA HB. by rewrite HA, HB.
  - split; [done|]. split; done.
Qed.

Lemma omap_length {A B} (f : A → option B) (l : list A) : length (omap f l) ≤ length l.
Proof. induction l as [|x l IH]; cbn; [lia|]. destruct (f x); cbn; lia. Qed.

Lemma topK_length queryEmbedding k base :
  length (topK queryEmbedding k base) ≤ default DEFAULT_K k.
Proof. unfold topK. rewrite length_take. lia. Qed.

Lemma performSemanticSearch_length env query k m :
  length (performSemanticSearch env query k m) ≤ default DEFAULT_K k.
Proof.
  unfold performSemanticSearch. destruct (vectorKnowledgeBase m) as [|item base]; [cbn; lia|].
  destruct (getEmbedding env query) as [q|]; [|cbn; lia].
  etrans; [apply omap_length|]. apply topK_length.
Qed.

(** The ranking of the whole index, of which [topK] is the head. *)
Lemma topK_ranking q k base :
  Forall isNumber (scoresOf q base) →
  ∃ rest,
    topK q k base ++ rest ≡ₚ scoresOf q base ∧
    (length (topK q k base) < default DEFAULT_K k → rest = []) ∧
    StronglySorted scoreGe (topK q k base ++ rest) ∧
    ∀ s, List.filter (tied s) (topK q k base ++ rest) = List.filter (tied s) (scoresOf q base).
Proof.
  intros Hnum. exists (drop (default DEFAULT_K k) (sortScores (scoresOf q base))).
  unfold topK. fold (scoresOf q base). rewrite take_drop.
  split; [apply sortScores_perm|]. split; [|split].
  - rewrite length_take. intros Hlt. apply drop_ge. lia.
  - by apply sortScores_sorted.
  - intros s. by apply sortScores_stable.
Qed.

Lemma performSemanticSearch_query env query k m q :
  query ≠ EmptyString → embedContent env query = Some q →
  performSemanticSearch env query k m =
  omap (fun result => kg_get (fst result) (knowledgeGraphMap m))
       (topK q k (vectorKnowledgeBase m)).
Proof.
  intros Hne Hq. unfold performSemanticSearch, getEmbedding.
  rewrite (proj2 (String.eqb_neq _ _) Hne), Hq.
  destruct (vectorKnowledgeBase m); [|reflexivity].
  unfold topK. cbn [map sortScores foldr]. by rewrite take_nil.
Qed.

Lemma performSemanticSearch_nothing env query k m :
  query = EmptyString ∨ embedContent env query = None →
  performSemanticSearch env query k m = [].
Proof.
  intros H. unfold performSemanticSearch, getEmbedding.
  destruct (vectorKnowledgeBase m); [done|].
  destruct H as [->|H]; [done|]. rewrite H. by destruct (String.eqb _ _).
Qed.

(** C4, amended.  A query returns at most k nodes, 3 when k is not given,
    and none for an empty query or when the embedding service fails.  The
    similarity of two vectors is [dot / (|a| * |b|)] in double precision,
    and 0 when the lengths differ or a magnitude is zero.  When no score of
    the index is NaN, the answer is the head of a rearrangement of the index
    in descending order of score in which entries of equal score keep their
    insertion order, and nothing is cut off an index of fewer than k
    entries.  For the query vector [1,0], the entry of vector [1,0] comes
    before the entry of vector [0,1], whichever was inserted first; and
    since the scores are the doubles the code computes, the entry of vector
    [3,3] comes before the entry of vector [1,1] for the query [1,1]. *)
Theorem query_ranks_by_descending_cosine :
  DEFAULT_K = 3
  ∧ (∀ a b,
       (length a ≠ length b → cosineSimilarity a b = 0%float) ∧
       (length a = length b →
        (magnitude a =? 0)%float = true ∨ (magnitude b =? 0)%float = true →
        cosineSimilarity a b = 0%float) ∧
       (length a = length b →
        (magnitude a =? 0)%float = false → (magnitude b =? 0)%float = false →
        cosineSimilarity a b = (dotProduct a b / (magnitude a * magnitude b))%float))
  ∧ (dotProduct [1; 2; 3]%float [4; 5; 6]%float = 32%float ∧
     magnitude [3; 4]%float = 5%float ∧ magnitude [] = 0%float ∧
     cosineSimilarity [3; 4]%float [4; 3]%float = (24 / 25)%float ∧
     cosineSimilarity [0; 0]%float [3; 4]%float = 0%float ∧
     cosineSimilarity [1; 1]%float [3; 3]%float = 1%float ∧
     cosineSimilarity [1; 1]%float [1; 1]%float = 0x1.ffffffffffffep-1%float)
  ∧ (∀ q k base,
       Forall isNumber (scoresOf q base) →
       length (topK q k base) ≤ default 3 k ∧
       ∃ rest,
         topK q k base ++ rest ≡ₚ scoresOf q base ∧
         (length (topK q k base) < default 3 k → rest = []) ∧
         StronglySorted scoreGe (topK q k base ++ rest) ∧
         ∀ s, List.filter (tied s) (topK q k base ++ rest) =
              List.filter (tied s) (scoresOf q base))
  ∧ (∀ env query k m,
       length (performSemanticSearch env query k m) ≤ default 3 k ∧
       performSemanticSearch env EmptyString k m = [] ∧
       (embedContent env query = None → performSemanticSearch env query k m = []) ∧
       (∀ q, query ≠ EmptyString → embedContent env query = Some q →
             performSemanticSearch env query k m =
             omap (fun result => kg_get (fst result) (knowledgeGraphMap m))
                  (topK q k (vectorKnowledgeBase m))))
  ∧ (map fst (topK vecA None [entryB; entryC]) = ["B"; "C"] ∧
     map fst (topK vecA None [entryC; entryB]) = ["B"; "C"] ∧
     map fst (topK vecA (Some 1) [entryC; entryB]) = ["B"])
  ∧ map fst (topK [1; 1]%float None
               [{| ve_id := "B"; embedding := [1; 1]%float |};
                {| ve_id := "C"; embedding := [3; 3]%float |}]) = ["C"; "B"].
Proof.
  split; [reflexivity|]. split; [exact cosineSimilarity_spec|].
  split; [vm_compute; repeat split; reflexivity|]. split; [|split; [|split]].
  - intros q k base Hnum. split; [apply topK_length|]. by apply topK_ranking.
  - intros env query k m. split; [apply performSemanticSearch_length|].
    split; [apply performSemanticSearch_nothing; by left|].
    split; [intros H; apply performSemanticSearch_nothing; by right|].
    intros q. apply performSemanticSearch_query.
  - vm_compute. repeat split; reflexivity.
  - vm_compute. reflexivity.
Qed.

(** A ranking in descending order that holds an undefined score holds
    nothing else. *)
Lemma StronglySorted_undefined l e :
  StronglySorted scoreGe l → e ∈ l → is_nan (snd e) = true → l = [e].
Proof.
  induction 1 as [|x l Hs IH Hx]; intros Hin Hnan; [by apply elem_of_nil in Hin|].
  apply elem_of_cons in Hin as [->|Hin].
  - destruct l as [|y l]; [done|]. apply Forall_cons in Hx as [Hy _].
    unfold scoreGe in Hy. rewrite float_leb_nan in Hy by (by right). discriminate Hy.
  - rewrite Forall_forall in Hx. specialize (Hx e Hin).
    unfold scoreGe in Hx. rewrite float_leb_nan in Hx by (by left). discriminate Hx.
Qed.

(** C4, as stated, fails: the answer is not in descending order of
    similarity when a score is undefined.  For the query vector [2^500] the
    entry of vector [2^600] has the score NaN, its dot product and its
    magnitude both overflowing; every comparison the sort makes with it
    gives NaN, which the sort reads as a tie, so the three entries stay in
    insertion order and the entry of similarity -1 is returned before the
    entry of similarity 1.  Nor could another order of the three entries be
    descending: NaN is neither above nor below any score. *)
Lemma undefined_score_breaks_descending_order :
  scoresOf overflowQuery [entryBelow; entryBeyond; entryAlong] =
    [("N0", (-1)%float); ("N1", nan); ("N2", 1%float)]
  ∧ topK overflowQuery None [entryBelow; entryBeyond; entryAlong] =
    [("N0", (-1)%float); ("N1", nan); ("N2", 1%float)]
  ∧ ¬ scoreGe ("N0", (-1)%float) ("N2", 1%float)
  ∧ ¬ StronglySorted scoreGe (topK overflowQuery None [entryBelow; entryBeyond; entryAlong])
  ∧ (∀ ranking,
       ranking ≡ₚ scoresOf overflowQuery [entryBelow; entryBeyond; entryAlong] →
       ¬ StronglySorted scoreGe ranking).
Proof.
  assert (Hs : scoresOf overflowQuery [entryBelow; entryBeyond; entryAlong] =
               [("N0", (-1)%float); ("N1", nan); ("N2", 1%float)])
    by (vm_compute; reflexivity).
  assert (H : topK overflowQuery None [entryBelow; entryBeyond; entryAlong] =
              [("N0", (-1)%float); ("N1", nan); ("N2", 1%float)])
    by (vm_compute; reflexivity).
  assert (Hall : ∀ ranking,
            ranking ≡ₚ [("N0", (-1)%float); ("N1", nan); ("N2", 1%float)] →
            ¬ StronglySorted scoreGe ranking).
  { intros ranking Hp Hsorted.
    assert (Hin : ("N1", nan) ∈ ranking) by (rewrite Hp; right; left).
    pose proof (StronglySorted_undefined ranking ("N1", nan) Hsorted Hin eq_refl) as E.
    apply Permutation_length in Hp. rewrite E in Hp. discriminate Hp. }
  split; [exact Hs|]. split; [exact H|]. split; [|split].
  - unfold scoreGe. vm_compute. discriminate.
  - rewrite H. apply Hall. reflexivity.
  - rewrite Hs. exact Hall.
Qed.

Lemma query_witness :
  Forall isNumber (scoresOf vecA [entryC; entryB]) ∧
  length (topK vecA (Some 1) [entryC; entryB]) ≤ 1 ∧
  ∃ rest,
    topK vecA (Some 1) [entryC; entryB] ++ rest ≡ₚ scoresOf vecA [entryC; entryB] ∧
    (length (topK vecA (Some 1) [entryC; entryB]) < 1 → rest = []) ∧
    StronglySorted scoreGe (topK vecA (Some 1) [entryC; entryB] ++ rest) ∧
    ∀ s, List.filter (tied s) (topK vecA (Some 1) [entryC; entryB] ++ rest) =
         List.filter (tied s) (scoresOf vecA [entryC; entryB]).
Proof.
  assert (H : Forall isNumber (scoresOf vecA [entryC; entryB]))
    by (repeat constructor).
  split; [exact H|].
  exact (proj1 (proj2 (proj2 (proj2 query_ranks_by_descending_cosine)))
           vecA (Some 1) [entryC; entryB] H).
Defined.

(** ** C1: tool calls that reference what does not exist *)

Lemma append_assoc_str (a b c : string) : (a +:+ b) +:+ c = a +:+ (b +:+ c).
Proof.
  induction a as [|x a IH]; [done|].
  change (String x ((a +:+ b) +:+ c) = String x (a +:+ (b +:+ c))). by rewrite IH.
Qed.

Lemma mentions_here id post : mentions (id +:+ post) id.
Proof. by exists EmptyString, post. Qed.

Lemma mentions_append a s id : mentions s id → mentions (a +:+ s) id.
Proof.
  intros (pre & post & ->). exists (a +:+ pre), post. by rewrite append_assoc_str.
Qed.

Lemma mentions_append_r s b id : mentions s id → mentions (s +:+ b) id.
Proof.
  intros (pre & post & ->). exists pre, (post +:+ b). by rewrite !append_assoc_str.
Qed.

Lemma join_mentions sep l id : id ∈ l → mentions (JS.join sep l) id.
Proof.
  induction l as [|x l IH]; [intros H; by apply elem_of_nil in H|].
  intros [->|Hin]%elem_of_cons; cbn [JS.join].
  - destruct l; [|apply mentions_here].
    exists EmptyString, EmptyString. by rewrite append_empty.
  - destruct l as [|y l]; [by apply elem_of_nil in Hin|].
    apply mentions_append, mentions_append. by apply IH.
Qed.

Lemma missing_node_effect env call m :
  missingNodeRefs m call ≠ [] →
  ∃ m' r,
    toolEffect env call m = (m', Done (Some r)) ∧
    coreState m' = coreState m ∧
    (∀ id, id ≠ "synthesizer" → notebooks m' !! id = notebooks m !! id) ∧
    reportsMissing call (missingNodeRefs m call) r.
Proof.
  destruct call; cbn [missingNodeRefs]; try done.
  - (* invoke_intuitionist *)
    intros Hmiss. cbn [toolEffect].
    set (errorMsg := "The following node ID(s) do not exist: " +:+
           JS.join ", " (missingNodes m node_id_A node_id_B) +:+
           ". Please review the provided Knowledge Graph and choose valid IDs for your next action.").
    assert (Hnames : ∀ id, id ∈ missingNodes m node_id_A node_id_B → mentions errorMsg id).
    { intros id Hin. subst errorMsg. apply mentions_append, mentions_append_r.
      by apply join_mentions. }
    unfold missingNodes in Hmiss.
    destruct (kg_get node_id_A (knowledgeGraphMap m)) as [nodeA|] eqn:EA;
      destruct (kg_get node_id_B (knowledgeGraphMap m)) as [nodeB|] eqn:EB; [done| | |];
      (eexists _, _; split; [reflexivity|]; split; [apply coreState_addLogEntry|];
       split; [intros id Hne; by apply addLogEntry_lookup_ne|];
       split; [reflexivity|]; split; [reflexivity|];
       exists errorMsg; split; [reflexivity|exact Hnames]).
  - (* challenge_with_skeptic *)
    intros Hmiss. cbn [toolEffect].
    destruct (kg_get node_id_to_challenge (knowledgeGraphMap m)) as [node|]; [done|].
    eexists _, _. split; [reflexivity|]. split; [apply coreState_addLogEntry|].
    split; [intros id Hne; by apply addLogEntry_lookup_ne|].
    split; [reflexivity|]. split; [reflexivity|].
    eexists. split; [reflexivity|]. intros id ->%list_elem_of_singleton.
    apply mentions_append, mentions_here.
  - (* request_formal_verification *)
    intros Hmiss. cbn [toolEffect].
    destruct (kg_get node_id (knowledgeGraphMap m)) as [node|]; [done|].
    eexists _, _. split; [reflexivity|]. split; [apply coreState_addLogEntry|].
    split; [intros id Hne; by apply addLogEntry_lookup_ne|].
    split; reflexivity.
Qed.

Lemma filter_ne_absent (id : string) (l : list string) :
  id ∉ l → filter (fun specId => specId ≠ id) l = l.
Proof.
  induction l as [|x l IH]; [done|]. intros [Hx Hl]%not_elem_of_cons.
  rewrite filter_cons, decide_True by congruence. by rewrite IH.
Qed.

Lemma retire_unknown_agent env agent_id reason m :
  unknownAgent m agent_id →
  coreState (fst (toolEffect env (retire_agent agent_id reason) m)) = coreState m ∧
  snd (toolEffect env (retire_agent agent_id reason) m) =
    Done (Some {| fr_name := "retire_agent";
                  fr_response := [("success", JBool true);
                                  ("message", JStr ("Agent " +:+ agent_id +:+ " retired."))] |}).
Proof.
  intros (Hn & Hp & Hmeta & Hmetr & Hact). split; [|reflexivity].
  cbn [toolEffect fst]. unfold retireAgent. rewrite coreState_addLogEntry.
  unfold coreState. cbn.
  rewrite !delete_id by done. by rewrite filter_ne_absent.
Qed.

Lemma peer_review_unknown_reviewer env reviewing_agent_id target_agent_id review_task m :
  specialistPrompts m !! reviewing_agent_id = None →
  coreState (fst (toolEffect env
     (request_peer_review reviewing_agent_id target_agent_id review_task) m)) = coreState m ∧
  snd (toolEffect env (request_peer_review reviewing_agent_id target_agent_id review_task) m) =
    Done (Some {| fr_name := "request_peer_review";
                  fr_response := [("success", JBool true);
                                  ("review_summary", JStr "Peer review failed to execute.")] |}).
Proof.
  intros Hp. cbn [toolEffect]. rewrite Hp. cbn [fst snd].
  by rewrite !coreState_addLogEntry.
Qed.

(** What the upsert of [modify_agent_prompt] does with an id that has no
    agent: a prompt is stored for it and success is reported. *)
Example modify_prompt_of_unknown_agent :
  unknownAgent (initialMission None) "ghost" ∧
  specialistPrompts
    (fst (toolEffect silentEnv (modify_agent_prompt "ghost" "Haunt the lemma." "None.")
            (initialMission None))) !! "ghost" = Some "Haunt the lemma." ∧
  snd (toolEffect silentEnv (modify_agent_prompt "ghost" "Haunt the lemma." "None.")
         (initialMission None)) =
    Done (Some {| fr_name := "modify_agent_prompt";
                  fr_response := [("success", JBool true);
                                  ("message", JStr "Agent ghost was modified.")] |}).
Proof.
  split; [|split; vm_compute; reflexivity].
  repeat split; try (vm_compute; reflexivity).
  intros H. apply (bool_decide_pack _) in H. vm_compute in H. exact H.
Qed.

(** C1, as stated, fails: two tool calls that refer to an id that does not
    exist are answered with [success: true].  Retiring an agent that is
    nowhere registered reports success; a verification request for a node
    that is not in the graph reports success, and its response names no id. *)
Lemma missing_reference_answered_with_success :
  unknownAgent (initialMission None) "ghost"
  ∧ snd (toolEffect silentEnv (retire_agent "ghost" "Expired.") (initialMission None)) =
      Done (Some {| fr_name := "retire_agent";
                    fr_response := [("success", JBool true);
                                    ("message", JStr "Agent ghost retired.")] |})
  ∧ kg_get "T99" (knowledgeGraphMap (initialMission None)) = None
  ∧ snd (toolEffect silentEnv (request_formal_verification "T99" "qed") (initialMission None)) =
      Done (Some {| fr_name := "request_formal_verification";
                    fr_response :=
                      [("success", JBool true); ("verified", JBool false);
                       ("feedback", JStr "Verification failed: Node not found.")] |}).
Proof.
  split; [exact (proj1 modify_prompt_of_unknown_agent)|].
  repeat split; vm_compute; reflexivity.
Qed.

(** C1, amended.  The tools that refer to knowledge nodes check the ids
    first.  When an id named by [invoke_intuitionist], [challenge_with_skeptic]
    or [request_formal_verification] is not in the graph, no component state
    is mutated (the graph, the registry, prompts, metadata and metrics stay
    as they are; one entry goes to the architect's own log), a structured
    response is handed back and the dispatch loop goes on with it.  For the
    first two tools the response has [success: false] and an error text that
    names every missing id; for [request_formal_verification] it is
    [success: true, verified: false] with the feedback "Node not found",
    which names no id.  References to agents are not checked: retiring an id
    that is nowhere registered changes no component state and reports
    success, and so does a peer review whose reviewing agent has no prompt.  After
    any tool effect that answers, the answer is appended to the conversation
    and the architect is asked again. *)
Theorem missing_node_reference_is_reported :
  (∀ env call m,
     missingNodeRefs m call ≠ [] →
     ∃ m' r,
       toolEffect env call m = (m', Done (Some r)) ∧
       coreState m' = coreState m ∧
       (∀ id, id ≠ "synthesizer" → notebooks m' !! id = notebooks m !! id) ∧
       fr_name r = call_name call ∧
       match call with
       | request_formal_verification _ _ =>
           fr_response r =
             [("success", JBool true); ("verified", JBool false);
              ("feedback", JStr "Verification failed: Node not found.")]
       | _ =>
           response_field "success" r = Some (JBool false) ∧
           ∃ msg, response_field "error" r = Some (JStr msg) ∧
                  ∀ id, id ∈ missingNodeRefs m call → mentions msg id
       end)
  ∧ (∀ env agent_id reason m,
       unknownAgent m agent_id →
       coreState (fst (toolEffect env (retire_agent agent_id reason) m)) = coreState m ∧
       snd (toolEffect env (retire_agent agent_id reason) m) =
         Done (Some {| fr_name := "retire_agent";
                       fr_response :=
                         [("success", JBool true);
                          ("message", JStr ("Agent " +:+ agent_id +:+ " retired."))] |}))
  ∧ (∀ env reviewing_agent_id target_agent_id review_task m,
       specialistPrompts m !! reviewing_agent_id = None →
       coreState (fst (toolEffect env
          (request_peer_review reviewing_agent_id target_agent_id review_task) m)) = coreState m ∧
       snd (toolEffect env
          (request_peer_review reviewing_agent_id target_agent_id review_task) m) =
         Done (Some {| fr_name := "request_peer_review";
                       fr_response :=
                         [("success", JBool true);
                          ("review_summary", JStr "Peer review failed to execute.")] |}))
  ∧ (∀ fuel envs architect round conversation call others m m' answer,
       toolEffect (envs round) call m = (m', Done answer) →
       toolLoop (S fuel) envs architect round conversation (FunctionCalls call others) m =
         let conversation' := conversation ++ [modelTurn call others] ++ [toolTurn answer] in
         match architect conversation' with
         | None => (m', LoopThrew "generateContent failed")
         | Some result => toolLoop fuel envs architect (S round) conversation' result m'
         end).
Proof.
  split; [|split; [exact retire_unknown_agent|split;
    [exact peer_review_unknown_reviewer|exact toolLoop_round]]].
  intros env call m Hmiss.
  destruct (missing_node_effect env call m Hmiss) as (m' & r & He & Hc & Hn & Hname & Hr).
  exists m', r. repeat (split; [done|]).
  destruct call; exact Hr.
Qed.

Lemma missing_node_reference_witness :
  missingNodeRefs (initialMission None) (invoke_intuitionist "H7" "T9" "Impasse.") ≠ [] ∧
  ∃ m' r,
    toolEffect silentEnv (invoke_intuitionist "H7" "T9" "Impasse.") (initialMission None) =
      (m', Done (Some r)) ∧
    coreState m' = coreState (initialMission None) ∧
    response_field "success" r = Some (JBool false).
Proof.
  assert (H : missingNodeRefs (initialMission None)
                (invoke_intuitionist "H7" "T9" "Impasse.") ≠ []) by (vm_compute; discriminate).
  split; [exact H|].
  destruct (proj1 missing_node_reference_is_reported silentEnv
              (invoke_intuitionist "H7" "T9" "Impasse.") (initialMission None) H)
    as (m' & r & He & Hc & _ & _ & Hs & _).
  exists m', r. repeat split; assumption.
Defined.

(** * Further properties *)

(** ** Deploying, retiring and the lifecycle check *)

Lemma deployNewAgent_fresh env id missionPrompt tools lifespan isFromLoad m :
  notebooks m !! id = None → mountColumn env id = true →
  deployNewAgent env id missionPrompt tools lifespan isFromLoad m =
  let m1 :=
    set_activeSpecialists
      (if JS.mem id (activeSpecialists m) then activeSpecialists m else activeSpecialists m ++ [id])
      (set_agentPerformanceMetrics (<[id := zeroMetric]> (agentPerformanceMetrics m))
         (set_specialistMetadata
            (<[id := {| required_tools := tools; lifespan_cycles := lifespan;
                        creationCycle := cycleCounter m |}]> (specialistMetadata m))
            (set_specialistPrompts (<[id := missionPrompt]> (specialistPrompts m))
               (set_notebooks (<[id := emptyNotebook]> (notebooks m)) m)))) in
  if isFromLoad then m1
  else set_notebooks (<[id := {| logs := [deploymentNote id missionPrompt lifespan];
                                 logCounter := 1 |}]> (notebooks m)) m1.
Proof.
  intros Hnb Hmount. unfold deployNewAgent. rewrite Hnb, Hmount. cbn [negb].
  cbn zeta. unfold addLogEntry. cbn.
  destruct (JS.mem id (activeSpecialists m)); destruct isFromLoad; cbn; try reflexivity;
    rewrite lookup_insert_eq; cbn; rewrite insert_insert_eq; reflexivity.
Qed.

Lemma deployNewAgent_registers env id missionPrompt tools lifespan m :
  notebooks m !! id = None → mountColumn env id = true →
  let m' := deployNewAgent env id missionPrompt tools lifespan false m in
  agentRecord m' id =
    (Some {| logs := [deploymentNote id missionPrompt lifespan]; logCounter := 1 |},
     Some missionPrompt,
     Some {| required_tools := tools; lifespan_cycles := lifespan;
             creationCycle := cycleCounter m |},
     Some zeroMetric)
  ∧ activeSpecialists m' =
      (if decide (id ∈ activeSpecialists m) then activeSpecialists m
       else activeSpecialists m ++ [id])
  ∧ (∀ k, k ≠ id → agentRecord m' k = agentRecord m k)
  ∧ outsideRegistry m' = outsideRegistry m.
Proof.
  intros Hnb Hmount m'. subst m'. rewrite deployNewAgent_fresh by done. cbn zeta.
  unfold agentRecord, outsideRegistry. cbn.
  rewrite !lookup_insert_eq. repeat split.
  - unfold JS.mem. destruct (decide (id ∈ activeSpecialists m)) as [Hin|Hin].
    + by rewrite bool_decide_eq_true_2.
    + by rewrite bool_decide_eq_false_2.
  - intros k Hk. by rewrite !lookup_insert_ne.
Qed.

(** X1.  Deploying under an id that has no notebook, on a page that can hold
    the new column, registers the agent completely: a notebook holding the
    deployment note as its only entry, the prompt, metadata stamped with the
    current cycle, metrics at zero, and the id at the end of the active list
    (once); the entries of every other agent and everything outside the
    registry stay as they were.  When the page cannot hold the column,
    nothing is registered at all. *)
Theorem deploy_registers_fresh_agent env id missionPrompt tools lifespan m :
  notebooks m !! id = None →
  let m' := deployNewAgent env id missionPrompt tools lifespan false m in
  (mountColumn env id = true →
     agentRecord m' id =
       (Some {| logs := [deploymentNote id missionPrompt lifespan]; logCounter := 1 |},
        Some missionPrompt,
        Some {| required_tools := tools; lifespan_cycles := lifespan;
                creationCycle := cycleCounter m |},
        Some zeroMetric)
     ∧ activeSpecialists m' =
         (if decide (id ∈ activeSpecialists m) then activeSpecialists m
          else activeSpecialists m ++ [id])
     ∧ (∀ k, k ≠ id → agentRecord m' k = agentRecord m k)
     ∧ outsideRegistry m' = outsideRegistry m)
  ∧ (mountColumn env id = false → m' = m).
Proof.
  intros Hnb m'. split.
  - intros Hmount. by apply deployNewAgent_registers.
  - intros Hmount. subst m'. unfold deployNewAgent. by rewrite Hnb, Hmount.
Qed.

Lemma deploy_registers_fresh_agent_witness :
  notebooks (initialMission None) !! "task-force-a" = None ∧
  activeSpecialists
    (deployNewAgent silentEnv "task-force-a" "Prove lemma L5." [] (Some 3%Z) false
       (initialMission None)) = seedAgents ++ ["task-force-a"].
Proof.
  assert (H : notebooks (initialMission None) !! "task-force-a" = None) by (vm_compute; reflexivity).
  split; [exact H|].
  destruct (deploy_registers_fresh_agent silentEnv "task-force-a" "Prove lemma L5." []
              (Some 3%Z) (initialMission None) H) as [Hok _].
  destruct (Hok eq_refl) as (_ & Hact & _). rewrite Hact.
  rewrite decide_False; [reflexivity|].
  intros Hin. apply (bool_decide_pack _) in Hin. vm_compute in Hin. exact Hin.
Defined.

Lemma set_fields_id m :
  set_activeSpecialists (activeSpecialists m)
    (set_agentPerformanceMetrics (agentPerformanceMetrics m)
       (set_specialistMetadata (specialistMetadata m)
          (set_specialistPrompts (specialistPrompts m)
             (set_notebooks (notebooks m) m)))) = m.
Proof. by destruct m. Qed.

(** X2.  Retiring an agent right after it was deployed under an unused id
    undoes the deployment: the mission is the one before the deployment,
    with the retirement noted in the architect's log and nothing else.  This
    holds whether or not the page could hold the agent's column. *)
Theorem retire_undoes_deploy env id missionPrompt tools lifespan isFromLoad reason m :
  unknownAgent m id →
  retireAgent id reason (deployNewAgent env id missionPrompt tools lifespan isFromLoad m) =
  addLogEntry "synthesizer" (retirementNote id reason) m.
Proof.
  intros (Hnb & Hp & Hmeta & Hmet & Hact).
  rewrite <- (set_fields_id m) at 2.
  destruct (mountColumn env id) eqn:Hmount.
  - rewrite deployNewAgent_fresh by done. unfold retireAgent, retirementNote. cbn zeta.
    f_equal. unfold JS.mem. rewrite bool_decide_eq_false_2 by done.
    destruct isFromLoad; cbn;
      rewrite !delete_insert_eq, !delete_id by done;
      rewrite filter_app, filter_ne_absent by done;
      rewrite filter_cons_False, filter_nil, app_nil_r by (intros H; by apply H);
      reflexivity.
  - unfold deployNewAgent. rewrite Hnb, Hmount. cbn [negb].
    unfold retireAgent, retirementNote. cbn zeta. f_equal. cbn.
    rewrite !delete_id by done. rewrite filter_ne_absent by done. reflexivity.
Qed.

Lemma retire_undoes_deploy_witness :
  unknownAgent (initialMission None) "task-force-a" ∧
  retireAgent "task-force-a" "Done."
    (deployNewAgent silentEnv "task-force-a" "Prove lemma L5." [] (Some 3%Z) false
       (initialMission None)) =
  addLogEntry "synthesizer" (retirementNote "task-force-a" "Done.") (initialMission None).
Proof.
  assert (H : unknownAgent (initialMission None) "task-force-a").
  { repeat split; try (vm_compute; reflexivity).
    intros Hin. apply (bool_decide_pack _) in Hin. vm_compute in Hin. exact Hin. }
  split; [exact H|].
  exact (retire_undoes_deploy silentEnv "task-force-a" "Prove lemma L5." [] (Some 3%Z) false
           "Done." (initialMission None) H).
Defined.

Lemma expired_ext m1 m2 id :
  specialistMetadata m1 !! id = specialistMetadata m2 !! id →
  cycleCounter m1 = cycleCounter m2 →
  expired m1 id = expired m2 id.
Proof. unfold expired. by intros -> ->. Qed.

Lemma filter_none {A} (P : A → Prop) `{∀ x, Decision (P x)} (l : list A) :
  (∀ x, x ∈ l → ¬ P x) → filter P l = [].
Proof.
  induction l as [|a l IH]; intros Hl; [done|].
  rewrite filter_cons_False by (apply Hl; left).
  apply IH. intros x Hx. apply Hl. by right.
Qed.

Lemma checkAgentLifecycles_none_due m :
  agentsToRetire (checkAgentLifecycles m) = [].
Proof.
  unfold agentsToRetire at 1.
  assert (H : filter (fun id => expired (checkAgentLifecycles m) id = true)
                (activeSpecialists (checkAgentLifecycles m)) = []).
  { apply filter_none. intros id Hin Hexp.
    rewrite checkAgentLifecycles_retireEach in Hin, Hexp.
    rewrite retireEach_active, list_elem_of_filter in Hin. destruct Hin as [Hnot Hin].
    apply Hnot. rewrite agentsToRetire_ids, list_elem_of_filter. split; [|done].
    rewrite <- Hexp. symmetry. apply expired_ext.
    - rewrite retireEach_metadata. by rewrite decide_False.
    - by destruct (retireEach_frame fst snd (agentsToRetire m) m) as (_ & [= _ _ -> _ _] & _). }
  by rewrite H.
Qed.

(** X3.  The lifecycle check is idempotent: once it has run, no active agent
    is left that it would retire, and running it again changes nothing, not
    even a log. *)
Theorem checkAgentLifecycles_idempotent m :
  agentsToRetire (checkAgentLifecycles m) = [] ∧
  checkAgentLifecycles (checkAgentLifecycles m) = checkAgentLifecycles m.
Proof.
  split; [apply checkAgentLifecycles_none_due|].
  unfold checkAgentLifecycles at 1. by rewrite checkAgentLifecycles_none_due.
Qed.

(** ** Invalidation flags, research vectors and payloads *)

Lemma set_invalidated_twice b1 b2 n :
  set_invalidated b2 (set_invalidated b1 n) = set_invalidated b2 n.
Proof. reflexivity. Qed.

Lemma renderKnowledgeGraph_unflagged m :
  map unflagged (knowledgeGraphMap (renderKnowledgeGraph m)) = map unflagged (knowledgeGraphMap m).
Proof.
  rewrite renderKnowledgeGraph_entries, map_map. apply map_ext. by intros [k node].
Qed.

Lemma unflagged_relations g1 g2 :
  map unflagged g1 = map unflagged g2 →
  map kn_relations (kg_values g1) = map kn_relations (kg_values g2).
Proof.
  unfold kg_values. rewrite !map_map. revert g2.
  induction g1 as [|e1 g1 IH]; intros [|e2 g2]; cbn; try done.
  intros [= _ _ _ _ H _ _ _ Hrest]. f_equal; [exact H|by apply IH].
Qed.

Lemma renderKnowledgeGraph_ext m1 m2 :
  map unflagged (knowledgeGraphMap m1) = map unflagged (knowledgeGraphMap m2) →
  knowledgeGraphMap (renderKnowledgeGraph m1) = knowledgeGraphMap (renderKnowledgeGraph m2).
Proof.
  intros H. rewrite !renderKnowledgeGraph_entries.
  rewrite (invalidatedIds_relations _ _ (unflagged_relations _ _ H)).
  generalize (invalidatedIds (kg_values (knowledgeGraphMap m2))) as ids. intros ids.
  revert H. generalize (knowledgeGraphMap m2) as g2. generalize (knowledgeGraphMap m1) as g1.
  induction g1 as [|[k1 n1] g1 IH]; intros [|[k2 n2] g2]; cbn; try done.
  intros [= -> Hid Ht Hc Hr Hv Hb Hp Hrest]. f_equal; [|by apply IH].
  f_equal. destruct n1, n2. cbn in *. subst. reflexivity.
Qed.

(** X4.  The invalidation flags are a function of the stored relations
    alone: [renderKnowledgeGraph] rewrites nothing of a node but its flag,
    the flags it writes do not depend on the flags found, and rendering
    twice is rendering once. *)
Theorem renderKnowledgeGraph_idempotent :
  (∀ m, map unflagged (knowledgeGraphMap (renderKnowledgeGraph m)) =
        map unflagged (knowledgeGraphMap m))
  ∧ (∀ m1 m2,
       map unflagged (knowledgeGraphMap m1) = map unflagged (knowledgeGraphMap m2) →
       knowledgeGraphMap (renderKnowledgeGraph m1) = knowledgeGraphMap (renderKnowledgeGraph m2))
  ∧ (∀ m, renderKnowledgeGraph (renderKnowledgeGraph m) = renderKnowledgeGraph m).
Proof.
  split; [exact renderKnowledgeGraph_unflagged|]. split; [exact renderKnowledgeGraph_ext|].
  intros m.
  pose proof (renderKnowledgeGraph_ext _ _ (renderKnowledgeGraph_unflagged m)) as H.
  unfold renderKnowledgeGraph at 1. fold (renderKnowledgeGraph (renderKnowledgeGraph m)).
  change (set_knowledgeGraphMap (knowledgeGraphMap (renderKnowledgeGraph (renderKnowledgeGraph m)))
            (renderKnowledgeGraph m) = renderKnowledgeGraph m).
  rewrite H. reflexivity.
Qed.

(** The scan of [bestResearchVector] after [vectors]. *)
Lemma bestResearchVector_scan vectors :
  let r := foldl (fun '(bestVector, maxPromise) vec =>
                    if Qlt_le_dec maxPromise (rv_promise_score vec)
                    then (Some (rv_description vec), rv_promise_score vec)
                    else (bestVector, maxPromise))
                 (None, (-1)%Q) vectors in
  match fst r with
  | Some d =>
      ∃ pre v post,
        vectors = pre ++ v :: post ∧ d = rv_description v ∧ snd r = rv_promise_score v ∧
        (-1 < rv_promise_score v)%Q ∧
        (∀ w, w ∈ pre → (rv_promise_score w < rv_promise_score v)%Q) ∧
        (∀ w, w ∈ post → (rv_promise_score w <= rv_promise_score v)%Q)
  | None => snd r = (-1)%Q ∧ ∀ w, w ∈ vectors → (rv_promise_score w <= -1)%Q
  end.
Proof.
  induction vectors as [|x l IH] using rev_ind.
  - cbn. split; [done|]. intros w Hw. by apply elem_of_nil in Hw.
  - rewrite foldl_app. cbn [foldl]. cbv zeta in IH |- *.
    destruct (foldl _ _ l) as [best maxPromise]. cbn [fst snd] in IH.
    destruct (Qlt_le_dec maxPromise (rv_promise_score x)) as [Hlt|Hle]; cbn [fst snd].
    + exists l, x, []. split; [done|]. split; [done|]. split; [done|].
      destruct best as [d|].
      * destruct IH as (pre & v & post & -> & _ & Hmax & Hpos & Hpre & Hpost).
        rewrite Hmax in Hlt. split; [by etrans|]. split.
        -- intros w [Hw|[->|Hw]%elem_of_cons]%elem_of_app.
           ++ etrans; [by apply Hpre|done].
           ++ done.
           ++ eapply Qle_lt_trans; [by apply Hpost|done].
        -- intros w Hw. by apply elem_of_nil in Hw.
      * destruct IH as [Hmax Hall]. rewrite Hmax in Hlt. split; [done|]. split.
        -- intros w Hw. eapply Qle_lt_trans; [by apply Hall|done].
        -- intros w Hw. by apply elem_of_nil in Hw.
    + destruct best as [d|].
      * destruct IH as (pre & v & post & -> & Hd & Hmax & Hpos & Hpre & Hpost).
        exists pre, v, (post ++ [x]). rewrite <- app_assoc. split; [done|].
        split; [done|]. split; [done|]. split; [done|]. split; [done|].
        intros w [Hw|Hw%list_elem_of_singleton]%elem_of_app; [by apply Hpost|].
        subst w. by rewrite Hmax in Hle.
      * destruct IH as [Hmax Hall]. split; [done|].
        intros w [Hw|Hw%list_elem_of_singleton]%elem_of_app; [by apply Hall|].
        subst w. by rewrite Hmax in Hle.
Qed.

(** X5.  [bestResearchVector] is an arg-max with ties to the first: the
    description it returns is that of a vector whose promise is above -1,
    strictly above the promise of every vector before it and at least the
    promise of every vector after it; it returns nothing exactly when no
    vector has a promise above -1 (an empty list included). *)
Theorem bestResearchVector_is_first_maximum vectors :
  match bestResearchVector vectors with
  | Some d =>
      ∃ pre v post,
        vectors = pre ++ v :: post ∧ d = rv_description v ∧
        (-1 < rv_promise_score v)%Q ∧
        (∀ w, w ∈ pre → (rv_promise_score w < rv_promise_score v)%Q) ∧
        (∀ w, w ∈ post → (rv_promise_score w <= rv_promise_score v)%Q)
  | None => ∀ w, w ∈ vectors → (rv_promise_score w <= -1)%Q
  end.
Proof.
  pose proof (bestResearchVector_scan vectors) as H. cbv zeta in H.
  unfold bestResearchVector. destruct (fst _) as [d|].
  - destruct H as (pre & v & post & ? & ? & _ & ? & ? & ?). by exists pre, v, post.
  - exact (proj2 H).
Qed.

(** A payload that carries research vectors is applied to the end, in four
    steps: the focus is recorded, the nodes are inserted, the best vector
    adopted, the stagnation counter stepped; then the graph is rendered. *)
Lemma parseAndApply_with_vectors env p m vs :
  strategic_planning p ≫= research_vectors = Some vs →
  parseAndApplyArchitectResponse env p m =
    (renderKnowledgeGraph
       (updateStagnation (strategic_assessment p)
          (adoptBestVector vs
             (fst (applyKnowledgeUpdate env (Some vs) (default [] (knowledge_update p))
                     (recordFocus p m))))),
     Done tt).
Proof.
  intros Hvs. unfold parseAndApplyArchitectResponse. rewrite Hvs.
  fold (recordFocus p m). unfold adoptBestVector.
  destruct (knowledge_update p) as [nodes|].
  - change (default [] (Some nodes)) with nodes.
    pose proof (applyKnowledgeUpdate_Done env vs nodes (recordFocus p m)) as Hd.
    destruct (applyKnowledgeUpdate env (Some vs) nodes (recordFocus p m)) as [m1 r].
    cbn [fst snd] in *. subst r. reflexivity.
  - reflexivity.
Qed.

Lemma applyKnowledgeNode_objective env vs node m :
  currentMissionObjective (fst (applyKnowledgeNode env (Some vs) node m)) =
  if decide (ku_type node = DIRECTIVE) then ku_content node else currentMissionObjective m.
Proof. unfold applyKnowledgeNode. cbn. repeat case_match; reflexivity. Qed.

Lemma applyKnowledgeUpdate_objective env vs nodes m :
  currentMissionObjective (fst (applyKnowledgeUpdate env (Some vs) nodes m)) =
  from_option ku_content (currentMissionObjective m) (last (directives nodes)).
Proof.
  revert m. induction nodes as [|node rest IH]; intros m; [done|].
  cbn [applyKnowledgeUpdate].
  pose proof (applyKnowledgeNode_objective env vs node m) as H1.
  destruct (applyKnowledgeNode env (Some vs) node m) as [m1 [[]|msg]] eqn:E; cbn [fst] in H1.
  - rewrite IH, H1. unfold directives. rewrite filter_cons.
    destruct (decide (ku_type node = DIRECTIVE)) as [Hd|Hd]; [|done].
    rewrite last_cons. by destruct (last (filter _ rest)).
  - unfold applyKnowledgeNode in E. cbn in E. by repeat case_match.
Qed.

(** X6.  Of the directives in a payload the last one wins: after a payload
    with research vectors, the mission objective is the content of the last
    node of type [DIRECTIVE] among its nodes, and the objective it was when
    there is none. *)
Theorem last_directive_sets_objective env p m vs :
  strategic_planning p ≫= research_vectors = Some vs →
  snd (parseAndApplyArchitectResponse env p m) = Done tt ∧
  currentMissionObjective (fst (parseAndApplyArchitectResponse env p m)) =
    from_option ku_content (currentMissionObjective m)
      (last (directives (default [] (knowledge_update p)))).
Proof.
  intros Hvs. rewrite parseAndApply_with_vectors with (vs := vs) by done.
  split; [done|]. cbn [fst].
  transitivity (currentMissionObjective
    (fst (applyKnowledgeUpdate env (Some vs) (default [] (knowledge_update p)) (recordFocus p m)))).
  { unfold updateStagnation, adoptBestVector. repeat case_match; reflexivity. }
  rewrite applyKnowledgeUpdate_objective. f_equal.
  unfold recordFocus. repeat case_match; reflexivity.
Qed.

(** The variables that inserting nodes leaves alone. *)
Lemma applyKnowledgeNode_untouched env vectors node m :
  let m' := fst (applyKnowledgeNode env vectors node m) in
  notebooks m' = notebooks m ∧ specialistPrompts m' = specialistPrompts m ∧
  specialistMetadata m' = specialistMetadata m ∧ activeSpecialists m' = activeSpecialists m ∧
  strategicFocusHistory m' = strategicFocusHistory m ∧ cycleCounter m' = cycleCounter m ∧
  activeResearchVector m' = activeResearchVector m.
Proof.
  unfold applyKnowledgeNode. destruct vectors as [vs|]; [|done]. cbn.
  repeat case_match; done.
Qed.

Lemma applyKnowledgeUpdate_untouched env vectors nodes m :
  let m' := fst (applyKnowledgeUpdate env vectors nodes m) in
  notebooks m' = notebooks m ∧ specialistPrompts m' = specialistPrompts m ∧
  specialistMetadata m' = specialistMetadata m ∧ activeSpecialists m' = activeSpecialists m ∧
  strategicFocusHistory m' = strategicFocusHistory m ∧ cycleCounter m' = cycleCounter m ∧
  activeResearchVector m' = activeResearchVector m.
Proof.
  revert m. induction nodes as [|node rest IH]; intros m; [done|]. cbn [applyKnowledgeUpdate].
  pose proof (applyKnowledgeNode_untouched env vectors node m) as H.
  destruct (applyKnowledgeNode env vectors node m) as [m1 [[]|msg]]; cbn [fst] in H |- *.
  - cbv zeta in IH |- *. destruct (IH m1) as (-> & -> & -> & -> & -> & -> & ->). exact H.
  - exact H.
Qed.

Lemma applyKnowledgeNode_metrics env vs node m agent :
  agentPerformanceMetrics (fst (applyKnowledgeNode env (Some vs) node m)) !! agent =
  if decide (ku_created_by node = Some agent ∧ agent ≠ EmptyString)
  then bumpMetric (promiseOf vs node) <$> agentPerformanceMetrics m !! agent
  else agentPerformanceMetrics m !! agent.
Proof.
  unfold applyKnowledgeNode, promiseOf. cbn zeta.
  set (score := from_option rv_promise_score (1 # 2)%Q _).
  assert (E : ∀ m1 : Mission,
    agentPerformanceMetrics
      (if decide (ku_type node = DIRECTIVE)
       then set_currentMissionObjective (ku_content node)
              match getEmbedding env (ku_content node) with
              | Some embedding =>
                  set_vectorKnowledgeBase
                    (vectorKnowledgeBase m1 ++
                     [{| ve_id := newNodeId (ku_type node) (knowledgeNodeCounter m);
                         embedding := embedding |}]) m1
              | None => m1
              end
       else match getEmbedding env (ku_content node) with
            | Some embedding =>
                set_vectorKnowledgeBase
                  (vectorKnowledgeBase m1 ++
                   [{| ve_id := newNodeId (ku_type node) (knowledgeNodeCounter m);
                       embedding := embedding |}]) m1
            | None => m1
            end) = agentPerformanceMetrics m1).
  { intros m1. repeat case_match; reflexivity. }
  cbn [fst kn_content]. rewrite E. clear E.
  destruct (ku_created_by node) as [creator|] eqn:Hc.
  - destruct (String.eqb_spec creator EmptyString) as [->|Hne].
    + cbn. rewrite decide_False; [done|]. intros [[= <-] H]. done.
    + cbn. destruct (decide (Some creator = Some agent ∧ agent ≠ EmptyString)) as [[[= ->] _]|Hn].
      * destruct (agentPerformanceMetrics m !! agent) as [metrics|] eqn:Hm; cbn.
        -- by rewrite lookup_insert_eq.
        -- done.
      * assert (creator ≠ agent) by (intros ->; apply Hn; split; [done|congruence]).
        destruct (agentPerformanceMetrics m !! creator) as [metrics|]; cbn; [|done].
        by rewrite lookup_insert_ne.
  - cbn. rewrite decide_False; [done|]. intros [[=] _].
Qed.

Lemma credit_nil vs (o : option Metric) : credit vs [] <$> o = o.
Proof.
  destruct o as [[n t]|]; [|done]. cbn. unfold credit. cbn. by rewrite Nat.add_0_r.
Qed.

Lemma credit_cons vs node credited (o : option Metric) :
  credit vs credited <$> (bumpMetric (promiseOf vs node) <$> o) = credit vs (node :: credited) <$> o.
Proof.
  destruct o as [[n t]|]; [|done]. cbn. unfold credit, bumpMetric. cbn. f_equal. f_equal. lia.
Qed.

Lemma applyKnowledgeUpdate_metrics env vs nodes m agent :
  agent ≠ EmptyString →
  agentPerformanceMetrics (fst (applyKnowledgeUpdate env (Some vs) nodes m)) !! agent =
  credit vs (creditedTo agent nodes) <$> agentPerformanceMetrics m !! agent.
Proof.
  intros Hne. revert m. induction nodes as [|node rest IH]; intros m.
  - cbn. by rewrite credit_nil.
  - cbn [applyKnowledgeUpdate].
    pose proof (applyKnowledgeNode_metrics env vs node m agent) as H1.
    destruct (applyKnowledgeNode env (Some vs) node m) as [m1 [[]|msg]] eqn:E; cbn [fst] in H1.
    + rewrite IH, H1. unfold creditedTo. rewrite filter_cons.
      destruct (decide (ku_created_by node = Some agent)) as [Hc|Hc].
      * rewrite decide_True by done. apply credit_cons.
      * rewrite decide_False by tauto. done.
    + unfold applyKnowledgeNode in E. cbn in E. by repeat case_match.
Qed.

(** X7.  The performance metrics count what was credited: after a payload
    with research vectors, a tracked agent has one more created node for
    every node of the payload that names it in [created_by]; an agent that
    is not tracked stays untracked, whatever the payload credits to it. *)
Theorem metrics_count_credited_nodes env p m vs agent :
  strategic_planning p ≫= research_vectors = Some vs →
  agent ≠ EmptyString →
  nodesCreated <$>
    agentPerformanceMetrics (fst (parseAndApplyArchitectResponse env p m)) !! agent =
  (fun metrics =>
     nodesCreated metrics + length (creditedTo agent (default [] (knowledge_update p)))) <$>
    agentPerformanceMetrics m !! agent.
Proof.
  intros Hvs Hne. rewrite parseAndApply_with_vectors with (vs := vs) by done. cbn [fst].
  transitivity (nodesCreated <$> agentPerformanceMetrics
    (fst (applyKnowledgeUpdate env (Some vs) (default [] (knowledge_update p)) (recordFocus p m)))
    !! agent).
  { unfold updateStagnation, adoptBestVector. repeat case_match; reflexivity. }
  rewrite applyKnowledgeUpdate_metrics by done.
  assert (E : agentPerformanceMetrics (recordFocus p m) = agentPerformanceMetrics m)
    by (unfold recordFocus; repeat case_match; reflexivity).
  rewrite E. by destruct (agentPerformanceMetrics m !! agent).
Qed.

Lemma last_directive_witness :
  strategic_planning (nodesPayload twoNodes) ≫= research_vectors = Some [] ∧
  currentMissionObjective
    (fst (parseAndApplyArchitectResponse silentEnv (nodesPayload twoNodes) (initialMission None))) =
  "Awaiting directive from Metacognitive Architect...".
Proof.
  assert (H : strategic_planning (nodesPayload twoNodes) ≫= research_vectors = Some [])
    by reflexivity.
  split; [exact H|].
  rewrite (proj2 (last_directive_sets_objective silentEnv (nodesPayload twoNodes)
                    (initialMission None) [] H)).
  reflexivity.
Defined.

Lemma metrics_count_witness :
  strategic_planning (nodesPayload twoNodes) ≫= research_vectors = Some [] ∧
  "specialist-5" ≠ EmptyString ∧
  nodesCreated <$>
    agentPerformanceMetrics
      (fst (parseAndApplyArchitectResponse silentEnv (nodesPayload twoNodes)
              (clearAllNotebooks false (initialMission None)))) !! "specialist-5" =
  Some 1.
Proof.
  assert (H : strategic_planning (nodesPayload twoNodes) ≫= research_vectors = Some [])
    by reflexivity.
  assert (Hne : "specialist-5" ≠ EmptyString) by discriminate.
  split; [exact H|]. split; [exact Hne|].
  rewrite (metrics_count_credited_nodes silentEnv (nodesPayload twoNodes)
             (clearAllNotebooks false (initialMission None)) [] "specialist-5" H Hne).
  vm_compute. reflexivity.
Defined.

(** X8.  A payload that carries nodes but no [strategic_planning] halts the
    search: reading the research vectors of the first node throws, after its
    id was taken from the counter and before anything was stored.  The graph,
    the index, the focus history and the objective are as before, the
    stagnation assessment of the payload is not applied, the counter is one
    further, the search flag is down and the interval cleared; the store and
    the status are not touched. *)
Theorem nodes_without_planning_halt_the_search env p m node rest :
  knowledge_update p = Some (node :: rest) →
  strategic_planning p = None →
  isTerminal (summaryOf p) = false →
  let m' := concludeArchitectStep env p m in
  isSearching m' = false ∧ searchIntervalId m' = None ∧
  knowledgeNodeCounter m' = S (knowledgeNodeCounter m) ∧
  knowledgeGraphMap m' = knowledgeGraphMap m ∧
  vectorKnowledgeBase m' = vectorKnowledgeBase m ∧
  strategicFocusHistory m' = strategicFocusHistory m ∧
  currentMissionObjective m' = currentMissionObjective m ∧
  activeResearchVector m' = activeResearchVector m ∧
  stagnationCounter m' = stagnationCounter m ∧
  agentPerformanceMetrics m' = agentPerformanceMetrics m ∧
  db m' = db m ∧ statusSuccess m' = statusSuccess m.
Proof.
  intros Hnodes Hplan Hterm m'. subst m'.
  unfold concludeArchitectStep. rewrite Hterm.
  unfold parseAndApplyArchitectResponse. rewrite Hnodes, Hplan.
  cbn [mbind option_bind applyKnowledgeUpdate]. unfold applyKnowledgeNode.
  cbn zeta. cbn iota. unfold fatalSynthesisError, stopSearch.
  cbn. autorewrite with mission. cbn. autorewrite with mission. done.
Qed.

Lemma nodes_without_planning_witness :
  isSearching
    (concludeArchitectStep silentEnv
       {| knowledge_update := Some twoNodes; strategic_planning := None;
          strategic_assessment := None; synthesis_summary := None |}
       runningMission) = false.
Proof.
  exact (proj1 (nodes_without_planning_halt_the_search silentEnv
           {| knowledge_update := Some twoNodes; strategic_planning := None;
              strategic_assessment := None; synthesis_summary := None |}
           runningMission _ _ eq_refl eq_refl eq_refl)).
Defined.

(** ** The semantic index *)

Lemma rebuild_fold env nodes m :
  foldl (fun m node =>
           match getEmbedding env (kn_content node) with
           | Some embedding =>
               set_vectorKnowledgeBase
                 (vectorKnowledgeBase m ++ [{| ve_id := kn_id node; embedding := embedding |}]) m
           | None => m
           end) m nodes =
  set_vectorKnowledgeBase (vectorKnowledgeBase m ++ indexOf env nodes) m.
Proof.
  revert m. induction nodes as [|node rest IH]; intros m.
  - cbn. rewrite app_nil_r. by destruct m.
  - cbn [foldl]. rewrite IH. unfold indexOf. cbn [omap list_omap]. unfold indexEntry at 2.
    destruct (getEmbedding env (kn_content node)) as [e|]; cbn; [|done].
    by rewrite <- app_assoc.
Qed.

Lemma rebuildKnowledgeBaseVectors_spec env nodes m :
  rebuildKnowledgeBaseVectors env nodes m = set_vectorKnowledgeBase (indexOf env nodes) m.
Proof. unfold rebuildKnowledgeBaseVectors. by rewrite rebuild_fold. Qed.

Lemma indexOf_app env l1 l2 : indexOf env (l1 ++ l2) = indexOf env l1 ++ indexOf env l2.
Proof. unfold indexOf. apply omap_app. Qed.

Lemma indexOf_ext env (l1 l2 : list (string * KnowledgeNode)) :
  map nodeCore l1 = map nodeCore l2 → indexOf env (kg_values l1) = indexOf env (kg_values l2).
Proof.
  unfold kg_values, indexOf.
  revert l2. induction l1 as [|e1 l1 IH]; intros [|e2 l2]; cbn [map]; try done.
  intros [= _ Hid _ Hc _ _ _ Hrest]. cbn [omap list_omap].
  rewrite Hid, Hc. by rewrite (IH l2).
Qed.

Lemma renderKnowledgeGraph_nodeCore m :
  map nodeCore (knowledgeGraphMap (renderKnowledgeGraph m)) = map nodeCore (knowledgeGraphMap m).
Proof.
  rewrite renderKnowledgeGraph_entries, map_map. apply map_ext. by intros [k node].
Qed.

Lemma applyKnowledgeNode_index env vs node m :
  vectorKnowledgeBase (fst (applyKnowledgeNode env (Some vs) node m)) =
  vectorKnowledgeBase m ++
  option_list (indexEntry env (newNodeId (ku_type node) (knowledgeNodeCounter m)) (ku_content node)).
Proof.
  unfold applyKnowledgeNode, indexEntry. cbn.
  destruct (getEmbedding env (ku_content node)); cbn;
    repeat case_match; cbn; rewrite ?app_nil_r; reflexivity.
Qed.

Lemma applyKnowledgeNode_indexed env vs node m :
  graphWf m → indexed env m → indexed env (fst (applyKnowledgeNode env (Some vs) node m)).
Proof.
  intros Hwf Hidx. unfold indexed.
  destruct (applyKnowledgeNode_insert env vs node m Hwf) as (_ & _ & Hg & _).
  cbv zeta in Hg. rewrite Hg, applyKnowledgeNode_index, Hidx.
  unfold kg_values. rewrite map_app, indexOf_app. reflexivity.
Qed.

Lemma applyKnowledgeUpdate_indexed env vs nodes m :
  graphWf m → indexed env m → indexed env (fst (applyKnowledgeUpdate env (Some vs) nodes m)).
Proof.
  revert m. induction nodes as [|node rest IH]; intros m Hwf Hidx; [done|].
  cbn [applyKnowledgeUpdate].
  pose proof (applyKnowledgeNode_indexed env vs node m Hwf Hidx) as H1.
  destruct (applyKnowledgeNode_insert env vs node m Hwf) as (Hd & _ & _ & Hwf1).
  destruct (applyKnowledgeNode env (Some vs) node m) as [m1 r]. cbn [fst snd] in *. subst r.
  by apply IH.
Qed.

Lemma indexed_ext env m1 m2 :
  map nodeCore (knowledgeGraphMap m1) = map nodeCore (knowledgeGraphMap m2) →
  vectorKnowledgeBase m1 = vectorKnowledgeBase m2 →
  indexed env m2 → indexed env m1.
Proof. unfold indexed. intros Hg -> ->. symmetry. by apply indexOf_ext. Qed.

Lemma parseAndApply_indexed env p m :
  graphWf m → indexed env m → indexed env (fst (parseAndApplyArchitectResponse env p m)).
Proof.
  intros Hwf Hidx.
  assert (Hwf0 : graphWf (recordFocus p m)).
  { unfold recordFocus. repeat case_match; exact Hwf. }
  assert (Hidx0 : indexed env (recordFocus p m)).
  { unfold recordFocus. repeat case_match; exact Hidx. }
  destruct (strategic_planning p ≫= research_vectors) as [vs|] eqn:Hvs.
  - rewrite parseAndApply_with_vectors with (vs := vs) by done. cbn [fst].
    eapply indexed_ext; [apply renderKnowledgeGraph_nodeCore| |].
    { reflexivity. }
    eapply (indexed_ext _ _ (fst (applyKnowledgeUpdate env (Some vs)
                                    (default [] (knowledge_update p)) (recordFocus p m)))).
    + unfold updateStagnation, adoptBestVector. repeat case_match; reflexivity.
    + unfold updateStagnation, adoptBestVector. repeat case_match; reflexivity.
    + by apply applyKnowledgeUpdate_indexed.
  - unfold parseAndApplyArchitectResponse. rewrite Hvs. fold (recordFocus p m).
    destruct (knowledge_update p) as [[|node rest]|].
    + cbn. eapply indexed_ext; [apply renderKnowledgeGraph_nodeCore|reflexivity|].
      unfold updateStagnation. repeat case_match; exact Hidx0.
    + cbn. exact Hidx0.
    + cbn. eapply indexed_ext; [apply renderKnowledgeGraph_nodeCore|reflexivity|].
      unfold updateStagnation. repeat case_match; exact Hidx0.
Qed.

(** X9.  The semantic index kept while payloads are applied is the one a
    rebuild gives.  [rebuildKnowledgeBaseVectors] replaces the index by the
    entries of the given nodes that have an embedding, in their order, and
    writes nothing else.  When the index of a well-formed mission is the
    index of its graph, it still is after any payload has been applied (as
    long as the embedding service answers alike), so that rebuilding it then
    from the graph changes nothing. *)
Theorem incremental_index_is_rebuilt_index :
  (∀ env nodes m,
     rebuildKnowledgeBaseVectors env nodes m = set_vectorKnowledgeBase (indexOf env nodes) m)
  ∧ (∀ env nodes m,
       length (vectorKnowledgeBase (rebuildKnowledgeBaseVectors env nodes m)) ≤ length nodes)
  ∧ (∀ env p m,
       graphWf m → indexed env m →
       let m' := fst (parseAndApplyArchitectResponse env p m) in
       indexed env m' ∧
       rebuildKnowledgeBaseVectors env (kg_values (knowledgeGraphMap m')) m' = m').
Proof.
  split; [exact rebuildKnowledgeBaseVectors_spec|]. split.
  - intros env nodes m. rewrite rebuildKnowledgeBaseVectors_spec. cbn. apply omap_length.
  - intros env p m Hwf Hidx m'.
    pose proof (parseAndApply_indexed env p m Hwf Hidx) as H. split; [exact H|].
    rewrite rebuildKnowledgeBaseVectors_spec. unfold indexed in H. fold m' in H.
    rewrite <- H. by destruct m'.
Qed.

Lemma incremental_index_witness :
  graphWf (initialMission None) ∧ indexed silentEnv (initialMission None) ∧
  indexed silentEnv
    (fst (parseAndApplyArchitectResponse silentEnv (nodesPayload twoNodes) (initialMission None))).
Proof.
  assert (Hidx : indexed silentEnv (initialMission None)) by reflexivity.
  split; [exact (graphWf_initial None)|]. split; [exact Hidx|].
  exact (proj1 (proj2 (proj2 incremental_index_is_rebuilt_index) silentEnv
                  (nodesPayload twoNodes) (initialMission None) (graphWf_initial None) Hidx)).
Defined.

(** ** What the tools leave alone *)

Lemma knowledge_addLogEntry notebookId markdown m :
  knowledge (addLogEntry notebookId markdown m) = knowledge m.
Proof. unfold knowledge. by autorewrite with mission. Qed.

Lemma knowledge_retireAgent id reason m :
  knowledge (retireAgent id reason m) = knowledge m.
Proof. unfold retireAgent. by rewrite knowledge_addLogEntry. Qed.

Lemma knowledge_deployNewAgent env id missionPrompt tools lifespan isFromLoad m :
  knowledge (deployNewAgent env id missionPrompt tools lifespan isFromLoad m) = knowledge m.
Proof.
  unfold deployNewAgent. repeat case_match; try reflexivity;
    rewrite ?knowledge_addLogEntry; reflexivity.
Qed.

Lemma kg_set_verified_nodeCore k b n g :
  kg_get k g = Some n →
  map nodeCore (kg_set k (set_verified b n) g) = map nodeCore g.
Proof.
  induction g as [|[k' n'] g IH]; cbn; [done|].
  destruct (String.eqb_spec k' k) as [->|Hne].
  - intros [= ->]. reflexivity.
  - intros H. cbn. by rewrite IH.
Qed.

Lemma knowledge_toolEffect env call m :
  knowledge (fst (toolEffect env call m)) = knowledge m.
Proof.
  destruct call; cbn [toolEffect].
  - destruct (kg_get _ (knowledgeGraphMap m)); cbn iota beta zeta;
      repeat case_match; simplify_eq; cbn [fst]; rewrite ?knowledge_addLogEntry; reflexivity.
  - destruct (kg_get _ (knowledgeGraphMap m)); cbn iota beta zeta;
      repeat case_match; simplify_eq; cbn [fst]; rewrite ?knowledge_addLogEntry; reflexivity.
  - cbn [fst]. apply knowledge_deployNewAgent.
  - destruct (kg_get node_id (knowledgeGraphMap m)) as [nodeToVerify|] eqn:Hget;
      cbn iota beta zeta; cbn [fst]; rewrite knowledge_addLogEntry; [|reflexivity].
    unfold knowledge. rewrite renderKnowledgeGraph_nodeCore. cbn.
    by rewrite kg_set_verified_nodeCore.
  - cbn zeta. destruct (executePythonCode _ _ _ _) as [stdout stderr]. cbn [fst].
    by rewrite !knowledge_addLogEntry.
  - cbn [fst]. apply knowledge_retireAgent.
  - destruct (googleSearch env query) as [[summary sources]|]; cbn [fst];
      by rewrite knowledge_addLogEntry.
  - cbn [fst]. by rewrite !knowledge_addLogEntry.
  - cbn zeta. repeat case_match; simplify_eq; cbn [fst];
      rewrite ?knowledge_addLogEntry; reflexivity.
  - reflexivity.
Qed.

Lemma knowledge_toolLoop fuel envs architect round conversation result m :
  knowledge (fst (toolLoop fuel envs architect round conversation result m)) = knowledge m.
Proof.
  revert round conversation result m.
  induction fuel as [|fuel IH]; intros round conversation result m;
    destruct result as [call others|text]; cbn [toolLoop]; try reflexivity.
  pose proof (knowledge_toolEffect (envs round) call m) as H.
  destruct (toolEffect (envs round) call m) as [m' [answer|msg]]; cbn [fst] in H; [|done].
  cbn zeta. destruct (architect _) as [result'|]; [|done].
  by rewrite IH.
Qed.

(** X10.  The architect's tools cannot add, drop or rewrite knowledge: after
    any tool call, and after the whole dispatch loop however long it runs,
    the graph holds the same nodes under the same keys with the same type,
    content, relations, author and promise score (only the two flags may
    differ), and the node counter, the index, the objective, the research
    vector, the stagnation counter, the focus history and the cycle counter
    are as before.  A tool other than [request_formal_verification] leaves
    the graph exactly as it was. *)
Theorem tools_leave_knowledge_alone :
  (∀ env call m, knowledge (fst (toolEffect env call m)) = knowledge m)
  ∧ (∀ fuel envs architect round conversation result m,
       knowledge (fst (toolLoop fuel envs architect round conversation result m)) = knowledge m)
  ∧ (∀ env call m,
       call_name call ≠ "request_formal_verification" ∨ missingNodeRefs m call ≠ [] →
       knowledgeGraphMap (fst (toolEffect env call m)) = knowledgeGraphMap m).
Proof.
  split; [exact knowledge_toolEffect|]. split; [exact knowledge_toolLoop|].
  intros env call m Hcall. destruct call; cbn [toolEffect].
  - destruct (kg_get _ (knowledgeGraphMap m)); cbn iota beta zeta;
      repeat case_match; simplify_eq; cbn [fst]; by autorewrite with mission.
  - destruct (kg_get _ (knowledgeGraphMap m)); cbn iota beta zeta;
      repeat case_match; simplify_eq; cbn [fst]; by autorewrite with mission.
  - cbn [fst]. unfold deployNewAgent. repeat case_match; by autorewrite with mission.
  - cbn in Hcall. destruct (kg_get node_id (knowledgeGraphMap m)) as [nodeToVerify|] eqn:Hget.
    + destruct Hcall as [H|H]; by destruct H.
    + cbn iota beta zeta. cbn [fst]. by autorewrite with mission.
  - cbn zeta. destruct (executePythonCode _ _ _ _) as [stdout stderr]. cbn [fst].
    by autorewrite with mission.
  - cbn [fst]. unfold retireAgent. by autorewrite with mission.
  - destruct (googleSearch env query) as [[summary sources]|]; cbn [fst];
      by autorewrite with mission.
  - cbn [fst]. by autorewrite with mission.
  - cbn zeta. repeat case_match; simplify_eq; cbn [fst]; by autorewrite with mission.
  - reflexivity.
Qed.

(** ** Cosine similarity *)

Lemma dotProduct_comm a b : dotProduct a b = dotProduct b a.
Proof.
  unfold dotProduct. generalize 0%float as acc. revert b.
  induction a as [|x a IH]; intros [|y b] acc; cbn; try reflexivity.
  rewrite (float_mul_comm x y). apply IH.
Qed.

Lemma cosineSimilarity_comm a b : cosineSimilarity a b = cosineSimilarity b a.
Proof.
  unfold cosineSimilarity. rewrite (Nat.eqb_sym (length a) (length b)).
  destruct (length b =? length a)%nat; cbn [negb]; [|reflexivity].
  rewrite (orb_comm (magnitude a =? 0)%float), (dotProduct_comm a b),
    (float_mul_comm (magnitude a) (magnitude b)). reflexivity.
Qed.

(** The two zeros of the doubles are the numbers equal to zero. *)
Lemma float_eqb_zero x : (x =? 0)%float = true → x = 0%float ∨ x = (-0)%float.
Proof.
  rewrite FloatAxioms.eqb_spec. change (Prim2SF 0) with (S754_zero false).
  intros H. rewrite <- (FloatAxioms.SF2Prim_Prim2SF x).
  destruct (Prim2SF x) as [[]|[]| |[] ? ?]; try discriminate H; [right|left]; reflexivity.
Qed.

Lemma magnitude_zeroVector vec : zeroVector vec → magnitude vec = 0%float.
Proof.
  unfold magnitude. intros H.
  assert (E : foldl (fun sum x => (sum + x * x)%float) 0%float vec = 0%float).
  { induction H as [|x vec Hx _ IH]; [reflexivity|]. cbn [foldl].
    destruct (float_eqb_zero x Hx) as [->| ->]; exact IH. }
  rewrite E. reflexivity.
Qed.

(** X11.  The similarity of two embeddings does not depend on their order.
    It is 0, not an error and not a division by zero, when the two vectors
    differ in length and when one of them has only zero components.  It is a
    double, computed with the rounding of each operation: the similarity of
    a vector with itself can lie above 1, is NaN when the squares of its
    components overflow, and is 0 when they underflow. *)
Theorem cosineSimilarity_symmetric_and_zero_cases :
  (∀ vecA vecB, cosineSimilarity vecA vecB = cosineSimilarity vecB vecA)
  ∧ (∀ vecA vecB, length vecA ≠ length vecB → cosineSimilarity vecA vecB = 0%float)
  ∧ (∀ vecA vecB, zeroVector vecA → cosineSimilarity vecA vecB = 0%float)
  ∧ (cosineSimilarity roundedUp roundedUp = 0x1.0000000000001p+0%float ∧
     (1 <? cosineSimilarity roundedUp roundedUp)%float = true ∧
     cosineSimilarity [0x1p+600%float] [0x1p+600%float] = nan ∧
     cosineSimilarity [0x1p-600%float] [0x1p-600%float] = 0%float).
Proof.
  split; [exact cosineSimilarity_comm|]. split; [|split].
  - intros vecA vecB Hlen. unfold cosineSimilarity.
    by rewrite (proj2 (Nat.eqb_neq _ _) Hlen).
  - intros vecA vecB Hzero%magnitude_zeroVector. unfold cosineSimilarity.
    destruct (negb _); [done|]. cbv zeta. rewrite Hzero. reflexivity.
  - vm_compute. repeat split; reflexivity.
Qed.

(** ** The dispatch loop, round by round *)

Lemma toolEffect_answersCall env call m m' answer :
  toolEffect env call m = (m', Done answer) → answersCall call answer.
Proof.
  destruct call; cbn [toolEffect]; unfold payload;
    repeat case_match; intros [= <- <-]; cbn; try reflexivity; exact I.
Qed.

Lemma toolLoop_conversation fuel envs architect round conversation result m m' conversation' round' text :
  toolLoop fuel envs architect round conversation result m =
    (m', LoopFinal conversation' round' text) →
  ∃ steps,
    conversation' = conversation ++ flat_map roundTurns steps ∧
    round' = round + length steps ∧ length steps ≤ fuel ∧
    Forall (fun '(call, _, answer) => answersCall call answer) steps.
Proof.
  revert round conversation result m.
  induction fuel as [|fuel IH]; intros round conversation result m;
    destruct result as [call others|text0]; cbn [toolLoop]; try discriminate.
  - intros [= <- <- <- <-]. exists []. cbn. rewrite app_nil_r, Nat.add_0_r. repeat split; [lia|constructor].
  - destruct (toolEffect (envs round) call m) as [m1 [answer|msg]] eqn:Heff; [|discriminate].
    cbn zeta. destruct (architect _) as [result'|]; [|discriminate].
    intros Hloop. apply IH in Hloop as (steps & -> & -> & Hlen & Hall).
    exists ((call, others, answer) :: steps). cbn [flat_map roundTurns length].
    rewrite <- !app_assoc. repeat split; [lia|lia|].
    constructor; [|done]. by eapply toolEffect_answersCall.
  - intros [= <- <- <- <-]. exists []. cbn. rewrite app_nil_r, Nat.add_0_r. repeat split; [lia|constructor].
Qed.

(** X13.  However many calls the model puts in one batch, a round of the
    dispatch loop executes and answers the first only: the effect on the
    mission is that of the first call, and the conversation grows by the
    model's turn, which holds the whole batch, and one tool turn with the
    single response, which carries the name of the first call.  When the
    loop ends with a final text, the conversation is the one it started from
    followed by these two turns for every round gone by. *)
Theorem dispatch_loop_answers_first_call_only :
  (∀ fuel envs architect round conversation call others m m' answer,
     toolEffect (envs round) call m = (m', Done answer) →
     answersCall call answer ∧
     toolLoop (S fuel) envs architect round conversation (FunctionCalls call others) m =
       match architect (conversation ++ roundTurns (call, others, answer)) with
       | None => (m', LoopThrew "generateContent failed")
       | Some result =>
           toolLoop fuel envs architect (S round)
             (conversation ++ roundTurns (call, others, answer)) result m'
       end)
  ∧ (∀ fuel envs architect round conversation result m m' conversation' round' text,
       toolLoop fuel envs architect round conversation result m =
         (m', LoopFinal conversation' round' text) →
       ∃ steps,
         conversation' = conversation ++ flat_map roundTurns steps ∧
         round' = round + length steps ∧ length steps ≤ fuel ∧
         Forall (fun '(call, _, answer) => answersCall call answer) steps).
Proof.
  split; [|exact toolLoop_conversation].
  intros fuel envs architect round conversation call others m m' answer Heff.
  split; [by eapply toolEffect_answersCall|].
  exact (toolLoop_round fuel envs architect round conversation call others m m' answer Heff).
Qed.

Lemma dispatch_loop_witness :
  toolEffect silentEnv (retire_agent "specialist-2" "Ineffective.") (initialMission None) =
    (retireAgent "specialist-2" "Ineffective." (initialMission None),
     Done (payload (retire_agent "specialist-2" "Ineffective.")
             [("success", JBool true); ("message", JStr "Agent specialist-2 retired.")])) ∧
  answersCall (retire_agent "specialist-2" "Ineffective.")
    (payload (retire_agent "specialist-2" "Ineffective.")
       [("success", JBool true); ("message", JStr "Agent specialist-2 retired.")]).
Proof.
  assert (H : toolEffect ((fun _ => silentEnv) 0)
                (retire_agent "specialist-2" "Ineffective.") (initialMission None) =
              (retireAgent "specialist-2" "Ineffective." (initialMission None),
               Done (payload (retire_agent "specialist-2" "Ineffective.")
                       [("success", JBool true); ("message", JStr "Agent specialist-2 retired.")])))
    by reflexivity.
  split; [exact H|].
  exact (proj1 (proj1 dispatch_loop_answers_first_call_only 0 (fun _ => silentEnv)
                  (fun _ => None) 0 [] _ [] _ _ _ H)).
Defined.

(** ** Formal verification *)

Lemma kg_get_kg_set k n g : kg_get k (kg_set k n g) = Some n.
Proof.
  induction g as [|[k' n'] g IH]; cbn.
  - by rewrite String.eqb_refl.
  - destruct (String.eqb_spec k' k) as [->|Hne]; cbn.
    + by rewrite String.eqb_refl.
    + destruct (String.eqb_spec k' k); [done|]. exact IH.
Qed.

Lemma kg_get_renderKnowledgeGraph k m :
  kn_verified <$> kg_get k (knowledgeGraphMap (renderKnowledgeGraph m)) =
  kn_verified <$> kg_get k (knowledgeGraphMap m).
Proof.
  rewrite renderKnowledgeGraph_entries.
  generalize (invalidatedIds (kg_values (knowledgeGraphMap m))) as ids. intros ids.
  induction (knowledgeGraphMap m) as [|[k' n'] g IH]; cbn; [done|].
  destruct (String.eqb k' k); [done|]. exact IH.
Qed.

Lemma drawVerifies_spec env proof_code :
  drawVerifies env proof_code = true ↔ (fst (mathRandom env) < successChance proof_code)%Q.
Proof.
  unfold drawVerifies. rewrite negb_true_iff, <- not_true_iff_false, Qle_bool_iff. split.
  - apply Qnot_le_lt.
  - apply Qlt_not_le.
Qed.

Lemma successChance_bounds proof_code :
  ((1 # 10) <= successChance proof_code)%Q ∧ (successChance proof_code <= 1)%Q.
Proof.
  unfold successChance. split; [apply Q.le_max_l|].
  apply Q.max_lub; [done|].
  assert (H : (0 <= inject_Z (Z.of_nat (String.length proof_code)) / 1000)%Q).
  { apply Qle_shift_div_l; [done|]. rewrite Qmult_0_l.
    change 0%Q with (inject_Z 0). rewrite <- Zle_Qle. lia. }
  unfold Qminus. rewrite <- (Qplus_0_r 1) at 2. apply Qplus_le_r.
  change 0%Q with (- 0)%Q. by apply Qopp_le_compat.
Qed.

Lemma successChance_antitone c1 c2 :
  String.length c1 ≤ String.length c2 → (successChance c2 <= successChance c1)%Q.
Proof.
  intros Hlen. unfold successChance. apply Q.max_le_compat_l.
  assert (H : (inject_Z (Z.of_nat (String.length c1)) / 1000 <=
               inject_Z (Z.of_nat (String.length c2)) / 1000)%Q).
  { apply Qmult_le_compat_r; [|done]. rewrite <- Zle_Qle. lia. }
  unfold Qminus. apply Qplus_le_r. by apply Qopp_le_compat.
Qed.



(** ** Log entries and their history *)

Lemma notebookWf_empty id : notebookWf id {| logs := []; logCounter := 0 |}.
Proof. split; [done|]. intros i entry H. cbn in H. by rewrite lookup_nil in H. Qed.

Lemma logsWf_addLogEntry notebookId markdown m :
  logsWf m → logsWf (addLogEntry notebookId markdown m).
Proof.
  intros Hwf id nb. unfold addLogEntry.
  destruct (notebooks m !! notebookId) as [nb0|] eqn:E; [|apply Hwf].
  cbn. destruct (decide (id = notebookId)) as [->|Hne].
  - rewrite lookup_insert_eq. intros [= <-]. destruct (Hwf _ _ E) as [Hc Hids].
    split; cbn.
    + rewrite length_app. cbn. lia.
    + intros i entry Hi. apply lookup_app_Some in Hi as [Hi|[Hlen Hi]]; [by apply Hids|].
      apply list_lookup_singleton_Some in Hi as [Hi <-]. cbn.
      replace i with (length (logs nb0)) by lia. by rewrite Hc.
  - rewrite lookup_insert_ne by done. apply Hwf.
Qed.

Lemma logsWf_notebooks m1 m2 :
  notebooks m1 = notebooks m2 → logsWf m2 → logsWf m1.
Proof. unfold logsWf. by intros ->. Qed.

Lemma logsWf_insert_empty id m :
  logsWf m → logsWf (set_notebooks (<[id := {| logs := []; logCounter := 0 |}]> (notebooks m)) m).
Proof.
  intros Hwf k nb. cbn. destruct (decide (k = id)) as [->|Hne].
  - rewrite lookup_insert_eq. intros [= <-]. apply notebookWf_empty.
  - rewrite lookup_insert_ne by done. apply Hwf.
Qed.

Lemma logsWf_deployNewAgent env id missionPrompt tools lifespan isFromLoad m :
  logsWf m → logsWf (deployNewAgent env id missionPrompt tools lifespan isFromLoad m).
Proof.
  intros Hwf. unfold deployNewAgent.
  destruct (notebooks m !! id); [done|]. destruct (mountColumn env id); cbn [negb]; [|done].
  cbn zeta.
  assert (H : ∀ m1, notebooks m1 = <[id := {| logs := []; logCounter := 0 |}]> (notebooks m) →
                    logsWf m1).
  { intros m1 E. eapply logsWf_notebooks; [|exact (logsWf_insert_empty id m Hwf)]. exact E. }
  match goal with |- context [JS.mem id ?l] => destruct (JS.mem id l) end;
    destruct isFromLoad; try apply logsWf_addLogEntry; by apply H.
Qed.

Lemma logsWf_delete id m :
  logsWf m → logsWf (set_notebooks (delete id (notebooks m)) m).
Proof.
  intros Hwf k nb. cbn. intros H. apply lookup_delete_Some in H as [_ H]. by apply Hwf.
Qed.

Lemma logsWf_retireAgent id reason m : logsWf m → logsWf (retireAgent id reason m).
Proof.
  intros Hwf. unfold retireAgent. apply logsWf_addLogEntry.
  eapply logsWf_notebooks; [|exact (logsWf_delete id m Hwf)]. reflexivity.
Qed.

Lemma logsWf_retireEach {A} (agent reason : A → string) l m :
  logsWf m → logsWf (retireEach agent reason l m).
Proof.
  revert m. induction l as [|x l IH]; intros m Hwf; [done|].
  cbn. apply IH. by apply logsWf_retireAgent.
Qed.

Lemma logsWf_checkAgentLifecycles m : logsWf m → logsWf (checkAgentLifecycles m).
Proof. rewrite checkAgentLifecycles_retireEach. apply logsWf_retireEach. Qed.

Lemma logsWf_toolEffect env call m : logsWf m → logsWf (fst (toolEffect env call m)).
Proof.
  intros Hwf. destruct call; cbn [toolEffect].
  - destruct (kg_get _ (knowledgeGraphMap m)); cbn iota beta zeta;
      repeat case_match; simplify_eq; cbn [fst]; repeat apply logsWf_addLogEntry; done.
  - destruct (kg_get _ (knowledgeGraphMap m)); cbn iota beta zeta;
      repeat case_match; simplify_eq; cbn [fst]; repeat apply logsWf_addLogEntry; done.
  - cbn [fst]. by apply logsWf_deployNewAgent.
  - destruct (kg_get node_id (knowledgeGraphMap m)); cbn iota beta zeta; cbn [fst];
      apply logsWf_addLogEntry; done.
  - cbn zeta. destruct (executePythonCode _ _ _ _) as [stdout stderr]. cbn [fst].
    by repeat apply logsWf_addLogEntry.
  - cbn [fst]. by apply logsWf_retireAgent.
  - destruct (googleSearch env query) as [[summary sources]|]; cbn [fst];
      by apply logsWf_addLogEntry.
  - cbn [fst]. repeat apply logsWf_addLogEntry. done.
  - cbn zeta. repeat case_match; simplify_eq; cbn [fst];
      repeat apply logsWf_addLogEntry; done.
  - done.
Qed.

Lemma logsWf_toolLoop fuel envs architect round conversation result m :
  logsWf m → logsWf (fst (toolLoop fuel envs architect round conversation result m)).
Proof.
  revert round conversation result m.
  induction fuel as [|fuel IH]; intros round conversation result m Hwf;
    destruct result as [call others|text]; cbn [toolLoop]; try done.
  pose proof (logsWf_toolEffect (envs round) call m Hwf) as H.
  destruct (toolEffect (envs round) call m) as [m' [answer|msg]]; cbn [fst] in H; [|done].
  cbn zeta. destruct (architect _) as [result'|]; [|done].
  by apply IH.
Qed.

Lemma parseAndApply_notebooks env p m :
  notebooks (fst (parseAndApplyArchitectResponse env p m)) = notebooks m.
Proof.
  unfold parseAndApplyArchitectResponse. fold (recordFocus p m).
  assert (H0 : notebooks (recordFocus p m) = notebooks m).
  { unfold recordFocus. repeat case_match; reflexivity. }
  destruct (knowledge_update p) as [nodes|].
  - pose proof (applyKnowledgeUpdate_untouched env
      (strategic_planning p ≫= research_vectors) nodes (recordFocus p m)) as (H1 & _).
    destruct (applyKnowledgeUpdate env _ nodes (recordFocus p m)) as [m1 [[]|msg]];
      cbn [fst] in H1 |- *; [|congruence].
    rewrite <- H0, <- H1. unfold updateStagnation. repeat case_match; reflexivity.
  - rewrite <- H0. unfold updateStagnation. repeat case_match; reflexivity.
Qed.

Lemma logsWf_stopSearch b m : logsWf m → logsWf (stopSearch b m).
Proof. intros H. unfold stopSearch. by destruct b. Qed.

Lemma logsWf_concludeArchitectStep env p m :
  logsWf m → logsWf (concludeArchitectStep env p m).
Proof.
  intros Hwf. unfold concludeArchitectStep.
  destruct (isTerminal (summaryOf p)); [by apply logsWf_stopSearch|].
  pose proof (parseAndApply_notebooks env p (addLogEntry "synthesizer" (summaryOf p) m)) as H.
  destruct (parseAndApplyArchitectResponse env p _) as [m1 [[]|msg]]; cbn [fst] in H.
  - eapply logsWf_notebooks; [exact H|]. by apply logsWf_addLogEntry.
  - unfold fatalSynthesisError. apply logsWf_stopSearch, logsWf_addLogEntry.
    eapply logsWf_notebooks; [exact H|]. by apply logsWf_addLogEntry.
Qed.

Lemma logsWf_fatalSynthesisError msg m : logsWf m → logsWf (fatalSynthesisError msg m).
Proof. intros H. unfold fatalSynthesisError. by apply logsWf_stopSearch, logsWf_addLogEntry. Qed.

Lemma logsWf_runArchitectStep fuel envs architect specialistOutputs m m' :
  logsWf m → runArchitectStep fuel envs architect specialistOutputs m = Some m' → logsWf m'.
Proof.
  intros Hwf. unfold runArchitectStep.
  destruct (isSearching m); cbn [negb]; [|by intros [= <-]].
  assert (Hchaos : logsWf (snd (chaosIntervention m))).
  { unfold chaosIntervention. destruct (chaosActive m); cbn [snd]; [|done].
    by apply logsWf_addLogEntry. }
  destruct (chaosIntervention m) as [chaos m0]. cbn [snd] in Hchaos.
  destruct (architect _) as [result|].
  2:{ intros [= <-]. by apply logsWf_fatalSynthesisError. }
  pose proof (logsWf_toolLoop fuel envs architect 0
    [{| role := "user"; parts := [PromptPart (architectPrompt chaos specialistOutputs m0)] |}]
    result m0 Hchaos) as Hloop.
  destruct (toolLoop fuel envs architect 0 _ result m0) as [m1 [conv round [text|]|msg|]];
    cbn [fst] in Hloop; try discriminate.
  - destruct (parseFinal (envs round) text) as [parsedResponse|]; intros [= <-].
    + by apply logsWf_concludeArchitectStep.
    + by apply logsWf_fatalSynthesisError.
  - intros [= <-]. by apply logsWf_fatalSynthesisError.
  - intros [= <-]. by apply logsWf_fatalSynthesisError.
Qed.

Lemma logsWf_clearAllNotebooks b m : logsWf (clearAllNotebooks b m).
Proof.
  unfold clearAllNotebooks. cbn zeta.
  repeat apply logsWf_addLogEntry.
  intros id nb. cbn. rewrite lookup_fmap. intros H.
  apply fmap_Some in H as (nb0 & _ & ->). apply notebookWf_empty.
Qed.

Lemma logsWf_initial store : logsWf (initialMission store).
Proof.
  intros id nb H. unfold initialMission in H. cbn [notebooks] in H.
  apply elem_of_list_to_map_2 in H.
  apply list_elem_of_fmap in H as (k & [= -> ->] & _). apply notebookWf_empty.
Qed.

Lemma notebookWf_NoDup id nb : notebookWf id nb → NoDup (map log_id (logs nb)).
Proof.
  intros [_ Hids]. apply NoDup_alt. intros i j x Hi Hj.
  rewrite list_lookup_fmap in Hi, Hj.
  apply fmap_Some in Hi as (ei & Hi & ->). apply fmap_Some in Hj as (ej & Hj & Heq).
  rewrite (Hids _ _ Hi), (Hids _ _ Hj) in Heq.
  apply (inj (String.append id)) in Heq. apply (inj (String.append "-log-")) in Heq.
  exact (pretty_nat_inj _ _ Heq).
Qed.

Lemma slice_last_map {A B} (f : A → B) n (l : list A) :
  JS.slice_last n (map f l) = map f (JS.slice_last n l).
Proof. unfold JS.slice_last. by rewrite length_map, <- fmap_drop. Qed.

Lemma getLogHistory_nonempty notebookId count m nb :
  notebooks m !! notebookId = Some nb → logs nb ≠ [] →
  getLogHistory notebookId count m =
  JS.join JS.nl (map previousStep (JS.slice_last count (map rawMarkdown (logs nb)))).
Proof.
  intros Hnb Hne. unfold getLogHistory. rewrite Hnb.
  destruct (logs nb) as [|e l] eqn:El; [done|].
  rewrite slice_last_map, map_map. reflexivity.
Qed.

(** X16.  What was logged last is what the history shows last.  After an
    entry is added to an existing notebook, the history of that notebook
    with [count = 1] is the block of this entry alone, and with any
    [count > 0] it is made of the last [count] entries, the new one
    included, oldest first; for a notebook that does not exist, the entry is
    dropped and the history stays the fixed sentence of a first step. *)
Theorem history_shows_latest_entry notebookId markdown m :
  (∀ nb count,
     notebooks m !! notebookId = Some nb → 0 < count →
     getLogHistory notebookId count (addLogEntry notebookId markdown m) =
     JS.join JS.nl
       (map previousStep (JS.slice_last count (map rawMarkdown (logs nb) ++ [markdown]))))
  ∧ (is_Some (notebooks m !! notebookId) →
     getLogHistory notebookId 1 (addLogEntry notebookId markdown m) = previousStep markdown)
  ∧ (notebooks m !! notebookId = None →
     addLogEntry notebookId markdown m = m ∧
     ∀ count, getLogHistory notebookId count (addLogEntry notebookId markdown m) = NO_HISTORY).
Proof.
  assert (Hgen : ∀ nb count,
     notebooks m !! notebookId = Some nb →
     getLogHistory notebookId count (addLogEntry notebookId markdown m) =
     JS.join JS.nl
       (map previousStep (JS.slice_last count (map rawMarkdown (logs nb) ++ [markdown])))).
  { intros nb count Hnb.
    set (e := {| log_id := notebookId +:+ "-log-" +:+ pretty (logCounter nb);
                 rawMarkdown := markdown |}).
    rewrite (getLogHistory_nonempty notebookId count _
               {| logs := logs nb ++ [e]; logCounter := S (logCounter nb) |}).
    - cbn. by rewrite map_app.
    - unfold addLogEntry. rewrite Hnb. cbn. by rewrite lookup_insert_eq.
    - cbn. by destruct (logs nb). }
  split; [intros nb count Hnb _; by apply Hgen|]. split.
  - intros [nb Hnb]. rewrite (Hgen nb 1 Hnb). unfold JS.slice_last.
    rewrite length_app. cbn [length].
    replace (length (map rawMarkdown (logs nb)) + 1 - 1) with
      (length (map rawMarkdown (logs nb))) by lia.
    rewrite drop_app_length. reflexivity.
  - intros Hnb. unfold addLogEntry, getLogHistory. rewrite Hnb. split; [done|].
    intros count. by rewrite Hnb.
Qed.

(** ** Resuming a saved mission *)

(** *** The blocks of the load, one by one *)

Lemma retireDynamicAgents_retireEach m :
  retireDynamicAgents m =
  retireEach (fun id => id) (fun _ => "Loading saved state.")
    (filter (fun id => id ∉ seedAgents) (activeSpecialists m)) m.
Proof.
  unfold retireDynamicAgents, retireEach.
  generalize (activeSpecialists m) as l. intros l. revert m.
  induction l as [|id l IH]; intros m; [done|].
  cbn [foldl]. rewrite filter_cons. unfold JS.mem.
  destruct (decide (id ∉ seedAgents)) as [Hn|Hn].
  - rewrite bool_decide_eq_false_2 by done. cbn [foldl]. apply IH.
  - rewrite bool_decide_eq_true_2 by (by apply dec_stable). apply IH.
Qed.

Lemma outsideRegistry_retireEach {A} (agent reason : A → string) l m :
  outsideRegistry (retireEach agent reason l m) = outsideRegistry m.
Proof.
  unfold outsideRegistry.
  by destruct (retireEach_frame agent reason l m) as (-> & -> & ->).
Qed.

Lemma retireDynamicAgents_notebooks m id :
  is_Some (notebooks (retireDynamicAgents m) !! id) ↔
  is_Some (notebooks m !! id) ∧ ¬ dynamicAgent m id.
Proof.
  rewrite retireDynamicAgents_retireEach, <- !elem_of_dom, retireEach_notebooks_dom.
  rewrite elem_of_difference, elem_of_list_to_set, map_id, list_elem_of_filter.
  unfold dynamicAgent. tauto.
Qed.

(** Refilling an emptied graph with its own nodes gives the graph back. *)
Lemma kg_refill_app acc g :
  keyedById (acc ++ g) →
  foldl (fun g node => kg_set (kn_id node) node g) acc (kg_values g) = acc ++ g.
Proof.
  revert acc. induction g as [|[k n] g IH]; intros acc [Hnd Hkeys].
  - cbn. by rewrite app_nil_r.
  - cbn [kg_values map foldl snd].
    assert (Hk : kn_id n = k) by (apply Hkeys, elem_of_app; right; left).
    rewrite Hk, kg_set_fresh.
    + fold (kg_values g). rewrite IH; rewrite <- app_assoc; [done|]. by split.
    + apply kg_get_None. rewrite map_app in Hnd. apply NoDup_app in Hnd as (_ & Hdis & _).
      intros Hin. apply (Hdis k Hin). cbn. left.
Qed.

Lemma kg_refill g :
  keyedById g → foldl (fun g node => kg_set (kn_id node) node g) [] (kg_values g) = g.
Proof. intros H. by rewrite kg_refill_app. Qed.

Lemma graphWf_keyedById m : graphWf m → keyedById (knowledgeGraphMap m).
Proof.
  intros [Hnd Hwf]. split; [done|]. intros k n Hin. by destruct (Hwf k n Hin).
Qed.

(** One agent of the restored active list. *)
Lemma deployLoadedAgent_fresh env id m :
  notebooks m !! id = None → mountColumn env id = true → id ∈ activeSpecialists m →
  deployLoadedAgent env id m =
  set_agentPerformanceMetrics (<[id := zeroMetric]> (agentPerformanceMetrics m))
    (set_specialistMetadata
       (<[id := {| required_tools := from_option required_tools [] (specialistMetadata m !! id);
                   lifespan_cycles := specialistMetadata m !! id ≫= lifespan_cycles;
                   creationCycle := cycleCounter m |}]> (specialistMetadata m))
       (set_specialistPrompts
          (<[id := default "Loaded Agent" (specialistPrompts m !! id)]> (specialistPrompts m))
          (set_notebooks (<[id := emptyNotebook]> (notebooks m)) m))).
Proof.
  intros Hnb Hmount Hin. unfold deployLoadedAgent. rewrite Hnb. cbn zeta.
  rewrite deployNewAgent_fresh by done. cbn zeta. unfold JS.mem.
  rewrite bool_decide_eq_true_2 by done. by destruct m.
Qed.

Lemma deployLoadedAgent_skip env id m :
  is_Some (notebooks m !! id) ∨ mountColumn env id = false →
  deployLoadedAgent env id m = m.
Proof.
  unfold deployLoadedAgent. intros [[nb ->]|Hmount]; [done|].
  destruct (notebooks m !! id) eqn:Hnb; [done|]. cbn zeta.
  unfold deployNewAgent. by rewrite Hnb, Hmount.
Qed.

Lemma deployLoadedAgents_fold env l m :
  Forall (fun id => id ∈ activeSpecialists m) l →
  let acc := foldl (fun acc id => deployLoadedAgent env id acc) m l in
  (∀ k, agentRecord acc k =
        if decide (loadsAgent env l m k)
        then (Some emptyNotebook,
              Some (default "Loaded Agent" (specialistPrompts m !! k)),
              Some {| required_tools := from_option required_tools [] (specialistMetadata m !! k);
                      lifespan_cycles := specialistMetadata m !! k ≫= lifespan_cycles;
                      creationCycle := cycleCounter m |},
              Some zeroMetric)
        else agentRecord m k) ∧
  activeSpecialists acc = activeSpecialists m ∧
  outsideRegistry acc = outsideRegistry m.
Proof.
  induction l as [|x l IH] using rev_ind; intros Hall acc.
  - subst acc. cbn. split; [|done]. intros k. rewrite decide_False; [done|].
    intros [Hin _]. by apply elem_of_nil in Hin.
  - apply Forall_app in Hall as [Hall Hx]. rewrite Forall_singleton in Hx.
    specialize (IH Hall). cbv zeta in IH. destruct IH as (Hrec & Hact & Hout).
    subst acc. rewrite foldl_app. cbn [foldl].
    set (acc := foldl (fun acc id => deployLoadedAgent env id acc) m l) in *.
    assert (Hcyc : cycleCounter acc = cycleCounter m).
    { unfold outsideRegistry in Hout. by injection Hout. }
    destruct (decide (loadsAgent env (l ++ [x]) m x ∧ ¬ loadsAgent env l m x)) as [[Hnew Hold]|Hskip].
    + (* [x] is deployed by this step *)
      destruct Hnew as (_ & Hnb & Hmount).
      pose proof (Hrec x) as Hx0. rewrite decide_False in Hx0 by done.
      unfold agentRecord in Hx0.
      assert (Hx1 : notebooks acc !! x = notebooks m !! x) by (by injection Hx0).
      assert (Hx2 : specialistPrompts acc !! x = specialistPrompts m !! x) by (by injection Hx0).
      assert (Hx3 : specialistMetadata acc !! x = specialistMetadata m !! x) by (by injection Hx0).
      rewrite deployLoadedAgent_fresh; [|by rewrite Hx1|done|rewrite Hact; exact Hx].
      split; [|split; [exact Hact|exact Hout]].
      intros k. unfold agentRecord. cbn.
      destruct (decide (k = x)) as [->|Hne].
      * rewrite !lookup_insert_eq, Hx2, Hx3, Hcyc.
        rewrite decide_True; [done|]. split; [apply elem_of_app; right; left|done].
      * rewrite !lookup_insert_ne by done. specialize (Hrec k). unfold agentRecord in Hrec.
        rewrite Hrec. apply decide_ext. unfold loadsAgent.
        rewrite elem_of_app, list_elem_of_singleton. tauto.
    + (* nothing to deploy *)
      rewrite deployLoadedAgent_skip.
      * split; [|split; [exact Hact|exact Hout]].
        intros k. rewrite Hrec. apply decide_ext. unfold loadsAgent in *.
        rewrite elem_of_app, list_elem_of_singleton. split; [tauto|].
        intros ([Hin| ->] & Hnb & Hmount); [tauto|].
        destruct (decide (x ∈ l)); [tauto|]. exfalso. apply Hskip.
        split; [|tauto]. split; [apply elem_of_app; right; left|done].
      * pose proof (Hrec x) as Hx0. unfold agentRecord in Hx0.
        destruct (decide (loadsAgent env l m x)) as [Hl|Hl].
        -- left. assert (Hx1 : notebooks acc !! x = Some emptyNotebook) by (by injection Hx0).
           rewrite Hx1. eauto.
        -- assert (Hx1 : notebooks acc !! x = notebooks m !! x) by (by injection Hx0).
           rewrite Hx1.
           destruct (notebooks m !! x) eqn:Hnb; [left; eauto|].
           destruct (mountColumn env x) eqn:Hmount; [|by right].
           exfalso. apply Hskip. split; [|done].
           split; [apply elem_of_app; right; left|done].
Qed.

(** Logging saved entries again, behind what the notebook holds. *)
Lemma relog_fold id savedLogs m nb :
  notebooks m !! id = Some nb →
  foldl (fun acc log => addLogEntry id (rawMarkdown log) acc) m savedLogs =
  set_notebooks
    (<[id := {| logs := logs nb ++
                        imap (fun i log =>
                                {| log_id := id +:+ "-log-" +:+ pretty (logCounter nb + i);
                                   rawMarkdown := rawMarkdown log |}) savedLogs;
                logCounter := logCounter nb + length savedLogs |}]> (notebooks m)) m.
Proof.
  revert m nb. induction savedLogs as [|log rest IH]; intros m nb Hnb.
  - cbn. rewrite app_nil_r, Nat.add_0_r. destruct nb as [ls c]. cbn.
    rewrite insert_id by done. by destruct m.
  - cbn [foldl].
    rewrite (IH _ {| logs := logs nb ++ [{| log_id := id +:+ "-log-" +:+ pretty (logCounter nb);
                                            rawMarkdown := rawMarkdown log |}];
                     logCounter := S (logCounter nb) |}).
    + unfold addLogEntry. rewrite Hnb. cbn. rewrite insert_insert_eq.
      rewrite <- app_assoc. cbn. rewrite Nat.add_0_r.
      unfold set_notebooks. cbn. rewrite Nat.add_succ_r.
      match goal with
      | |- context [imap (?g ∘ S) rest] =>
          rewrite (imap_ext (g ∘ S)
                     (fun i log0 => {| log_id := id +:+ "-log-" +:+ pretty (S (logCounter nb + i));
                                       rawMarkdown := rawMarkdown log0 |}) rest)
      end; [reflexivity|].
      intros i x _. cbn. by rewrite Nat.add_succ_r.
    + unfold addLogEntry. rewrite Hnb. cbn. by rewrite lookup_insert_eq.
Qed.

Lemma restoreLogs_spec id savedLogs m :
  restoreLogs id savedLogs m =
  match notebooks m !! id with
  | Some _ => set_notebooks (<[id := relogged id savedLogs]> (notebooks m)) m
  | None => m
  end.
Proof.
  unfold restoreLogs. destruct (notebooks m !! id) as [nb|] eqn:Hnb; [|done].
  rewrite (relog_fold id savedLogs _ {| logs := []; logCounter := 0 |})
    by (cbn; by rewrite lookup_insert_eq).
  cbn. by rewrite insert_insert_eq.
Qed.

(** All the saved logs: a notebook that exists and has saved logs holds them
    again; every other notebook, and every other variable, is as before. *)
Lemma restoreAllLogs_spec (saved : gmap string (list LogEntry)) m :
  let r := map_fold restoreLogs m saved in
  (∀ k, notebooks r !! k =
        match saved !! k with
        | Some savedLogs => (fun _ => relogged k savedLogs) <$> notebooks m !! k
        | None => notebooks m !! k
        end) ∧
  set_notebooks (notebooks m) r = m.
Proof.
  cbv zeta. apply (map_fold_weak_ind (fun r saved =>
    (∀ k, notebooks r !! k =
          match saved !! k with
          | Some savedLogs => (fun _ => relogged k savedLogs) <$> notebooks m !! k
          | None => notebooks m !! k
          end) ∧
    set_notebooks (notebooks m) r = m)).
  - split; [|by destruct m]. intros k. by rewrite lookup_empty.
  - intros id savedLogs saved' r Hfresh [Hlook Hrest]. rewrite restoreLogs_spec.
    pose proof (Hlook id) as Hid. rewrite Hfresh in Hid.
    destruct (notebooks r !! id) as [nb|] eqn:Hnb.
    + split; [|exact Hrest]. intros k. cbn. destruct (decide (k = id)) as [->|Hne].
      * rewrite !lookup_insert_eq, <- Hid. reflexivity.
      * rewrite !lookup_insert_ne by done. apply Hlook.
    + split; [|exact Hrest]. intros k. destruct (decide (k = id)) as [->|Hne].
      * rewrite lookup_insert_eq, Hnb, <- Hid. reflexivity.
      * rewrite lookup_insert_ne by done. apply Hlook.
Qed.

Lemma relogged_text id savedLogs :
  map rawMarkdown (logs (relogged id savedLogs)) = map rawMarkdown savedLogs.
Proof.
  unfold relogged. cbn.
  assert (H : ∀ (f : nat → string) l,
    map rawMarkdown (imap (fun i log => {| log_id := f i; rawMarkdown := rawMarkdown log |}) l) =
    map rawMarkdown l).
  { intros f l. revert f. induction l as [|x l IH]; intros f; [done|].
    cbn. f_equal. apply (IH (f ∘ S)). }
  apply (H (fun i => id +:+ "-log-" +:+ pretty i)).
Qed.

Lemma relogged_wf id savedLogs : notebookWf id (relogged id savedLogs).
Proof.
  unfold relogged. split; cbn.
  - by rewrite length_imap.
  - intros i entry Hi. rewrite list_lookup_imap in Hi.
    destruct (savedLogs !! i); [|done]. by injection Hi as <-.
Qed.

Lemma relogged_id id nb : notebookWf id nb → relogged id (logs nb) = nb.
Proof.
  intros [Hc Hids]. destruct nb as [ls c]. cbn in *. unfold relogged. f_equal; [|done].
  apply list_eq. intros i. rewrite list_lookup_imap.
  destruct (ls !! i) as [e|] eqn:Hi; [|done]. cbn. f_equal.
  specialize (Hids i e Hi). destruct e as [eid text]. cbn in *. by subst.
Qed.

Lemma same_but_notebooks r m :
  set_notebooks (notebooks m) r = m →
  activeSpecialists r = activeSpecialists m ∧ specialistPrompts r = specialistPrompts m ∧
  specialistMetadata r = specialistMetadata m ∧
  agentPerformanceMetrics r = agentPerformanceMetrics m ∧
  outsideRegistry r = outsideRegistry m.
Proof. intros <-. by destruct r. Qed.

Lemma loadStateFromDB_found env m store missionState :
  db m = Some store → store !! DB_KEY = Some missionState →
  loadStateFromDB env m = (loaded env missionState m, true).
Proof. intros Hdb Hs. unfold loadStateFromDB. by rewrite Hdb, Hs. Qed.

(** The mission before the logs are restored. *)
Lemma load_before_logs env s m :
  let m4 := deployLoadedAgents env
              (restoreVariables s (retireDynamicAgents (stopSearch false m))) in
  (∀ k, is_Some (notebooks m4 !! k) ↔
        (is_Some (notebooks m !! k) ∧ ¬ dynamicAgent m k) ∨ reloads env s m k) ∧
  (∀ k, reloads env s m k → notebooks m4 !! k = Some emptyNotebook) ∧
  (∀ k, (specialistPrompts m4 !! k, specialistMetadata m4 !! k, agentPerformanceMetrics m4 !! k) =
        if decide (reloads env s m k) then reloadedAgent s k
        else (ms_specialistPrompts s !! k, ms_specialistMetadata s !! k,
              ms_agentPerformanceMetrics s !! k)) ∧
  activeSpecialists m4 = ms_activeSpecialists s ∧
  outsideRegistry m4 =
    ((foldl (fun g node => kg_set (kn_id node) node g) [] (ms_knowledgeGraph s),
      ms_knowledgeNodeCounter s, vectorKnowledgeBase m),
     (ms_stagnationCounter s, ms_strategicFocusHistory s, ms_cycleCounter s,
      orElse (ms_currentMissionObjective s) "Awaiting directive from Lead Synthesizer...",
      orElse (ms_activeResearchVector s) "Awaiting strategic plan..."),
     (false, None, finalProofContent m, db m, statusSuccess m)).
Proof.
  intros m4. subst m4.
  set (m1 := stopSearch false m).
  set (m2 := retireDynamicAgents m1).
  set (m3 := restoreVariables s m2).
  set (m4 := deployLoadedAgents env m3).
  assert (Hnb2 : ∀ k, is_Some (notebooks m2 !! k) ↔ is_Some (notebooks m !! k) ∧ ¬ dynamicAgent m k).
  { intros k. subst m2. rewrite retireDynamicAgents_notebooks. reflexivity. }
  assert (Hout2 : outsideRegistry m2 = outsideRegistry m1).
  { subst m2. rewrite retireDynamicAgents_retireEach. apply outsideRegistry_retireEach. }
  assert (Hvec : vectorKnowledgeBase m2 = vectorKnowledgeBase m ∧
                 finalProofContent m2 = finalProofContent m ∧ db m2 = db m ∧
                 statusSuccess m2 = statusSuccess m ∧ isSearching m2 = false ∧
                 searchIntervalId m2 = None).
  { unfold outsideRegistry in Hout2. subst m1. cbn in Hout2. by simplify_eq. }
  destruct Hvec as (Hv & Hf & Hd & Hst & His & Hint).
  destruct (deployLoadedAgents_fold env (activeSpecialists m3) m3) as (Hrec & Hact & Hout).
  { apply Forall_forall. by intros id Hid. }
  fold (deployLoadedAgents env m3) in Hrec, Hact, Hout. fold m4 in Hrec, Hact, Hout.
  clearbody m4.
  assert (Hloads : ∀ k, loadsAgent env (activeSpecialists m3) m3 k ↔ reloads env s m k).
  { intros k. unfold loadsAgent, reloads.
    change (activeSpecialists m3) with (ms_activeSpecialists s).
    change (notebooks m3) with (notebooks m2).
    rewrite eq_None_not_Some, Hnb2, eq_None_not_Some.
    destruct (decide (dynamicAgent m k)); destruct (decide (is_Some (notebooks m !! k))); tauto. }
  split; [|split; [|split; [|split]]].
  - intros k. specialize (Hrec k). unfold agentRecord in Hrec.
    rewrite <- Hloads, <- Hnb2.
    destruct (decide (loadsAgent env (activeSpecialists m3) m3 k)) as [Hl|Hl].
    + assert (E : notebooks m4 !! k = Some emptyNotebook) by (by injection Hrec).
      rewrite E. split; [by right|eauto].
    + assert (E : notebooks m4 !! k = notebooks m3 !! k) by (by injection Hrec).
      rewrite E. change (notebooks m3) with (notebooks m2). tauto.
  - intros k Hk%Hloads. specialize (Hrec k). unfold agentRecord in Hrec.
    rewrite decide_True in Hrec by done. by injection Hrec.
  - intros k. specialize (Hrec k). unfold agentRecord in Hrec.
    rewrite (decide_ext _ _ _ _ (Hloads k)) in Hrec.
    apply (f_equal (fun t => (snd (fst (fst t)), snd (fst t), snd t))) in Hrec.
    cbn [fst snd] in Hrec. rewrite Hrec.
    destruct (decide (reloads env s m k)); reflexivity.
  - exact Hact.
  - assert (Hout3 : outsideRegistry m3 =
      ((foldl (fun g node => kg_set (kn_id node) node g) [] (ms_knowledgeGraph s),
        ms_knowledgeNodeCounter s, vectorKnowledgeBase m2),
       (ms_stagnationCounter s, ms_strategicFocusHistory s, ms_cycleCounter s,
        orElse (ms_currentMissionObjective s) "Awaiting directive from Lead Synthesizer...",
        orElse (ms_activeResearchVector s) "Awaiting strategic plan..."),
       (isSearching m2, searchIntervalId m2, finalProofContent m2, db m2, statusSuccess m2)))
      by reflexivity.
    by rewrite Hout, Hout3, Hv, Hf, Hd, Hst, His, Hint.
Qed.

(** The mission after a load that found a snapshot. *)
Lemma loaded_spec env s m :
  let m' := loaded env s m in
  (∀ k savedLogs,
     ms_notebookLogs s !! k = Some savedLogs →
     (keepsNotebook env s m k → notebooks m' !! k = Some (relogged k savedLogs)) ∧
     (¬ keepsNotebook env s m k → notebooks m' !! k = None)) ∧
  (∀ k, ms_notebookLogs s !! k = None → reloads env s m k →
        notebooks m' !! k = Some emptyNotebook) ∧
  (∀ k, (specialistPrompts m' !! k, specialistMetadata m' !! k, agentPerformanceMetrics m' !! k) =
        if decide (reloads env s m k) then reloadedAgent s k
        else (ms_specialistPrompts s !! k, ms_specialistMetadata s !! k,
              ms_agentPerformanceMetrics s !! k)) ∧
  activeSpecialists m' = ms_activeSpecialists s ∧
  outsideRegistry m' =
    ((knowledgeGraphMap
        (renderKnowledgeGraph
           (set_knowledgeGraphMap
              (foldl (fun g node => kg_set (kn_id node) node g) [] (ms_knowledgeGraph s)) m)),
      ms_knowledgeNodeCounter s, indexOf env (ms_knowledgeGraph s)),
     (ms_stagnationCounter s, ms_strategicFocusHistory s, ms_cycleCounter s,
      orElse (ms_currentMissionObjective s) "Awaiting directive from Lead Synthesizer...",
      orElse (ms_activeResearchVector s) "Awaiting strategic plan..."),
     (false, None, finalProofContent m, db m, statusSuccess m)).
Proof.
  intros m'. subst m'. unfold loaded.
  destruct (load_before_logs env s m) as (Hnb4 & Hnew4 & Hreg4 & Hact4 & Hout4).
  set (m4 := deployLoadedAgents env _) in *. clearbody m4.
  destruct (restoreAllLogs_spec (ms_notebookLogs s) m4) as [Hlogs Hsame].
  cbv zeta in Hlogs, Hsame.
  set (m5 := map_fold restoreLogs m4 (ms_notebookLogs s)) in *. clearbody m5.
  apply same_but_notebooks in Hsame as (Hact5 & Hp5 & Hmd5 & Hmt5 & Hout5).
  rewrite rebuildKnowledgeBaseVectors_spec.
  split; [|split; [|split; [|split]]].
  - intros k savedLogs Hk. cbn [notebooks set_vectorKnowledgeBase renderKnowledgeGraph
                                 set_knowledgeGraphMap].
    rewrite Hlogs, Hk. unfold keepsNotebook. rewrite <- Hnb4. split.
    + intros [nb ->]. reflexivity.
    + intros Hn. apply eq_None_not_Some in Hn. by rewrite Hn.
  - intros k Hk Hre. cbn [notebooks set_vectorKnowledgeBase renderKnowledgeGraph
                           set_knowledgeGraphMap].
    rewrite Hlogs, Hk. by apply Hnew4.
  - intros k. cbn [specialistPrompts specialistMetadata agentPerformanceMetrics
                   set_vectorKnowledgeBase renderKnowledgeGraph set_knowledgeGraphMap].
    rewrite Hp5, Hmd5, Hmt5. apply Hreg4.
  - cbn [activeSpecialists set_vectorKnowledgeBase renderKnowledgeGraph set_knowledgeGraphMap].
    by rewrite Hact5.
  - rewrite Hout4 in Hout5. unfold outsideRegistry in Hout5 |- *.
    injection Hout5 as Hg Hc Hv Hs Hh Hcy Ho Hr Hi Hint Hf Hd Hst.
    cbn [knowledgeNodeCounter vectorKnowledgeBase stagnationCounter strategicFocusHistory
         cycleCounter currentMissionObjective activeResearchVector isSearching
         searchIntervalId finalProofContent db statusSuccess
         set_vectorKnowledgeBase renderKnowledgeGraph set_knowledgeGraphMap].
    rewrite Hc, Hs, Hh, Hcy, Ho, Hr, Hi, Hint, Hf, Hd, Hst.
    assert (Hgraph :
      knowledgeGraphMap (set_vectorKnowledgeBase (indexOf env (ms_knowledgeGraph s))
                           (renderKnowledgeGraph m5)) =
      knowledgeGraphMap (renderKnowledgeGraph (set_knowledgeGraphMap
        (foldl (fun g node => kg_set (kn_id node) node g) [] (ms_knowledgeGraph s)) m))).
    { change (knowledgeGraphMap (renderKnowledgeGraph m5) =
              knowledgeGraphMap (renderKnowledgeGraph (set_knowledgeGraphMap
                (foldl (fun g node => kg_set (kn_id node) node g) [] (ms_knowledgeGraph s)) m))).
      rewrite !renderKnowledgeGraph_entries. cbn [knowledgeGraphMap set_knowledgeGraphMap].
      by rewrite Hg. }
    by rewrite Hgraph.
Qed.

(** *** Saving, then loading *)

Lemma load_after_save env m store :
  db m = Some store →
  loadStateFromDB env (saveStateToDB m) = (loaded env (snapshot m) (saveStateToDB m), true).
Proof.
  intros Hdb. unfold saveStateToDB. rewrite Hdb.
  apply (loadStateFromDB_found env _ (<[DB_KEY := snapshot m]> store)); [done|].
  apply lookup_insert_eq.
Qed.

Lemma persistedSnapshot_saveStateToDB m store :
  db m = Some store → persistedSnapshot (saveStateToDB m) = Some (snapshot m).
Proof.
  intros Hdb. unfold persistedSnapshot, saveStateToDB. rewrite Hdb. cbn [db set_db mbind option_bind].
  apply lookup_insert_eq.
Qed.

Lemma saveStateToDB_frame m :
  notebooks (saveStateToDB m) = notebooks m ∧
  activeSpecialists (saveStateToDB m) = activeSpecialists m ∧
  finalProofContent (saveStateToDB m) = finalProofContent m ∧
  statusSuccess (saveStateToDB m) = statusSuccess m.
Proof. unfold saveStateToDB. by destruct (db m). Qed.

Lemma reloads_after_save env m id :
  reloads env (snapshot m) (saveStateToDB m) id ↔
  id ∈ activeSpecialists m ∧ (notebooks m !! id = None ∨ dynamicAgent m id) ∧
  mountColumn env id = true.
Proof.
  unfold reloads, dynamicAgent.
  destruct (saveStateToDB_frame m) as (-> & -> & _). reflexivity.
Qed.

(** X17.  Saving and loading at once brings the knowledge back.  With a
    store at hand and a graph keyed by node ids, the load reports success
    and leaves the graph as a rendering of the saved one would, the node
    counter, the cycle and stagnation counters, the focus history and the
    active list as they were saved, and the index rebuilt from the saved
    nodes; the search is stopped, and the snapshot is still in the store.
    An empty objective or research vector comes back as the default text of
    the load, which for the objective is not the text of a fresh mission. *)
Theorem save_then_load_restores_knowledge env m store :
  db m = Some store → keyedById (knowledgeGraphMap m) →
  snd (loadStateFromDB env (saveStateToDB m)) = true ∧
  knowledgeGraphMap (resumed env m) = knowledgeGraphMap (renderKnowledgeGraph m) ∧
  knowledgeNodeCounter (resumed env m) = knowledgeNodeCounter m ∧
  vectorKnowledgeBase (resumed env m) = indexOf env (kg_values (knowledgeGraphMap m)) ∧
  cycleCounter (resumed env m) = cycleCounter m ∧
  stagnationCounter (resumed env m) = stagnationCounter m ∧
  strategicFocusHistory (resumed env m) = strategicFocusHistory m ∧
  activeSpecialists (resumed env m) = activeSpecialists m ∧
  currentMissionObjective (resumed env m) =
    orElse (currentMissionObjective m) "Awaiting directive from Lead Synthesizer..." ∧
  activeResearchVector (resumed env m) =
    orElse (activeResearchVector m) "Awaiting strategic plan..." ∧
  isSearching (resumed env m) = false ∧ searchIntervalId (resumed env m) = None ∧
  persistedSnapshot (resumed env m) = Some (snapshot m).
Proof.
  intros Hdb Hkeys. unfold resumed. rewrite (load_after_save env m store Hdb). cbn [fst snd].
  destruct (loaded_spec env (snapshot m) (saveStateToDB m)) as (_ & _ & _ & Hact & Hout).
  cbv zeta in Hact, Hout. unfold outsideRegistry in Hout.
  injection Hout as Hg Hc Hv Hs Hh Hcy Ho Hr Hi Hint Hf Hd Hst.
  split; [done|].
  split.
  { rewrite Hg. cbn [ms_knowledgeGraph snapshot]. rewrite kg_refill by done.
    rewrite !renderKnowledgeGraph_entries. reflexivity. }
  repeat split; try done.
  unfold persistedSnapshot. rewrite Hd. unfold saveStateToDB. rewrite Hdb. cbn.
  apply lookup_insert_eq.
Qed.

Lemma save_then_load_witness :
  db (initialMission (Some ∅)) = Some ∅ ∧ keyedById (knowledgeGraphMap (initialMission (Some ∅))) ∧
  snd (loadStateFromDB silentEnv (saveStateToDB (initialMission (Some ∅)))) = true.
Proof.
  assert (Hk : keyedById (knowledgeGraphMap (initialMission (Some ∅)))).
  { apply graphWf_keyedById, graphWf_initial. }
  split; [reflexivity|]. split; [exact Hk|].
  exact (proj1 (save_then_load_restores_knowledge silentEnv (initialMission (Some ∅)) ∅
                  eq_refl Hk)).
Defined.



Lemma loadStateFromDB_snapshot env m s :
  persistedSnapshot m = Some s → loadStateFromDB env m = (loaded env s m, true).
Proof.
  unfold persistedSnapshot. destruct (db m) as [store|] eqn:Hdb; [|done]. cbn. intros Hs.
  by apply (loadStateFromDB_found env m store).
Qed.

(** X19.  A load gives the agents it deploys a fresh start.  An agent of the
    saved active list is deployed again when it has no notebook in the
    running mission, or is one of its dynamic agents (which the load retires
    first).  Such an agent gets its saved prompt, tools and lifespan back,
    but its creation cycle becomes the cycle of the snapshot and its metrics
    go back to zero, so that with a positive lifespan it is not due for
    retirement after the load, however old it was when the mission was
    saved.  Every other agent has prompt, metadata and metrics as saved. *)
Theorem load_restarts_reloaded_agents env m s id :
  persistedSnapshot m = Some s → reloads env s m id →
  specialistPrompts (fst (loadStateFromDB env m)) !! id =
    Some (default "Loaded Agent" (ms_specialistPrompts s !! id)) ∧
  specialistMetadata (fst (loadStateFromDB env m)) !! id =
    Some {| required_tools := from_option required_tools [] (ms_specialistMetadata s !! id);
            lifespan_cycles := ms_specialistMetadata s !! id ≫= lifespan_cycles;
            creationCycle := ms_cycleCounter s |} ∧
  agentPerformanceMetrics (fst (loadStateFromDB env m)) !! id = Some zeroMetric ∧
  cycleCounter (fst (loadStateFromDB env m)) = ms_cycleCounter s ∧
  (∀ lifespan,
     ms_specialistMetadata s !! id ≫= lifespan_cycles = Some lifespan → (0 < lifespan)%Z →
     expired (fst (loadStateFromDB env m)) id = false) ∧
  (∀ k, ¬ reloads env s m k →
        specialistPrompts (fst (loadStateFromDB env m)) !! k = ms_specialistPrompts s !! k ∧
        specialistMetadata (fst (loadStateFromDB env m)) !! k = ms_specialistMetadata s !! k ∧
        agentPerformanceMetrics (fst (loadStateFromDB env m)) !! k =
          ms_agentPerformanceMetrics s !! k).
Proof.
  intros Hs Hre. rewrite (loadStateFromDB_snapshot env m s Hs). cbn [fst].
  destruct (loaded_spec env s m) as (_ & _ & Hreg & _ & Hout).
  cbv zeta in Hreg, Hout.
  assert (Hcyc : cycleCounter (loaded env s m) = ms_cycleCounter s).
  { unfold outsideRegistry in Hout. by injection Hout. }
  pose proof (Hreg id) as Hid. rewrite decide_True in Hid by done.
  unfold reloadedAgent in Hid. injection Hid as Hp Hmd Hmt.
  split; [exact Hp|]. split; [exact Hmd|]. split; [exact Hmt|]. split; [exact Hcyc|]. split.
  - intros lifespan Hl Hpos. unfold expired. rewrite Hmd. cbn [lifespan_cycles creationCycle].
    rewrite Hl, Hcyc. apply Z.leb_gt. lia.
  - intros k Hk. pose proof (Hreg k) as Hk'. rewrite decide_False in Hk' by done.
    by injection Hk'.
Qed.

Lemma load_restarts_witness :
  persistedSnapshot (saveStateToDB (set_db (Some ∅) missionAtCycle5)) =
    Some (snapshot missionAtCycle5) ∧
  reloads silentEnv (snapshot missionAtCycle5)
    (saveStateToDB (set_db (Some ∅) missionAtCycle5)) "task-force-a" ∧
  expired missionAtCycle5 "task-force-a" = true ∧
  expired (fst (loadStateFromDB silentEnv (saveStateToDB (set_db (Some ∅) missionAtCycle5))))
    "task-force-a" = false.
Proof.
  assert (Hs : persistedSnapshot (saveStateToDB (set_db (Some ∅) missionAtCycle5)) =
               Some (snapshot missionAtCycle5)).
  { exact (persistedSnapshot_saveStateToDB (set_db (Some ∅) missionAtCycle5) ∅ eq_refl). }
  assert (Hre : reloads silentEnv (snapshot missionAtCycle5)
                  (saveStateToDB (set_db (Some ∅) missionAtCycle5)) "task-force-a").
  { split; [apply (bool_decide_unpack _); vm_compute; exact I|]. split; [|reflexivity].
    right. split.
    - apply (bool_decide_unpack _). vm_compute. exact I.
    - intros H. apply (bool_decide_pack _) in H. vm_compute in H. exact H. }
  split; [exact Hs|]. split; [exact Hre|]. split; [vm_compute; reflexivity|].
  refine (proj1 (proj2 (proj2 (proj2 (proj2
    (load_restarts_reloaded_agents silentEnv _ _ "task-force-a" Hs Hre))))) 3%Z _ _);
    [vm_compute; reflexivity|lia].
Defined.

Lemma persistedSnapshot_clearAllNotebooks m :
  persistedSnapshot (clearAllNotebooks true m) = None.
Proof.
  assert (Hdb : db (clearAllNotebooks true m) = (fun _ => ∅) <$> db m).
  { reset_field. unfold afterRetirements.
    pose proof (retireEach_frame (fun id => id) (fun _ => "New mission started.")
      (filter (fun id => id ∉ seedAgents) (activeSpecialists m))
      (set_db ((fun _ => ∅) <$> db m) m)) as (_ & _ & H).
    by simplify_eq. }
  unfold persistedSnapshot. rewrite Hdb. destruct (db m); [apply lookup_empty|done].
Qed.

Lemma loadStateFromDB_nothing env m :
  persistedSnapshot m = None → loadStateFromDB env m = (m, false).
Proof.
  unfold persistedSnapshot, loadStateFromDB. destruct (db m) as [store|]; [|done].
  cbn. by intros ->.
Qed.

(** X20.  A load needs a snapshot under the fixed key: without a store, or
    with a store that holds none, [loadStateFromDB] returns false and leaves
    the mission exactly as it is; with one it returns true.  After a
    breakthrough, and after a reset by the New button, there is nothing to
    load. *)
Theorem load_needs_a_snapshot :
  (∀ env m, persistedSnapshot m = None → loadStateFromDB env m = (m, false))
  ∧ (∀ env m, is_Some (persistedSnapshot m) → snd (loadStateFromDB env m) = true)
  ∧ (∀ env m, loadStateFromDB env (stopSearch true m) = (stopSearch true m, false))
  ∧ (∀ env m, loadStateFromDB env (clearAllNotebooks true m) = (clearAllNotebooks true m, false)).
Proof.
  split; [exact loadStateFromDB_nothing|]. split; [|split].
  - intros env m [s Hs]. unfold persistedSnapshot in Hs. unfold loadStateFromDB.
    destruct (db m) as [store|]; [|done]. cbn in Hs. by rewrite Hs.
  - intros env m. apply loadStateFromDB_nothing.
    unfold persistedSnapshot. cbn. destruct (db m); cbn; [apply lookup_delete_eq|done].
  - intros env m. apply loadStateFromDB_nothing, persistedSnapshot_clearAllNotebooks.
Qed.

Lemma load_needs_a_snapshot_witness :
  persistedSnapshot (initialMission None) = None ∧
  loadStateFromDB silentEnv (initialMission None) = (initialMission None, false).
Proof.
  split; [reflexivity|].
  exact (proj1 load_needs_a_snapshot silentEnv (initialMission None) eq_refl).
Defined.

(** ** The search cycle *)

(** *** The specialists' phase *)

Lemma runSpecialists_spec env specialist l m :
  runSpecialists env specialist l m =
  (foldl (fun acc id => applyEffect id (fst (specialistStep env specialist id m)) acc) m l,
   map (fun id => (id, snd (specialistStep env specialist id m))) l).
Proof.
  unfold runSpecialists.
  assert (H : ∀ acc outputs,
    foldl (fun '(acc, outputs) id =>
             let '(acc', content) := runSpecialistStep env specialist id m acc in
             (acc', outputs ++ [(id, content)])) (acc, outputs) l =
    (foldl (fun acc id => applyEffect id (fst (specialistStep env specialist id m)) acc) acc l,
     outputs ++ map (fun id => (id, snd (specialistStep env specialist id m))) l)).
  { induction l as [|id l IH]; intros acc outputs.
    - cbn. by rewrite app_nil_r.
    - cbn [foldl map]. unfold runSpecialistStep at 2.
      destruct (specialistStep env specialist id m) as [effect content]. cbn [fst snd].
      rewrite IH, <- app_assoc. reflexivity. }
  apply (H m []).
Qed.

Lemma addLogEntry_comm a b x y m :
  a ≠ b → addLogEntry a x (addLogEntry b y m) = addLogEntry b y (addLogEntry a x m).
Proof.
  intros Hne. unfold addLogEntry.
  destruct (notebooks m !! a) as [na|] eqn:Ha, (notebooks m !! b) as [nb|] eqn:Hb; cbn;
    rewrite ?lookup_insert_ne by done; rewrite ?Ha, ?Hb; cbn; try reflexivity.
  unfold set_notebooks. cbn. f_equal. by apply insert_insert_ne.
Qed.

Lemma addLogEntry_stopSearch a x b m :
  addLogEntry a x (stopSearch b m) = stopSearch b (addLogEntry a x m).
Proof.
  unfold addLogEntry. destruct b; cbn; destruct (notebooks m !! a); reflexivity.
Qed.

Lemma stopSearch_twice m : stopSearch false (stopSearch false m) = stopSearch false m.
Proof. reflexivity. Qed.

(** The writes of two different specialists can come in either order. *)
Lemma applyEffect_comm a b e1 e2 m :
  a ≠ b →
  applyEffect a e1 (applyEffect b e2 m) = applyEffect b e2 (applyEffect a e1 m).
Proof.
  intros Hne. destruct e1, e2; cbn [applyEffect]; try reflexivity.
  - by apply addLogEntry_comm.
  - apply addLogEntry_stopSearch.
  - symmetry. apply addLogEntry_stopSearch.
Qed.

Lemma applyEffects_perm (effectOf : string → SpecialistEffect) l1 l2 :
  l1 ≡ₚ l2 → NoDup l1 →
  ∀ m, foldl (fun acc id => applyEffect id (effectOf id) acc) m l1 =
       foldl (fun acc id => applyEffect id (effectOf id) acc) m l2.
Proof.
  induction 1 as [|x l1 l2 Hp IH|x y l|l1 l2 l3 Hp1 IH1 Hp2 IH2]; intros Hnd m.
  - reflexivity.
  - cbn. apply IH. by apply NoDup_cons in Hnd as [_ ?].
  - cbn. f_equal. apply applyEffect_comm.
    apply NoDup_cons in Hnd as [Hy _]. intros ->. apply Hy. left.
  - rewrite IH1 by done. apply IH2. by rewrite <- Hp1.
Qed.

(** What one step may write. *)
Lemma applyEffect_frame id effect m :
  (∀ k, k ≠ id → notebooks (applyEffect id effect m) !! k = notebooks m !! k) ∧
  dom (notebooks (applyEffect id effect m)) = dom (notebooks m) ∧
  (activeSpecialists (applyEffect id effect m), specialistPrompts (applyEffect id effect m),
   specialistMetadata (applyEffect id effect m), agentPerformanceMetrics (applyEffect id effect m)) =
    (activeSpecialists m, specialistPrompts m, specialistMetadata m, agentPerformanceMetrics m) ∧
  knowledge (applyEffect id effect m) = knowledge m ∧
  (finalProofContent (applyEffect id effect m), db (applyEffect id effect m),
   statusSuccess (applyEffect id effect m)) = (finalProofContent m, db m, statusSuccess m) ∧
  isSearching (applyEffect id effect m) =
    (if effect is Halts then false else isSearching m) ∧
  (isSearching (applyEffect id effect m) = isSearching m →
   searchIntervalId (applyEffect id effect m) = searchIntervalId m ∨
   searchIntervalId (applyEffect id effect m) = None).
Proof.
  destruct effect; cbn [applyEffect].
  - repeat split; try done. by left.
  - rewrite addLogEntry_dom, knowledge_addLogEntry. autorewrite with mission.
    repeat split; try done.
    + intros k Hk. by apply addLogEntry_lookup_ne.
    + by left.
  - repeat split; try done. by right.
Qed.

(** The phase as a whole. *)
Lemma applyEffects_frame (effectOf : string → SpecialistEffect) l m :
  let after := foldl (fun acc id => applyEffect id (effectOf id) acc) m l in
  (∀ k, k ∉ l → notebooks after !! k = notebooks m !! k) ∧
  dom (notebooks after) = dom (notebooks m) ∧
  (activeSpecialists after, specialistPrompts after, specialistMetadata after,
   agentPerformanceMetrics after) =
    (activeSpecialists m, specialistPrompts m, specialistMetadata m, agentPerformanceMetrics m) ∧
  knowledge after = knowledge m ∧
  (finalProofContent after, db after, statusSuccess after) =
    (finalProofContent m, db m, statusSuccess m) ∧
  (isSearching after = true ↔ isSearching m = true ∧ ∀ id, id ∈ l → effectOf id ≠ Halts) ∧
  (isSearching after = false → isSearching m = true → searchIntervalId after = None).
Proof.
  induction l as [|x l IH] using rev_ind; cbv zeta.
  - cbn [foldl]. split; [done|]. split; [done|]. split; [done|]. split; [done|].
    split; [done|]. split.
    + split; [|by intros [H _]]. intros H. split; [done|].
      intros id Hid. by apply elem_of_nil in Hid.
    + congruence.
  - rewrite foldl_app. cbn [foldl].
    cbv zeta in IH. destruct IH as (Hnb & Hdom & Hreg & Hk & Hs & Hsearch & Hint).
    set (after := foldl _ m l) in *. clearbody after.
    destruct (applyEffect_frame x (effectOf x) after) as (Hnb1 & Hdom1 & Hreg1 & Hk1 & Hs1 & Hs2 & Hint1).
    split; [|split; [|split; [|split; [|split; [|split]]]]].
    + intros k Hk'. rewrite not_elem_of_app, not_elem_of_cons in Hk'.
      rewrite Hnb1 by tauto. apply Hnb. tauto.
    + by rewrite Hdom1.
    + by rewrite Hreg1.
    + by rewrite Hk1.
    + by rewrite Hs1.
    + rewrite Hs2. split.
      * intros H. destruct (effectOf x) eqn:Hx; try done.
        -- apply Hsearch in H as [H1 H2]. split; [done|].
           intros id [Hid|Hid%list_elem_of_singleton]%elem_of_app; [by apply H2|congruence].
        -- apply Hsearch in H as [H1 H2]. split; [done|].
           intros id [Hid|Hid%list_elem_of_singleton]%elem_of_app; [by apply H2|congruence].
      * intros [H1 H2].
        assert (Hx : effectOf x ≠ Halts) by (apply H2, elem_of_app; right; left).
        assert (Hl : isSearching after = true).
        { apply Hsearch. split; [done|]. intros id Hid. apply H2, elem_of_app. by left. }
        by destruct (effectOf x).
    + intros Hfalse Htrue. rewrite Hs2 in Hfalse.
      destruct (effectOf x) eqn:Hx; cbn [applyEffect].
      * by apply Hint.
      * rewrite addLogEntry_searchIntervalId. by apply Hint.
      * reflexivity.
Qed.

(** *** The architect's step, as the cycle sees it *)

Lemma parseAndApply_cycleCounter env p m :
  cycleCounter (fst (parseAndApplyArchitectResponse env p m)) = cycleCounter m.
Proof.
  unfold parseAndApplyArchitectResponse. fold (recordFocus p m).
  assert (H0 : cycleCounter (recordFocus p m) = cycleCounter m).
  { unfold recordFocus. repeat case_match; reflexivity. }
  destruct (knowledge_update p) as [nodes|].
  - pose proof (applyKnowledgeUpdate_untouched env
      (strategic_planning p ≫= research_vectors) nodes (recordFocus p m))
      as (_ & _ & _ & _ & _ & H1 & _).
    destruct (applyKnowledgeUpdate env _ nodes (recordFocus p m)) as [m1 [[]|msg]];
      cbn [fst] in H1 |- *; [|congruence].
    rewrite <- H0, <- H1. unfold updateStagnation. repeat case_match; reflexivity.
  - rewrite <- H0. unfold updateStagnation. repeat case_match; reflexivity.
Qed.

Lemma fatalSynthesisError_cycleCounter msg m :
  cycleCounter (fatalSynthesisError msg m) = cycleCounter m.
Proof. unfold fatalSynthesisError. cbn. by autorewrite with mission. Qed.

Lemma concludeArchitectStep_cycleCounter env p m :
  cycleCounter (concludeArchitectStep env p m) = cycleCounter m.
Proof.
  unfold concludeArchitectStep. destruct (isTerminal (summaryOf p)); [reflexivity|].
  pose proof (parseAndApply_cycleCounter env p (addLogEntry "synthesizer" (summaryOf p) m)) as H.
  rewrite addLogEntry_cycleCounter in H.
  destruct (parseAndApplyArchitectResponse env p _) as [m1 [[]|msg]]; cbn [fst] in H.
  - exact H.
  - by rewrite fatalSynthesisError_cycleCounter.
Qed.

(** The step either leaves store and status alone, or ends the search with
    a breakthrough and deletes the snapshot. *)
Lemma runArchitectStep_store fuel envs architect specialistOutputs m m1 :
  runArchitectStep fuel envs architect specialistOutputs m = Some m1 →
  cycleCounter m1 = cycleCounter m ∧
  ((statusSuccess m1 = statusSuccess m ∧ db m1 = db m) ∨
   (isSearching m1 = false ∧ statusSuccess m1 = true ∧ db m1 = delete DB_KEY <$> db m)).
Proof.
  unfold runArchitectStep. intros Hrun.
  destruct (isSearching m); cbn [negb] in Hrun.
  2:{ injection Hrun as <-. split; [done|by left]. }
  assert (Hchaos : cycleCounter (snd (chaosIntervention m)) = cycleCounter m ∧
                   statusSuccess (snd (chaosIntervention m)) = statusSuccess m ∧
                   db (snd (chaosIntervention m)) = db m).
  { unfold chaosIntervention. destruct (chaosActive m); cbn [snd];
      autorewrite with mission; done. }
  destruct (chaosIntervention m) as [chaos m0]. cbn [snd] in Hchaos.
  destruct Hchaos as (Hc0 & Hs0 & Hd0).
  assert (Hfatal : ∀ msg mx, cycleCounter mx = cycleCounter m → statusSuccess mx = statusSuccess m →
                     db mx = db m → Some (fatalSynthesisError msg mx) = Some m1 →
                     cycleCounter m1 = cycleCounter m ∧
                     ((statusSuccess m1 = statusSuccess m ∧ db m1 = db m) ∨
                      (isSearching m1 = false ∧ statusSuccess m1 = true ∧
                       db m1 = delete DB_KEY <$> db m))).
  { intros msg mx Hc Hs Hd [= <-]. rewrite fatalSynthesisError_cycleCounter.
    destruct (fatalSynthesisError_frame msg mx) as (-> & -> & _). split; [done|by left]. }
  destruct (architect _) as [result|]; [|by eapply Hfatal].
  pose proof (schedulerState_toolLoop fuel envs architect 0
    [{| role := "user"; parts := [PromptPart (architectPrompt chaos specialistOutputs m0)] |}]
    result m0) as Hloop.
  pose proof (knowledge_toolLoop fuel envs architect 0
    [{| role := "user"; parts := [PromptPart (architectPrompt chaos specialistOutputs m0)] |}]
    result m0) as Hknow.
  destruct (toolLoop fuel envs architect 0 _ result m0) as [mx [conv round [text|]|msg|]];
    cbn [fst] in Hloop, Hknow; unfold schedulerState in Hloop; unfold knowledge in Hknow;
    try discriminate Hrun.
  - assert (Hx : cycleCounter mx = cycleCounter m ∧ statusSuccess mx = statusSuccess m ∧
                 db mx = db m) by (simplify_eq; repeat split; congruence).
    destruct Hx as (Hcx & Hsx & Hdx).
    destruct (parseFinal (envs round) text) as [parsedResponse|]; [|by eapply Hfatal].
    injection Hrun as <-. rewrite concludeArchitectStep_cycleCounter. split; [done|].
    destruct (isTerminal (summaryOf parsedResponse)) eqn:Hterm.
    + right. unfold concludeArchitectStep. rewrite Hterm. cbn. by rewrite Hdx.
    + left. destruct (concludeArchitectStep_not_terminal (envs round) parsedResponse mx Hterm)
        as (-> & -> & _). done.
  - eapply Hfatal; [..|exact Hrun]; simplify_eq; congruence.
  - eapply Hfatal; [..|exact Hrun]; simplify_eq; congruence.
Qed.

Lemma checkAgentLifecycles_outside m :
  outsideRegistry (checkAgentLifecycles m) = outsideRegistry m.
Proof. rewrite checkAgentLifecycles_retireEach. apply outsideRegistry_retireEach. Qed.

(** The mission after the specialists' phase of the cycle begun on [m]. *)
Lemma cycle_phase env specialist m :
  let start := cycleStart m in
  let after := fst (runSpecialists env specialist (specialistsToRun start) start) in
  cycleCounter after = (cycleCounter m + 1)%Z ∧
  db after = db m ∧ statusSuccess after = statusSuccess m ∧
  (isSearching after = true ↔
   isSearching m = true ∧
   ∀ id, id ∈ specialistsToRun start → fst (specialistStep env specialist id start) ≠ Halts) ∧
  (isSearching after = false → isSearching m = true → searchIntervalId after = None).
Proof.
  intros start after. subst after. rewrite runSpecialists_spec. cbn [fst].
  destruct (applyEffects_frame (fun id => fst (specialistStep env specialist id start))
              (specialistsToRun start) start) as (_ & _ & _ & Hk & Hs & Hsearch & Hint).
  cbv zeta in Hk, Hs, Hsearch, Hint.
  pose proof (checkAgentLifecycles_outside (set_cycleCounter (cycleCounter m + 1) m)) as Hout.
  fold (cycleStart m) in Hout. fold start in Hout. unfold outsideRegistry in Hout. cbn in Hout.
  unfold knowledge in Hk.
  assert (Hstart : cycleCounter start = (cycleCounter m + 1)%Z ∧ db start = db m ∧
                   statusSuccess start = statusSuccess m ∧ isSearching start = isSearching m).
  { by simplify_eq. }
  destruct Hstart as (Hc & Hd & Hst & His).
  rewrite His in Hsearch, Hint.
  split; [simplify_eq; congruence|]. split; [simplify_eq; congruence|].
  split; [simplify_eq; congruence|]. split; [exact Hsearch|exact Hint].
Qed.

Lemma runSearchCycle_unfold env specialist fuel envs architect m :
  runSearchCycle env specialist fuel envs architect m =
  if negb (isSearching m) then Some m
  else
    let start := cycleStart m in
    let phase := runSpecialists env specialist (specialistsToRun start) start in
    if negb (isSearching (fst phase)) then Some (fst phase)
    else
      match runArchitectStep fuel envs architect
              (filter (fun o => snd o ≠ EmptyString) (snd phase)) (fst phase) with
      | None => None
      | Some m => if negb (isSearching m) then Some m else Some (saveStateToDB m)
      end.
Proof.
  unfold runSearchCycle. destruct (isSearching m); cbn [negb]; [|done].
  cbv zeta. fold (cycleStart m). fold (specialistsToRun (cycleStart m)).
  by destruct (runSpecialists env specialist _ _) as [m2 outputs].
Qed.

Lemma runSearchCycle_returns env specialist fuel envs architect m :
  (∀ conversation call others, architect conversation ≠ Some (FunctionCalls call others)) →
  is_Some (runSearchCycle env specialist fuel envs architect m).
Proof.
  intros Hfinal. rewrite runSearchCycle_unfold.
  destruct (isSearching m); cbn [negb]; [|done]. cbv zeta.
  set (after := fst (runSpecialists env specialist _ _)).
  set (outputs := filter _ _).
  destruct (isSearching after) eqn:Hafter; cbn [negb]; [|done].
  assert (Harch : is_Some (runArchitectStep fuel envs architect outputs after)).
  { unfold runArchitectStep. rewrite Hafter. cbn [negb].
    destruct (chaosIntervention after) as [chaos m0].
    destruct (architect _) as [[call others|text]|] eqn:Hanswer;
      [by destruct (Hfinal _ _ _ Hanswer)| |done].
    destruct fuel; cbn [toolLoop]; destruct text; try done;
      by destruct (parseFinal _ _). }
  destruct Harch as [m3 ->]. by destruct (isSearching m3).
Qed.

(** X21.  A cycle saves the mission if and only if the search is still on
    when it ends.  A cycle in which the architect asks for no tool always
    comes to an end.  A cycle begun while nothing is searched does nothing
    at all.  Otherwise the cycle counter goes up by exactly one; when the
    search is still on at the end, the snapshot in the store is the mission
    as the cycle leaves it; when the cycle has ended the search without a
    breakthrough (a specialist or the architect failed), the store is as it
    was before the cycle, so the last good snapshot survives; and when it
    ended with a breakthrough, no snapshot is left. *)
Theorem cycle_saves_only_while_searching :
  (∀ env specialist fuel envs architect m,
     (∀ conversation call others, architect conversation ≠ Some (FunctionCalls call others)) →
     is_Some (runSearchCycle env specialist fuel envs architect m))
  ∧ (∀ env specialist fuel envs architect m m',
       runSearchCycle env specialist fuel envs architect m = Some m' →
       (isSearching m = false → m' = m) ∧
       (isSearching m = true →
          cycleCounter m' = (cycleCounter m + 1)%Z ∧
          (isSearching m' = true → is_Some (db m) →
             statusSuccess m' = statusSuccess m ∧ persistedSnapshot m' = Some (snapshot m')) ∧
          (isSearching m' = false → statusSuccess m' = statusSuccess m →
             statusSuccess m = false → db m' = db m) ∧
          (statusSuccess m = false → statusSuccess m' = true →
             isSearching m' = false ∧ persistedSnapshot m' = None))).
Proof.
  split; [exact runSearchCycle_returns|].
  intros env specialist fuel envs architect m m'.
  rewrite runSearchCycle_unfold. intros Hrun. split.
  { intros H. rewrite H in Hrun. by injection Hrun. }
  intros Hs. rewrite Hs in Hrun. cbn [negb] in Hrun. cbv zeta in Hrun.
  destruct (cycle_phase env specialist m) as (Hc & Hd & Hst & _ & _). cbv zeta in Hc, Hd, Hst.
  set (after := fst (runSpecialists env specialist _ _)) in *.
  destruct (isSearching after) eqn:Hafter; cbn [negb] in Hrun.
  2:{ injection Hrun as <-. split; [done|]. split; [congruence|]. split; [done|]. congruence. }
  destruct (runArchitectStep fuel envs architect _ after) as [m3|] eqn:Harch; [|done].
  destruct (runArchitectStep_store _ _ _ _ _ _ Harch) as (Hc3 & Hstore).
  destruct (isSearching m3) eqn:H3; cbn [negb] in Hrun; injection Hrun as <-.
  - (* still searching: saved *)
    assert (Hleft : statusSuccess m3 = statusSuccess m ∧ db m3 = db m).
    { destruct Hstore as [[? ?]|(? & _)]; [split; congruence|congruence]. }
    destruct Hleft as [Hs3 Hd3].
    destruct (saveStateToDB_frame m3) as (_ & _ & _ & Hss).
    split; [unfold saveStateToDB; destruct (db m3); cbn; congruence|].
    split; [|split].
    + intros _ [store Hstore']. split; [congruence|].
      unfold persistedSnapshot, saveStateToDB. rewrite Hd3, Hstore'. cbn.
      rewrite lookup_insert_eq. reflexivity.
    + unfold saveStateToDB. destruct (db m3); cbn; congruence.
    + intros H0 H1. rewrite Hss in H1. congruence.
  - split; [congruence|]. split; [congruence|]. split.
    + intros _ Hsame H0. destruct Hstore as [[_ ?]|(_ & ? & _)]; congruence.
    + intros H0 H1. split; [done|].
      destruct Hstore as [[? _]|(_ & _ & Hdel)]; [congruence|].
      unfold persistedSnapshot. rewrite Hdel, Hd.
      destruct (db m); cbn; [apply lookup_delete_eq|done].
Qed.

Lemma cycle_saves_witness :
  ∃ m', runSearchCycle silentEnv (fun _ _ => None) 0 (fun _ => silentEnv) (fun _ => None)
          runningMission = Some m' ∧
        cycleCounter m' = 1%Z.
Proof.
  destruct (runSearchCycle silentEnv (fun _ _ => None) 0 (fun _ => silentEnv) (fun _ => None)
              runningMission) as [m'|] eqn:H.
  2:{ vm_compute in H. discriminate H. }
  exists m'. split; [reflexivity|].
  exact (proj1 (proj2 (proj2 cycle_saves_only_while_searching _ _ _ _ _ _ _ H) eq_refl)).
Defined.

Lemma checkAgentLifecycles_active m id :
  id ∈ activeSpecialists (checkAgentLifecycles m) ↔
  id ∈ activeSpecialists m ∧ expired m id = false.
Proof.
  rewrite checkAgentLifecycles_retireEach, retireEach_active, list_elem_of_filter.
  rewrite agentsToRetire_ids, list_elem_of_filter.
  destruct (expired m id); split; intros H.
  - exfalso. apply (proj1 H). split; [done|apply H].
  - by destruct H.
  - split; [apply H|done].
  - split; [|apply H]. by intros [? _].
Qed.

Lemma specialistsToRun_spec m id :
  id ∈ specialistsToRun m ↔
  id ∈ activeSpecialists m ∧ id ≠ "specialist-5" ∧ id ≠ "specialist-6".
Proof.
  unfold specialistsToRun. rewrite list_elem_of_filter, !not_elem_of_cons. split.
  - intros [(? & ? & _) ?]. done.
  - intros (? & ? & ?). repeat split; try done. apply not_elem_of_nil.
Qed.

Lemma handed_ids (content : string → string) (l : list string) :
  map fst (filter (fun o : string * string => snd o ≠ EmptyString)
             (map (fun id => (id, content id)) l)) =
  filter (fun id => content id ≠ EmptyString) l.
Proof.
  induction l as [|id l IH]; [done|]. cbn [map].
  rewrite (filter_cons (fun o : string * string => snd o ≠ EmptyString)).
  rewrite (filter_cons (fun id => content id ≠ EmptyString)). cbn [snd].
  destruct (decide (content id ≠ EmptyString)); cbn [map fst]; by rewrite IH.
Qed.

(** X22.  A cycle hands to the architect the outputs of the active agents
    that are not due for retirement, the Skeptic and the Intuitionist apart,
    as far as they have answered.  The outputs the architect step of the
    cycle is called with are exactly the pairs of an id and a text such
    that the id is in the active list, its lifespan is not reached at the
    new cycle number, it is neither [specialist-5] nor [specialist-6], and
    the text is what its step returns and is not empty; they come in the
    order of the active list.  An agent whose lifespan is reached at this
    cycle is retired before it could run, and an agent whose step returns
    the empty text (no prompt, a failed request) hands over nothing.  The
    notebook of an agent that does not run is not written by the
    specialists' phase, and with an active list free of repeats each agent
    that runs has its notebook written by its own step alone. *)
Theorem cycle_runs_the_agents_not_due env specialist m :
  let start := cycleStart m in
  let phase := runSpecialists env specialist (specialistsToRun start) start in
  let handed := filter (fun o => snd o ≠ EmptyString) (snd phase) in
  (∀ fuel envs architect,
     isSearching m = true → isSearching (fst phase) = true →
     runSearchCycle env specialist fuel envs architect m =
     (fun m' => if isSearching m' then saveStateToDB m' else m') <$>
       runArchitectStep fuel envs architect handed (fst phase)) ∧
  (∀ id content,
     (id, content) ∈ handed ↔
     id ∈ activeSpecialists m ∧
     expired (set_cycleCounter (cycleCounter m + 1) m) id = false ∧
     id ≠ "specialist-5" ∧ id ≠ "specialist-6" ∧
     content = snd (specialistStep env specialist id start) ∧ content ≠ EmptyString) ∧
  map fst handed `sublist_of` activeSpecialists m ∧
  (∀ k, k ∉ specialistsToRun start → notebooks (fst phase) !! k = notebooks start !! k) ∧
  (NoDup (activeSpecialists m) →
   ∀ k, k ∈ specialistsToRun start →
        notebooks (fst phase) !! k =
        notebooks (applyEffect k (fst (specialistStep env specialist k start)) start) !! k).
Proof.
  intros start phase handed.
  assert (Hcycle : ∀ fuel envs architect,
    isSearching m = true → isSearching (fst phase) = true →
    runSearchCycle env specialist fuel envs architect m =
    (fun m' => if isSearching m' then saveStateToDB m' else m') <$>
      runArchitectStep fuel envs architect handed (fst phase)).
  { intros fuel envs architect Hs Hafter. unfold runSearchCycle. rewrite Hs. cbn [negb].
    cbv zeta. fold (cycleStart m). fold start. fold (specialistsToRun start).
    subst handed. fold phase. destruct phase as [after outputs]. cbn [fst snd] in *.
    rewrite Hafter. cbn [negb].
    destruct (runArchitectStep fuel envs architect _ after) as [m3|]; [|done].
    cbn. by destruct (isSearching m3). }
  split; [exact Hcycle|]. clear Hcycle.
  subst handed phase. rewrite runSpecialists_spec. cbn [fst snd].
  split; [|split; [|split]].
  - intros id content. rewrite list_elem_of_filter, list_elem_of_fmap. cbn [snd]. split.
    + intros (Hne & id' & [= -> ->] & Hin).
      apply specialistsToRun_spec in Hin as (Hact & H5 & H6).
      unfold start, cycleStart in Hact. apply checkAgentLifecycles_active in Hact as [Hact Hexp].
      cbn [activeSpecialists set_cycleCounter] in Hact. done.
    + intros (Hact & Hexp & H5 & H6 & -> & Hne). split; [done|]. exists id. split; [done|].
      apply specialistsToRun_spec. split; [|done].
      unfold start, cycleStart. apply checkAgentLifecycles_active. done.
  - rewrite (handed_ids (fun id => snd (specialistStep env specialist id start))).
    etrans; [apply sublist_filter|]. unfold specialistsToRun.
    etrans; [apply sublist_filter|]. unfold start, cycleStart.
    rewrite checkAgentLifecycles_retireEach, retireEach_active.
    cbn [activeSpecialists set_cycleCounter]. apply sublist_filter.
  - intros k Hk.
    destruct (applyEffects_frame (fun id => fst (specialistStep env specialist id start))
                (specialistsToRun start) start) as (Hnb & _).
    cbv zeta in Hnb. by apply Hnb.
  - intros Hnd k Hk.
    assert (Hnd' : NoDup (specialistsToRun start)).
    { unfold specialistsToRun. apply NoDup_filter.
      unfold start, cycleStart. rewrite checkAgentLifecycles_retireEach, retireEach_active.
      by apply NoDup_filter. }
    apply list_elem_of_split in Hk as (l1 & l2 & Hsplit).
    assert (Hperm : specialistsToRun start ≡ₚ l1 ++ l2 ++ [k]).
    { rewrite Hsplit. rewrite (Permutation_app_comm l2 [k]). reflexivity. }
    rewrite (applyEffects_perm _ _ _ Hperm Hnd').
    rewrite !app_assoc, foldl_app. cbn [foldl].
    destruct (applyEffects_frame (fun id => fst (specialistStep env specialist id start))
                (l1 ++ l2) start) as (Hnb & _).
    cbv zeta in Hnb.
    assert (Hk : k ∉ l1 ++ l2).
    { rewrite Hsplit in Hnd'. apply NoDup_app in Hnd' as (_ & Hdis & Hnd2).
      apply NoDup_cons in Hnd2 as [Hk2 _]. rewrite not_elem_of_app. split; [|done].
      intros Hin. apply (Hdis k Hin). left. }
    set (mid := foldl _ start (l1 ++ l2)) in *.
    specialize (Hnb k Hk).
    destruct (fst (specialistStep env specialist k start)) as [|markdown|]; cbn [applyEffect].
    + exact Hnb.
    + unfold addLogEntry. rewrite Hnb. destruct (notebooks start !! k) eqn:Hs; [|congruence].
      cbn [notebooks set_notebooks]. by rewrite !lookup_insert_eq.
    + exact Hnb.
Qed.

(** X23.  An agent that has reached its lifespan when the next cycle begins
    never runs in it.  When the metadata of an active agent hold a lifespan
    that the cycle number about to begin reaches, the cycle retires the
    agent before the specialists run: it is not among those run and its
    notebook is gone.  So an agent deployed with a lifespan of one cycle or
    less, whose creation cycle is that of its deployment, is retired at the
    start of the very next cycle and takes part in none; deployed with
    lifespan 0, its deployment note even calls the lifespan indefinite. *)
Theorem agent_at_its_lifespan_never_runs :
  (∀ m id meta lifespan,
     specialistMetadata m !! id = Some meta → lifespan_cycles meta = Some lifespan →
     (creationCycle meta + lifespan ≤ cycleCounter m + 1)%Z →
     (id ∉ specialistsToRun (cycleStart m)) ∧
     (id ∈ activeSpecialists m → notebooks (cycleStart m) !! id = None))
  ∧ (∀ env id missionPrompt tools lifespan m,
       notebooks m !! id = None → mountColumn env id = true → (lifespan ≤ 1)%Z →
       let m' := deployNewAgent env id missionPrompt tools (Some lifespan) false m in
       id ∈ activeSpecialists m' ∧
       (id ∉ specialistsToRun (cycleStart m')) ∧
       notebooks (cycleStart m') !! id = None)
  ∧ lifespanText (Some 0%Z) = "Indefinite".
Proof.
  assert (Hgen : ∀ m id meta lifespan,
     specialistMetadata m !! id = Some meta → lifespan_cycles meta = Some lifespan →
     (creationCycle meta + lifespan ≤ cycleCounter m + 1)%Z →
     (id ∉ specialistsToRun (cycleStart m)) ∧
     (id ∈ activeSpecialists m → notebooks (cycleStart m) !! id = None)).
  { intros m id meta lifespan Hmeta Hl Hage.
    assert (Hexp : expired (set_cycleCounter (cycleCounter m + 1) m) id = true).
    { unfold expired. cbn [specialistMetadata cycleCounter set_cycleCounter].
      rewrite Hmeta, Hl. apply Z.leb_le. lia. }
    split.
    - rewrite specialistsToRun_spec. unfold cycleStart. rewrite checkAgentLifecycles_active.
      intros [[_ H] _]. congruence.
    - intros Hin. unfold cycleStart. apply not_elem_of_dom.
      rewrite checkAgentLifecycles_retireEach, retireEach_notebooks_dom.
      rewrite agentsToRetire_ids, elem_of_difference, elem_of_list_to_set, list_elem_of_filter.
      intros [_ Hn]. apply Hn. done. }
  split; [exact Hgen|]. split; [|reflexivity].
  intros env id missionPrompt tools lifespan m Hnb Hmount Hl m'.
  destruct (deployNewAgent_registers env id missionPrompt tools (Some lifespan) m Hnb Hmount)
    as (Hrec & Hact & _ & Hout).
  fold m' in Hrec, Hact, Hout.
  unfold agentRecord in Hrec.
  assert (Hmeta : specialistMetadata m' !! id =
                  Some {| required_tools := tools; lifespan_cycles := Some lifespan;
                          creationCycle := cycleCounter m |}) by (by injection Hrec).
  assert (Hcyc : cycleCounter m' = cycleCounter m).
  { unfold outsideRegistry in Hout. by injection Hout. }
  assert (Hin : id ∈ activeSpecialists m').
  { rewrite Hact. case_decide; [done|]. apply elem_of_app. right. left. }
  destruct (Hgen m' id _ lifespan Hmeta eq_refl) as [Hrun Hgone].
  { cbn [creationCycle]. lia. }
  split; [exact Hin|]. split; [exact Hrun|]. by apply Hgone.
Qed.

Lemma agent_at_its_lifespan_witness :
  notebooks (initialMission None) !! "task-force-a" = None ∧
  "task-force-a" ∉
    specialistsToRun
      (cycleStart (deployNewAgent silentEnv "task-force-a" "Prove lemma L5." [] (Some 1%Z) false
                     (initialMission None))).
Proof.
  assert (H : notebooks (initialMission None) !! "task-force-a" = None) by (vm_compute; reflexivity).
  split; [exact H|].
  refine (proj1 (proj2 (proj1 (proj2 agent_at_its_lifespan_never_runs) silentEnv "task-force-a"
                          "Prove lemma L5." [] 1%Z (initialMission None) H eq_refl _))).
  lia.
Defined.

Lemma specialistStep_throws env specialist id m prompt :
  (∀ p tools, specialist p tools = None) →
  isSearching m = true → specialistPrompts m !! id = Some prompt → prompt ≠ EmptyString →
  specialistStep env specialist id m = (Halts, EmptyString).
Proof.
  intros Hthrow Hs Hp Hne. unfold specialistStep. rewrite Hp, Hs. cbn [negb orb].
  destruct (String.eqb_spec prompt EmptyString) as [|_]; [done|].
  cbv zeta. by rewrite Hthrow.
Qed.

(** X24.  One failing specialist ends the cycle.  When the step of one of
    the agents run ends in its [catch] block (its request to the model
    throws), the cycle ends after the specialists' phase with the search
    stopped and the interval cleared: the architect is not asked, whatever
    it would have answered, and nothing is saved.  The cycle counter has
    gone up all the same, and the store, the status and the knowledge are
    as the phase found them.  A model that throws on every request has this
    effect on every agent that has a prompt. *)
Theorem failing_specialist_halts_the_cycle :
  (∀ env specialist m id,
     isSearching m = true →
     id ∈ specialistsToRun (cycleStart m) →
     fst (specialistStep env specialist id (cycleStart m)) = Halts →
     let after :=
       fst (runSpecialists env specialist (specialistsToRun (cycleStart m)) (cycleStart m)) in
     (∀ fuel envs architect, runSearchCycle env specialist fuel envs architect m = Some after) ∧
     isSearching after = false ∧ searchIntervalId after = None ∧
     cycleCounter after = (cycleCounter m + 1)%Z ∧
     db after = db m ∧ statusSuccess after = statusSuccess m ∧
     knowledge after = knowledge (cycleStart m))
  ∧ (∀ env specialist id m prompt,
       (∀ p tools, specialist p tools = None) →
       isSearching m = true → specialistPrompts m !! id = Some prompt → prompt ≠ EmptyString →
       specialistStep env specialist id m = (Halts, EmptyString)).
Proof.
  split; [|exact specialistStep_throws].
  intros env specialist m id Hs Hin Hhalt after.
  destruct (cycle_phase env specialist m) as (Hc & Hd & Hst & Hsearch & Hint).
  cbv zeta in Hc, Hd, Hst, Hsearch, Hint. fold after in Hc, Hd, Hst, Hsearch, Hint.
  assert (Hoff : isSearching after = false).
  { destruct (isSearching after) eqn:E; [|done].
    destruct (proj1 Hsearch eq_refl) as [_ Hall]. by destruct (Hall id Hin). }
  split; [|repeat split; try done].
  - intros fuel envs architect. rewrite runSearchCycle_unfold, Hs. cbn [negb]. cbv zeta.
    fold after. by rewrite Hoff.
  - by apply Hint.
  - subst after. rewrite runSpecialists_spec. cbn [fst].
    by destruct (applyEffects_frame
                   (fun id => fst (specialistStep env specialist id (cycleStart m)))
                   (specialistsToRun (cycleStart m)) (cycleStart m)) as (_ & _ & _ & ? & _).
Qed.

Lemma failing_specialist_witness :
  isSearching runningMission = true ∧
  "specialist-1" ∈ specialistsToRun (cycleStart runningMission) ∧
  fst (specialistStep silentEnv (fun _ _ => None) "specialist-1" (cycleStart runningMission)) =
    Halts ∧
  isSearching
    (fst (runSpecialists silentEnv (fun _ _ => None) (specialistsToRun (cycleStart runningMission))
            (cycleStart runningMission))) = false.
Proof.
  assert (Hin : "specialist-1" ∈ specialistsToRun (cycleStart runningMission)).
  { apply (bool_decide_unpack _). vm_compute. exact I. }
  assert (Hh : fst (specialistStep silentEnv (fun _ _ => None) "specialist-1"
                      (cycleStart runningMission)) = Halts) by (vm_compute; reflexivity).
  split; [reflexivity|]. split; [exact Hin|]. split; [exact Hh|].
  exact (proj1 (proj2 (proj1 failing_specialist_halts_the_cycle silentEnv (fun _ _ => None)
                         runningMission "specialist-1" eq_refl Hin Hh))).
Defined.

(** X25.  The outcome of the specialists' phase does not depend on the order
    in which the specialists complete.  For a list of agents without
    repeats, running the steps in any other order leaves the same mission,
    and gives the same outputs in that other order: the steps all read the
    mission as it is when the phase starts, each writes its own notebook
    only, and stopping the search twice is stopping it once. *)
Theorem specialists_order_is_immaterial env specialist l1 l2 m :
  l1 ≡ₚ l2 → NoDup l1 →
  fst (runSpecialists env specialist l1 m) = fst (runSpecialists env specialist l2 m) ∧
  snd (runSpecialists env specialist l1 m) ≡ₚ snd (runSpecialists env specialist l2 m) ∧
  map fst (snd (runSpecialists env specialist l2 m)) = l2.
Proof.
  intros Hperm Hnd. rewrite !runSpecialists_spec. cbn [fst snd].
  split; [by apply applyEffects_perm|]. split; [by rewrite Hperm|].
  rewrite map_map. cbn. apply map_id.
Qed.

Lemma specialists_order_witness :
  ["specialist-1"; "specialist-2"] ≡ₚ ["specialist-2"; "specialist-1"] ∧
  NoDup ["specialist-1"; "specialist-2"] ∧
  fst (runSpecialists silentEnv (fun _ _ => None) ["specialist-1"; "specialist-2"]
         runningMission) =
  fst (runSpecialists silentEnv (fun _ _ => None) ["specialist-2"; "specialist-1"]
         runningMission).
Proof.
  assert (Hp : ["specialist-1"; "specialist-2"] ≡ₚ ["specialist-2"; "specialist-1"])
    by apply perm_swap.
  assert (Hnd : NoDup ["specialist-1"; "specialist-2"]).
  { apply (bool_decide_unpack _). vm_compute. exact I. }
  split; [exact Hp|]. split; [exact Hnd|].
  exact (proj1 (specialists_order_is_immaterial silentEnv (fun _ _ => None) _ _
                  runningMission Hp Hnd)).
Defined.

(** *** The interval handle *)

Lemma runArchitectStep_flags fuel envs architect specialistOutputs m m1 :
  runArchitectStep fuel envs architect specialistOutputs m = Some m1 →
  (isSearching m1 = isSearching m ∧ searchIntervalId m1 = searchIntervalId m) ∨
  (isSearching m1 = false ∧ searchIntervalId m1 = None).
Proof.
  unfold runArchitectStep. intros Hrun.
  destruct (isSearching m) eqn:Hs; cbn [negb] in Hrun.
  2:{ injection Hrun as <-. left. by rewrite Hs. }
  assert (Hfatal : ∀ msg mx, Some (fatalSynthesisError msg mx) = Some m1 →
            (isSearching m1 = true ∧ searchIntervalId m1 = searchIntervalId m) ∨
            (isSearching m1 = false ∧ searchIntervalId m1 = None)).
  { intros msg mx [= <-]. by right. }
  destruct (chaosIntervention m) as [chaos m0] eqn:Hchaos.
  assert (H0 : isSearching m0 = true ∧ searchIntervalId m0 = searchIntervalId m).
  { unfold chaosIntervention in Hchaos. destruct (chaosActive m); injection Hchaos as _ <-;
      autorewrite with mission; done. }
  destruct (architect _) as [result|]; [|by eapply Hfatal].
  pose proof (schedulerState_toolLoop fuel envs architect 0
    [{| role := "user"; parts := [PromptPart (architectPrompt chaos specialistOutputs m0)] |}]
    result m0) as Hloop.
  destruct (toolLoop fuel envs architect 0 _ result m0) as [mx [conv round [text|]|msg|]];
    cbn [fst] in Hloop; unfold schedulerState in Hloop; try discriminate Hrun;
    try (by eapply Hfatal).
  destruct (parseFinal (envs round) text) as [parsedResponse|]; [|by eapply Hfatal].
  injection Hrun as <-. unfold concludeArchitectStep.
  destruct (isTerminal (summaryOf parsedResponse)); [by right|].
  pose proof (schedulerState_parseAndApply (envs round) parsedResponse
                (addLogEntry "synthesizer" (summaryOf parsedResponse) mx)) as H.
  rewrite schedulerState_addLogEntry in H.
  destruct (parseAndApplyArchitectResponse (envs round) parsedResponse _) as [m2 [[]|msg]];
    cbn [fst] in H; unfold schedulerState in H; [|by right].
  left. destruct H0 as [H1 H2]. simplify_eq. split; congruence.
Qed.

Lemma runSearchCycle_cycleCounter env specialist fuel envs architect m m' :
  runSearchCycle env specialist fuel envs architect m = Some m' →
  isSearching m = true → cycleCounter m' = (cycleCounter m + 1)%Z.
Proof.
  rewrite runSearchCycle_unfold. intros Hrun Hs. rewrite Hs in Hrun. cbn [negb] in Hrun.
  cbv zeta in Hrun.
  destruct (cycle_phase env specialist m) as (Hc & _). cbv zeta in Hc.
  set (after := fst (runSpecialists env specialist _ _)) in *.
  destruct (isSearching after); cbn [negb] in Hrun; [|by injection Hrun as <-].
  destruct (runArchitectStep fuel envs architect _ after) as [m3|] eqn:Harch; [|done].
  apply runArchitectStep_store in Harch as [H3 _].
  destruct (isSearching m3); cbn [negb] in Hrun; injection Hrun as <-; [|congruence].
  unfold saveStateToDB. destruct (db m3); cbn; congruence.
Qed.

Lemma runSearchCycle_timer env specialist fuel envs architect m m' :
  runSearchCycle env specialist fuel envs architect m = Some m' →
  timerOnlyWhileSearching m → timerOnlyWhileSearching m'.
Proof.
  rewrite runSearchCycle_unfold. intros Hrun Hok.
  destruct (isSearching m) eqn:Hs; cbn [negb] in Hrun; [|by injection Hrun as <-].
  cbv zeta in Hrun.
  destruct (cycle_phase env specialist m) as (_ & _ & _ & _ & Hint). cbv zeta in Hint.
  set (after := fst (runSpecialists env specialist _ _)) in *.
  destruct (isSearching after) eqn:Hafter; cbn [negb] in Hrun.
  2:{ injection Hrun as <-. intros _. by apply Hint. }
  destruct (runArchitectStep fuel envs architect _ after) as [m3|] eqn:Harch; [|done].
  destruct (isSearching m3) eqn:H3; cbn [negb] in Hrun; injection Hrun as <-.
  - intros H. unfold saveStateToDB in H. destruct (db m3); cbn in H; congruence.
  - intros _. destruct (runArchitectStep_flags _ _ _ _ _ _ Harch) as [[? _]|[_ ?]]; [congruence|done].
Qed.

(** X26.  The interval handle is set only while the search is on.  This
    holds for the mission as loaded and after any stop, and it is kept by a
    search cycle, by the toggle button and by a reset.  The toggle does
    nothing while the button is disabled, stops a running search, and
    otherwise raises the flag, runs one cycle at once and arms the interval
    exactly when the search is still on after that cycle. *)
Theorem interval_is_set_only_while_searching :
  (∀ store, timerOnlyWhileSearching (initialMission store))
  ∧ (∀ b m, timerOnlyWhileSearching (stopSearch b m))
  ∧ (∀ env specialist fuel envs architect m m',
       runSearchCycle env specialist fuel envs architect m = Some m' →
       timerOnlyWhileSearching m → timerOnlyWhileSearching m')
  ∧ (∀ disabled intervalId env specialist fuel envs architect m m',
       toggleAutonomousSearch disabled intervalId env specialist fuel envs architect m = Some m' →
       timerOnlyWhileSearching m →
       timerOnlyWhileSearching m' ∧
       (disabled = true → m' = m) ∧
       (disabled = false → isSearching m = true → m' = stopSearch false m) ∧
       (disabled = false → isSearching m = false →
          (isSearching m' = true ↔ searchIntervalId m' = Some intervalId) ∧
          cycleCounter m' = (cycleCounter m + 1)%Z))
  ∧ (∀ b m, timerOnlyWhileSearching m → timerOnlyWhileSearching (clearAllNotebooks b m)).
Proof.
  split; [by intros store _|]. split; [by intros [] m _|].
  split; [exact runSearchCycle_timer|]. split.
  - intros disabled intervalId env specialist fuel envs architect m m' Hrun Hok.
    unfold toggleAutonomousSearch in Hrun.
    destruct disabled.
    { injection Hrun as <-. repeat split; try done. }
    destruct (isSearching m) eqn:Hs.
    { injection Hrun as <-. repeat split; try done. }
    destruct (runSearchCycle env specialist fuel envs architect (set_isSearching true m))
      as [m1|] eqn:Hcycle; [|done].
    assert (Hok1 : timerOnlyWhileSearching m1).
    { eapply runSearchCycle_timer; [exact Hcycle|]. intros H. discriminate H. }
    assert (Hc1 : cycleCounter m1 = (cycleCounter m + 1)%Z).
    { by rewrite (runSearchCycle_cycleCounter _ _ _ _ _ _ _ Hcycle eq_refl). }
    destruct (isSearching m1) eqn:H1; injection Hrun as <-.
    + split; [intros H; cbn in H; congruence|].
      split; [done|]. split; [done|]. intros _ _. split; [|exact Hc1].
      cbn. by rewrite H1.
    + split; [exact Hok1|].
      split; [done|]. split; [done|]. intros _ _. split; [|exact Hc1].
      rewrite H1, (Hok1 H1). split; intros H; discriminate H.
  - intros b m Hok.
    assert (Hsched : isSearching (clearAllNotebooks b m) = isSearching m ∧
                     searchIntervalId (clearAllNotebooks b m) = searchIntervalId m).
    { unfold clearAllNotebooks. cbv zeta. autorewrite with mission.
      cbn [isSearching searchIntervalId set_notebooks set_statusSuccess renderKnowledgeGraph
           set_knowledgeGraphMap set_agentPerformanceMetrics set_activeSpecialists
           set_activeResearchVector set_currentMissionObjective set_strategicFocusHistory
           set_stagnationCounter set_cycleCounter set_knowledgeNodeCounter
           set_vectorKnowledgeBase set_finalProofContent].
      set (m0 := if b then set_db ((fun _ => ∅) <$> db m) m else m).
      pose proof (retireEach_frame (fun id => id) (fun _ => "New mission started.")
        (filter (fun id => id ∉ seedAgents) (activeSpecialists m0)) m0) as (_ & _ & H).
      unfold retireEach in H.
      assert (H0 : isSearching m0 = isSearching m ∧ searchIntervalId m0 = searchIntervalId m)
        by (subst m0; by destruct b).
      destruct H0 as [<- <-]. split; by simplify_eq. }
    destruct Hsched as [H1 H2]. unfold timerOnlyWhileSearching. rewrite H1, H2. exact Hok.
Qed.

(** *** Numbering of the log entries, through the load and the cycle *)

Lemma rebuildKnowledgeBaseVectors_notebooks env nodes m :
  notebooks (rebuildKnowledgeBaseVectors env nodes m) = notebooks m.
Proof.
  unfold rebuildKnowledgeBaseVectors.
  change (notebooks m) with (notebooks (set_vectorKnowledgeBase [] m)).
  generalize (set_vectorKnowledgeBase [] m). induction nodes as [|node nodes IH]; [done|].
  intros m0. cbn [foldl]. rewrite IH. by destruct (getEmbedding env (kn_content node)).
Qed.

Lemma logsWf_deployLoadedAgents env l m :
  logsWf m → logsWf (foldl (fun acc id => deployLoadedAgent env id acc) m l).
Proof.
  revert m. induction l as [|id l IH]; [done|]. intros m Hwf. cbn [foldl]. apply IH.
  unfold deployLoadedAgent. destruct (notebooks m !! id); [done|].
  by apply logsWf_deployNewAgent.
Qed.

Lemma logsWf_loaded env missionState m : logsWf m → logsWf (loaded env missionState m).
Proof.
  intros Hwf. unfold loaded.
  eapply logsWf_notebooks; [apply rebuildKnowledgeBaseVectors_notebooks|].
  eapply logsWf_notebooks; [reflexivity|].
  set (m4 := deployLoadedAgents env _).
  assert (H4 : logsWf m4).
  { subst m4. unfold deployLoadedAgents. apply logsWf_deployLoadedAgents.
    eapply logsWf_notebooks; [reflexivity|].
    rewrite retireDynamicAgents_retireEach. apply logsWf_retireEach.
    by apply logsWf_stopSearch. }
  destruct (restoreAllLogs_spec (ms_notebookLogs missionState) m4) as [Hk _].
  cbv zeta in Hk. intros k nb. change (notebooks (renderKnowledgeGraph ?x)) with (notebooks x).
  rewrite Hk. destruct (ms_notebookLogs missionState !! k) as [savedLogs|]; [|apply H4].
  destruct (notebooks m4 !! k); [|done]. intros [= <-]. apply relogged_wf.
Qed.

Lemma logsWf_loadStateFromDB env m : logsWf m → logsWf (fst (loadStateFromDB env m)).
Proof.
  intros Hwf. unfold loadStateFromDB. destruct (db m) as [store|]; [|done].
  destruct (store !! DB_KEY); [|done]. by apply logsWf_loaded.
Qed.

Lemma logsWf_applyEffect id effect m : logsWf m → logsWf (applyEffect id effect m).
Proof.
  intros Hwf. destruct effect; cbn [applyEffect]; [done|by apply logsWf_addLogEntry|].
  by apply logsWf_stopSearch.
Qed.

Lemma logsWf_applyEffects (effectOf : string → SpecialistEffect) l m :
  logsWf m → logsWf (foldl (fun acc id => applyEffect id (effectOf id) acc) m l).
Proof.
  revert m. induction l as [|id l IH]; [done|].
  intros m Hwf. cbn [foldl]. by apply IH, logsWf_applyEffect.
Qed.

Lemma logsWf_runSearchCycle env specialist fuel envs architect m m' :
  runSearchCycle env specialist fuel envs architect m = Some m' → logsWf m → logsWf m'.
Proof.
  rewrite runSearchCycle_unfold. intros Hrun Hwf.
  destruct (isSearching m); cbn [negb] in Hrun; [|by injection Hrun as <-].
  cbv zeta in Hrun.
  set (after := fst (runSpecialists env specialist _ _)) in *.
  assert (Hafter : logsWf after).
  { subst after. rewrite runSpecialists_spec. cbn [fst].
    assert (Hstart : logsWf (cycleStart m)).
    { unfold cycleStart. apply logsWf_checkAgentLifecycles.
      eapply logsWf_notebooks; [|exact Hwf]. reflexivity. }
    by apply (logsWf_applyEffects
                (fun id => fst (specialistStep env specialist id (cycleStart m)))). }
  destruct (isSearching after); cbn [negb] in Hrun; [|by injection Hrun as <-].
  destruct (runArchitectStep fuel envs architect _ after) as [m3|] eqn:Harch; [|done].
  apply logsWf_runArchitectStep in Harch; [|done].
  destruct (isSearching m3); cbn [negb] in Hrun; injection Hrun as <-; [|done].
  eapply logsWf_notebooks; [|exact Harch]. unfold saveStateToDB. by destruct (db m3).
Qed.

(** X15.  Log entries are numbered without gaps or repeats.  In the mission
    as started, and from then on after every operation of the engine (a log
    entry, a deployment, a retirement, the lifecycle check, any tool call,
    the whole architect step, a whole search cycle, the load of a saved
    mission, a reset), the entries of every notebook carry the ids
    [<notebook>-log-0], [<notebook>-log-1], ... in the order they were
    written and the notebook's counter is their number; so no two entries
    of a notebook share an id. *)
Theorem log_entries_are_numbered :
  (∀ store, logsWf (initialMission store))
  ∧ (∀ b m, logsWf (clearAllNotebooks b m))
  ∧ (∀ m, logsWf m →
       (∀ notebookId markdown, logsWf (addLogEntry notebookId markdown m)) ∧
       (∀ env id missionPrompt tools lifespan isFromLoad,
          logsWf (deployNewAgent env id missionPrompt tools lifespan isFromLoad m)) ∧
       (∀ id reason, logsWf (retireAgent id reason m)) ∧
       logsWf (checkAgentLifecycles m) ∧
       (∀ env call, logsWf (fst (toolEffect env call m))) ∧
       (∀ fuel envs architect specialistOutputs m',
          runArchitectStep fuel envs architect specialistOutputs m = Some m' → logsWf m') ∧
       (∀ env specialist fuel envs architect m',
          runSearchCycle env specialist fuel envs architect m = Some m' → logsWf m') ∧
       (∀ env, logsWf (fst (loadStateFromDB env m))))
  ∧ (∀ m id nb, logsWf m → notebooks m !! id = Some nb →
       logCounter nb = length (logs nb) ∧ NoDup (map log_id (logs nb))).
Proof.
  split; [exact logsWf_initial|]. split; [exact logsWf_clearAllNotebooks|]. split.
  - intros m Hwf.
    split; [intros; by apply logsWf_addLogEntry|].
    split; [intros; by apply logsWf_deployNewAgent|].
    split; [intros; by apply logsWf_retireAgent|].
    split; [by apply logsWf_checkAgentLifecycles|].
    split; [intros; by apply logsWf_toolEffect|].
    split; [intros fuel envs architect specialistOutputs m' Hrun;
            by eapply logsWf_runArchitectStep|].
    split; [intros env specialist fuel envs architect m' Hrun;
            by eapply logsWf_runSearchCycle|].
    intros env. by apply logsWf_loadStateFromDB.
  - intros m id nb Hwf Hnb. split; [exact (proj1 (Hwf id nb Hnb))|].
    eapply notebookWf_NoDup, Hwf, Hnb.
Qed.

Lemma log_entries_witness :
  logsWf (initialMission None) ∧
  logsWf (fst (toolEffect silentEnv (retire_agent "specialist-2" "Ineffective.")
                 (initialMission None))).
Proof.
  split; [exact (proj1 log_entries_are_numbered None)|].
  exact (proj1 (proj2 (proj2 (proj2 (proj2
    (proj1 (proj2 (proj2 log_entries_are_numbered)) (initialMission None)
       (proj1 log_entries_are_numbered None)))))) silentEnv
    (retire_agent "specialist-2" "Ineffective.")).
Defined.

(** ** The text handed to [JSON.parse] *)

Lemma append_cons c (a b : string) : String c a +:+ b = String c (a +:+ b).
Proof. reflexivity. Qed.

Lemma append_nil_l (b : string) : EmptyString +:+ b = b.
Proof. reflexivity. Qed.

Ltac app_step := repeat (rewrite append_cons in * || rewrite append_nil_l in * ).

Lemma append_assoc (a b c : string) : (a +:+ b) +:+ c = a +:+ (b +:+ c).
Proof. induction a as [|x a IH]; app_step; [done|]. by rewrite IH. Qed.

Lemma length_append (a b : string) :
  String.length (a +:+ b) = String.length a + String.length b.
Proof. induction a as [|x a IH]; app_step; cbn; [done|]. by rewrite IH. Qed.

Lemma occurs_append c a b : occurs c (a +:+ b) = occurs c a || occurs c b.
Proof. induction a as [|x a IH]; app_step; cbn; [done|]. by rewrite IH, orb_assoc. Qed.

Lemma trimStart_suffix s : ∃ ws, s = ws +:+ JS.trimStart s.
Proof.
  induction s as [|c s [ws IH]]; [by exists EmptyString|]. cbn [JS.trimStart].
  destruct (JS.is_space c); [|by exists EmptyString].
  exists (String c ws). rewrite append_cons. by rewrite <- IH.
Qed.

Lemma trimEnd_prefix s : ∃ ws, s = JS.trimEnd s +:+ ws.
Proof.
  induction s as [|c s [ws IH]]; [by exists EmptyString|]. cbn [JS.trimEnd].
  destruct (JS.trimEnd s) as [|d t] eqn:E.
  - destruct (JS.is_space c); [by exists (String c s)|].
    exists ws. by rewrite IH at 1.
  - exists ws. by rewrite IH at 1.
Qed.

Lemma trimStart_wrapped body s : wrapped body s → wrapped body (JS.trimStart s).
Proof.
  intros (pre & post & -> & Hpre & Hpost).
  induction pre as [|c pre IH].
  - rewrite append_nil_l. by exists EmptyString, post.
  - cbn [occurs] in Hpre. apply orb_false_elim in Hpre as [Hc Hpre].
    rewrite append_cons. cbn [JS.trimStart].
    destruct (JS.is_space c); [by apply IH|].
    exists (String c pre), post. cbn [occurs]. by rewrite Hc, Hpre.
Qed.

Lemma trimEnd_append a b :
  JS.trimEnd b ≠ EmptyString → JS.trimEnd (a +:+ b) = a +:+ JS.trimEnd b.
Proof.
  intros Hb. induction a as [|c a IH]; [done|]. rewrite !append_cons.
  cbn [JS.trimEnd]. rewrite IH.
  destruct (a +:+ JS.trimEnd b) eqn:E; [|done].
  destruct a; [destruct (Hb E)|by rewrite append_cons in E].
Qed.

Lemma trimEnd_wrapped body s : wrapped body s → wrapped body (JS.trimEnd s).
Proof.
  intros (pre & post & -> & Hpre & Hpost).
  destruct (trimEnd_prefix post) as [ws Hws].
  assert (Hclose : JS.trimEnd (String "}" post) = String "}" (JS.trimEnd post)).
  { cbn [JS.trimEnd]. by destruct (JS.trimEnd post). }
  exists pre, (JS.trimEnd post). split; [|split; [done|]].
  - change (String "{" (body +:+ String "}" post))
      with (String "{" body +:+ String "}" post).
    rewrite <- append_assoc, trimEnd_append by (by rewrite Hclose).
    by rewrite Hclose, append_assoc.
  - rewrite Hws, occurs_append in Hpost. by apply orb_false_elim in Hpost as [? _].
Qed.

Lemma prefix_append_inv p a c r :
  String.prefix p (a +:+ String c r) = true → occurs c p = false → ∃ a', a = p +:+ a'.
Proof.
  revert a. induction p as [|d p IH]; intros a Hp Hc; [by exists a|].
  cbn [occurs] in Hc. apply orb_false_elim in Hc as [Hd Hc].
  destruct a as [|e a]; app_step; cbn [String.prefix] in Hp.
  - destruct (ascii_dec d c) as [->|_]; [|done]. by rewrite Ascii.eqb_refl in Hd.
  - destruct (ascii_dec d e) as [->|_]; [|done].
    destruct (IH a Hp Hc) as [a' ->]. by exists a'.
Qed.

Lemma substring_all s : String.substring 0 (String.length s) s = s.
Proof. induction s as [|c s IH]; cbn; [done|]. by rewrite IH. Qed.

Lemma substring_skip p r :
  String.substring (String.length p) (String.length r) (p +:+ r) = r.
Proof. induction p as [|c p IH]; app_step; cbn; [apply substring_all|exact IH]. Qed.

Lemma substring_take a b :
  String.substring 0 (String.length a) (a +:+ b) = a.
Proof.
  induction a as [|c a IH]; app_step; cbn; [by destruct b|]. by rewrite IH.
Qed.

Lemma substring_split n s :
  n ≤ String.length s →
  String.substring 0 n s +:+ String.substring n (String.length s - n) s = s.
Proof.
  revert n. induction s as [|c s IH]; intros [|n] Hn; cbn in *; try lia; try done.
  - by rewrite substring_all.
  - by rewrite append_cons, IH by lia.
Qed.

Lemma endsWith_inv p s :
  endsWith p s = true →
  s = String.substring 0 (String.length s - String.length p) s +:+ p.
Proof.
  unfold endsWith. intros [Hlen Heq]%andb_prop.
  apply Nat.leb_le in Hlen. apply String.eqb_eq in Heq.
  rewrite <- (substring_split (String.length s - String.length p) s) at 1 by lia.
  replace (String.length s - (String.length s - String.length p)) with (String.length p) by lia.
  by rewrite Heq.
Qed.

Lemma append_split x c post a p :
  x +:+ String c post = a +:+ p → occurs c p = false →
  ∃ post', post = post' +:+ p ∧ a = x +:+ String c post'.
Proof.
  intros Heq Hc. revert a Heq. induction x as [|d x IH]; intros [|e a] Heq; app_step.
  - subst p. cbn [occurs] in Hc. by rewrite Ascii.eqb_refl in Hc.
  - injection Heq as <- ->. by exists a.
  - subst p. cbn [occurs] in Hc. rewrite occurs_append in Hc. cbn [occurs] in Hc.
    by rewrite Ascii.eqb_refl, !orb_true_r in Hc.
  - injection Heq as <- Heq. destruct (IH a Heq) as (post' & -> & ->). by exists post'.
Qed.

Lemma unfence_wrapped body s :
  wrapped body s → JS.startsWith "```json" s = true →
  wrapped body (String.substring 7 (String.length s - 7) s).
Proof.
  intros (pre & post & -> & Hpre & Hpost) Hfence.
  destruct (prefix_append_inv "```json" pre "{" _ Hfence eq_refl) as [pre' ->].
  rewrite occurs_append in Hpre. apply orb_false_elim in Hpre as [_ Hpre].
  rewrite append_assoc, length_append.
  change (String.length "```json") with 7.
  replace (7 + String.length (pre' +:+ String "{" (body +:+ String "}" post)) - 7)
    with (String.length (pre' +:+ String "{" (body +:+ String "}" post))) by lia.
  rewrite (substring_skip "```json"). by exists pre', post.
Qed.

Lemma unfence_end_wrapped body s :
  wrapped body s → endsWith "```" s = true →
  wrapped body (String.substring 0 (String.length s - 3) s).
Proof.
  intros (pre & post & Hs & Hpre & Hpost) Hfence.
  pose proof (endsWith_inv _ _ Hfence) as Hsplit.
  change (String.length "```") with 3 in Hsplit.
  set (a := String.substring 0 (String.length s - 3) s) in *. clearbody a.
  rewrite Hs in Hsplit.
  change (String "{" (body +:+ String "}" post))
    with (String "{" body +:+ String "}" post) in Hsplit.
  rewrite <- append_assoc in Hsplit.
  destruct (append_split _ _ _ _ _ Hsplit eq_refl) as (post' & -> & ->).
  rewrite occurs_append in Hpost. apply orb_false_elim in Hpost as [Hpost _].
  exists pre, post'. by rewrite append_assoc.
Qed.

Lemma index_brace pre r :
  occurs "{" pre = false → String.index 0 "{" (pre +:+ String "{" r) = Some (String.length pre).
Proof.
  induction pre as [|c pre IH]; intros Hpre; app_step.
  - cbn. by destruct r.
  - cbn [occurs] in Hpre. apply orb_false_elim in Hpre as [Hc Hpre].
    cbn [String.index String.prefix String.length].
    destruct (ascii_dec "{" c) as [<-|_]; [done|]. by rewrite IH.
Qed.

Lemma lastIndexOf_absent c s : occurs c s = false → lastIndexOf c s = None.
Proof.
  induction s as [|a s IH]; [done|]. cbn. intros [Ha Hs]%orb_false_elim.
  by rewrite IH, Ha.
Qed.

Lemma lastIndexOf_brace x post :
  occurs "}" post = false → lastIndexOf "}" (x +:+ String "}" post) = Some (String.length x).
Proof.
  intros Hpost. induction x as [|c x IH]; app_step; cbn [lastIndexOf String.length].
  - by rewrite lastIndexOf_absent.
  - by rewrite IH.
Qed.

Lemma substring_mid pre b post :
  String.substring (String.length pre) (String.length b) (pre +:+ b +:+ post) = b.
Proof.
  induction pre as [|c pre IH]; app_step; cbn [String.length String.substring];
    [apply substring_take|exact IH].
Qed.

Lemma braces_wrapped body s :
  wrapped body s →
  match String.index 0 "{" s, lastIndexOf "}" s with
  | Some firstBrace, Some lastBrace =>
      if (firstBrace <? lastBrace)%nat
      then String.substring firstBrace (lastBrace + 1 - firstBrace) s
      else s
  | _, _ => s
  end = String "{" (body +:+ "}").
Proof.
  intros (pre & post & -> & Hpre & Hpost).
  rewrite index_brace by done.
  change (String "{" (body +:+ String "}" post))
    with (String "{" body +:+ String "}" post).
  rewrite <- append_assoc, lastIndexOf_brace by done.
  rewrite length_append. cbn [String.length].
  destruct (Nat.ltb_spec (String.length pre) (String.length pre + S (String.length body)));
    [|lia].
  rewrite append_assoc.
  replace (String.length pre + S (String.length body) + 1 - String.length pre)
    with (String.length (String "{" (body +:+ "}")))
    by (cbn [String.length]; rewrite length_append; cbn [String.length]; lia).
  replace (String "{" body +:+ String "}" post)
    with (String "{" (body +:+ "}") +:+ post)
    by (by rewrite !append_cons, append_assoc).
  apply substring_mid.
Qed.

(** X27.  The architect's final answer may come wrapped.  When the text has
    a [{] with no [{] before it and, later, a [}] with no [}] after it, what
    is handed to [JSON.parse] is exactly the text from that [{] to that [}]:
    white space, a markdown fence and any other text around the braces are
    dropped, whatever the object itself contains. *)
Theorem text_around_the_json_object_is_dropped pre body post :
  occurs "{" pre = false → occurs "}" post = false →
  extractJson (pre +:+ "{" +:+ body +:+ "}" +:+ post) = "{" +:+ body +:+ "}".
Proof.
  intros Hpre Hpost. unfold extractJson.
  assert (H0 : wrapped body (JS.trim (pre +:+ "{" +:+ body +:+ "}" +:+ post))).
  { apply trimEnd_wrapped, trimStart_wrapped. by exists pre, post. }
  set (t := JS.trim _) in *. clearbody t. cbv zeta.
  apply braces_wrapped.
  destruct (JS.startsWith "```json" t) eqn:Hfence; [|done].
  pose proof (unfence_wrapped _ _ H0 Hfence) as H1.
  destruct (endsWith "```" _) eqn:Hend; [|done].
  by apply unfence_end_wrapped.
Qed.

Lemma text_around_the_json_object_witness :
  extractJson ("```json" +:+ JS.nl +:+ "{" +:+ "{}, }" +:+ "}" +:+ JS.nl +:+ "``` Done.") =
  "{{}, }}".
Proof.
  exact (text_around_the_json_object_is_dropped ("```json" +:+ JS.nl) "{}, }"
           (JS.nl +:+ "``` Done.") eq_refl eq_refl).
Defined.
